(* ===== verification/_CoqProject ===== *)
-Q . S2P
Prelude.v
GoStd.v
Errors.v
Sql.v
Monad.v
Runtime.v
Listing.v
Kernel.v
AuditDomain.v
AuditMapper.v
Identity.v
Session.v
RecoveryCode.v
App.v
Role.v
ServiceAccount.v
Access.v
World.v
IdentityRepo.v
SessionRepo.v
RecoveryCodeRepo.v
AppRepo.v
RoleRepo.v
ServiceAccountRepo.v
AccessRepo.v
AuditRepo.v
IdentityService.v
AppService.v
RoleService.v
ServiceAccountService.v
Permission.v
AccessService.v
AuthBase.v
AuthLogin.v
AuthRefresh.v
AuthPassword.v
AuthSessions.v
AuthServiceAccount.v
AuditService.v
WorldFacts.v
Rpc.v
Outcome.v
Scenario.v
Purge.v
Seed.v
Change.v
SessionSafety.v
CodeSafety.v
AuditSafety.v
AccessFacts.v
LoginFacts.v
PasswordFacts.v
CodeFacts.v
RefreshFacts.v
ListingFacts.v
SessionListing.v
LifecycleFacts.v
GrpcBase.v
Interceptor.v
IdentityGrpc.v
AppGrpc.v
RoleGrpc.v
ServiceAccountGrpc.v
AccessGrpc.v
AuthGrpc.v
AuditGrpc.v
GrpcFacts.v
RateLimit.v
Server.v
RateService.v
InterceptorFacts.v
ServerFacts.v
ServerSafety.v
Config.v
Http.v
Process.v
Boot.v
Middleware.v
OwnAccount.v
Migrate.v
