(* ===== verification/Prelude.v ===== *)
(** * SSO service: verification library

    A model of the single-sign-on service of this repository (Go, MariaDB,
    gRPC) and the theorems that make it correct. This file is the root: it
    documents the whole library, then holds the prelude (tactics, hint
    databases, generic lemmas on strings, lists and options).

    ** The program and its model

    A request enters the gRPC server that internal/bootstrap assembles, passes
    the interceptors (authentication, rate limit, validation), is decoded by
    the handler of its bounded context, served by a use-case of that context's
    service package, which reads and writes tables through a repository, and
    is answered with a message or a status. Each layer has its files here; a
    definition keeps the name of the Go function it translates.

    - Machine. Errors: Go error chains, every sentinel, errors.Is. Sql: what
      the SQL statements do to tables as lists of rows, affected rows and
      unique keys included. Monad: state and error, [wp], [keeps]. Runtime:
      the third-party code as the class [Runtime] with its laws
      [RuntimeLaws], and a concrete instance for the witnesses. World: the
      database, the clock, the draws of randomness, a schedule of failures and
      a schedule of interference by concurrent requests; statements and
      transactions over them. Listing: keyset pagination. GoStd: functions of
      Go's strings and net packages.
    - Shared code. Kernel: internal/kernel (etags, actor, cursors, dbutil,
      page sizes) and modules/audit/auditx.
    - Aggregates (modules/*/internal/domain and the mariadb mappers):
      AuditDomain, AuditMapper, Identity, Session, RecoveryCode, App, Role,
      ServiceAccount, Access.
    - Repositories (modules/*/internal/mariadb with the queries sqlc has
      generated in dbgen, [Queries_*]): IdentityRepo, SessionRepo, RecoveryCodeRepo, AppRepo,
      RoleRepo, ServiceAccountRepo, AccessRepo, AuditRepo.
    - Use-cases (modules/*/internal/service): IdentityService, AppService,
      RoleService, ServiceAccountService, Permission and AccessService;
      AuthBase, AuthLogin, AuthRefresh, AuthPassword, AuthSessions and
      AuthServiceAccount; AuditService.
    - Adapters (modules/*/internal/grpc): GrpcBase (platform/grpc/errors),
      IdentityGrpc, AppGrpc, RoleGrpc, ServiceAccountGrpc, AccessGrpc,
      AuthGrpc, AuditGrpc. Interceptor: platform/grpc/auth. RateLimit:
      platform/ratelimit. Server: the chain of interceptors
      (platform/grpc/server) and the wiring of bootstrap.go.
    - Around the server. Config: platform/config. Http: platform/httpserver.
      Middleware: request ids, logging and panic recovery around both servers.
      Boot: platform/logger, platform/mariadb, the key files and the
      constructors up to bootstrap's New. Process: the goroutines of App.Run
      and App.Stop, the servers they stop, and the select of cmd/sso.
      Migrate: cmd/migrate. Purge: cmd/audit-purge. Seed: cmd/seed.

    The state of the service is its database ([World.DB], a record of tables);
    the limiter adds its buckets ([Server.ServerState]). A Go function that
    returns [(A, error)] and touches the outside is a computation [M World A];
    an error does not undo the effects before it. A call that can fail for a
    reason outside the code consumes an entry of the schedule of failures,
    and may fail before or after taking effect; between two statements the
    schedule of interference changes the database. A theorem that quantifies
    over both schedules speaks of every failure and every interleaving at the
    granularity of statements, or of transactions where the code opens one.
    [calm] worlds have neither. Starting and stopping the process are outside
    of it: Boot has what the process holds ([Boot.Held]), Process a step
    relation on the program counters and channels of its goroutines
    ([Process.App]).

    ** The theorems

    - Histories. Change states the abstract transitions of the database and
      proves that every request refines them ([AuditSafety.run_refines]), and
      so do cmd/seed and cmd/audit-purge when operators run them beside the
      server; it carries invariants along any sequence of these. From it:
      revoked sessions stay unusable, hard caps hold (SessionSafety), recovery
      codes are used once (CodeSafety), the audit log is append-only but for
      purges and the unique keys hold (AuditSafety). In a calm world every
      request on record that succeeds leaves one event that says who did what
      to whom ([AuditSafety.success_is_recorded]).
    - The server. ServerFacts shows that a request through the whole chain
      does to the database what one use-case does, or nothing, so the
      invariants hold of the assembled server. ServerSafety: signing out is
      final for every RPC, and refused sign-ins look the same to a client.
      OwnAccount: the RPCs on one's own account touch nobody else's rows,
      through the whole chain. InterceptorFacts: authentication fails closed,
      and ValidateToken tells other services the same. RateService: in any
      window the limiter lets through at most the burst plus the refill,
      whatever is evicted, hence a bound on sign-in attempts. GrpcFacts: the
      error tables.
    - Use-cases. What a success went through and what it leaves behind, under
      any schedules: LoginFacts, RefreshFacts, PasswordFacts, CodeFacts,
      AccessFacts (permissions included), LifecycleFacts; and what each
      refusal of a sign-in answers.
    - Listings. ListingFacts and SessionListing: following the cursors shows
      every matching row once, in order; the one listing that does not.
      Over tables that change between the calls (users, applications, service
      accounts, the audit log) no row is shown twice, and none is missed that
      stays and keeps its place in the order.
    - Data. Kernel and AuditSafety: round trips of cursors, etags and rows.
    - Operations. Config: what a loaded configuration guarantees. Http: the
      CORS policy and the access log. Purge: the command, flags included,
      deletes what is older than its cutoff and nothing else, and ends. Seed: seeding is idempotent. Migrate: the commands go the way
      they are told. Boot: the process comes up exactly when its surroundings
      let it, and what it holds then or gives back. Process: a shutdown keeps
      its order in every interleaving and completes in a bounded number of
      steps. Middleware: every RPC is answered and leaves one true record, and
      an HTTP request and the RPC it becomes carry the same request id.

    Outcome takes successful computations apart, WorldFacts lifts invariants
    over the primitive effects, Rpc lists the requests, Scenario is the small
    concrete server at which witnesses evaluate.

    ** Parameters and their laws

    Code outside of the repository is an argument: [Runtime] (UUIDs, bcrypt,
    SHA-256, the JWT library, randomness, collation, LIKE, JSON of string
    maps), [Grpc] (attaching details to a status, protobuf timestamps), [RateLib] with
    [RateLaws] (golang.org/x/time/rate), [JsonCodec] (page tokens),
    protovalidate (the argument of [Server.chain]), reading the environment
    and files (Config, Seed, Boot), parsing of RFC 3339 instants (Purge), the
    REST gateway (Http), [ErrGroup] (golang.org/x/sync/errgroup, Process),
    [Platform] (files, PEM and x509, the SQL driver, TLS and gRPC clients,
    Boot), [MigrateLib] with [MigrateLaws] (golang-migrate, Migrate). What the
    two servers and the pool promise of their blocking calls is
    [Process.obliged]. The laws state what those libraries document; each class
    has a concrete instance.

    ** Integers, bounds and fuel

    Instants and durations are nanoseconds in [Z]; they are kept in range by
    the callers, and where they are not (the retention of the purge) the
    64-bit wrap-around is written out. Enumerations of the wire are 32-bit,
    those of the domain bytes, with the conversion written out. Loops over
    data are structural. Fuel is used where the length of a loop is not that
    of its data: printing a number and trimming a text, which get as much as
    they have digits or bytes; the generator of recovery codes, which ends
    once its source has produced ten distinct codes
    ([CodeFacts.generate_loop_complete]); the purge, for which one more round
    than full batches is enough ([Purge.purging]); clients that follow
    cursors, for which as many rounds as rows are enough.

    ** Not modelled

    Health and reflection services, the handlers of slog, the limits of the
    sql.DB pool, durations and build information in log records: they keep no
    state the service depends on. grpc-gateway, net/http, the flag package and
    the gRPC runtime are third-party code or the standard library's: the
    commands start from their parsed flags, the gateway from the headers its
    matcher keeps. The generated scans of rows into structs are the identity
    on the rows of the model. The progress the commands print. The registration
    of protobuf services and the types protoc generates, beyond the messages
    the handlers read and write. Isolation is that of single statements;
    deadlocks are failures of the schedule. *)
From Stdlib Require Export ZArith Lia.
From Stdlib Require Ascii.
From stdpp Require Export prelude strings.

#[global] Set Default Goal Selector "!".
#[global] Set Warnings "-clear-no-such-hyp".

(** ** Scope and hint databases *)

Declare Scope go_scope.
Delimit Scope go_scope with go.
Open Scope go_scope.

(** [sso] closes the routine goals of the library: it is extended by every
    file with the facts about its own operations. *)
Create HintDb sso.
(** [autounfold with queries]: a generated query is the statement it issues. *)
Create HintDb queries.

(** Rewriting database of the equations that the proofs apply left to right. *)
Create Rewrite HintDb sso_simpl.

(** Go's [int] and [time.Duration] / [time.Time] values are modelled by [Z];
    a [string] and a [[]byte] are both sequences of bytes, hence [string]. *)
Abbreviation bytes := string (only parsing).

(** ** Tactics *)

(** Case analysis on every [match] and every [decide] of the goal and the
    hypotheses, discarding the impossible branches. *)
Ltac split_cases :=
  repeat first
    [ progress simplify_eq/=
    | case_decide
    | case_match ].

(** Destruct the scrutinee of the outermost [match] of the goal only. *)
Ltac case_goal :=
  match goal with
  | |- context [match ?x with _ => _ end] => destruct x eqn:?
  end.

(** Splits conjunctions in the goal, solving the trivial parts. *)
Ltac split_ands := repeat match goal with |- _ ∧ _ => split end; try done.

(** ** Strings, as byte sequences *)

Fixpoint string_to_list (s : string) : list Ascii.ascii :=
  match s with
  | EmptyString => []
  | String c s' => c :: string_to_list s'
  end.

Fixpoint string_of_list (l : list Ascii.ascii) : string :=
  match l with
  | [] => EmptyString
  | c :: l' => String c (string_of_list l')
  end.

Lemma string_of_to_list (s : string) : string_of_list (string_to_list s) = s.
Proof. induction s; simpl; congruence. Qed.

Lemma string_to_of_list (l : list Ascii.ascii) : string_to_list (string_of_list l) = l.
Proof. induction l; simpl; congruence. Qed.

Lemma string_to_list_inj (s t : string) : string_to_list s = string_to_list t → s = t.
Proof. intros H. by rewrite <- (string_of_to_list s), H, string_of_to_list. Qed.

#[global] Hint Rewrite string_of_to_list string_to_of_list : sso_simpl.

(** Go's [len] on strings: the number of bytes. *)
Fixpoint len (s : string) : Z :=
  match s with
  | EmptyString => 0
  | String _ s' => 1 + len s'
  end.

Lemma len_nonneg (s : string) : (0 <= len s)%Z.
Proof. induction s; simpl; lia. Qed.

Lemma len_zero (s : string) : len s = 0%Z ↔ s = "".
Proof. split; [|by intros ->]. destruct s; [done|]. simpl. pose proof (len_nonneg s). lia. Qed.

Lemma len_list (s : string) : len s = Z.of_nat (length (string_to_list s)).
Proof. induction s; simpl; lia. Qed.

(** Byte code of a character, as Go compares them. *)
Definition byte_of (c : Ascii.ascii) : Z := Z.of_N (Ascii.N_of_ascii c).

Lemma byte_of_range (c : Ascii.ascii) : (0 <= byte_of c < 256)%Z.
Proof.
  unfold byte_of. pose proof (Ascii.N_ascii_bounded c). lia.
Qed.

(** Go's [a < b] on strings: lexicographic order of the bytes. *)
Fixpoint str_lt (a b : string) : bool :=
  match a, b with
  | _, EmptyString => false
  | EmptyString, String _ _ => true
  | String c a', String d b' =>
      if decide (byte_of c < byte_of d)%Z then true
      else if decide (byte_of c = byte_of d) then str_lt a' b' else false
  end.

Lemma byte_of_inj (c d : Ascii.ascii) : byte_of c = byte_of d → c = d.
Proof.
  unfold byte_of. intros H%N2Z.inj.
  by rewrite <- (Ascii.ascii_N_embedding c), H, Ascii.ascii_N_embedding.
Qed.

Lemma str_lt_irrefl (a : string) : str_lt a a = false.
Proof. induction a as [|c a IH]; simpl; [done|]. split_cases; [lia|done]. Qed.

Lemma str_lt_trans (a b c : string) : str_lt a b = true → str_lt b c = true → str_lt a c = true.
Proof.
  revert b c. induction a as [|x a IH]; intros [|y b] [|z c]; simpl; try done.
  repeat case_decide; try done; try lia; eauto.
Qed.

Lemma str_lt_total (a b : string) : a = b ∨ str_lt a b = true ∨ str_lt b a = true.
Proof.
  revert b. induction a as [|x a IH]; intros [|y b]; simpl; auto.
  destruct (IH b) as [->|[H|H]]; repeat case_decide; auto; try lia.
  all: try (left; f_equal; by apply byte_of_inj).
Qed.

(** [strings.IndexByte(s, c)] as an option: [None] is Go's [-1]. *)
Fixpoint index_byte (s : string) (c : Ascii.ascii) : option nat :=
  match s with
  | EmptyString => None
  | String d s' => if decide (c = d) then Some 0 else S <$> index_byte s' c
  end.

(** [s[:n]] and [s[n:]]. *)
Fixpoint take_s (n : nat) (s : string) : string :=
  match n, s with
  | S n', String c s' => String c (take_s n' s')
  | _, _ => EmptyString
  end.

Fixpoint drop_s (n : nat) (s : string) : string :=
  match n, s with
  | S n', String _ s' => drop_s n' s'
  | O, _ => s
  | _, EmptyString => EmptyString
  end.

Lemma take_drop_s (n : nat) (s : string) : take_s n s +:+ drop_s n s = s.
Proof. revert s. induction n; intros [|c s]; simpl; [done..|]. by rewrite <- (IHn s) at 3. Qed.

Lemma len_app (a b : string) : len (a +:+ b) = (len a + len b)%Z.
Proof. induction a; [done|]. change (String a a0 +:+ b) with (String a (a0 +:+ b)). simpl. lia. Qed.

Lemma len_take_s (n : nat) (s : string) : (len (take_s n s) <= Z.of_nat n)%Z.
Proof. revert s. induction n; intros [|c s]; simpl; try lia. specialize (IHn s). lia. Qed.
