(* ===== verification/GoStd.v ===== *)
(** * GoStd: the functions of Go's standard library that the transport and
    configuration code calls: strings.TrimSpace, HasPrefix and Join,
    net.SplitHostPort and JoinHostPort. Strings are UTF-8 byte sequences. *)
From stdpp Require Import list.
From S2P Require Import Prelude.
Local Open Scope Z_scope.

Definition chr (n : Z) : Ascii.ascii := Ascii.ascii_of_N (Z.to_N n).

(** ** strings.TrimSpace *)

(** The encodings of the code points unicode.IsSpace accepts. *)
Definition space_codes : list (list Z) := [
  [9]; [10]; [11]; [12]; [13]; [32];                       (* \t \n \v \f \r and the blank *)
  [194; 133]; [194; 160];                                  (* U+0085, U+00A0 *)
  [225; 154; 128];                                         (* U+1680 *)
  [226; 128; 128]; [226; 128; 129]; [226; 128; 130]; [226; 128; 131]; [226; 128; 132];
  [226; 128; 133]; [226; 128; 134]; [226; 128; 135]; [226; 128; 136]; [226; 128; 137];
  [226; 128; 138];                                         (* U+2000 .. U+200A *)
  [226; 128; 168]; [226; 128; 169]; [226; 128; 175];       (* U+2028, U+2029, U+202F *)
  [226; 129; 159]; [227; 128; 128]].                       (* U+205F, U+3000 *)
Definition spaces : list (list Ascii.ascii) := (λ l : list Z, chr <$> l) <$> space_codes.

Fixpoint strip_prefix (p l : list Ascii.ascii) : option (list Ascii.ascii) :=
  match p, l with
  | [], _ => Some l
  | c :: p', d :: l' => if decide (c = d) then strip_prefix p' l' else None
  | _, [] => None
  end.

Fixpoint strip_any (ps : list (list Ascii.ascii)) (l : list Ascii.ascii) : option (list Ascii.ascii) :=
  match ps with
  | [] => None
  | p :: ps' => match strip_prefix p l with Some l' => Some l' | None => strip_any ps' l end
  end.

(** A blank is at least one byte: [fuel] is the number of bytes. *)
Fixpoint trim_left (fuel : nat) (ps : list (list Ascii.ascii)) (l : list Ascii.ascii) : list Ascii.ascii :=
  match fuel with
  | O => l
  | S fuel' => match strip_any ps l with Some l' => trim_left fuel' ps l' | None => l end
  end.

(** An encoding ends where it ends: trimming on the right strips the reversed
    encodings off the reversed string. *)
Definition TrimSpace (s : string) : string :=
  let l := string_to_list s in
  let l := trim_left (length l) spaces l in
  string_of_list (reverse (trim_left (length l) ((λ p : list Ascii.ascii, reverse p) <$> spaces) (reverse l))).

Definition HasPrefix (s p : string) : bool := bool_decide (take_s (String.length p) s = p).

(** strings.Join. *)
Fixpoint Join (l : list string) (sep : string) : string :=
  match l with
  | [] => ""
  | [s] => s
  | s :: l' => s +:+ sep +:+ Join l' sep
  end.

(** ** net.SplitHostPort and net.JoinHostPort *)

Definition colon : Ascii.ascii := chr 58.
Definition lbracket : Ascii.ascii := chr 91.
Definition rbracket : Ascii.ascii := chr 93.

(** [strings.LastIndexByte]. *)
Fixpoint last_index_byte (s : string) (c : Ascii.ascii) : option nat :=
  match s with
  | EmptyString => None
  | String d s' =>
      match last_index_byte s' c with
      | Some i => Some (S i)
      | None => if decide (c = d) then Some O else None
      end
  end.

Definition contains_byte (s : string) (c : Ascii.ascii) : bool :=
  bool_decide (index_byte s c ≠ None).

(** [None] stands for the error the callers only test. *)
Definition SplitHostPort (hostport : string) : option (string * string) :=
  match last_index_byte hostport colon with
  | None => None                                                    (* missing port *)
  | Some i =>
      let port := drop_s (S i) hostport in
      if bool_decide (take_s 1 hostport = "[") then
        match index_byte hostport rbracket with
        | None => None                                              (* missing ']' *)
        | Some e =>
            if decide (S e = i) then
              if contains_byte (drop_s 1 hostport) lbracket || contains_byte (drop_s (S e) hostport) rbracket
              then None
              else Some (take_s (e - 1) (drop_s 1 hostport), port)
            else None                                               (* missing port, too many colons *)
        end
      else
        let host := take_s i hostport in
        if contains_byte host colon then None                       (* too many colons *)
        else if contains_byte hostport lbracket || contains_byte hostport rbracket then None
        else Some (host, port)
  end.

Definition JoinHostPort (host port : string) : string :=
  if contains_byte host colon then "[" +:+ host +:+ "]:" +:+ port else host +:+ ":" +:+ port.

(** ** strconv.FormatInt(n, 10), strconv.Itoa *)

(** The digits of [n], most significant first; an int64 has at most 19. *)
Fixpoint digits (fuel : nat) (n : Z) (acc : string) : string :=
  match fuel with
  | O => acc
  | S fuel' =>
      let acc := String (chr (48 + n mod 10)) acc in
      if decide (n < 10) then acc else digits fuel' (n / 10) acc
  end.
Definition FormatInt (n : Z) : string := if decide (n < 0) then "-" +:+ digits 19 (- n) "" else digits 19 n "".

Example format_neg : FormatInt (-1205) = "-1205".
Proof. reflexivity. Qed.
Example trim_tab : TrimSpace (String (chr 9) "  ab " +:+ string_of_list [chr 226; chr 128; chr 168]) = "ab".
Proof. reflexivity. Qed.
Example split_v6 : SplitHostPort "[::1]:80" = Some ("::1", "80").
Proof. reflexivity. Qed.
Example split_v4 : SplitHostPort "10.0.0.1:5" = Some ("10.0.0.1", "5").
Proof. reflexivity. Qed.
Example split_bad : SplitHostPort "::1:80" = None.
Proof. reflexivity. Qed.
