(* ===== verification/Errors.v ===== *)
(** * Errors: the sentinel errors of every bounded context and Go error chains.

    Go errors are compared by identity ([errors.Is] walks the [%w] chain), so
    the sentinels of all the packages live in one type. [validation.Error] is
    kernel/validation/error.go; a MySQL driver error carries its number, as
    [dbutil.IsDuplicateEntry] inspects it. *)
From S2P Require Import Prelude.

(** ** Sentinels: one constructor per [errors.New] variable *)

Inductive sentinel :=
  (* modules/identity/internal/domain/errors.go *)
  | identity_ErrUserNotFound | identity_ErrUserAlreadyExists | identity_ErrEtagMismatch
  | identity_ErrUserDeleted | identity_ErrUserNotDeleted | identity_ErrInvalidPasswordHash
  (* modules/session/internal/domain/errors.go *)
  | session_ErrSessionNotFound | session_ErrSessionRevoked | session_ErrSessionExpired
  | session_ErrSessionNotOwned | session_ErrRefreshTokenReused
  (* modules/recoverycode/internal/domain/errors.go *)
  | recoverycode_ErrBatchNotFound | recoverycode_ErrRecoveryCodeInvalid
  (* modules/app/internal/domain/errors.go *)
  | app_ErrAppNotFound | app_ErrAppAlreadyExists | app_ErrEtagMismatch
  | app_ErrAppDisabled | app_ErrAppInMaintenance
  (* modules/role/internal/domain/errors.go *)
  | role_ErrRoleNotFound | role_ErrRoleAlreadyExists | role_ErrEtagMismatch
  | role_ErrRoleDisabled | role_ErrRoleNotInApp | role_ErrRoleHasAssignments
  (* modules/serviceaccount/internal/domain/errors.go *)
  | sa_ErrServiceAccountNotFound | sa_ErrServiceAccountAlreadyExists
  | sa_ErrServiceAccountDisabled | sa_ErrServiceAccountInvalidCredentials | sa_ErrEtagMismatch
  (* modules/access/internal/domain/errors.go *)
  | access_ErrAssignmentNotFound | access_ErrUserNotFound | access_ErrRoleNotFound
  | access_ErrAppNotFound | access_ErrRoleDisabled | access_ErrRoleNotInApp
  | access_ErrUserNotEligible
  (* modules/auth/internal/service/errors.go *)
  | auth_ErrInvalidCredentials | auth_ErrUserBlocked | auth_ErrUserDeleted
  | auth_ErrInvalidToken | auth_ErrRefreshTokenReused | auth_ErrPasswordMismatch
  (* modules/audit/internal/{domain,service}/errors.go *)
  | audit_ErrAuditNotFound | audit_ErrPermissionDenied
  (* kernel/actor/actor.go *)
  | actor_ErrNoActor.

#[export] Instance sentinel_eq_dec : EqDecision sentinel.
Proof. solve_decision. Defined.

(** ** Error values *)

Inductive error :=
  | ESentinel (s : sentinel)
  | EValidation (field reason : string)   (* *validation.Error *)
  | EMySQL (number : Z)                   (* *mysql.MySQLError *)
  | ENoRows                               (* sql.ErrNoRows *)
  | EMsg (msg : string)                   (* errors.New / fmt.Errorf without %w *)
  | EWrap (msg : string) (e : error).     (* fmt.Errorf("msg: %w", e) *)

#[export] Instance error_eq_dec : EqDecision error.
Proof. solve_decision. Defined.

(** [errors.Is(e, s)] for a sentinel [s]. *)
Fixpoint errors_is (e : error) (s : sentinel) : bool :=
  match e with
  | ESentinel s' => bool_decide (s' = s)
  | EWrap _ e' => errors_is e' s
  | _ => false
  end.

(** [errors.Is(e, sql.ErrNoRows)]. *)
Fixpoint errors_is_no_rows (e : error) : bool :=
  match e with
  | ENoRows => true
  | EWrap _ e' => errors_is_no_rows e'
  | _ => false
  end.

(** [var verr *validation.Error; errors.As(e, &verr)]. *)
Fixpoint errors_as_validation (e : error) : option (string * string) :=
  match e with
  | EValidation f r => Some (f, r)
  | EWrap _ e' => errors_as_validation e'
  | _ => None
  end.

(** [var me *mysql.MySQLError; errors.As(e, &me)], yielding [me.Number]. *)
Fixpoint errors_as_mysql (e : error) : option Z :=
  match e with
  | EMySQL n => Some n
  | EWrap _ e' => errors_as_mysql e'
  | _ => None
  end.

(** The rendering of validation.Error (its [Error] method). *)
Definition validation_Error_string (field reason : string) : string :=
  if decide (field = "") then "validation failed: " +:+ reason
  else field +:+ ": " +:+ reason.

(** ** Results: Go's [(A, error)] pairs *)

Inductive res (A : Type) :=
  | Ok (a : A)
  | Err (e : error).
Arguments Ok {A} a.
Arguments Err {A} e.

#[export] Instance res_eq_dec {A} `{EqDecision A} : EqDecision (res A).
Proof. solve_decision. Defined.

(** [if err != nil { return err }] on pure code. *)
Definition rbind {A B} (r : res A) (k : A → res B) : res B :=
  match r with Ok a => k a | Err e => Err e end.

Notation "x <-? r ;; k" := (rbind r (λ x, k))
  (at level 100, r at next level, right associativity) : go_scope.

Definition is_ok {A} (r : res A) : bool := match r with Ok _ => true | Err _ => false end.

(** A recognised sentinel is never mistaken for another one. *)
Lemma errors_is_unique (e : error) (s t : sentinel) :
  errors_is e s = true → errors_is e t = true → s = t.
Proof.
  induction e; simpl; try done.
  rewrite !bool_decide_eq_true. congruence.
Qed.

Lemma errors_is_wrap (m : string) (e : error) (s : sentinel) :
  errors_is (EWrap m e) s = errors_is e s.
Proof. done. Qed.

Lemma errors_is_self (s : sentinel) : errors_is (ESentinel s) s = true.
Proof. simpl. by rewrite bool_decide_eq_true. Qed.

(** A chain never holds both a sentinel and a validation error. *)
Lemma validation_not_sentinel (e : error) (s : sentinel) p :
  errors_as_validation e = Some p → errors_is e s = false.
Proof. induction e; simpl; naive_solver. Qed.

#[global] Hint Rewrite errors_is_wrap errors_is_self : sso_simpl.
