(* ===== verification/Sql.v ===== *)
(** * Sql: in-memory meaning of the SQL statements of the repositories.

    A table is the list of its rows. A statement's WHERE clause is a boolean
    predicate and its SET clause a function on rows. [affected] is the driver's
    RowsAffected: MariaDB counts the rows an UPDATE {e changed}, unless the
    connection asks for the rows it {e matched} (clientFoundRows). Unique keys
    are a boolean clash relation between two rows. *)
From S2P Require Import Prelude.

Section Table.
Context {R : Type} `{EqDecision R}.
Implicit Types (p : R → bool) (f : R → R) (t : list R) (r : R).

(** SELECT ... WHERE p  and its one-row form. *)
Definition sel p t : list R := List.filter p t.
Definition sel_one p t : option R := List.find p t.

(** SELECT COUNT( * ) ... WHERE p. *)
Definition count p t : Z := Z.of_nat (length (sel p t)).

(** UPDATE ... SET f WHERE p. *)
Definition upd p f t : list R := map (λ r, if p r then f r else r) t.

(** DELETE ... WHERE p. *)
Definition del p t : list R := List.filter (λ r, negb (p r)) t.

Definition matched p t : Z := count p t.
Definition changed p f t : Z := count (λ r, p r && bool_decide (f r ≠ r)) t.

(** RowsAffected of an UPDATE; [found] is the driver's clientFoundRows. *)
Definition affected (found : bool) p f t : Z :=
  if found then matched p t else changed p f t.

(** ORDER BY: insertion sort under [before], a stable sort. *)
Fixpoint order_insert (before : R → R → bool) (r : R) (t : list R) : list R :=
  match t with
  | [] => [r]
  | r' :: t' => if before r' r then r' :: order_insert before r t' else r :: t
  end.
Definition order_by (before : R → R → bool) (t : list R) : list R :=
  foldr (order_insert before) [] t.

(** ** Unique keys *)

Section Unique.
Context (clash : R → R → bool).

Fixpoint uniq (t : list R) : bool :=
  match t with
  | [] => true
  | r :: t' => forallb (λ r', negb (clash r r')) t' && uniq t'
  end.

(** INSERT; [None] is error 1062 (duplicate entry). *)
Definition ins r t : option (list R) :=
  if existsb (clash r) t then None else Some (t ++ [r]).

(** UPDATE on a table with unique keys; [None] is error 1062. *)
Definition upd_uniq p f t : option (list R) :=
  if uniq (upd p f t) then Some (upd p f t) else None.

End Unique.

(** ** Facts shared by the repositories *)

Lemma sel_one_Some p t r : sel_one p t = Some r → r ∈ t ∧ p r = true.
Proof. intros [Hin Hp]%List.find_some. split; [by apply list_elem_of_In|done]. Qed.

Lemma sel_one_None p t : sel_one p t = None ↔ ∀ r, r ∈ t → p r = false.
Proof.
  split.
  - intros H r Hr. eapply List.find_none; [done|]. by apply list_elem_of_In.
  - intros H. destruct (sel_one p t) as [r|] eqn:E; [|done].
    apply sel_one_Some in E as [Hin Hp]. specialize (H r Hin). congruence.
Qed.

Lemma elem_of_sel p t r : r ∈ sel p t ↔ r ∈ t ∧ p r = true.
Proof. unfold sel. by rewrite !list_elem_of_In, List.filter_In. Qed.

Lemma elem_of_del p t r : r ∈ del p t ↔ r ∈ t ∧ p r = false.
Proof. unfold del. rewrite !list_elem_of_In, List.filter_In, negb_true_iff. done. Qed.

Lemma elem_of_upd p f t r' : r' ∈ upd p f t ↔ ∃ r, r ∈ t ∧ r' = if p r then f r else r.
Proof.
  unfold upd. rewrite list_elem_of_In, in_map_iff. split.
  - intros (r & <- & Hr). exists r. split; [by apply list_elem_of_In|done].
  - intros (r & Hr & ->). exists r. split; [done|by apply list_elem_of_In].
Qed.

Lemma elem_of_ins clash r t t' r' :
  ins clash r t = Some t' → r' ∈ t' ↔ r' ∈ t ∨ r' = r.
Proof. unfold ins. case_match; [done|]. intros [= <-]. rewrite elem_of_app. set_solver. Qed.

Lemma count_nonneg p t : (0 <= count p t)%Z.
Proof. unfold count. lia. Qed.

Lemma count_zero p t : count p t = 0%Z ↔ ∀ r, r ∈ t → p r = false.
Proof.
  unfold count, sel. induction t as [|r t IH]; simpl; [split; [set_solver|done]|].
  destruct (p r) eqn:E; simpl.
  - split; [lia|]. intros H. specialize (H r ltac:(set_solver)). congruence.
  - rewrite IH. split.
    + intros H r' [->|Hr]%elem_of_cons; auto.
    + intros H r' Hr. apply H. set_solver.
Qed.

Lemma count_sel_one p t : count p t = 0%Z ↔ sel_one p t = None.
Proof. by rewrite count_zero, sel_one_None. Qed.

Lemma upd_none p f t : count p t = 0%Z → upd p f t = t.
Proof.
  rewrite count_zero. intros H. unfold upd. rewrite <- (map_id t) at 2.
  apply map_ext_in. intros r Hr. by rewrite H by (by apply list_elem_of_In).
Qed.

Lemma changed_zero p f t : changed p f t = 0%Z ↔ ∀ r, r ∈ t → p r = true → f r = r.
Proof.
  unfold changed. rewrite count_zero. split.
  - intros H r Hr Hp. specialize (H r Hr). rewrite Hp in H. simpl in H.
    apply bool_decide_eq_false in H. by apply dec_stable.
  - intros H r Hr. destruct (p r) eqn:Hp; [|done]. simpl.
    apply bool_decide_eq_false. intros Hne. apply Hne. by apply H.
Qed.

(** A statement that changes no row leaves the table as it is. *)
Lemma upd_unchanged p f t : changed p f t = 0%Z → upd p f t = t.
Proof.
  rewrite changed_zero. intros H. unfold upd. rewrite <- (map_id t) at 2.
  apply map_ext_in. intros r Hr. destruct (p r) eqn:Hp; [|done].
  apply H; [by apply list_elem_of_In|done].
Qed.

Lemma upd_affected_zero found p f t : affected found p f t = 0%Z → upd p f t = t.
Proof. destruct found; simpl; [apply upd_none|apply upd_unchanged]. Qed.

Lemma changed_le_matched p f t : (changed p f t <= matched p t)%Z.
Proof.
  unfold changed, matched, count, sel. apply inj_le.
  induction t as [|r t IH]; simpl; [done|]. destruct (p r); simpl; [|done].
  case_bool_decide; simpl; lia.
Qed.

Lemma sel_upd_same p q f t :
  (∀ r, r ∈ t → q (if p r then f r else r) = q r) →
  (∀ r, r ∈ t → q r = true → p r = false) →
  sel q (upd p f t) = sel q t.
Proof.
  unfold sel, upd. induction t as [|r t IH]; simpl; [done|].
  intros Hq Hp. rewrite Hq by set_solver.
  rewrite IH by (intros; first [apply Hq|apply Hp]; set_solver).
  destruct (q r) eqn:E; [|done]. by rewrite Hp by set_solver.
Qed.

(** ** Unique-key tables *)

Context (clash : R → R → bool) (clash_sym : ∀ r r', clash r r' = clash r' r).

Lemma uniq_app t r : uniq clash (t ++ [r]) = uniq clash t && negb (existsb (clash r) t).
Proof using clash_sym.
  induction t as [|r' t IH]; simpl; [done|].
  rewrite IH, forallb_app. simpl. rewrite (clash_sym r r').
  destruct (clash r' r), (uniq clash t), (existsb (clash r) t), (forallb _ t); done.
Qed.

Lemma ins_uniq r t t' : uniq clash t = true → ins clash r t = Some t' → uniq clash t' = true.
Proof using clash_sym.
  unfold ins. intros Hu. destruct (existsb (clash r) t) eqn:E; [done|]. intros [= <-].
  by rewrite uniq_app, Hu, E.
Qed.

Lemma upd_uniq_uniq p f t t' : upd_uniq clash p f t = Some t' → uniq clash t' = true.
Proof. unfold upd_uniq. case_match; naive_solver. Qed.

Lemma uniq_filter p t : uniq clash t = true → uniq clash (List.filter p t) = true.
Proof.
  induction t as [|r t IH]; simpl; [done|]. intros [Hf Hu]%andb_true_iff.
  destruct (p r); simpl; [|auto]. rewrite IH by done. rewrite andb_true_r.
  rewrite forallb_forall in Hf |- *. intros x Hx. apply Hf.
  by apply List.filter_In in Hx as [? _].
Qed.

Lemma uniq_sublist t t' : t' `sublist_of` t → uniq clash t = true → uniq clash t' = true.
Proof.
  induction 1 as [|r t' t Hs IH|r t' t Hs IH]; simpl; [done| |]; intros [Hf Hu]%andb_true_iff; [|auto].
  rewrite IH by done. rewrite andb_true_r. rewrite forallb_forall in Hf |- *. intros x Hx. apply Hf.
  apply list_elem_of_In. apply list_elem_of_In in Hx. by eapply sublist_subseteq.
Qed.

(** Two rows of a table with a unique key that clash are the same row. *)
Lemma uniq_elem t r r' :
  uniq clash t = true → r ∈ t → r' ∈ t → clash r r' = true → r = r'.
Proof using clash_sym.
  induction t as [|x t IH]; simpl; [set_solver|].
  intros [Hf Hu]%andb_true_iff Hr Hr' Hc. rewrite forallb_forall in Hf.
  apply elem_of_cons in Hr as [->|Hr]; apply elem_of_cons in Hr' as [->|Hr']; auto.
  - specialize (Hf r' ltac:(by apply list_elem_of_In)). by rewrite Hc in Hf.
  - specialize (Hf r ltac:(by apply list_elem_of_In)). rewrite clash_sym in Hc. by rewrite Hc in Hf.
Qed.

End Table.
