(* ===== verification/Monad.v ===== *)
(** * Monad: the state-and-error monad of the service code.

    A Go function that talks to the outside world and returns [(A, error)] is a
    computation [M A]: it maps a state to the state it leaves and a result.
    Errors do not undo state changes. [wp] is the weakest precondition of a
    computation; [keeps I m Q] says that from a state satisfying [I] the
    computation [m] ends, {e on every path, error paths included}, in a state
    satisfying [I], and that [Q] holds of the value it returns, if any. *)
From S2P Require Import Prelude Errors.

Section Defs.
Context {S : Type}.

Definition M (A : Type) : Type := S → S * res A.

Definition ret {A} (a : A) : M A := λ w, (w, Ok a).
Definition throw {A} (e : error) : M A := λ w, (w, Err e).

(** [x, err := m; if err != nil { h } ; k]. *)
Definition mcatch {A B} (m : M A) (h : error → M B) (k : A → M B) : M B :=
  λ w, let (w', r) := m w in
       match r with Ok a => k a w' | Err e => h e w' end.

(** [x, err := m; if err != nil { return err } ; k]. *)
Definition gobind {A B} (m : M A) (k : A → M B) : M B := mcatch m throw k.

(** A pure fallible computation inside the monad. *)
Definition lift {A} (r : res A) : M A := λ w, (w, r).

(** A read of the state. *)
Definition gets {A} (f : S → A) : M A := λ w, (w, Ok (f w)).

(** [_ = m]: the error is dropped. *)
Definition ignore {A} (m : M A) : M unit := mcatch m (λ _, ret tt) (λ _, ret tt).

(** [for _, x := range l { f(x) }] with an early return on error. *)
Fixpoint mfor {A} (l : list A) (f : A → M unit) : M unit :=
  match l with
  | [] => ret tt
  | x :: l' => gobind (f x) (λ _, mfor l' f)
  end.

Definition wp {A} (m : M A) (Q : res A → S → Prop) (w : S) : Prop :=
  Q (m w).2 (m w).1.

Definition keeps {A} (I : S → Prop) (m : M A) (Q : A → Prop) : Prop :=
  ∀ w, I w → I (m w).1 ∧ ∀ a, (m w).2 = Ok a → Q a.

End Defs.

Arguments M S A : clear implicits.

Notation "x <- m ;; k" := (gobind m (λ x, k))
  (at level 100, m at next level, right associativity) : go_scope.
Notation "x <- m 'catch' e => h ;; k" := (mcatch m (λ e, h) (λ x, k))
  (at level 100, m at next level, e name, h at next level, right associativity) : go_scope.
Notation "m ;;; k" := (gobind m (λ _, k))
  (at level 100, right associativity) : go_scope.

(** ** Weakest preconditions *)

Section Wp.
Context {S : Type}.
Implicit Types (w : S).

Lemma wp_ret {A} (a : A) Q w : Q (Ok a) w → wp (ret a) Q w.
Proof. done. Qed.

Lemma wp_throw {A} (e : error) (Q : res A → S → Prop) w : Q (Err e) w → wp (throw e) Q w.
Proof. done. Qed.

Lemma wp_lift {A} (r : res A) (Q : res A → S → Prop) w : Q r w → wp (lift r) Q w.
Proof. done. Qed.

Lemma wp_gets {A} (f : S → A) Q w : Q (Ok (f w)) w → wp (gets f) Q w.
Proof. done. Qed.

Lemma wp_mcatch {A B} (m : M S A) (h : error → M S B) (k : A → M S B) Q w :
  wp m (λ r w', match r with Ok a => wp (k a) Q w' | Err e => wp (h e) Q w' end) w →
  wp (mcatch m h k) Q w.
Proof. unfold wp, mcatch. destruct (m w) as [w' [a|e]]; done. Qed.

Lemma wp_gobind {A B} (m : M S A) (k : A → M S B) Q w :
  wp m (λ r w', match r with Ok a => wp (k a) Q w' | Err e => Q (Err e) w' end) w →
  wp (gobind m k) Q w.
Proof. unfold wp, gobind, mcatch. destruct (m w) as [w' [a|e]]; done. Qed.

Lemma wp_mono {A} (m : M S A) (P Q : res A → S → Prop) w :
  (∀ r w', P r w' → Q r w') → wp m P w → wp m Q w.
Proof. unfold wp. eauto. Qed.

End Wp.

(** ** Invariants kept on every path *)

Section Keeps.
Context {S : Type} (I : S → Prop).

Lemma keeps_ret {A} (a : A) (Q : A → Prop) : Q a → keeps I (ret a) Q.
Proof. intros Ha w Hw. split; [done|]. by intros ? [= <-]. Qed.

Lemma keeps_throw {A} (e : error) (Q : A → Prop) : keeps I (throw e) Q.
Proof. intros w Hw. by split. Qed.

Lemma keeps_lift {A} (r : res A) (Q : A → Prop) : (∀ a, r = Ok a → Q a) → keeps I (lift r) Q.
Proof. intros Hr w Hw. split; [done|]. exact Hr. Qed.

Lemma keeps_gets {A} (f : S → A) (Q : A → Prop) : (∀ w, I w → Q (f w)) → keeps I (gets f) Q.
Proof. intros Hf w Hw. split; [done|]. intros ? [= <-]. by apply Hf. Qed.

Lemma keeps_mono {A} (m : M S A) (P Q : A → Prop) :
  keeps I m P → (∀ a, P a → Q a) → keeps I m Q.
Proof. intros Hm HPQ w Hw. destruct (Hm w Hw) as [? ?]. eauto. Qed.

Lemma keeps_true {A} (m : M S A) (P : A → Prop) : keeps I m P → keeps I m (λ _, True).
Proof. intros. by eapply keeps_mono. Qed.

Lemma keeps_mcatch {A B} (m : M S A) (h : error → M S B) (k : A → M S B) (P : A → Prop) (Q : B → Prop) :
  keeps I m P → (∀ e, keeps I (h e) Q) → (∀ a, P a → keeps I (k a) Q) →
  keeps I (mcatch m h k) Q.
Proof.
  intros Hm Hh Hk w Hw. unfold mcatch. destruct (Hm w Hw) as [HI HP].
  destruct (m w) as [w' [a|e]]; simpl in *; [apply Hk; auto|by apply Hh].
Qed.

Lemma keeps_gobind {A B} (m : M S A) (k : A → M S B) (P : A → Prop) (Q : B → Prop) :
  keeps I m P → (∀ a, P a → keeps I (k a) Q) → keeps I (gobind m k) Q.
Proof. intros. eapply keeps_mcatch; eauto using keeps_throw. Qed.

Lemma keeps_ignore {A} (m : M S A) (P : A → Prop) (Q : unit → Prop) :
  keeps I m P → Q tt → keeps I (ignore m) Q.
Proof. intros. eapply keeps_mcatch; eauto using keeps_ret. Qed.

Lemma keeps_mfor {A} (l : list A) (f : A → M S unit) (Q : unit → Prop) :
  Q tt → (∀ x, x ∈ l → keeps I (f x) (λ _, True)) → keeps I (mfor l f) Q.
Proof.
  intros HQ. induction l as [|x l IH]; simpl; intros Hf; [by apply keeps_ret|].
  eapply keeps_gobind; [apply Hf; set_solver|]. intros _ _. apply IH. set_solver.
Qed.

Lemma keeps_if {A} (b : bool) (m1 m2 : M S A) (Q : A → Prop) :
  (b = true → keeps I m1 Q) → (b = false → keeps I m2 Q) → keeps I (if b then m1 else m2) Q.
Proof. destruct b; auto. Qed.

Lemma keeps_decide {A} P `{Decision P} (m1 m2 : M S A) (Q : A → Prop) :
  (P → keeps I m1 Q) → (¬ P → keeps I m2 Q) → keeps I (if decide P then m1 else m2) Q.
Proof. intros. case_decide; auto. Qed.

End Keeps.

#[export] Hint Resolve keeps_throw : sso.

(** Walks through a computation with trivial postconditions, leaving the
    operations that the database [sso] does not know about. *)
Ltac keeps_step :=
  first
    [ solve [eauto with sso]
    | apply keeps_ret; exact Logic.I
    | apply keeps_lift; intros ? ?; exact Logic.I
    | apply keeps_gets; intros ? ?; exact Logic.I
    | eapply (keeps_mcatch _ _ _ _ (λ _, True)); [|intros ?|intros ? _]
    | eapply (keeps_gobind _ _ _ (λ _, True)); [|intros ? _]
    | eapply (keeps_ignore _ _ (λ _, True)); [|exact Logic.I]
    | apply keeps_mfor; [exact Logic.I|intros ? ?]
    | match goal with
      | |- keeps _ (if decide _ then _ else _) _ => apply keeps_decide; intros ?
      | |- keeps _ (match ?x with _ => _ end) _ => destruct x eqn:?
      end
    | progress cbv zeta
    | progress autounfold with queries ].
Ltac keeps_walk := repeat keeps_step.
