(* ===== verification/Runtime.v ===== *)
(** * Runtime: the code the service relies on and does not contain.

    UUIDs (google/uuid), bcrypt, SHA-256, the JWT library, the operating
    system's randomness and MariaDB's collation are arguments of the model,
    gathered in the class [Runtime]; [RuntimeLaws] states the documented
    behaviour the theorems rely on. Draws of randomness are numbered: the
    [n]-th draw returns [rt_uuid n] or [rt_rand n len]. *)
From stdpp Require Import gmap.
From S2P Require Import Prelude.

(** The payload of a token as the JWT library encodes and decodes it
    (platform/crypto/jwt/ed25519.go, [tokenClaims]); instants in Unix seconds. *)
Record tokenClaims := mkTokenClaims {
  tc_Issuer : string;
  tc_Subject : string;
  tc_IssuedAt : Z;
  tc_ExpiresAt : Z;
  tc_ID : string;
  tc_SubjectType : string;
  tc_SessionID : string }.

#[export] Instance tokenClaims_eq_dec : EqDecision tokenClaims.
Proof. solve_decision. Defined.

Class Runtime := {
  rt_uuid_valid : string → bool;            (* uuid.Parse succeeds *)
  rt_uuid : nat → string;                   (* uuid.NewV7 / uuid.NewString *)
  rt_rand : nat → nat → bytes;              (* crypto/rand.Read *)
  rt_sha256 : bytes → bytes;                (* sha256.Sum256 *)
  rt_bcrypt_hash : nat → string → Z → option bytes;  (* bcrypt.GenerateFromPassword *)
  rt_bcrypt_compare : bytes → string → bool;         (* bcrypt.CompareHashAndPassword *)
  rt_jwt_sign : tokenClaims → option string;         (* SignedString(priv) *)
  (* ParseWithClaims of a token, WithIssuer and WithLeeway, at an instant (nanoseconds) *)
  rt_jwt_parse : string → string → Z → Z → option tokenClaims;
  rt_parse_addr : string → option string;   (* netip.ParseAddr *)
  rt_to_upper : string → string;            (* strings.ToUpper beyond ASCII *)
  rt_to_lower : string → string;            (* strings.ToLower beyond ASCII *)
  rt_collate : string → string → bool;      (* '=' under utf8mb4_unicode_ci *)
  rt_collate_lt : string → string → bool;   (* ORDER BY under the same collation *)
  rt_like : string → string → bool;         (* value LIKE pattern: [rt_like pattern value] *)
  rt_meta_marshal : gmap string string → option string;    (* json.Marshal on a map *)
  rt_meta_unmarshal : string → option (gmap string string); (* json.Unmarshal into a map *)
  rt_found_rows : bool;                     (* the DSN sets clientFoundRows *)
}.

(** Instants as NumericDate: Unix seconds, counted here from Go's zero time. *)
Definition unix_epoch : Z := (62135596800 * 1000000000)%Z.
Definition NumericDate (t : Z) : Z := ((t - unix_epoch) / 1000000000)%Z.
Definition NumericDate_Time (s : Z) : Z := (s * 1000000000 + unix_epoch)%Z.

Class RuntimeLaws `{Runtime} : Prop := {
  rt_uuid_valid_uuid : ∀ n, rt_uuid_valid (rt_uuid n) = true;
  rt_uuid_valid_nonempty : rt_uuid_valid "" = false;
  rt_uuid_valid_star : rt_uuid_valid "*" = false;
  rt_uuid_inj : ∀ m n, rt_collate (rt_uuid m) (rt_uuid n) = true → m = n;
  rt_rand_len : ∀ k n, len (rt_rand k n) = Z.of_nat n;
  rt_bcrypt_ok : ∀ k p c h, rt_bcrypt_hash k p c = Some h → h ≠ "" ∧ rt_bcrypt_compare h p = true;
  (* a token parses back to its claims until its expiry plus the leeway *)
  rt_jwt_roundtrip : ∀ c tok leeway now,
    rt_jwt_sign c = Some tok → (0 <= leeway)%Z → (now < NumericDate_Time (tc_ExpiresAt c) + leeway)%Z →
    rt_jwt_parse tok (tc_Issuer c) leeway now = Some c;
  (* an expired token, or another issuer's, does not parse *)
  rt_jwt_expired : ∀ tok issuer leeway now c,
    rt_jwt_parse tok issuer leeway now = Some c →
    tc_Issuer c = issuer ∧ (now < NumericDate_Time (tc_ExpiresAt c) + leeway)%Z;
  (* what a token says does not depend on when it is read *)
  rt_jwt_stable : ∀ tok issuer leeway now now' c c',
    rt_jwt_parse tok issuer leeway now = Some c → rt_jwt_parse tok issuer leeway now' = Some c' → c = c';
  rt_meta_roundtrip : ∀ m s, rt_meta_marshal m = Some s → s ≠ "" ∧ rt_meta_unmarshal s = Some m;
  rt_parse_addr_idem : ∀ s a, rt_parse_addr s = Some a → a ≠ "" ∧ rt_parse_addr a = Some a;
  rt_collate_refl : ∀ s, rt_collate s s = true;
  rt_collate_sym : ∀ s t, rt_collate s t = rt_collate t s;
  rt_collate_trans : ∀ s t u, rt_collate s t = true → rt_collate t u = true → rt_collate s u = true;
  rt_collate_lt_neq : ∀ s t, rt_collate_lt s t = true → rt_collate s t = false;
  rt_collate_lt_trans : ∀ s t u, rt_collate_lt s t = true → rt_collate_lt t u = true → rt_collate_lt s u = true;
  rt_collate_lt_total : ∀ s t, rt_collate s t = true ∨ rt_collate_lt s t = true ∨ rt_collate_lt t s = true;
  rt_collate_lt_l : ∀ s s' t, rt_collate s s' = true → rt_collate_lt s t = rt_collate_lt s' t;
  rt_collate_lt_r : ∀ s t t', rt_collate t t' = true → rt_collate_lt s t = rt_collate_lt s t';
}.

Lemma rt_uuid_nonempty `{RuntimeLaws} n : rt_uuid n ≠ "".
Proof. intros E. pose proof (rt_uuid_valid_uuid n) as H'. rewrite E, rt_uuid_valid_nonempty in H'. done. Qed.

Lemma rt_uuid_eq `{RuntimeLaws} m n : rt_uuid m = rt_uuid n → m = n.
Proof. intros E. apply rt_uuid_inj. rewrite E. apply rt_collate_refl. Qed.

(** ** strings.ToUpper and strings.ToLower

    On ASCII input they shift letters byte by byte; beyond ASCII the Unicode
    tables of the standard library apply (an argument of the model). *)
Definition is_ascii (s : string) : bool :=
  forallb (λ c, bool_decide (byte_of c < 128)%Z) (string_to_list s).

Definition shift_letter (lo hi d : Z) (c : Ascii.ascii) : Ascii.ascii :=
  let n := byte_of c in
  if decide (lo <= n <= hi)%Z then Ascii.ascii_of_N (Z.to_N (n + d)) else c.

Definition ascii_upper (s : string) : string :=
  string_of_list (shift_letter 97 122 (-32) <$> string_to_list s).
Definition ascii_lower (s : string) : string :=
  string_of_list (shift_letter 65 90 32 <$> string_to_list s).

Definition ToUpper `{Runtime} (s : string) : string :=
  if is_ascii s then ascii_upper s else rt_to_upper s.
Definition ToLower `{Runtime} (s : string) : string :=
  if is_ascii s then ascii_lower s else rt_to_lower s.

(** ** A concrete runtime, at which the witnesses evaluate the model *)

Module Toy.

(** Draw [n] is the name "id" followed by [n] letters. *)
Fixpoint letters (n : nat) : string :=
  match n with O => "" | S n' => String (Ascii.ascii_of_nat 97) (letters n') end.
Definition uuid (n : nat) : string := "id" +:+ letters n.
Definition uuid_valid (s : string) : bool :=
  match s with String a (String b _) => bool_decide (String a (String b "") = "id") | _ => false end.

(** Bytes [k], [k+1], ... *)
Fixpoint rand (k n : nat) : bytes :=
  match n with O => "" | S n' => String (Ascii.ascii_of_nat (k mod 256)) (rand (S k) n') end.

Definition sha256 (b : bytes) : bytes := "sha:" +:+ b.
Definition bcrypt_hash (k : nat) (p : string) (cost : Z) : option bytes :=
  if decide (len p <= 72)%Z then Some ("bc:" +:+ p) else None.
Definition bcrypt_compare (h : bytes) (p : string) : bool := bool_decide (h = "bc:" +:+ p).

(** LIKE with a plain byte comparison; a backslash quotes the next character. *)
Fixpoint like_suffixes (f : string → bool) (s : string) : bool :=
  f s || match s with EmptyString => false | String _ s' => like_suffixes f s' end.
Fixpoint like_match (p : string) : string → bool :=
  match p with
  | EmptyString => λ s, bool_decide (s = "")
  | String c p' =>
      if decide (c = Ascii.ascii_of_nat 37) then like_suffixes (like_match p')
      else if decide (c = Ascii.ascii_of_nat 95) then
        λ s, match s with EmptyString => false | String _ s' => like_match p' s' end
      else if decide (c = Ascii.ascii_of_nat 92) then
        match p' with
        | EmptyString => λ _, false
        | String d p'' =>
            λ s, match s with EmptyString => false
                 | String x s' => bool_decide (x = d) && like_match p'' s' end
        end
      else λ s, match s with EmptyString => false
                | String x s' => bool_decide (x = c) && like_match p' s' end
  end.

(** A JSON stand-in: the bits of the map's code, most significant last. *)
Fixpoint pos_bits (p : positive) : string :=
  match p with
  | xH => "."
  | xO q => String (Ascii.ascii_of_nat 48) (pos_bits q)
  | xI q => String (Ascii.ascii_of_nat 49) (pos_bits q)
  end.
Fixpoint bits_pos (s : string) : option positive :=
  match s with
  | String c s' =>
      if decide (c = Ascii.ascii_of_nat 48) then xO <$> bits_pos s'
      else if decide (c = Ascii.ascii_of_nat 49) then xI <$> bits_pos s'
      else Some xH
  | EmptyString => None
  end.
Definition jwt_sign (c : tokenClaims) : option string :=
  Some (pos_bits (encode
    ([tc_Issuer c; tc_Subject c; tc_ID c; tc_SubjectType c; tc_SessionID c], tc_IssuedAt c, tc_ExpiresAt c))).
Definition jwt_parse (tok issuer : string) (leeway now : Z) : option tokenClaims :=
  p ← bits_pos tok;
  t ← decode (A := list string * Z * Z) p;
  match t with
  | ([iss; sub; id; st; sid], iat, exp) =>
      if decide (iss = issuer ∧ (now < NumericDate_Time exp + leeway)%Z)
      then Some (mkTokenClaims iss sub iat exp id st sid) else None
  | _ => None
  end.

Definition meta_marshal (m : gmap string string) : option string := Some (pos_bits (encode m)).
Definition meta_unmarshal (s : string) : option (gmap string string) := p ← bits_pos s; decode p.

Definition parse_addr (s : string) : option string := if decide (s = "") then None else Some s.

#[export] Instance runtime (found : bool) : Runtime := {|
  rt_uuid_valid := uuid_valid; rt_uuid := uuid; rt_rand := rand; rt_sha256 := sha256;
  rt_bcrypt_hash := bcrypt_hash; rt_bcrypt_compare := bcrypt_compare;
  rt_jwt_sign := jwt_sign; rt_jwt_parse := jwt_parse;
  rt_parse_addr := parse_addr; rt_like := like_match; rt_meta_marshal := meta_marshal; rt_meta_unmarshal := meta_unmarshal;
  rt_to_upper := λ s, s; rt_to_lower := λ s, s;
  rt_collate := λ s t, bool_decide (s = t); rt_collate_lt := str_lt; rt_found_rows := found |}.

Lemma letters_inj m n : letters m = letters n → m = n.
Proof. revert n. induction m; intros [|n]; simpl; try done. intros [= H]. f_equal. auto. Qed.

Lemma rand_len k n : len (rand k n) = Z.of_nat n.
Proof. revert k. induction n; intros k; simpl; [done|]. rewrite IHn. lia. Qed.

Lemma bits_pos_bits p : bits_pos (pos_bits p) = Some p.
Proof. induction p; simpl; [by rewrite IHp|by rewrite IHp|done]. Qed.

Lemma pos_bits_nonempty p : pos_bits p ≠ "".
Proof. by destruct p. Qed.

#[export] Instance runtime_laws found : @RuntimeLaws (runtime found).
Proof.
  split; simpl; try done.
  - intros m n. unfold uuid. rewrite bool_decide_eq_true. intros [= E]. by apply letters_inj.
  - intros. apply rand_len.
  - intros k p c h. unfold bcrypt_hash, bcrypt_compare. case_decide; [|done]. intros [= <-].
    split; [done|]. by apply bool_decide_eq_true.
  - intros c tok leeway now. unfold jwt_sign, jwt_parse. intros [= <-] ? Hn.
    rewrite bits_pos_bits. simpl. rewrite decode_encode. simpl.
    rewrite decide_True by done. by destruct c.
  - intros tok issuer leeway now c. unfold jwt_parse.
    destruct (bits_pos tok) as [p|]; simpl; [|done].
    destruct (decode p) as [[[l iat] exp]|]; simpl; [|done].
    destruct l as [|? [|? [|? [|? [|? [|]]]]]]; try done.
    case_decide as E; [|done]. intros [= <-]. simpl. done.
  - intros tok issuer leeway now now' c c'. unfold jwt_parse.
    destruct (bits_pos tok) as [p|]; simpl; [|done].
    destruct (decode p) as [[[l iat] exp]|]; simpl; [|done].
    destruct l as [|? [|? [|? [|? [|? [|]]]]]]; try done.
    repeat case_decide; try done. intros. by simplify_eq.
  - intros m s. unfold meta_marshal, meta_unmarshal. intros [= <-].
    split; [apply pos_bits_nonempty|]. by rewrite bits_pos_bits; simpl; rewrite decode_encode.
  - intros s a. unfold parse_addr. case_decide; [done|]. intros [= <-]. by rewrite decide_False.
  - intros. by apply bool_decide_eq_true.
  - intros. apply bool_decide_ext. naive_solver.
  - intros s t u. rewrite !bool_decide_eq_true. congruence.
  - intros s t Hlt. apply bool_decide_eq_false. intros ->. by rewrite str_lt_irrefl in Hlt.
  - apply str_lt_trans.
  - intros s t. rewrite bool_decide_eq_true. apply str_lt_total.
  - intros s s' t. by rewrite bool_decide_eq_true; intros ->.
  - intros s t t'. by rewrite bool_decide_eq_true; intros ->.
Qed.

End Toy.
