(* ===== verification/Listing.v ===== *)
(** * Listing: keyset pagination.

    Every List repository method runs the same shape of query: a filter, a
    "strictly after the cursor" predicate, an ORDER BY with the primary key as
    tie-breaker, and a LIMIT one larger than the page, whose extra row decides
    whether there is a next page. What a client sees that follows the cursors,
    over a table at rest ([follow]) and over one that changes ([browse]). *)
From stdpp Require Import sorting.
From S2P Require Import Prelude Errors Sql Monad Runtime.
Local Open Scope Z_scope.

Section Page.
Context {R C : Type}.

(** ORDER BY before LIMIT n+1 on the rows that satisfy [wh]. *)
Definition fetch_rows (n : Z) (wh : R → bool) (before : R → R → bool) (t : list R) : list R :=
  take (Z.to_nat (n + 1)) (order_by before (sel wh t)).

(** Trims the probe row and emits the cursor of the last row returned. *)
Definition trim_page (n : Z) (key : R → C) (rows : list R) : list R * option C :=
  if decide (n < Z.of_nat (length rows)) then
    let rows' := take (Z.to_nat n) rows in (rows', key <$> last rows')
  else (rows, None).

(** A client that follows the cursors, from [after] on. *)
Fixpoint follow (fuel : nat) (fetch : option C → list R * option C) (after : option C) : list R :=
  match fuel with
  | O => []
  | S fuel' =>
      let (rows, next) := fetch after in
      rows ++ match next with None => [] | Some c => follow fuel' fetch (Some c) end
  end.

End Page.

(** ** Sorting under a strict total order *)

Section Order.
Context {R : Type} (before : R → R → bool).

Definition sorted := StronglySorted (λ r r', before r r' = true).

(** The order is total on the rows of [t], and its rows are distinct. *)
Record strict_on (t : list R) : Prop := {
  so_nodup : NoDup t;
  so_irrefl : ∀ r, r ∈ t → before r r = false;
  so_trans : ∀ r1 r2 r3, before r1 r2 = true → before r2 r3 = true → before r1 r3 = true;
  so_total : ∀ r r', r ∈ t → r' ∈ t → r = r' ∨ before r r' = true ∨ before r' r = true }.

Lemma order_insert_perm r t : order_insert before r t ≡ₚ r :: t.
Proof.
  induction t as [|r' t IH]; simpl; [done|]. case_match; [|done].
  rewrite IH. constructor.
Qed.

Lemma order_by_perm t : order_by before t ≡ₚ t.
Proof.
  induction t as [|r t IH]; simpl; [done|]. by rewrite order_insert_perm, IH.
Qed.

Lemma strict_on_sub t t' :
  strict_on t → NoDup t' → (∀ r, r ∈ t' → r ∈ t) → strict_on t'.
Proof. intros [Hn Hi Ht Hl] Hn' Hsub. split; [done|..]; eauto. Qed.

Lemma strict_on_perm t t' : t' ≡ₚ t → strict_on t → strict_on t'.
Proof.
  intros Hp Hs. eapply strict_on_sub; [exact Hs| |].
  - rewrite Hp. apply Hs.
  - intros r. by rewrite Hp.
Qed.

Lemma strict_on_cons r t : strict_on (r :: t) → strict_on t.
Proof.
  intros Hs. eapply strict_on_sub; [exact Hs| |by intros; right].
  apply so_nodup in Hs. by apply NoDup_cons in Hs as [_ ?].
Qed.

Lemma strict_on_skip r r' t : strict_on (r :: r' :: t) → strict_on (r :: t).
Proof.
  intros Hs. eapply strict_on_cons. eapply strict_on_perm; [|exact Hs].
  apply Permutation_swap.
Qed.

Lemma order_insert_sorted r t :
  strict_on (r :: t) → sorted t → sorted (order_insert before r t).
Proof.
  induction t as [|r' t IH]; intros Hs Hsort; simpl.
  { repeat constructor. }
  inversion Hsort as [|? ? Hsort' Hall]; subst.
  destruct (before r' r) eqn:E.
  - constructor; [apply IH; [by eapply strict_on_skip|done]|].
    rewrite (order_insert_perm r t). by constructor.
  - assert (Hb : before r r' = true).
    { destruct (so_total _ Hs r r') as [->|[?|?]]; [by left|by right; left| |done|congruence].
      apply so_nodup, NoDup_cons in Hs as [Hr _]. destruct Hr. by left. }
    constructor; [done|]. constructor; [done|].
    eapply Forall_impl; [exact Hall|]. intros x Hx. simpl in *. by eapply so_trans.
Qed.

Lemma order_by_sorted t : strict_on t → sorted (order_by before t).
Proof.
  induction t as [|r t IH]; intros Hs; simpl; [constructor|].
  apply order_insert_sorted; [|apply IH; by eapply strict_on_cons].
  eapply strict_on_perm; [|exact Hs]. by rewrite order_by_perm.
Qed.

(** Sorting commutes with filtering. *)
Lemma order_insert_filter (q : R → bool) r t :
  strict_on (r :: t) → sorted t →
  List.filter q (order_insert before r t) =
  if q r then order_insert before r (List.filter q t) else List.filter q t.
Proof.
  intros Hs Hsort. induction t as [|r' t IH]; simpl; [by destruct (q r)|].
  inversion Hsort as [|? ? Hsort' Hall]; subst.
  destruct (before r' r) eqn:E; simpl.
  - rewrite IH by (done || by eapply strict_on_skip). destruct (q r') eqn:Eq, (q r); simpl; by rewrite ?E.
  - destruct (q r); [|done]. destruct (q r') eqn:Eq; simpl; [by rewrite E|].
    destruct (List.filter q t) as [|h l] eqn:El; simpl; [done|].
    assert (Hh : h ∈ t).
    { apply list_elem_of_In. eapply List.filter_In. rewrite El. by left. }
    destruct (before h r) eqn:Eh; [|done].
    rewrite Forall_forall in Hall. specialize (Hall h Hh). simpl in Hall.
    by rewrite (so_trans _ Hs _ _ _ Hall Eh) in E.
Qed.

Lemma order_by_filter (q : R → bool) t :
  strict_on t → order_by before (List.filter q t) = List.filter q (order_by before t).
Proof.
  induction t as [|r t IH]; intros Hs; simpl; [done|].
  assert (Hs' := strict_on_cons _ _ Hs).
  rewrite order_insert_filter.
  - destruct (q r); simpl; by rewrite IH.
  - eapply strict_on_perm; [|exact Hs]. by rewrite order_by_perm.
  - by apply order_by_sorted.
Qed.

(** The rows after [x] in a sorted list are those that [x] comes before. *)
Lemma filter_before_Forall x l :
  Forall (λ y, before x y = true) l → List.filter (before x) l = l.
Proof. induction 1 as [|y l Hy _ IH]; simpl; [done|]. by rewrite Hy, IH. Qed.

Lemma filter_before_none x l :
  (∀ y, y ∈ l → before x y = false) → List.filter (before x) l = [].
Proof.
  induction l as [|y l IH]; intros Hl; simpl; [done|].
  rewrite Hl by left. apply IH. intros; apply Hl; by right.
Qed.

Lemma filter_after l1 x l2 :
  strict_on (l1 ++ x :: l2) → sorted (l1 ++ x :: l2) →
  List.filter (before x) (l1 ++ x :: l2) = l2.
Proof.
  intros Hs Hsort. assert (Hx : x ∈ l1 ++ x :: l2) by (apply elem_of_app; right; left).
  apply StronglySorted_app in Hsort as (H12 & _ & Hsort).
  inversion Hsort as [|? ? Hsort' Hall]; subst.
  rewrite List.filter_app. simpl. rewrite (so_irrefl _ Hs x Hx).
  rewrite filter_before_none, filter_before_Forall; [done|done|].
  intros y Hy. destruct (before x y) eqn:E; [|done].
  assert (before y x = true) by (apply H12; [done|left]).
  by rewrite <- (so_irrefl _ Hs x Hx), (so_trans _ Hs x y x).
Qed.

(** Rows up to [y], then rows after [y]. *)
Lemma sorted_pages l y rest more :
  (∀ r1 r2 r3, before r1 r2 = true → before r2 r3 = true → before r1 r3 = true) →
  sorted (l ++ y :: rest) → sorted more → (∀ r, r ∈ more → before y r = true) → sorted ((l ++ [y]) ++ more).
Proof.
  intros Htr (Hl & Hsl & Hsy)%StronglySorted_app Hm Hy. apply StronglySorted_app. split_and!.
  - intros a r Ha Hr. apply elem_of_app in Ha as [Ha|Ha%list_elem_of_singleton].
    + eapply Htr; [|by apply Hy]. apply Hl; [done|by left].
    + subst a. by apply Hy.
  - apply StronglySorted_app. split_and!; [|done|repeat constructor].
    intros a r Ha Hr%list_elem_of_singleton. subst r. apply Hl; [done|by left].
  - done.
Qed.

End Order.

(** ** Following the cursors yields every matching row once, in order *)

Section Follow.
Context {R C : Type} (n : Z) (base : R → bool) (before : R → R → bool).
Context (key : R → C) (keyset : C → R → bool) (t : list R).

Definition after_clause (after : option C) (r : R) : bool :=
  match after with None => true | Some c => keyset c r end.

Definition fetch_page (after : option C) : list R * option C :=
  trim_page n key (fetch_rows n (λ r, base r && after_clause after r) before t).

Context (Hn : 0 < n) (Hstrict : strict_on before t).
Context (Hkey : ∀ x r, x ∈ t → r ∈ t → keyset (key x) r = before x r).

Lemma sel_andb (p q : R → bool) : sel (λ r, p r && q r) t = List.filter q (sel p t).
Proof.
  unfold sel. clear. induction t as [|r t' IH]; simpl; [done|].
  rewrite IH. by destruct (p r); simpl; destruct (q r).
Qed.

Lemma strict_on_sel p : strict_on before (sel p t).
Proof using Hstrict.
  eapply strict_on_sub; [exact Hstrict| |].
  - apply NoDup_ListNoDup, List.NoDup_filter, NoDup_ListNoDup, Hstrict.
  - intros r. by rewrite elem_of_sel; intros [? _].
Qed.

Abbreviation L := (order_by before (sel base t)).

Lemma fetch_first : fetch_rows n (λ r, base r && after_clause None r) before t = take (Z.to_nat (n + 1)) L.
Proof.
  unfold fetch_rows. do 2 f_equal. apply List.filter_ext. intros r. apply andb_true_r.
Qed.

Lemma fetch_next l1 x l2 :
  L = l1 ++ x :: l2 →
  fetch_rows n (λ r, base r && after_clause (Some (key x)) r) before t = take (Z.to_nat (n + 1)) l2.
Proof using Hstrict Hkey.
  intros HL. assert (Hx : x ∈ t).
  { assert (Hx : x ∈ L) by (rewrite HL; apply elem_of_app; right; left).
    rewrite order_by_perm in Hx. by apply elem_of_sel in Hx as [? _]. }
  unfold fetch_rows. f_equal. simpl.
  transitivity (order_by before (List.filter (before x) (sel base t))).
  - f_equal. rewrite sel_andb. apply List.filter_ext_in. intros r Hr.
    apply Hkey; [done|]. apply list_elem_of_In in Hr. by apply elem_of_sel in Hr as [? _].
  - rewrite order_by_filter by apply strict_on_sel. rewrite HL.
    assert (Hs : strict_on before L).
    { eapply strict_on_perm; [apply order_by_perm|apply strict_on_sel]. }
    apply filter_after; rewrite <- HL; [done|]. apply order_by_sorted, strict_on_sel.
Qed.

(** [rest] is what remains to be listed after [after]. *)
Definition remaining (after : option C) (rest : list R) : Prop :=
  match after with
  | None => rest = L
  | Some c => ∃ l1 x, c = key x ∧ L = l1 ++ x :: rest
  end.

Lemma follow_remaining fuel after rest :
  (length rest < fuel)%nat → remaining after rest →
  follow fuel fetch_page after = rest.
Proof using Hn Hstrict Hkey.
  revert after rest. induction fuel as [|fuel IH]; intros after rest Hlen Hrem; [lia|].
  simpl. assert (Hf : fetch_page after = trim_page n key (take (Z.to_nat (n + 1)) rest)).
  { unfold fetch_page. f_equal. destruct after as [c|]; simpl in Hrem.
    - destruct Hrem as (l1 & x & -> & HL). by eapply fetch_next.
    - subst rest. apply fetch_first. }
  rewrite Hf. unfold trim_page. rewrite length_take.
  case_decide as Hd; simpl.
  2: { rewrite take_ge by lia. apply app_nil_r. }
  rewrite take_take, Nat.min_l by lia.
  destruct (last (take (Z.to_nat n) rest)) as [y|] eqn:Ey; simpl.
  2: { apply last_None in Ey. apply (f_equal length) in Ey. rewrite length_take in Ey. simpl in Ey. lia. }
  apply last_Some in Ey as [l' Hl'].
  rewrite (IH (Some (key y)) (drop (Z.to_nat n) rest)).
  - apply take_drop.
  - rewrite length_drop. lia.
  - assert (Hrest : rest = l' ++ y :: drop (Z.to_nat n) rest).
    { rewrite <- (take_drop (Z.to_nat n) rest) at 1. rewrite Hl', <- app_assoc. done. }
    destruct after as [c|]; simpl in *.
    + destruct Hrem as (l1 & x & -> & HL). exists (l1 ++ x :: l'), y. split; [done|].
      rewrite HL, Hrest at 1. by rewrite <- app_assoc.
    + subst rest. by exists l', y.
Qed.

Lemma follow_all fuel :
  (length t < fuel)%nat → follow fuel fetch_page None = L.
Proof using Hn Hstrict Hkey.
  intros Hlen. apply follow_remaining; [|done].
  rewrite order_by_perm. unfold sel.
  eapply Nat.le_lt_trans; [apply List.filter_length_le|done].
Qed.

End Follow.

(** ** Following the cursors while the table changes *)

(** Every page is fetched from the table of its instant; also tells whether
    the last page was reached. *)
Fixpoint browse {R C} (fetches : list (option C → list R * option C)) (after : option C) : list R * bool :=
  match fetches with
  | [] => ([], false)
  | fetch :: fetches' =>
      let (rows, next) := fetch after in
      match next with
      | None => (rows, true)
      | Some c => let (rest, complete) := browse fetches' (Some c) in (rows ++ rest, complete)
      end
  end.

Section Moving.
Context {R C K : Type} (n : Z) (base : R → bool) (before : R → R → bool).
Context (key : R → C) (keyset : C → R → bool).

(** [place r] is what decides where the row [r] is listed, and no update
    changes it; [U] holds of the places of all rows that are ever in the table. *)
Context (place : R → K) (sooner : K → K → bool) (U : K → Prop) (Hn : 0 < n).
Context (Hirrefl : ∀ k, U k → sooner k k = false).
Context (Htrans : ∀ k1 k2 k3, sooner k1 k2 = true → sooner k2 k3 = true → sooner k1 k3 = true).
Context (Htotal : ∀ k k', U k → U k' → k = k' ∨ sooner k k' = true ∨ sooner k' k = true).
Context (Hbefore : ∀ r r', before r r' = sooner (place r) (place r')).
Context (Hkey : ∀ x r, U (place x) → U (place r) → keyset (key x) r = before x r).

Definition part (t : list R) : Prop := NoDup (place <$> t) ∧ ∀ r, r ∈ t → U (place r).

Lemma before_trans r1 r2 r3 : before r1 r2 = true → before r2 r3 = true → before r1 r3 = true.
Proof using Hbefore Htrans. rewrite !Hbefore. apply Htrans. Qed.

Lemma place_inj t r r' : NoDup (place <$> t) → r ∈ t → r' ∈ t → place r = place r' → r = r'.
Proof.
  induction t as [|x t IH]; simpl; intros Hnd Hr Hr' E; [by apply elem_of_nil in Hr|].
  apply NoDup_cons in Hnd as [Hx Hnd].
  apply elem_of_cons in Hr as [->|Hr]; apply elem_of_cons in Hr' as [->|Hr']; [done|..|by apply IH].
  - destruct Hx. apply list_elem_of_fmap. by exists r'.
  - destruct Hx. apply list_elem_of_fmap. by exists r.
Qed.

Lemma part_strict t : part t → strict_on before t.
Proof using Hirrefl Htrans Htotal Hbefore.
  intros [Hnd HU]. split.
  - by eapply NoDup_fmap_1.
  - intros r Hr. rewrite Hbefore. apply Hirrefl, HU, Hr.
  - apply before_trans.
  - intros r r' Hr Hr'. rewrite !Hbefore. destruct (Htotal (place r) (place r')) as [E|?]; [by apply HU..| |by right].
    left. by eapply place_inj.
Qed.

(** [r] is still to be shown to a client whose last row was [from]. *)
Definition ahead (from : option R) (r : R) : bool := match from with None => true | Some x => before x r end.

Lemma ahead_trans from y r : ahead from y = true → before y r = true → ahead from r = true.
Proof using Htrans Hbefore. destruct from as [x|]; simpl; [apply before_trans|done]. Qed.

(** What a page shows, in the order of the listing. *)
Definition page_of (from : option R) (t : list R) : list R :=
  order_by before (sel (λ r, base r && ahead from r) t).

Lemma fetch_from from t : part t → (∀ x, from = Some x → U (place x)) →
  fetch_page n base before key keyset t (key <$> from) = trim_page n key (take (Z.to_nat (n + 1)) (page_of from t)).
Proof using Hkey.
  intros [_ HU] Hx. unfold fetch_page, fetch_rows, page_of, sel. do 3 f_equal. apply List.filter_ext_in.
  intros r Hr. f_equal. destruct from as [x|]; simpl; [|done]. apply Hkey; [by apply Hx|].
  by apply HU, list_elem_of_In.
Qed.

Lemma page_of_sorted from t : part t → sorted before (page_of from t).
Proof using Hirrefl Htrans Htotal Hbefore.
  intros Ht. apply order_by_sorted, strict_on_sel. by apply part_strict.
Qed.
Lemma elem_of_page from t r : r ∈ page_of from t ↔ r ∈ t ∧ base r = true ∧ ahead from r = true.
Proof. unfold page_of. by rewrite order_by_perm, elem_of_sel, andb_true_iff. Qed.

(** A page that is not the last one: its rows, and the rows after them. *)
Lemma page_splits from t : (Z.to_nat n < length (page_of from t))%nat →
  ∃ l y rest, page_of from t = l ++ y :: rest ∧
    trim_page n key (take (Z.to_nat (n + 1)) (page_of from t)) = (l ++ [y], Some (key y)).
Proof using Hn.
  intros Hlen. set (P := page_of from t) in *.
  destruct (last (take (Z.to_nat n) P)) as [y|] eqn:Ey.
  2: { apply last_None, (f_equal length) in Ey. rewrite length_take in Ey. simpl in Ey. lia. }
  pose proof Ey as Hy. apply last_Some in Hy as [l Hl]. exists l, y, (drop (Z.to_nat n) P). split.
  - rewrite <- (take_drop (Z.to_nat n) P) at 1. by rewrite Hl, <- app_assoc.
  - unfold trim_page. rewrite length_take, decide_True by lia. rewrite take_take, Nat.min_l by lia.
    by rewrite Ey, Hl.
Qed.
Lemma page_last from t : (length (page_of from t) <= Z.to_nat n)%nat →
  trim_page n key (take (Z.to_nat (n + 1)) (page_of from t)) = (page_of from t, None).
Proof using Hn. intros Hlen. unfold trim_page. rewrite take_ge by lia. by rewrite decide_False by lia. Qed.

(** A row with place [k] that passes the filters is in [t]. *)
Definition holds_place (k : K) (t : list R) : Prop := ∃ r, r ∈ t ∧ place r = k ∧ base r = true.
(** The place [k] is ahead of a client whose last row was [from]. *)
Definition place_ahead (from : option R) (k : K) : bool :=
  match from with None => true | Some x => sooner (place x) k end.

Lemma ahead_place from r : ahead from r = place_ahead from (place r).
Proof using Hbefore. destruct from; simpl; auto. Qed.

Lemma browse_from ts from shown complete :
  Forall part ts → (∀ x, from = Some x → U (place x)) →
  browse (fetch_page n base before key keyset <$> ts) (key <$> from) = (shown, complete) →
  sorted before shown ∧
  (∀ r, r ∈ shown → base r = true ∧ ahead from r = true ∧ ∃ t, t ∈ ts ∧ r ∈ t) ∧
  (complete = true → ∀ k, place_ahead from k = true → (∀ t, t ∈ ts → holds_place k t) →
     ∃ r, r ∈ shown ∧ place r = k).
Proof using Hn Hirrefl Htrans Htotal Hbefore Hkey.
  intros Hts. revert from shown complete. induction Hts as [|t ts Ht Hts IH]; intros from shown complete Hx.
  { intros [= <- <-]. split; [constructor|]. by split; [intros r ?%elem_of_nil|]. }
  cbn [fmap list_fmap browse]. rewrite (fetch_from from t Ht Hx). pose proof (page_of_sorted from t Ht) as Hs.
  destruct (decide (Z.to_nat n < length (page_of from t))%nat) as [Hlen|Hlen].
  2: { rewrite page_last by lia. intros [= <- <-]. split; [done|]. split.
       - intros r (Hr & Hb & Ha)%elem_of_page. split_and!; [done..|]. exists t. split; [by left|done].
       - intros _ k Ha Hk. destruct (Hk t ltac:(by left)) as (r & Hr & <- & Hb). exists r. split; [|done].
         apply elem_of_page. rewrite ahead_place. by split_and!. }
  destruct (page_splits from t Hlen) as (l & y & rest & Hp & ->).
  assert (Hyt : y ∈ t ∧ base y = true ∧ ahead from y = true).
  { apply elem_of_page. rewrite Hp. apply elem_of_app. right. by left. }
  destruct (browse _ (Some (key y))) as [more fin] eqn:Eb. intros [= <- <-].
  destruct (IH (Some y) more fin) as (Hms & Hmr & Hmc); [|exact Eb|].
  { intros x [= <-]. by apply (proj2 Ht), Hyt. }
  rewrite Hp in Hs. split_and!.
  - eapply sorted_pages; [apply before_trans|exact Hs|exact Hms|]. intros r Hr. by apply (Hmr r Hr).
  - intros r [Hr|Hr]%elem_of_app.
    + assert (Hr' : r ∈ page_of from t) by (rewrite Hp; set_solver).
      apply elem_of_page in Hr' as (? & ? & ?). split_and!; [done..|]. exists t. split; [by left|done].
    + destruct (Hmr r Hr) as (Hb & Ha & t' & Ht' & Hr'). split_and!; [done| |exists t'; split; [by right|done]].
      by eapply ahead_trans; [apply Hyt|].
  - intros Hc k Ha Hk. destruct (Hk t ltac:(by left)) as (r & Hr & <- & Hb).
    assert (Hr' : r ∈ page_of from t) by (apply elem_of_page; rewrite ahead_place; by split_and!).
    rewrite Hp in Hr'. apply elem_of_app in Hr' as [Hr'|[->|Hr']%elem_of_cons];
      [exists r; split; [set_solver|done]|exists y; split; [set_solver|done]|].
    destruct (Hmc Hc (place r)) as (r' & Hr1 & Hr2); [|by intros; apply Hk; right|exists r'; split; [set_solver|done]].
    simpl. rewrite <- Hbefore. apply StronglySorted_app in Hs as (_ & _ & Hs). inversion Hs as [|? ? _ Hf]; subst.
    rewrite Forall_forall in Hf. by apply Hf.
Qed.

(** A client that pages through a changing table sees no place twice, in the
    order asked for, every row as it was when its page was read, and once it
    has reached the last page it has seen every place that held a matching row
    all the time. *)
Lemma browse_moving ts shown complete :
  Forall part ts → browse (fetch_page n base before key keyset <$> ts) None = (shown, complete) →
  sorted before shown ∧ NoDup (place <$> shown) ∧ (∀ r, r ∈ shown → base r = true ∧ ∃ t, t ∈ ts ∧ r ∈ t) ∧
  (complete = true → ∀ k, (∀ t, t ∈ ts → holds_place k t) → ∃ r, r ∈ shown ∧ place r = k).
Proof using Hn Hirrefl Htrans Htotal Hbefore Hkey.
  intros Hts Eb. destruct (browse_from ts None shown complete Hts) as (Hs & Hr & Hc); [done|exact Eb|].
  assert (Hin : ∀ r, r ∈ shown → U (place r)).
  { intros r (_ & _ & t & Ht & Hrt)%Hr. rewrite Forall_forall in Hts. by apply (Hts t). }
  split_and!; [done| |intros r (? & _ & ?)%Hr; done|intros Hd k Hts'; by apply Hc].
  clear -Hs Hin Hirrefl Hbefore. induction Hs as [|r l Hs IH Hf]; constructor.
  - intros (r' & E & Hrl)%list_elem_of_fmap. rewrite Forall_forall in Hf. specialize (Hf r' Hrl).
    rewrite Hbefore, <- E, Hirrefl in Hf; [done|]. apply Hin. by left.
  - apply IH. intros; apply Hin; by right.
Qed.

End Moving.

(** ** Tuple comparisons: (created_at, id) and (name, id) *)

Section Tuples.
Context `{Runtime}.

Definition time_id_lt (t1 : Z) (id1 : string) (t2 : Z) (id2 : string) : bool :=
  bool_decide (t1 < t2) || bool_decide (t1 = t2) && rt_collate_lt id1 id2.
Definition name_id_lt (n1 id1 n2 id2 : string) : bool :=
  rt_collate_lt n1 n2 || rt_collate n1 n2 && rt_collate_lt id1 id2.

Context {laws : RuntimeLaws}.

Lemma collate_lt_irrefl s : rt_collate_lt s s = false.
Proof using laws.
  destruct (rt_collate_lt s s) eqn:E; [|done].
  apply rt_collate_lt_neq in E. by rewrite rt_collate_refl in E.
Qed.

Lemma time_id_lt_irrefl t id : time_id_lt t id t id = false.
Proof using laws.
  unfold time_id_lt. rewrite collate_lt_irrefl, andb_false_r, orb_false_r.
  apply bool_decide_eq_false. lia.
Qed.

Lemma time_id_lt_trans t1 i1 t2 i2 t3 i3 :
  time_id_lt t1 i1 t2 i2 = true → time_id_lt t2 i2 t3 i3 = true → time_id_lt t1 i1 t3 i3 = true.
Proof using laws.
  unfold time_id_lt. rewrite !orb_true_iff, !andb_true_iff, !bool_decide_eq_true.
  intros [?|[-> ?]] [?|[-> ?]]; eauto using rt_collate_lt_trans with lia.
Qed.

Lemma time_id_lt_total t1 i1 t2 i2 :
  rt_collate i1 i2 = true ∨ time_id_lt t1 i1 t2 i2 = true ∨ time_id_lt t2 i2 t1 i1 = true.
Proof using laws.
  unfold time_id_lt. rewrite !orb_true_iff, !andb_true_iff, !bool_decide_eq_true.
  destruct (rt_collate_lt_total i1 i2) as [?|[?|?]], (Z.lt_trichotomy t1 t2) as [?|[->|?]]; tauto.
Qed.

Lemma name_id_lt_irrefl n id : name_id_lt n id n id = false.
Proof using laws. unfold name_id_lt. by rewrite !collate_lt_irrefl, andb_false_r. Qed.

Lemma name_id_lt_trans n1 i1 n2 i2 n3 i3 :
  name_id_lt n1 i1 n2 i2 = true → name_id_lt n2 i2 n3 i3 = true → name_id_lt n1 i1 n3 i3 = true.
Proof using laws.
  unfold name_id_lt. rewrite !orb_true_iff, !andb_true_iff.
  intros [H1|[E1 H1]] [H2|[E2 H2]].
  - left. by eapply rt_collate_lt_trans.
  - left. by rewrite <- (rt_collate_lt_r _ _ _ E2).
  - left. by rewrite (rt_collate_lt_l _ _ _ E1).
  - right. split; [by eapply rt_collate_trans|by eapply rt_collate_lt_trans].
Qed.

Lemma name_id_lt_total n1 i1 n2 i2 :
  rt_collate i1 i2 = true ∨ name_id_lt n1 i1 n2 i2 = true ∨ name_id_lt n2 i2 n1 i1 = true.
Proof using laws.
  unfold name_id_lt. rewrite !orb_true_iff, !andb_true_iff, (rt_collate_sym n2 n1).
  destruct (rt_collate_lt_total i1 i2) as [?|[?|?]], (rt_collate_lt_total n1 n2) as [?|[?|?]]; tauto.
Qed.

Lemma collate_lt_total i1 i2 :
  rt_collate i1 i2 = true ∨ rt_collate_lt i1 i2 = true ∨ rt_collate_lt i2 i1 = true.
Proof using laws. apply rt_collate_lt_total. Qed.

(** A table whose key columns are distinct is strictly ordered by any
    comparison that breaks ties with the key. *)
Lemma strict_on_key {R} (before : R → R → bool) (id : R → string) (t : list R) :
  (∀ r, before r r = false) →
  (∀ r1 r2 r3, before r1 r2 = true → before r2 r3 = true → before r1 r3 = true) →
  (∀ r r', rt_collate (id r) (id r') = true ∨ before r r' = true ∨ before r' r = true) →
  uniq (λ r r', rt_collate (id r) (id r')) t = true →
  strict_on before t.
Proof using laws.
  intros Hi Ht Hl Hu. split; [|by auto|exact Ht|].
  - clear -Hu laws. induction t as [|r t IH]; simpl in Hu; [constructor|].
    apply andb_true_iff in Hu as [Hf Hu]. constructor; [|auto]. intros Hr.
    rewrite forallb_forall in Hf. specialize (Hf r ltac:(by apply list_elem_of_In)).
    by rewrite rt_collate_refl in Hf.
  - intros r r' Hr Hr'. destruct (Hl r r') as [Hc|?]; [|tauto]. left.
    eapply uniq_elem; [|exact Hu|exact Hr|exact Hr'|exact Hc].
    intros; apply rt_collate_sym.
Qed.

End Tuples.
