(* ===== verification/Kernel.v ===== *)
(** * Kernel: etags, the request context, SQL helpers, page tokens, page sizes.

    internal/kernel (etag, actor, cursor, dbutil) and the shared helpers of
    modules/audit/auditx. Ends with the round trips of page tokens and etags,
    and a concrete page-token codec. *)
From S2P Require Import Prelude Errors Monad Runtime.
Local Open Scope Z_scope.

Abbreviation Etag := string (only parsing).
Abbreviation Time := Z (only parsing).   (* nanoseconds since Go's zero instant *)

Definition IsZero (t : Time) : bool := bool_decide (t = 0).
Definition Before (t u : Time) : bool := bool_decide (t < u)%Z.
Definition After (t u : Time) : bool := bool_decide (u < t)%Z.

(** ** kernel/actor *)

Inductive Kind := KindUser | KindServiceAccount.
#[export] Instance Kind_eq_dec : EqDecision Kind.
Proof. solve_decision. Defined.

Record Actor := mkActor {
  a_ID : string;
  a_Kind : Kind;
  a_SessionID : string;
  a_IpAddress : string;
  a_UserAgent : string }.

(** The request context: the actor the interceptor injected, the incoming
    metadata (absent when the transport attached none) and the peer address. *)
Record Ctx := mkCtx {
  ctx_actor : option Actor;
  ctx_metadata : option (list (string * list string));
  ctx_peer : option string }.

Definition IsUser (a : Actor) : bool := bool_decide (a_Kind a = KindUser).
Definition IsServiceAccount (a : Actor) : bool := bool_decide (a_Kind a = KindServiceAccount).

Definition Inject (ctx : Ctx) (a : Actor) : Ctx :=
  mkCtx (Some a) (ctx_metadata ctx) (ctx_peer ctx).
Definition From_ctx (ctx : Ctx) : option Actor := ctx_actor ctx.
Definition Require_actor (ctx : Ctx) : res Actor :=
  match From_ctx ctx with
  | Some a => Ok a
  | None => Err (ESentinel actor_ErrNoActor)
  end.

Section Kernel.
Context `{Runtime}.

(** ** kernel/etag *)

Definition etag_Parse (s : string) : res Etag :=
  if rt_uuid_valid s then Ok s else Err (EValidation "etag" "must be a valid UUID").

(** ** modules/audit/auditx: etag wildcard, page sizes *)

Definition EtagWildcard : string := "*".

Definition ParseExpectedEtag (s : string) (required : bool) : res Etag :=
  if decide (s = "") then
    if required then Err (EValidation "etag" "must be provided") else Ok ""
  else if decide (s = EtagWildcard) then Ok ""
  else etag_Parse s.

Definition DefaultListPageSize : Z := 50.
Definition MaxListPageSize : Z := 1000.

Definition ClampPageSizeWithMax (raw defSize maxSize : Z) : res Z :=
  if decide (raw < 0)%Z then Err (EValidation "page_size" "must be ≥ 0")
  else if decide (raw = 0) then Ok defSize
  else if decide (maxSize < raw)%Z then Ok maxSize
  else Ok raw.

Definition ClampPageSize (raw : Z) : res Z :=
  ClampPageSizeWithMax raw DefaultListPageSize MaxListPageSize.

End Kernel.

(** ** kernel/dbutil *)

(** sql.NullString and sql.NullTime are options. *)
Definition StringToNullString (s : string) : option string :=
  if decide (s = "") then None else Some s.
Definition TimeToNullTime (t : Time) : option Time :=
  if IsZero t then None else Some t.
Definition BytesToNullString (h : bytes) : option bytes :=
  if decide (len h = 0) then None else Some h.
Definition null_string (o : option string) : string := default "" o.
Definition null_time (o : option Time) : Time := default 0%Z o.

Lemma null_string_roundtrip s : null_string (StringToNullString s) = s.
Proof. unfold StringToNullString. by case_decide. Qed.

Lemma null_bytes_roundtrip s : null_string (BytesToNullString s) = s.
Proof. unfold BytesToNullString. case_decide as E; [|done]. by apply len_zero in E as ->. Qed.

Lemma null_time_roundtrip t : null_time (TimeToNullTime t) = t.
Proof. unfold TimeToNullTime, IsZero. by case_bool_decide. Qed.

#[global] Hint Rewrite null_string_roundtrip null_bytes_roundtrip null_time_roundtrip : sso_simpl.

Definition mysqlErrDup : Z := 1062.
Definition IsDuplicateEntry (err : error) : bool :=
  match errors_as_mysql err with
  | Some n => bool_decide (n = mysqlErrDup)
  | None => false
  end.

(** [Discriminate]: why did a conditional UPDATE/DELETE match 0 rows? *)
Definition Discriminate {S} (expectedEtag : Etag) (count : M S Z)
    (errNotFound errEtagMismatch : error) : M S unit :=
  if decide (expectedEtag = "") then throw errNotFound
  else
    c <- count catch err => throw (EWrap "dbutil: discriminate" err) ;;
    if decide (c = 0) then throw errNotFound else throw errEtagMismatch.

(** [EscapeLike]: a backslash before each of backslash, percent and underscore. *)
Definition like_escape : Ascii.ascii := Ascii.ascii_of_nat 92.
Definition like_any : Ascii.ascii := Ascii.ascii_of_nat 37.
Definition like_one : Ascii.ascii := Ascii.ascii_of_nat 95.

Fixpoint EscapeLike (s : string) : string :=
  match s with
  | EmptyString => EmptyString
  | String c s' =>
      if decide (c = like_escape ∨ c = like_any ∨ c = like_one)
      then String like_escape (String c (EscapeLike s'))
      else String c (EscapeLike s')
  end.

(** The documented meaning of a LIKE pattern, character by character (the
    collation is left aside): [like pat s] holds when [s] matches [pat]. *)
Inductive like : string → string → Prop :=
  | like_nil : like "" ""
  | like_any_skip p s : like p s → like (String like_any p) s
  | like_any_eat p c s : like (String like_any p) s → like (String like_any p) (String c s)
  | like_one_eat p c s : like p s → like (String like_one p) (String c s)
  | like_esc p c s : like p s → like (String like_escape (String c p)) (String c s)
  | like_char p c s : c ≠ like_escape → c ≠ like_any → c ≠ like_one →
      like p s → like (String c p) (String c s).

(** The search filter of the listing queries: "%" + EscapeLike(q) + "%". *)
Definition like_contains (q : string) : string := "%" +:+ EscapeLike q +:+ "%".

Lemma append_cons c a b : String c a +:+ b = String c (a +:+ b).
Proof. done. Qed.

Lemma like_any_all s : like "%" s.
Proof. induction s; [by repeat constructor|]. by apply like_any_eat. Qed.

Lemma EscapeLike_like_app q p s :
  like (EscapeLike q +:+ p) s ↔ ∃ t, s = q +:+ t ∧ like p t.
Proof.
  revert s. induction q as [|c q IH]; intros s; simpl.
  { split; [by eauto|]. intros (t & -> & Ht). done. }
  case_decide as Hc; rewrite ?append_cons; split.
  - intros Hl. inversion Hl; subst; try (exfalso; unfold like_escape, like_any, like_one in *; congruence).
    all: match goal with H : like (EscapeLike _ +:+ _) _ |- _ => apply IH in H as (t & -> & Ht) end.
    all: exists t; split; [done|done].
  - intros (t & -> & Ht). rewrite append_cons. constructor. apply IH. eauto.
  - intros Hl. inversion Hl; subst; try (exfalso; tauto).
    match goal with H : like (EscapeLike _ +:+ _) _ |- _ => apply IH in H as (t & -> & Ht) end.
    exists t; split; [done|done].
  - intros (t & -> & Ht). rewrite append_cons. constructor; [tauto..|]. apply IH. eauto.
Qed.

Lemma like_any_inv p s : like (String like_any p) s ↔ ∃ a b, s = a +:+ b ∧ like p b.
Proof.
  split.
  - intros Hl. remember (String like_any p) as pat eqn:E. revert p E.
    induction Hl; intros p' E; simplify_eq.
    + by exists "", s.
    + destruct (IHHl p' eq_refl) as (a & b & -> & Hb). by exists (String c a), b.
  - intros (a & b & -> & Hb). induction a as [|c a IH]; [by constructor|].
    rewrite append_cons. by constructor.
Qed.

(** ** kernel/cursor: base64url without padding *)

Definition b64_char (n : Z) : Ascii.ascii :=
  Ascii.ascii_of_N (Z.to_N
    (if decide (n < 26) then 65 + n
     else if decide (n < 52) then 97 + (n - 26)
     else if decide (n < 62) then 48 + (n - 52)
     else if decide (n = 62) then 45 else 95)).

Definition b64_val (a : Ascii.ascii) : option Z :=
  let n := byte_of a in
  if decide (65 <= n <= 90) then Some (n - 65)
  else if decide (97 <= n <= 122) then Some (n - 71)
  else if decide (48 <= n <= 57) then Some (n + 4)
  else if decide (n = 45) then Some 62
  else if decide (n = 95) then Some 63
  else None.

(** Bytes to sextets and back, three bytes at a time. *)
Fixpoint to_sextets (l : list Z) : list Z :=
  match l with
  | a :: b :: c :: l' =>
      a / 4 :: (a mod 4) * 16 + b / 16 :: (b mod 16) * 4 + c / 64 :: c mod 64 :: to_sextets l'
  | [a; b] => [a / 4; (a mod 4) * 16 + b / 16; (b mod 16) * 4]
  | [a] => [a / 4; (a mod 4) * 16]
  | [] => []
  end%Z.

(** The non-strict decoder: trailing bits of a partial group are dropped, a
    group of one character is an error. *)
Fixpoint of_sextets (l : list Z) : option (list Z) :=
  match l with
  | p :: q :: r :: s :: l' =>
      rest ← of_sextets l';
      Some (p * 4 + q / 16 :: (q mod 16) * 16 + r / 4 :: (r mod 4) * 64 + s :: rest)
  | [p; q; r] => Some [p * 4 + q / 16; (q mod 16) * 16 + r / 4]
  | [p; q] => Some [p * 4 + q / 16]
  | [_] => None
  | [] => Some []
  end%Z.

Definition byte_chr (z : Z) : Ascii.ascii := Ascii.ascii_of_N (Z.to_N z).

Definition RawURLEncoding_EncodeToString (b : bytes) : string :=
  string_of_list (b64_char <$> to_sextets (byte_of <$> string_to_list b)).

(** DecodeString skips carriage returns and line feeds. *)
Definition b64_significant (a : Ascii.ascii) : bool :=
  bool_decide (byte_of a ≠ 10 ∧ byte_of a ≠ 13).

Definition RawURLEncoding_DecodeString (s : string) : option bytes :=
  vs ← mapM b64_val (List.filter b64_significant (string_to_list s));
  bs ← of_sextets vs;
  Some (string_of_list (byte_chr <$> bs)).

(** encoding/json on the page-token structures: [json_marshal] can fail (a
    year outside [0, 9999]); unmarshalling an empty input is an error. *)
Class JsonCodec (T : Type) := {
  json_marshal : T → option string;
  json_unmarshal : string → option T }.
Class JsonLaws (T : Type) `{JsonCodec T} : Prop := {
  json_roundtrip : ∀ v s, json_marshal v = Some s → json_unmarshal s = Some v;
  json_empty : json_unmarshal "" = None }.

Section Cursor.
Context {T : Type} `{JsonCodec T}.

Definition cursor_Encode (v : option T) : res string :=
  match v with
  | None => Ok ""
  | Some v =>
      match json_marshal v with
      | Some raw => Ok (RawURLEncoding_EncodeToString raw)
      | None => Err (EMsg "json: marshal")
      end
  end.

Definition cursor_Decode (s : string) : res (option T) :=
  if decide (s = "") then Ok None
  else
    match RawURLEncoding_DecodeString s with
    | None => Err (EMsg "illegal base64 data")
    | Some raw =>
        match json_unmarshal raw with
        | Some v => Ok (Some v)
        | None => Err (EMsg "json: unmarshal")
        end
    end.

End Cursor.

(** * Theorems about the codecs: page tokens, LIKE filters, page sizes, etags *)

(** ** base64url *)

Lemma byte_chr_of c : byte_chr (byte_of c) = c.
Proof. unfold byte_chr, byte_of. by rewrite N2Z.id, Ascii.ascii_N_embedding. Qed.

Lemma b64_char_val n : 0 <= n < 64 → b64_val (b64_char n) = Some n ∧ b64_significant (b64_char n) = true.
Proof.
  intros Hn. rewrite <- (Z2Nat.id n) in * by lia.
  assert (Z.to_nat n < 64)%nat as Hm by lia. clear Hn. revert Hm. generalize (Z.to_nat n) as m.
  intros m Hm. do 64 (destruct m as [|m]; [by vm_compute|]). lia.
Qed.

Definition sextet (z : Z) : Prop := 0 <= z < 64.
Definition octet (z : Z) : Prop := 0 <= z < 256.

(** Three-at-a-time induction, the recursion scheme of the encoder. *)
Lemma list_ind3 {A} (P : list A → Prop) :
  P [] → (∀ a, P [a]) → (∀ a b, P [a; b]) → (∀ a b c l, P l → P (a :: b :: c :: l)) → ∀ l, P l.
Proof.
  intros H0 H1 H2 H3 l. induction l as [l IH] using (induction_ltof1 _ (@length A)).
  unfold ltof in IH. destruct l as [|a [|b [|c l]]]; auto. apply H3, IH. simpl. lia.
Qed.

Lemma to_sextets_range l : Forall octet l → Forall sextet (to_sextets l).
Proof.
  unfold octet, sextet. induction l as [|a|a b|a b c l IH] using list_ind3; simpl; intros Hl;
    repeat (apply Forall_cons in Hl as [? Hl]); repeat (apply Forall_cons; split); auto;
    Z.to_euclidean_division_equations; lia.
Qed.

Lemma of_to_sextets l : Forall octet l → of_sextets (to_sextets l) = Some l.
Proof.
  unfold octet. induction l as [|a|a b|a b c l IH] using list_ind3; intros Hl;
    repeat (apply Forall_cons in Hl as [? Hl]); simpl; try rewrite IH by done; simpl;
    repeat f_equal; Z.to_euclidean_division_equations; lia.
Qed.

Lemma b64_chars_filter l : Forall sextet l → List.filter b64_significant (b64_char <$> l) = b64_char <$> l.
Proof.
  induction 1 as [|z l Hz Hl IH]; csimpl; [done|].
  destruct (b64_char_val z Hz) as [_ ->]. by rewrite IH.
Qed.

Lemma b64_chars_decode l : Forall sextet l → mapM b64_val (b64_char <$> l) = Some l.
Proof.
  intros Hl. apply mapM_Some, Forall2_fmap_l, Forall_Forall2_diag.
  eapply Forall_impl; [done|]. intros z Hz. by apply b64_char_val.
Qed.

Lemma octets_of_string s : Forall octet (byte_of <$> string_to_list s).
Proof. apply Forall_fmap, Forall_true. intros c. apply byte_of_range. Qed.

Lemma base64_roundtrip (b : bytes) :
  RawURLEncoding_DecodeString (RawURLEncoding_EncodeToString b) = Some b.
Proof.
  unfold RawURLEncoding_DecodeString, RawURLEncoding_EncodeToString.
  pose proof (octets_of_string b) as Hb.
  pose proof (to_sextets_range _ Hb) as Hs.
  rewrite string_to_of_list, b64_chars_filter, b64_chars_decode by done. simpl.
  rewrite of_to_sextets by done. simpl. f_equal.
  rewrite <- list_fmap_compose, (list_fmap_ext _ id), list_fmap_id.
  - apply string_of_to_list.
  - intros ? c _. apply byte_chr_of.
Qed.

Lemma encode_nonempty b : b ≠ "" → RawURLEncoding_EncodeToString b ≠ "".
Proof.
  intros Hb E. apply Hb. pose proof (base64_roundtrip b) as Hr. rewrite E in Hr.
  vm_compute in Hr. by inversion Hr.
Qed.

Section Cursors.
Context {T : Type} `{JsonLaws T}.

Lemma cursor_decode_encode (v : option T) (s : string) :
  cursor_Encode v = Ok s → cursor_Decode s = Ok v ∧ (s = "" ↔ v = None).
Proof.
  unfold cursor_Encode, cursor_Decode. destruct v as [v|]; [|by intros [= <-]].
  destruct (json_marshal v) as [raw|] eqn:Em; [|done]. intros [= <-].
  pose proof (json_roundtrip _ _ Em) as Hu.
  assert (Hne : RawURLEncoding_EncodeToString raw ≠ "").
  { apply encode_nonempty. intros ->. by rewrite json_empty in Hu. }
  rewrite decide_False by done. by rewrite base64_roundtrip, Hu.
Qed.

(** A page token the server hands out decodes to the cursor it was made
    from; the empty token stands for "no cursor", and only that. *)
Theorem cursor_roundtrip (v : option T) (s : string) :
  cursor_Encode v = Ok s → cursor_Decode s = Ok v ∧ (s = "" ↔ v = None).
Proof. apply cursor_decode_encode. Qed.
End Cursors.

(** ** Search filters *)

(** The pattern of the [search] filter matches exactly the rows that contain
    the searched text, whatever metacharacters the text holds. *)
Theorem EscapeLike_substring (q s : string) :
  like (like_contains q) s ↔ ∃ a b, s = a +:+ q +:+ b.
Proof.
  unfold like_contains. change "%" with (String like_any "") at 1. rewrite append_cons.
  change ("" +:+ (EscapeLike q +:+ "%")) with (EscapeLike q +:+ "%").
  rewrite like_any_inv. split.
  - intros (a & b & -> & (t & -> & _)%EscapeLike_like_app). eauto.
  - intros (a & b & ->). exists a, (q +:+ b). split; [done|].
    apply EscapeLike_like_app. eauto using like_any_all.
Qed.

(** ** Page sizes and etags *)

(** A page size that passes is positive and at most the cap, zero means the
    default, and only negative sizes are refused. *)
Theorem ClampPageSize_bounds (raw : Z) :
  (raw < 0 ∧ ClampPageSize raw = Err (EValidation "page_size" "must be ≥ 0")) ∨
  (0 <= raw ∧ ∃ n, ClampPageSize raw = Ok n ∧ 1 <= n <= MaxListPageSize ∧
     (raw = 0 → n = DefaultListPageSize) ∧ (1 <= raw <= MaxListPageSize → n = raw)).
Proof.
  unfold ClampPageSize, ClampPageSizeWithMax, MaxListPageSize, DefaultListPageSize.
  repeat case_decide; [left; done|right..]; (split; [lia|]); eexists; (split; [reflexivity|]);
    repeat split; lia.
Qed.

(** The expected etag of a mutating request: the wildcard and, when it may be
    omitted, the empty string mean "unconditional"; anything else must be a
    UUID and is compared as it is. *)
Theorem ParseExpectedEtag_spec `{RuntimeLaws} (s : string) (required : bool) (e : Etag) :
  ParseExpectedEtag s required = Ok e ↔
  (e = "" ∧ (s = EtagWildcard ∨ s = "" ∧ required = false)) ∨
  (e = s ∧ rt_uuid_valid s = true).
Proof.
  unfold ParseExpectedEtag, etag_Parse, EtagWildcard.
  pose proof rt_uuid_valid_nonempty as He. pose proof rt_uuid_valid_star as Hs.
  case_decide as E1; [subst; destruct required
                     |case_decide as E2; [subst|destruct (rt_uuid_valid s) eqn:Ev]].
  all: split; [intros Hr; simplify_eq; auto 6|intros [(-> & [?|[? ?]])|[-> ?]]; congruence].
Qed.

Lemma ParseExpectedEtag_spec_witness :
  @ParseExpectedEtag (Toy.runtime false) "id7" true = Ok "id7".
Proof.
  apply (@ParseExpectedEtag_spec (Toy.runtime false) (Toy.runtime_laws false) "id7" true "id7").
  right. split; reflexivity.
Defined.

(** A codec on strings, for the witness below. *)
Definition string_codec : JsonCodec string := {|
  json_marshal s := Some ("j" +:+ s);
  json_unmarshal t := match t with String _ s => Some s | EmptyString => None end |}.
Lemma string_codec_laws : @JsonLaws string string_codec.
Proof. split; [by intros v raw [= <-]|done]. Qed.

Lemma cursor_roundtrip_witness :
  @cursor_Decode string string_codec (RawURLEncoding_EncodeToString "jab") = Ok (Some "ab").
Proof.
  exact (proj1 (@cursor_roundtrip string string_codec string_codec_laws (Some "ab") _ eq_refl)).
Defined.
