(* ===== verification/AuditDomain.v ===== *)
(** * AuditDomain: the audit event aggregate and its sanitiser.

    modules/audit/internal/domain (audit.go, event_type.go, ids.go,
    subject_type.go, reasons.go), modules/audit/auditx/classify.go and
    platform/audit/bus/sanitize.go. Enumerations are the integers the code
    uses; an audit's metadata is a finite map. *)
From stdpp Require Import gmap.
From S2P Require Import Prelude Errors Monad Runtime Kernel.
Local Open Scope Z_scope.

(** ** Event types *)

Definition event_slugs : list (Z * string) := [
  (1, "identity.create_user"); (2, "identity.get_user"); (3, "identity.list_users");
  (4, "identity.update_user"); (5, "identity.disable_user"); (6, "identity.enable_user");
  (7, "identity.soft_delete_user"); (8, "identity.permanently_delete_user");
  (21, "app.create_app"); (22, "app.get_app"); (23, "app.list_apps"); (24, "app.update_app");
  (25, "app.disable_app"); (26, "app.enable_app"); (27, "app.enter_maintenance_mode");
  (28, "app.exit_maintenance_mode"); (29, "app.permanently_delete_app");
  (41, "role.create_role"); (42, "role.get_role"); (43, "role.list_roles");
  (44, "role.update_role"); (45, "role.disable_role"); (46, "role.enable_role");
  (47, "role.permanently_delete_role");
  (61, "service_account.create_service_account"); (62, "service_account.get_service_account");
  (63, "service_account.list_service_account"); (64, "service_account.update_service_account");
  (65, "service_account.rotate_credentials"); (66, "service_account.disable_service_account");
  (67, "service_account.enable_service_account");
  (68, "service_account.permanently_delete_service_account");
  (81, "access.has_role_in_app"); (82, "access.list_user_roles"); (83, "access.check_permission");
  (84, "access.batch_check_permission"); (85, "access.grant_role_to_user");
  (86, "access.remove_role_from_user"); (87, "access.bulk_grant_roles");
  (88, "access.bulk_remove_roles");
  (101, "auth.register"); (102, "auth.login"); (103, "auth.logout"); (104, "auth.refresh");
  (105, "auth.validate_token"); (106, "auth.change_password"); (107, "auth.list_sessions");
  (108, "auth.revoke_session"); (109, "auth.revoke_all_sessions"); (110, "auth.revoke_token");
  (111, "auth.generate_recovery_codes"); (112, "auth.reset_password_with_recovery_code");
  (113, "auth.authenticate_service_account")].

Fixpoint assoc_slug (l : list (Z * string)) (e : Z) : option string :=
  match l with
  | [] => None
  | (n, s) :: l' => if decide (n = e) then Some s else assoc_slug l' e
  end.

Definition EventType_String (e : Z) : string := default "unknown" (assoc_slug event_slugs e).
Definition EventType_IsKnown (e : Z) : bool :=
  bool_decide (e ≠ 0) && bool_decide (EventType_String e ≠ "unknown").

(** [eventTypeBySlug]: the loop over 1 .. 199 that fills the reverse map. *)
Definition eventTypeBySlug : gmap string Z :=
  fold_left (λ m et,
      let s := EventType_String et in
      if decide (s = "unknown") then m else <[s := et]> m)
    (Z.of_nat <$> seq 1 199) ∅.
Definition ParseEventTypeSlug (slug : string) : Z := default 0 (eventTypeBySlug !! slug).

(** ** Actor, outcome and subject enumerations *)

Definition ActorTypeUnknown : Z := 0.
Definition ActorTypeUser : Z := 1.
Definition ActorTypeService : Z := 2.
Definition ActorTypeSystem : Z := 3.
Definition ActorTypeAnonymous : Z := 4.
Definition ActorType_String (a : Z) : string :=
  if decide (a = ActorTypeUser) then "user"
  else if decide (a = ActorTypeService) then "service_account"
  else if decide (a = ActorTypeSystem) then "system"
  else if decide (a = ActorTypeAnonymous) then "anonymous"
  else "unknown".
Definition ActorType_IsKnown (a : Z) : bool :=
  bool_decide (a = ActorTypeUser ∨ a = ActorTypeService ∨ a = ActorTypeSystem ∨ a = ActorTypeAnonymous).
Definition RequiresActorID (a : Z) : bool :=
  bool_decide (a = ActorTypeUser ∨ a = ActorTypeService).

Definition OutcomeUnknown : Z := 0.
Definition OutcomeSuccess : Z := 1.
Definition OutcomeFailure : Z := 2.
Definition OutcomeDenied : Z := 3.
Definition Outcome_String (o : Z) : string :=
  if decide (o = OutcomeSuccess) then "success"
  else if decide (o = OutcomeFailure) then "failure"
  else if decide (o = OutcomeDenied) then "denied"
  else "unknown".
Definition Outcome_IsKnown (o : Z) : bool :=
  bool_decide (o = OutcomeSuccess ∨ o = OutcomeFailure ∨ o = OutcomeDenied).

Definition SubjectTypeUnknown : Z := 0.
Definition SubjectTypeUser : Z := 1.
Definition SubjectTypeRole : Z := 2.
Definition SubjectTypeApp : Z := 3.
Definition SubjectTypeSession : Z := 4.
Definition SubjectTypeRoleAssignment : Z := 5.
Definition SubjectTypeServiceAccount : Z := 6.
Definition SubjectType_String (s : Z) : string :=
  if decide (s = SubjectTypeUser) then "user"
  else if decide (s = SubjectTypeRole) then "role"
  else if decide (s = SubjectTypeApp) then "app"
  else if decide (s = SubjectTypeSession) then "session"
  else if decide (s = SubjectTypeRoleAssignment) then "role_assignment"
  else if decide (s = SubjectTypeServiceAccount) then "service_account"
  else "unknown".
Definition SubjectType_IsKnown (s : Z) : bool := bool_decide (1 <= s <= 6).

(** ** The aggregate *)

Definition MetadataMaxEntries : nat := 32.
Definition MetadataKeyMaxLen : Z := 64.
Definition MetadataValueMaxLen : Z := 512.
Definition UserAgentMaxLen : nat := 512.
Definition ReasonMaxLen : Z := 128.

Record Audit := mkAudit {
  au_id : string;
  au_eventType : Z;
  au_actorType : Z;
  au_actorID : string;
  au_subjectType : Z;
  au_subjectID : string;
  au_appID : string;
  au_outcome : Z;
  au_reason : string;
  au_ipAddress : option string;   (* None is the zero netip.Addr *)
  au_userAgent : string;
  au_metadata : gmap string string;
  au_occurredAt : Time }.

Record NewAuditParams := mkNewAuditParams {
  ap_ID : string;
  ap_EventType : Z;
  ap_ActorType : Z;
  ap_ActorID : string;
  ap_SubjectType : Z;
  ap_SubjectID : string;
  ap_AppID : string;
  ap_Outcome : Z;
  ap_Reason : string;
  ap_IpAddress : string;
  ap_UserAgent : string;
  ap_Metadata : gmap string string;
  ap_Now : Time }.

(** The field assignments the use-cases perform on their [aud] value. *)
Definition aud_with_outcome (p : NewAuditParams) (out : Z) (reason : string) : NewAuditParams :=
  mkNewAuditParams (ap_ID p) (ap_EventType p) (ap_ActorType p) (ap_ActorID p) (ap_SubjectType p)
    (ap_SubjectID p) (ap_AppID p) out reason (ap_IpAddress p) (ap_UserAgent p) (ap_Metadata p) (ap_Now p).
Definition aud_subject (p : NewAuditParams) (ty : Z) (id : string) : NewAuditParams :=
  mkNewAuditParams (ap_ID p) (ap_EventType p) (ap_ActorType p) (ap_ActorID p) ty
    id (ap_AppID p) (ap_Outcome p) (ap_Reason p) (ap_IpAddress p) (ap_UserAgent p) (ap_Metadata p) (ap_Now p).
Definition aud_app (p : NewAuditParams) (app : string) : NewAuditParams :=
  mkNewAuditParams (ap_ID p) (ap_EventType p) (ap_ActorType p) (ap_ActorID p) (ap_SubjectType p)
    (ap_SubjectID p) app (ap_Outcome p) (ap_Reason p) (ap_IpAddress p) (ap_UserAgent p) (ap_Metadata p) (ap_Now p).

(** The literal [audit.NewAuditParams{EventType, ActorType, IpAddress, UserAgent}]. *)
Definition aud_base (evt actorType : Z) (ip ua : string) : NewAuditParams :=
  mkNewAuditParams "" evt actorType "" 0 "" "" 0 "" ip ua ∅ 0.

Definition MapActorKind (k : Kind) : Z :=
  match k with KindUser => ActorTypeUser | KindServiceAccount => ActorTypeService end.

Definition BaseFromActor (a : Actor) (evt : Z) : NewAuditParams :=
  mkNewAuditParams "" evt (MapActorKind (a_Kind a)) (a_ID a) 0 "" "" 0 "" (a_IpAddress a)
    (a_UserAgent a) ∅ 0.

(** auditx.WithOutcome *)
Definition WithOutcome (p : NewAuditParams) (out : Z) (reason : string) : NewAuditParams :=
  aud_with_outcome p out reason.

Section Audit.
Context `{Runtime}.

Definition audit_ParseActorID (s : string) : res string :=
  if rt_uuid_valid s then Ok s else Err (EValidation "actor_id" "must be a valid UUID").
Definition audit_ParseSubjectID (s : string) : res string :=
  if rt_uuid_valid s then Ok s else Err (EValidation "subject_id" "must be a valid UUID").
Definition audit_ParseAppID (s : string) : res string :=
  if rt_uuid_valid s then Ok s else Err (EValidation "app_id" "must be a valid UUID").

(** The range over the map, in the order of its enumeration. *)
Fixpoint check_entries (l : list (string * string)) : res unit :=
  match l with
  | [] => Ok tt
  | (k, v) :: l' =>
      if decide (MetadataKeyMaxLen < len k) then
        Err (EValidation "metadata" ("key " +:+ k +:+ " exceeds 64 bytes"))
      else if decide (MetadataValueMaxLen < len v) then
        Err (EValidation "metadata" ("value for " +:+ k +:+ " exceeds 512 bytes"))
      else check_entries l'
  end.

Definition validateAndCloneMetadata (m : gmap string string) : res (gmap string string) :=
  if decide (size m = 0%nat) then Ok ∅
  else if decide (MetadataMaxEntries < size m)%nat then
    Err (EValidation "metadata" "must have at most 32 entries")
  else _ <-? check_entries (map_to_list m) ;; Ok m.

(** [NewAudit]; [fresh] is the outcome of NewAuditID and [clock] of time.Now,
    used when the caller left the id or the instant out. *)
Definition NewAudit (fresh : res string) (clock : Time) (p : NewAuditParams) : res Audit :=
  if negb (EventType_IsKnown (ap_EventType p)) then
    Err (EValidation "event_type" "must be a known event_type")
  else if negb (ActorType_IsKnown (ap_ActorType p)) then
    Err (EValidation "actor_type" "must be a known actor_type")
  else if negb (Outcome_IsKnown (ap_Outcome p)) then
    Err (EValidation "outcome" "must be a known outcome")
  else
  actorID <-?
    (if RequiresActorID (ap_ActorType p) then audit_ParseActorID (ap_ActorID p)
     else if decide (ap_ActorID p = "") then Ok ""
     else Err (EValidation "actor_id" "must be empty for system / anonymous actors")) ;;
  subjectID <-?
    (if decide (ap_SubjectID p = "") then Ok ""
     else if negb (SubjectType_IsKnown (ap_SubjectType p)) then
       Err (EValidation "subject_type" "must be set when subject_id is set")
     else audit_ParseSubjectID (ap_SubjectID p)) ;;
  appID <-?
    (if decide (ap_AppID p = "") then Ok "" else audit_ParseAppID (ap_AppID p)) ;;
  ip <-?
    (if decide (ap_IpAddress p = "") then Ok None
     else match rt_parse_addr (ap_IpAddress p) with
          | Some a => Ok (Some a)
          | None => Err (EValidation "ip_address" "must be a valid IP address")
          end) ;;
  let userAgent := if decide (Z.of_nat UserAgentMaxLen < len (ap_UserAgent p))
                   then take_s UserAgentMaxLen (ap_UserAgent p) else ap_UserAgent p in
  let reason := ap_Reason p in
  if decide (ReasonMaxLen < len reason) then
    Err (EValidation "reason" "must be at most 128 bytes")
  else if decide (ap_Outcome p = OutcomeSuccess ∧ reason ≠ "") then
    Err (EValidation "reason" "must be empty when outcome is success")
  else
  metadata <-? validateAndCloneMetadata (ap_Metadata p) ;;
  id <-?
    (if decide (ap_ID p = "") then
       match fresh with Ok n => Ok n | Err e => Err (EWrap "audit" e) end
     else Ok (ap_ID p)) ;;
  let now := if IsZero (ap_Now p) then clock else ap_Now p in
  Ok (mkAudit id (ap_EventType p) (ap_ActorType p) actorID (ap_SubjectType p) subjectID appID
        (ap_Outcome p) reason ip userAgent metadata now).

(** ** platform/audit/bus: redaction of sensitive metadata *)

Definition RedactedPlaceholder : string := "[redacted]".
Definition blocklist : list string :=
  ["password"; "password_hash"; "refresh_token"; "access_token"; "recovery_code";
   "recovery_codes"; "secret"; "client_secret"; "jwt"; "token"; "hash"].

Definition blocked (k : string) : bool := bool_decide (ToLower k ∈ blocklist).

Definition sanitizeMetadata (m : gmap string string) : gmap string string :=
  map_imap (λ k v, Some (if blocked k then RedactedPlaceholder else v)) m.

Definition Sanitize (a : Audit) : Audit :=
  mkAudit (au_id a) (au_eventType a) (au_actorType a) (au_actorID a) (au_subjectType a)
    (au_subjectID a) (au_appID a) (au_outcome a) (au_reason a) (au_ipAddress a) (au_userAgent a)
    (sanitizeMetadata (au_metadata a)) (au_occurredAt a).

(** ** The invariants the package comment promises for every audit event *)

Record audit_wf (a : Audit) : Prop := {
  wf_event : EventType_IsKnown (au_eventType a) = true;
  wf_actor_type : ActorType_IsKnown (au_actorType a) = true;
  wf_actor_id : if RequiresActorID (au_actorType a) then rt_uuid_valid (au_actorID a) = true
                else au_actorID a = "";
  wf_outcome : Outcome_IsKnown (au_outcome a) = true;
  wf_reason : len (au_reason a) <= ReasonMaxLen;
  wf_reason_success : au_outcome a = OutcomeSuccess → au_reason a = "";
  wf_subject : au_subjectID a ≠ "" →
    SubjectType_IsKnown (au_subjectType a) = true ∧ rt_uuid_valid (au_subjectID a) = true;
  wf_app : au_appID a ≠ "" → rt_uuid_valid (au_appID a) = true;
  wf_user_agent : len (au_userAgent a) <= Z.of_nat UserAgentMaxLen;
  wf_metadata_size : (size (au_metadata a) <= MetadataMaxEntries)%nat;
  wf_metadata : map_Forall (λ k v, len k <= MetadataKeyMaxLen ∧ len v <= MetadataValueMaxLen) (au_metadata a) }.

End Audit.

(** ** Error classification: auditx.Classify

    A classification map is an association list here: its keys are distinct
    sentinels, so at most one entry applies whatever the iteration order. *)
Definition ReasonInternal := "ERROR_REASON_INTERNAL".
Definition ReasonInvalidCredentials := "ERROR_REASON_INVALID_CREDENTIALS".
Definition ReasonInvalidToken := "ERROR_REASON_INVALID_TOKEN".
Definition ReasonRefreshTokenReused := "ERROR_REASON_REFRESH_TOKEN_REUSED".
Definition ReasonSessionNotFound := "ERROR_REASON_SESSION_NOT_FOUND".
Definition ReasonPasswordMismatch := "ERROR_REASON_PASSWORD_MISMATCH".
Definition ReasonValidationFailed := "ERROR_REASON_VALIDATION_FAILED".
Definition ReasonEtagMismatch := "ERROR_REASON_ETAG_MISMATCH".
Definition ReasonUserAlreadyExists := "ERROR_REASON_USER_ALREADY_EXISTS".
Definition ReasonUserBlocked := "ERROR_REASON_USER_BLOCKED".
Definition ReasonUserDeleted := "ERROR_REASON_USER_DELETED".
Definition ReasonUserNotFound := "ERROR_REASON_USER_NOT_FOUND".
Definition ReasonUserNotDeleted := "ERROR_REASON_USER_NOT_DELETED".
Definition ReasonUserNotEligible := "ERROR_REASON_USER_NOT_ELIGIBLE".
Definition ReasonAppNotFound := "ERROR_REASON_APP_NOT_FOUND".
Definition ReasonAppAlreadyExists := "ERROR_REASON_APP_ALREADY_EXISTS".
Definition ReasonAppDisabled := "ERROR_REASON_APP_DISABLED".
Definition ReasonAppInMaintenance := "ERROR_REASON_APP_IN_MAINTENANCE".
Definition ReasonRoleNotFound := "ERROR_REASON_ROLE_NOT_FOUND".
Definition ReasonRoleAlreadyExists := "ERROR_REASON_ROLE_ALREADY_EXISTS".
Definition ReasonRoleDisabled := "ERROR_REASON_ROLE_DISABLED".
Definition ReasonRoleNotInApp := "ERROR_REASON_ROLE_NOT_IN_APP".
Definition ReasonPermissionDenied := "ERROR_REASON_PERMISSION_DENIED".
Definition ReasonRecoveryCodeInvalid := "ERROR_REASON_RECOVERY_CODE_INVALID".
Definition ReasonServiceAccountNotFound := "ERROR_REASON_SERVICE_ACCOUNT_NOT_FOUND".
Definition ReasonServiceAccountAlreadyExists := "ERROR_REASON_SERVICE_ACCOUNT_ALREADY_EXISTS".
Definition ReasonServiceAccountDisabled := "ERROR_REASON_SERVICE_ACCOUNT_DISABLED".
Definition ReasonInvalidClientCredentials := "ERROR_REASON_INVALID_CLIENT_CREDENTIALS".

Fixpoint classify_table (err : error) (m : list (sentinel * (Z * string))) : Z * string :=
  match m with
  | [] => (OutcomeFailure, ReasonInternal)
  | (s, pr) :: m' => if errors_is err s then pr else classify_table err m'
  end.

Definition Classify (err : error) (m : list (sentinel * (Z * string))) : Z * string :=
  match errors_as_validation err with
  | Some _ => (OutcomeFailure, ReasonValidationFailed)
  | None => classify_table err m
  end.
