(* ===== verification/AuditMapper.v ===== *)
(** * AuditMapper: the audit_events row and its mapping to the aggregate.

    modules/audit/internal/mariadb/mapper.go. The metadata column holds JSON;
    an empty map is stored as NULL. *)
From stdpp Require Import gmap.
From S2P Require Import Prelude Errors Monad Runtime Kernel AuditDomain.
Local Open Scope Z_scope.

Record Row := mkRow {
  r_ID : string; r_OccurredAt : Time; r_EventType : string; r_ActorType : Z;
  r_ActorID : option string; r_ActorIp : option string; r_UserAgent : option string;
  r_SubjectType : Z; r_SubjectID : option string; r_AppID : option string; r_Outcome : Z;
  r_Reason : option string; r_Metadata : string }.
#[export] Instance Row_eq_dec : EqDecision Row.
Proof. solve_decision. Defined.

Section AuditMapper.
Context `{Runtime}.

Definition nullableString (v : string) : option string := if decide (v = "") then None else Some v.
Definition stringFromNull (n : option string) : string := match n with None => "" | Some v => v end.

Definition ipToDB (addr : option string) : string := match addr with None => "" | Some a => a end.
Definition ipFromDB (n : option string) : res (option string) :=
  match n with
  | None | Some "" => Ok None
  | Some s => match rt_parse_addr s with
              | Some a => Ok (Some a)
              | None => Err (EWrap "parse" (EMsg "netip"))
              end
  end.

(** A nil json.RawMessage is the empty string. *)
Definition metadataToDB (m : gmap string string) : res string :=
  if decide (size m = 0%nat) then Ok ""
  else match rt_meta_marshal m with Some s => Ok s | None => Err (EMsg "json: marshal") end.
Definition metadataFromDB (raw : string) : res (gmap string string) :=
  if decide (len raw = 0) then Ok ∅
  else match rt_meta_unmarshal raw with Some m => Ok m | None => Err (EMsg "json: unmarshal") end.

Definition toCreateParams (a : Audit) : res Row :=
  match metadataToDB (au_metadata a) with
  | Err e => Err (EWrap "audit mapper: metadata" e)
  | Ok meta =>
      Ok (mkRow (au_id a) (au_occurredAt a) (EventType_String (au_eventType a)) (au_actorType a)
            (nullableString (au_actorID a)) (nullableString (ipToDB (au_ipAddress a)))
            (nullableString (au_userAgent a)) (au_subjectType a) (nullableString (au_subjectID a))
            (nullableString (au_appID a)) (au_outcome a) (nullableString (au_reason a)) meta)
  end.

Definition dbgenToDomain (r : Row) : res Audit :=
  match metadataFromDB (r_Metadata r) with
  | Err e => Err (EWrap "audit mapper: metadata" e)
  | Ok meta =>
      match ipFromDB (r_ActorIp r) with
      | Err e => Err (EWrap "audit mapper: actor_ip" e)
      | Ok ip =>
          Ok (mkAudit (r_ID r) (ParseEventTypeSlug (r_EventType r)) (r_ActorType r)
                (stringFromNull (r_ActorID r)) (r_SubjectType r) (stringFromNull (r_SubjectID r))
                (stringFromNull (r_AppID r)) (r_Outcome r) (stringFromNull (r_Reason r)) ip
                (stringFromNull (r_UserAgent r)) meta (r_OccurredAt r))
      end
  end.

Definition clash (r r' : Row) : bool := rt_collate (r_ID r) (r_ID r').

End AuditMapper.
