(* ===== verification/Identity.v ===== *)
(** * Identity: the User aggregate, its row and the mapping between them.

    modules/identity/internal/domain/{user,status}.go and
    modules/identity/internal/mariadb/mapper.go. The mutators take the etag
    that etag.New would mint; it is used only when the version is bumped. *)
From S2P Require Import Prelude GoStd Errors Monad Runtime Kernel.
Local Open Scope Z_scope.

(** ** Status *)

Definition UserStatusActive : Z := 1.
Definition UserStatusBlocked : Z := 2.
Definition UserStatusDeleted : Z := 3.

Definition UserStatus_Valid (s : Z) : bool :=
  bool_decide (s = UserStatusActive ∨ s = UserStatusBlocked ∨ s = UserStatusDeleted).
Definition UserStatus_String (s : Z) : string :=
  if decide (s = UserStatusActive) then "ACTIVE"
  else if decide (s = UserStatusBlocked) then "BLOCKED"
  else if decide (s = UserStatusDeleted) then "DELETED"
  else "UserStatus(" +:+ FormatInt s +:+ ")".

(** ** The aggregate *)

Record User := mkUser {
  u_id : string;
  u_status : Z;
  u_etag : Etag;
  u_createdAt : Time;
  u_updatedAt : Time;
  u_passwordHash : bytes;
  u_failedLoginAttempts : Z;
  u_Email : string;
  u_Username : string;
  u_DisplayName : string;
  u_AvatarURL : string;
  u_Locale : string;
  u_Timezone : string;
  u_LastLoginAt : Time;
  u_LockoutUntil : Time }.

#[export] Instance User_eq_dec : EqDecision User.
Proof. solve_decision. Defined.

Record NewUserParams := mkNewUserParams {
  nu_ID : string; nu_Email : string; nu_Username : string; nu_DisplayName : string;
  nu_AvatarURL : string; nu_Locale : string; nu_Timezone : string;
  nu_PasswordHash : bytes; nu_Now : Time }.

Definition NewUser (fresh : Etag) (p : NewUserParams) : User :=
  mkUser (nu_ID p) UserStatusActive fresh (nu_Now p) (nu_Now p) (nu_PasswordHash p) 0
    (nu_Email p) (nu_Username p) (nu_DisplayName p) (nu_AvatarURL p) (nu_Locale p)
    (nu_Timezone p) 0 0.

Definition HasPassword (u : User) : bool := bool_decide (0 < len (u_passwordHash u)).

Definition set_status (s : Z) (u : User) : User :=
  mkUser (u_id u) s (u_etag u) (u_createdAt u) (u_updatedAt u) (u_passwordHash u)
    (u_failedLoginAttempts u) (u_Email u) (u_Username u) (u_DisplayName u) (u_AvatarURL u)
    (u_Locale u) (u_Timezone u) (u_LastLoginAt u) (u_LockoutUntil u).

Definition set_passwordHash (h : bytes) (u : User) : User :=
  mkUser (u_id u) (u_status u) (u_etag u) (u_createdAt u) (u_updatedAt u) h
    (u_failedLoginAttempts u) (u_Email u) (u_Username u) (u_DisplayName u) (u_AvatarURL u)
    (u_Locale u) (u_Timezone u) (u_LastLoginAt u) (u_LockoutUntil u).

Definition bumpVersion (fresh : Etag) (now : Time) (u : User) : User :=
  mkUser (u_id u) (u_status u) fresh (u_createdAt u) now (u_passwordHash u)
    (u_failedLoginAttempts u) (u_Email u) (u_Username u) (u_DisplayName u) (u_AvatarURL u)
    (u_Locale u) (u_Timezone u) (u_LastLoginAt u) (u_LockoutUntil u).

(** ** Patches: [None] is "not in the mask" *)

Record UserPatch := mkUserPatch {
  p_Email : option string; p_Username : option string; p_DisplayName : option string;
  p_AvatarURL : option string; p_Locale : option string; p_Timezone : option string }.

Definition IsEmpty (p : UserPatch) : bool :=
  bool_decide (p_Email p = None ∧ p_Username p = None ∧ p_DisplayName p = None ∧
               p_AvatarURL p = None ∧ p_Locale p = None ∧ p_Timezone p = None).

(** ** Mutators *)

Definition Disable (fresh : Etag) (now : Time) (u : User) : res User :=
  if decide (u_status u = UserStatusDeleted) then Err (ESentinel identity_ErrUserDeleted)
  else if decide (u_status u = UserStatusBlocked) then Ok u
  else Ok (bumpVersion fresh now (set_status UserStatusBlocked u)).

Definition Enable (fresh : Etag) (now : Time) (u : User) : res User :=
  if decide (u_status u = UserStatusDeleted) then Err (ESentinel identity_ErrUserDeleted)
  else if decide (u_status u = UserStatusActive) then Ok u
  else Ok (bumpVersion fresh now (set_status UserStatusActive u)).

Definition SoftDelete (fresh : Etag) (now : Time) (u : User) : User :=
  if decide (u_status u = UserStatusDeleted) then u
  else bumpVersion fresh now (set_status UserStatusDeleted u).

(** One [if p.F != nil && *p.F != u.F { u.F = *p.F; changed = true }]. *)
Definition patch_field (p : option string) (cur : string) : string * bool :=
  match p with
  | Some v => if decide (v = cur) then (cur, false) else (v, true)
  | None => (cur, false)
  end.

Definition ApplyPatch (fresh : Etag) (p : UserPatch) (now : Time) (u : User) : res User :=
  if decide (u_status u = UserStatusDeleted) then Err (ESentinel identity_ErrUserDeleted)
  else
    let '(email, c1) := patch_field (p_Email p) (u_Email u) in
    let '(username, c2) := patch_field (p_Username p) (u_Username u) in
    let '(display, c3) := patch_field (p_DisplayName p) (u_DisplayName u) in
    let '(avatar, c4) := patch_field (p_AvatarURL p) (u_AvatarURL u) in
    let '(locale, c5) := patch_field (p_Locale p) (u_Locale u) in
    let '(timezone, c6) := patch_field (p_Timezone p) (u_Timezone u) in
    let u' := mkUser (u_id u) (u_status u) (u_etag u) (u_createdAt u) (u_updatedAt u)
      (u_passwordHash u) (u_failedLoginAttempts u) email username display avatar locale timezone
      (u_LastLoginAt u) (u_LockoutUntil u) in
    Ok (if c1 || c2 || c3 || c4 || c5 || c6 then bumpVersion fresh now u' else u').

Definition SetPassword (fresh : Etag) (hash : bytes) (now : Time) (u : User) : res User :=
  if decide (u_status u = UserStatusDeleted) then Err (ESentinel identity_ErrUserDeleted)
  else if decide (len hash = 0) then Err (ESentinel identity_ErrInvalidPasswordHash)
  else Ok (bumpVersion fresh now (set_passwordHash hash u)).

Definition ClearPassword (fresh : Etag) (now : Time) (u : User) : res User :=
  if decide (u_status u = UserStatusDeleted) then Err (ESentinel identity_ErrUserDeleted)
  else if negb (HasPassword u) then Ok u
  else Ok (bumpVersion fresh now (set_passwordHash "" u)).

(** [IsLocked]; [clock] is time.Now. *)
Definition IsLocked (clock : Time) (u : User) : bool :=
  if Before (u_LockoutUntil u) clock then true else false.

(** ** Rows (dbgen.User) *)

Record Row := mkRow {
  r_ID : string; r_Email : string; r_Username : string; r_PasswordHash : option bytes;
  r_DisplayName : string; r_AvatarUrl : option string; r_Locale : string; r_Timezone : string;
  r_Status : Z; r_Etag : string; r_CreatedAt : Time; r_UpdatedAt : Time;
  r_LastLoginAt : option Time; r_FailedLoginAttempts : Z; r_LockoutUntil : option Time }.

#[export] Instance Row_eq_dec : EqDecision Row.
Proof. solve_decision. Defined.

(** [dbgenToDomain] through RestoreUser. *)
Definition dbgenToDomain (r : Row) : User :=
  mkUser (r_ID r) (r_Status r) (r_Etag r) (r_CreatedAt r) (r_UpdatedAt r)
    (null_string (r_PasswordHash r)) (r_FailedLoginAttempts r)
    (r_Email r) (r_Username r) (r_DisplayName r) (null_string (r_AvatarUrl r)) (r_Locale r)
    (r_Timezone r) (null_time (r_LastLoginAt r)) (null_time (r_LockoutUntil r)).

(** CreateUser's VALUES through [toCreateParams]; the two lockout columns keep
    their defaults (migration 0009). *)
Definition toCreateParams (u : User) : Row :=
  mkRow (u_id u) (u_Email u) (u_Username u) (BytesToNullString (u_passwordHash u))
    (u_DisplayName u) (StringToNullString (u_AvatarURL u)) (u_Locale u) (u_Timezone u)
    (u_status u) (u_etag u) (u_createdAt u) (u_updatedAt u) (TimeToNullTime (u_LastLoginAt u)) 0 None.

(** UpdateUser / UpdateUserWithEtag's SET clause through [toUpdateParams]. *)
Definition toUpdateParams (u : User) (r : Row) : Row :=
  mkRow (r_ID r) (u_Email u) (u_Username u) (BytesToNullString (u_passwordHash u))
    (u_DisplayName u) (StringToNullString (u_AvatarURL u)) (u_Locale u) (u_Timezone u)
    (u_status u) (u_etag u) (r_CreatedAt r) (u_updatedAt u) (TimeToNullTime (u_LastLoginAt u))
    (r_FailedLoginAttempts r) (r_LockoutUntil r).

(** UpdateUserPasswordWithEtag's SET clause. *)
Definition toUpdatePasswordParams (u : User) (r : Row) : Row :=
  mkRow (r_ID r) (r_Email r) (r_Username r) (BytesToNullString (u_passwordHash u))
    (r_DisplayName r) (r_AvatarUrl r) (r_Locale r) (r_Timezone r)
    (r_Status r) (u_etag u) (r_CreatedAt r) (u_updatedAt u) (r_LastLoginAt r)
    (r_FailedLoginAttempts r) (r_LockoutUntil r).

(** UpdateUserLastLoginAt, IncrementFailedLogins, LockUser, ResetLoginFailures. *)
Definition set_row_LastLoginAt (now : Time) (r : Row) : Row :=
  mkRow (r_ID r) (r_Email r) (r_Username r) (r_PasswordHash r) (r_DisplayName r) (r_AvatarUrl r)
    (r_Locale r) (r_Timezone r) (r_Status r) (r_Etag r) (r_CreatedAt r) (r_UpdatedAt r)
    (TimeToNullTime now) (r_FailedLoginAttempts r) (r_LockoutUntil r).
Definition set_row_lockout (attempts : Z) (until : option Time) (r : Row) : Row :=
  mkRow (r_ID r) (r_Email r) (r_Username r) (r_PasswordHash r) (r_DisplayName r) (r_AvatarUrl r)
    (r_Locale r) (r_Timezone r) (r_Status r) (r_Etag r) (r_CreatedAt r) (r_UpdatedAt r)
    (r_LastLoginAt r) attempts until.

Section Identity.
Context `{Runtime}.

Definition ParseUserID (s : string) : res string :=
  if rt_uuid_valid s then Ok s else Err (EValidation "user_id" "must be a valid UUID").

(** The unique keys of the users table: primary key, email, username. *)
Definition clash (r r' : Row) : bool :=
  rt_collate (r_ID r) (r_ID r') || rt_collate (r_Email r) (r_Email r')
  || rt_collate (r_Username r) (r_Username r').

End Identity.
