(* ===== verification/Session.v ===== *)
(** * Session: the session aggregate, its row and their mapping.

    modules/session/internal/domain/session.go and
    modules/session/internal/mariadb/mapper.go. *)
From S2P Require Import Prelude Errors Monad Runtime Kernel.
Local Open Scope Z_scope.

Record Session := mkSession {
  s_id : string;
  s_userID : string;
  s_refreshTokenHash : bytes;
  s_issuedAt : Time;
  s_expiresAt : Time;
  s_refreshTokenExpiresAt : Time;
  s_lastSeenAt : Time;
  s_revokedAt : Time;             (* zero = active *)
  s_UserAgent : string;
  s_IpAddress : string }.

#[export] Instance Session_eq_dec : EqDecision Session.
Proof. solve_decision. Defined.

Record NewSessionParams := mkNewSessionParams {
  ns_ID : string; ns_UserID : string; ns_RefreshTokenHash : bytes; ns_UserAgent : string;
  ns_IpAddress : string; ns_Now : Time; ns_ExpiresAt : Time; ns_RefreshTokenExpiresAt : Time }.

Definition NewSession (p : NewSessionParams) : Session :=
  mkSession (ns_ID p) (ns_UserID p) (ns_RefreshTokenHash p) (ns_Now p) (ns_ExpiresAt p)
    (ns_RefreshTokenExpiresAt p) (ns_Now p) 0 (ns_UserAgent p) (ns_IpAddress p).

(** ** State predicates *)

Definition IsRevoked (s : Session) : bool := negb (IsZero (s_revokedAt s)).
Definition IsAbsoluteExpired (now : Time) (s : Session) : bool := negb (Before now (s_expiresAt s)).
Definition IsRefreshExpired (now : Time) (s : Session) : bool :=
  negb (Before now (s_refreshTokenExpiresAt s)).
Definition IsActive (now : Time) (s : Session) : bool :=
  negb (IsRevoked s) && negb (IsAbsoluteExpired now s) && negb (IsRefreshExpired now s).

(** ** Mutators *)

Definition Revoke (now : Time) (s : Session) : Session :=
  if IsRevoked s then s
  else mkSession (s_id s) (s_userID s) (s_refreshTokenHash s) (s_issuedAt s) (s_expiresAt s)
         (s_refreshTokenExpiresAt s) (s_lastSeenAt s) now (s_UserAgent s) (s_IpAddress s).

Definition TouchLastSeen (now : Time) (s : Session) : Session :=
  if IsRevoked s then s
  else mkSession (s_id s) (s_userID s) (s_refreshTokenHash s) (s_issuedAt s) (s_expiresAt s)
         (s_refreshTokenExpiresAt s) now (s_revokedAt s) (s_UserAgent s) (s_IpAddress s).

Definition RotateRefresh (newHash : bytes) (now newRefreshExpiresAt : Time) (s : Session) : res Session :=
  if IsRevoked s then Err (ESentinel session_ErrSessionRevoked)
  else Ok (mkSession (s_id s) (s_userID s) newHash (s_issuedAt s) (s_expiresAt s)
             newRefreshExpiresAt now (s_revokedAt s) (s_UserAgent s) (s_IpAddress s)).

(** ** Rows (dbgen.Session) *)

Record Row := mkRow {
  r_ID : string; r_UserID : string; r_RefreshTokenHash : bytes; r_UserAgent : option string;
  r_IpAddress : option string; r_IssuedAt : Time; r_ExpiresAt : Time;
  r_RefreshTokenExpiresAt : Time; r_LastSeenAt : Time; r_RevokedAt : option Time }.

#[export] Instance Row_eq_dec : EqDecision Row.
Proof. solve_decision. Defined.

Definition nullableString : string → option string := StringToNullString.
Definition revokedAtToDB : Time → option Time := TimeToNullTime.

Definition dbgenToDomain (r : Row) : Session :=
  mkSession (r_ID r) (r_UserID r) (r_RefreshTokenHash r) (r_IssuedAt r) (r_ExpiresAt r)
    (r_RefreshTokenExpiresAt r) (r_LastSeenAt r) (null_time (r_RevokedAt r))
    (null_string (r_UserAgent r)) (null_string (r_IpAddress r)).

Definition toCreateParams (s : Session) : Row :=
  mkRow (s_id s) (s_userID s) (s_refreshTokenHash s) (nullableString (s_UserAgent s))
    (nullableString (s_IpAddress s)) (s_issuedAt s) (s_expiresAt s) (s_refreshTokenExpiresAt s)
    (s_lastSeenAt s) (revokedAtToDB (s_revokedAt s)).

(** UpdateSession's SET clause: every column but the key. *)
Definition toUpdateParams (s : Session) (r : Row) : Row :=
  mkRow (r_ID r) (s_userID s) (s_refreshTokenHash s) (nullableString (s_UserAgent s))
    (nullableString (s_IpAddress s)) (s_issuedAt s) (s_expiresAt s) (s_refreshTokenExpiresAt s)
    (s_lastSeenAt s) (revokedAtToDB (s_revokedAt s)).

(** RotateSessionRefresh's SET clause: hash, sliding deadline, last seen. *)
Definition toRotateParams (s : Session) (r : Row) : Row :=
  mkRow (r_ID r) (r_UserID r) (s_refreshTokenHash s) (r_UserAgent r) (r_IpAddress r)
    (r_IssuedAt r) (r_ExpiresAt r) (s_refreshTokenExpiresAt s) (s_lastSeenAt s) (r_RevokedAt r).

(** RevokeAllSessionsForUser's SET clause. *)
Definition toRevokeParams (now : Time) (r : Row) : Row :=
  mkRow (r_ID r) (r_UserID r) (r_RefreshTokenHash r) (r_UserAgent r) (r_IpAddress r)
    (r_IssuedAt r) (r_ExpiresAt r) (r_RefreshTokenExpiresAt r) (r_LastSeenAt r) (revokedAtToDB now).

Section Session.
Context `{Runtime}.

Definition ParseSessionID (s : string) : res string :=
  if rt_uuid_valid s then Ok s else Err (EValidation "session_id" "must be a valid UUID").

(** Unique keys of the sessions table: primary key and refresh-token hash. *)
Definition clash (r r' : Row) : bool :=
  rt_collate (r_ID r) (r_ID r') || bool_decide (r_RefreshTokenHash r = r_RefreshTokenHash r').

End Session.

(** ** Facts *)

(** Reading back the row a session was written as gives the session. *)
Lemma row_roundtrip s : dbgenToDomain (toCreateParams s) = s.
Proof.
  unfold dbgenToDomain, toCreateParams, nullableString, revokedAtToDB. simpl.
  autorewrite with sso_simpl. by destruct s.
Qed.

Lemma update_row_roundtrip s r : r_ID r = s_id s → dbgenToDomain (toUpdateParams s r) = s.
Proof.
  intros E. unfold dbgenToDomain, toUpdateParams, nullableString, revokedAtToDB. simpl.
  autorewrite with sso_simpl. rewrite E. by destruct s.
Qed.

Lemma IsRevoked_true s : IsRevoked s = true ↔ s_revokedAt s ≠ 0.
Proof. unfold IsRevoked, IsZero. rewrite negb_true_iff, bool_decide_eq_false. done. Qed.

Lemma IsRevoked_row r : IsRevoked (dbgenToDomain r) = false ↔ r_RevokedAt r = None ∨ r_RevokedAt r = Some 0.
Proof.
  unfold IsRevoked, IsZero. rewrite negb_false_iff, bool_decide_eq_true. simpl.
  destruct (r_RevokedAt r); simpl; naive_solver.
Qed.

Lemma Revoke_revoked now s : now ≠ 0 → IsRevoked (Revoke now s) = true.
Proof. intros Hn. unfold Revoke. destruct (IsRevoked s) eqn:E; [done|]. by apply IsRevoked_true. Qed.

Lemma Revoke_idempotent now now' s : now ≠ 0 → Revoke now' (Revoke now s) = Revoke now s.
Proof. intros Hn. unfold Revoke at 1. by rewrite Revoke_revoked. Qed.

Lemma Revoke_fields now s :
  s_id (Revoke now s) = s_id s ∧ s_userID (Revoke now s) = s_userID s ∧
  s_expiresAt (Revoke now s) = s_expiresAt s ∧
  s_refreshTokenExpiresAt (Revoke now s) = s_refreshTokenExpiresAt s ∧
  s_refreshTokenHash (Revoke now s) = s_refreshTokenHash s.
Proof. unfold Revoke. by destruct (IsRevoked s). Qed.

Lemma IsActive_spec now s :
  IsActive now s = true ↔
  s_revokedAt s = 0 ∧ now < s_expiresAt s ∧ now < s_refreshTokenExpiresAt s.
Proof.
  unfold IsActive, IsRevoked, IsAbsoluteExpired, IsRefreshExpired, IsZero, Before.
  rewrite !andb_true_iff, !negb_involutive, !bool_decide_eq_true. tauto.
Qed.

Lemma RotateRefresh_ok hash now e sess sess' :
  RotateRefresh hash now e sess = Ok sess' →
  IsRevoked sess = false ∧
  sess' = mkSession (s_id sess) (s_userID sess) hash (s_issuedAt sess) (s_expiresAt sess) e now
            (s_revokedAt sess) (s_UserAgent sess) (s_IpAddress sess).
Proof. unfold RotateRefresh. destruct (IsRevoked sess) eqn:E; [done|]. by intros [= <-]. Qed.

Lemma RotateRefresh_id hash now e sess sess' : RotateRefresh hash now e sess = Ok sess' → s_id sess' = s_id sess.
Proof. by intros [_ ->]%RotateRefresh_ok. Qed.

Lemma IsActive_revoked now s : IsActive now s = true → IsRevoked s = false ∧ IsAbsoluteExpired now s = false.
Proof. unfold IsActive. rewrite !andb_true_iff, !negb_true_iff. tauto. Qed.
