(* ===== verification/RecoveryCode.v ===== *)
(** * RecoveryCode: one-time recovery codes.

    modules/recoverycode/internal/domain/recoverycode.go, its mariadb mapper,
    and the code generator platform/crypto/recoverycode/generator.go. *)
From S2P Require Import Prelude Errors Monad Runtime Kernel.
Local Open Scope Z_scope.

(** ** The generator *)

Definition alphabet : string := "23456789ABCDEFGHJKLMNPQRSTUVWXYZ".
Definition codeLength : nat := 12.
Definition groupSize : nat := 4.
Definition codesInBatch : nat := 10.

(** [alphabet[b & 31]]. *)
Definition alphabet_at (n : Z) : Ascii.ascii :=
  default Ascii.zero (string_to_list alphabet !! Z.to_nat n).
Definition code_char (b : Ascii.ascii) : Ascii.ascii := alphabet_at (Z.land (byte_of b) 31).

Definition hyphen : Ascii.ascii := Ascii.ascii_of_nat 45.

(** The loop [for i := 0; i < codeLength; i += groupSize], with a hyphen
    before every group but the first. *)
Definition group_chars (chars : list Ascii.ascii) : list Ascii.ascii :=
  concat (imap (λ i g, if decide (i = 0%nat) then g else hyphen :: g)
               [take groupSize chars; take groupSize (drop groupSize chars);
                take groupSize (drop (groupSize + groupSize) chars)]).

(** [randomCode] on the bytes read from crypto/rand. *)
Definition randomCode (buf : bytes) : string :=
  string_of_list (group_chars (code_char <$> string_to_list buf)).

Section Generator.
Context `{Runtime}.

(** strings.ReplaceAll(s, "-", ""). *)
Definition strip_hyphens (s : string) : string :=
  string_of_list (List.filter (λ c, negb (bool_decide (c = hyphen))) (string_to_list s)).

Definition hashNormalised (plaintext : string) : bytes :=
  rt_sha256 (ToUpper (strip_hyphens plaintext)).

Definition Hash (plaintext : string) : bytes := hashNormalised plaintext.

End Generator.

(** ** Codes and batches *)

Record Code := mkCode { c_hash : bytes; c_usedAt : Time }.
#[export] Instance Code_eq_dec : EqDecision Code.
Proof. solve_decision. Defined.

Definition NewCode (hash : bytes) : Code := mkCode hash 0.
Definition IsUsed (c : Code) : bool := negb (IsZero (c_usedAt c)).

Record Batch := mkBatch {
  b_id : string; b_userID : string; b_generatedAt : Time; b_revokedAt : Time; b_codes : list Code }.
#[export] Instance Batch_eq_dec : EqDecision Batch.
Proof. solve_decision. Defined.

Definition NewBatch (id userID : string) (generatedAt : Time) (codeHashes : list bytes) : Batch :=
  mkBatch id userID generatedAt 0 (NewCode <$> codeHashes).

Definition IsRevoked (b : Batch) : bool := negb (IsZero (b_revokedAt b)).

Definition Revoke (now : Time) (b : Batch) : Batch :=
  if IsRevoked b then b else mkBatch (b_id b) (b_userID b) (b_generatedAt b) now (b_codes b).

(** The loop of [ConsumeByHash] over the codes. *)
Fixpoint consume_codes (hash : bytes) (now : Time) (codes : list Code) : res (list Code) :=
  match codes with
  | [] => Err (ESentinel recoverycode_ErrRecoveryCodeInvalid)
  | c :: codes' =>
      if decide (c_hash c = hash) then
        if IsUsed c then Err (ESentinel recoverycode_ErrRecoveryCodeInvalid)
        else Ok (mkCode (c_hash c) now :: codes')
      else
        codes'' <-? consume_codes hash now codes' ;; Ok (c :: codes'')
  end.

Definition ConsumeByHash (hash : bytes) (now : Time) (b : Batch) : res Batch :=
  if IsRevoked b then Err (ESentinel recoverycode_ErrRecoveryCodeInvalid)
  else codes <-? consume_codes hash now (b_codes b) ;;
       Ok (mkBatch (b_id b) (b_userID b) (b_generatedAt b) (b_revokedAt b) codes).

(** ** Rows *)

Record CodeRow := mkCodeRow { rc_BatchID : string; rc_CodeHash : bytes; rc_UsedAt : option Time }.
Record BatchRow := mkBatchRow {
  rb_ID : string; rb_UserID : string; rb_GeneratedAt : Time; rb_RevokedAt : option Time }.
#[export] Instance CodeRow_eq_dec : EqDecision CodeRow.
Proof. solve_decision. Defined.
#[export] Instance BatchRow_eq_dec : EqDecision BatchRow.
Proof. solve_decision. Defined.

Definition code_of_row (r : CodeRow) : Code := mkCode (rc_CodeHash r) (null_time (rc_UsedAt r)).
Definition batchAndCodes (row : BatchRow) (codeRows : list CodeRow) : Batch :=
  mkBatch (rb_ID row) (rb_UserID row) (rb_GeneratedAt row) (null_time (rb_RevokedAt row))
    (code_of_row <$> codeRows).
Definition toCreateBatchParams (b : Batch) : BatchRow :=
  mkBatchRow (b_id b) (b_userID b) (b_generatedAt b) (TimeToNullTime (b_revokedAt b)).
Definition toCreateCodeParams (batchID : string) (c : Code) : CodeRow :=
  mkCodeRow batchID (c_hash c) (TimeToNullTime (c_usedAt c)).

Definition set_revoked (now : Time) (r : BatchRow) : BatchRow :=
  mkBatchRow (rb_ID r) (rb_UserID r) (rb_GeneratedAt r) (TimeToNullTime now).
Definition set_used (now : Time) (r : CodeRow) : CodeRow :=
  mkCodeRow (rc_BatchID r) (rc_CodeHash r) (TimeToNullTime now).

Section Keys.
Context `{Runtime}.
Definition batch_clash (r r' : BatchRow) : bool := rt_collate (rb_ID r) (rb_ID r').
Definition code_clash (r r' : CodeRow) : bool :=
  rt_collate (rc_BatchID r) (rc_BatchID r') && bool_decide (rc_CodeHash r = rc_CodeHash r').
End Keys.
