(* ===== verification/App.v ===== *)
(** * App: the App aggregate, its lifecycle and its row.

    modules/app/internal/domain/{app,status}.go, modules/app/internal/mariadb/mapper.go. *)
From S2P Require Import Prelude GoStd Errors Monad Runtime Kernel.
Local Open Scope Z_scope.

Definition AppStatusActive : Z := 1.
Definition AppStatusDisabled : Z := 2.
Definition AppStatusMaintenance : Z := 3.

Definition AppStatus_Valid (s : Z) : bool :=
  bool_decide (s = AppStatusActive ∨ s = AppStatusDisabled ∨ s = AppStatusMaintenance).
Definition AppStatus_String (s : Z) : string :=
  if decide (s = AppStatusActive) then "ACTIVE"
  else if decide (s = AppStatusDisabled) then "DISABLED"
  else if decide (s = AppStatusMaintenance) then "MAINTENANCE"
  else "AppStatus(" +:+ FormatInt s +:+ ")".

Record App := mkApp {
  a_id : string; a_slug : string; a_status : Z; a_etag : Etag; a_createdAt : Time;
  a_updatedAt : Time; a_Name : string; a_Link : string }.
#[export] Instance App_eq_dec : EqDecision App.
Proof. solve_decision. Defined.

Definition NewApp (fresh : Etag) (id name slug link : string) (now : Time) : App :=
  mkApp id slug AppStatusActive fresh now now name link.

Definition set_status (s : Z) (a : App) : App :=
  mkApp (a_id a) (a_slug a) s (a_etag a) (a_createdAt a) (a_updatedAt a) (a_Name a) (a_Link a).
Definition bumpVersion (fresh : Etag) (now : Time) (a : App) : App :=
  mkApp (a_id a) (a_slug a) (a_status a) fresh (a_createdAt a) now (a_Name a) (a_Link a).

Record AppPatch := mkAppPatch { p_Name : option string; p_Link : option string }.
Definition IsEmpty (p : AppPatch) : bool := bool_decide (p_Name p = None ∧ p_Link p = None).

Definition Disable (fresh : Etag) (now : Time) (a : App) : App :=
  if decide (a_status a = AppStatusDisabled) then a
  else bumpVersion fresh now (set_status AppStatusDisabled a).

Definition Enable (fresh : Etag) (now : Time) (a : App) : res App :=
  if decide (a_status a = AppStatusMaintenance) then Err (ESentinel app_ErrAppInMaintenance)
  else if decide (a_status a = AppStatusActive) then Ok a
  else Ok (bumpVersion fresh now (set_status AppStatusActive a)).

Definition EnterMaintenance (fresh : Etag) (now : Time) (a : App) : res App :=
  if decide (a_status a = AppStatusDisabled) then Err (ESentinel app_ErrAppDisabled)
  else if decide (a_status a = AppStatusMaintenance) then Ok a
  else Ok (bumpVersion fresh now (set_status AppStatusMaintenance a)).

Definition ExitMaintenance (fresh : Etag) (now : Time) (a : App) : res App :=
  if decide (a_status a = AppStatusDisabled) then Err (ESentinel app_ErrAppDisabled)
  else if decide (a_status a = AppStatusActive) then Ok a
  else Ok (bumpVersion fresh now (set_status AppStatusActive a)).

Definition ApplyPatch (fresh : Etag) (p : AppPatch) (now : Time) (a : App) : App :=
  let '(name, c1) :=
    match p_Name p with
    | Some v => if decide (v = a_Name a) then (a_Name a, false) else (v, true)
    | None => (a_Name a, false)
    end in
  let '(link, c2) :=
    match p_Link p with
    | Some v => if decide (v = a_Link a) then (a_Link a, false) else (v, true)
    | None => (a_Link a, false)
    end in
  let a' := mkApp (a_id a) (a_slug a) (a_status a) (a_etag a) (a_createdAt a) (a_updatedAt a) name link in
  if c1 || c2 then bumpVersion fresh now a' else a'.

Record Row := mkRow {
  r_ID : string; r_Name : string; r_Slug : string; r_Link : string; r_Status : Z;
  r_Etag : string; r_CreatedAt : Time; r_UpdatedAt : Time }.
#[export] Instance Row_eq_dec : EqDecision Row.
Proof. solve_decision. Defined.

Definition dbgenToDomain (r : Row) : App :=
  mkApp (r_ID r) (r_Slug r) (r_Status r) (r_Etag r) (r_CreatedAt r) (r_UpdatedAt r) (r_Name r) (r_Link r).
Definition toCreateParams (a : App) : Row :=
  mkRow (a_id a) (a_Name a) (a_slug a) (a_Link a) (a_status a) (a_etag a) (a_createdAt a) (a_updatedAt a).
Definition toUpdateParams (a : App) (r : Row) : Row :=
  mkRow (r_ID r) (a_Name a) (r_Slug r) (a_Link a) (a_status a) (a_etag a) (r_CreatedAt r) (a_updatedAt a).

Section App.
Context `{Runtime}.
Definition ParseAppID (s : string) : res string :=
  if rt_uuid_valid s then Ok s else Err (EValidation "app_id" "must be a valid UUID").
(** Unique keys of the apps table: primary key, name, slug. *)
Definition clash (r r' : Row) : bool :=
  rt_collate (r_ID r) (r_ID r') || rt_collate (r_Name r) (r_Name r') || rt_collate (r_Slug r) (r_Slug r').
End App.
