(* ===== verification/Role.v ===== *)
(** * Role: the Role aggregate with its permission set.

    modules/role/internal/domain/{role,status}.go, modules/role/internal/mariadb/mapper.go. *)
From S2P Require Import Prelude GoStd Errors Monad Runtime Kernel.
Local Open Scope Z_scope.

Definition RoleStatusUnspecified : Z := 0.
Definition RoleStatusActive : Z := 1.
Definition RoleStatusDisabled : Z := 2.

Definition RoleStatus_Valid (s : Z) : bool := bool_decide (s = RoleStatusActive ∨ s = RoleStatusDisabled).
Definition RoleStatus_String (s : Z) : string :=
  if decide (s = 0) then "UNSPECIFIED"
  else if decide (s = RoleStatusActive) then "ACTIVE"
  else if decide (s = RoleStatusDisabled) then "DISABLED"
  else "RoleStatus(" +:+ FormatInt s +:+ ")".

Record Role := mkRole {
  o_id : string; o_appID : string; o_status : Z; o_etag : Etag; o_createdAt : Time;
  o_updatedAt : Time; o_permissions : list string; o_Name : string; o_Description : string }.
#[export] Instance Role_eq_dec : EqDecision Role.
Proof. solve_decision. Defined.

(** slices.Sort on strings: byte order. *)
Fixpoint sort_insert (x : string) (l : list string) : list string :=
  match l with
  | [] => [x]
  | y :: l' => if str_lt y x then y :: sort_insert x l' else x :: y :: l'
  end.
Definition sort_strings (l : list string) : list string := foldr sort_insert [] l.

Definition canonicalPerms (p : list string) : list string := sort_strings p.

Definition NewRole (fresh : Etag) (id appID name description : string) (perms : list string)
    (now : Time) : Role :=
  mkRole id appID RoleStatusActive fresh now now (canonicalPerms perms) name description.

Definition set_status (s : Z) (r : Role) : Role :=
  mkRole (o_id r) (o_appID r) s (o_etag r) (o_createdAt r) (o_updatedAt r) (o_permissions r)
    (o_Name r) (o_Description r).
Definition bumpVersion (fresh : Etag) (now : Time) (r : Role) : Role :=
  mkRole (o_id r) (o_appID r) (o_status r) fresh (o_createdAt r) now (o_permissions r)
    (o_Name r) (o_Description r).

Record RolePatch := mkRolePatch {
  p_Name : option string; p_Description : option string; p_Permissions : option (list string) }.
Definition IsEmpty (p : RolePatch) : bool :=
  bool_decide (p_Name p = None ∧ p_Description p = None ∧ p_Permissions p = None).

Definition Disable (fresh : Etag) (now : Time) (r : Role) : Role :=
  if decide (o_status r = RoleStatusDisabled) then r
  else bumpVersion fresh now (set_status RoleStatusDisabled r).
Definition Enable (fresh : Etag) (now : Time) (r : Role) : Role :=
  if decide (o_status r = RoleStatusActive) then r
  else bumpVersion fresh now (set_status RoleStatusActive r).

Definition ApplyPatch (fresh : Etag) (p : RolePatch) (now : Time) (r : Role) : Role :=
  let '(name, c1) :=
    match p_Name p with
    | Some v => if decide (v = o_Name r) then (o_Name r, false) else (v, true)
    | None => (o_Name r, false)
    end in
  let '(desc, c2) :=
    match p_Description p with
    | Some v => if decide (v = o_Description r) then (o_Description r, false) else (v, true)
    | None => (o_Description r, false)
    end in
  let '(perms, c3) :=
    match p_Permissions p with
    | Some v =>
        let newPerms := canonicalPerms v in
        if decide (newPerms = o_permissions r) then (o_permissions r, false) else (newPerms, true)
    | None => (o_permissions r, false)
    end in
  let r' := mkRole (o_id r) (o_appID r) (o_status r) (o_etag r) (o_createdAt r) (o_updatedAt r)
              perms name desc in
  if c1 || c2 || c3 then bumpVersion fresh now r' else r'.

Record Row := mkRow {
  r_ID : string; r_AppID : string; r_Name : string; r_Description : option string; r_Status : Z;
  r_Etag : string; r_CreatedAt : Time; r_UpdatedAt : Time }.
#[export] Instance Row_eq_dec : EqDecision Row.
Proof. solve_decision. Defined.

(** One row of role_permissions. *)
Record PermRow := mkPermRow { rp_RoleID : string; rp_Permission : string }.
#[export] Instance PermRow_eq_dec : EqDecision PermRow.
Proof. solve_decision. Defined.

(** The perms come from GetRolePermissions, in the order of the query. *)
Definition dbgenToDomain (r : Row) (perms : list string) : Role :=
  mkRole (r_ID r) (r_AppID r) (r_Status r) (r_Etag r) (r_CreatedAt r) (r_UpdatedAt r) perms
    (r_Name r) (null_string (r_Description r)).

Definition descriptionToDB (s : string) : option string := if decide (s = "") then None else Some s.

Definition toCreateParams (r : Role) : Row :=
  mkRow (o_id r) (o_appID r) (o_Name r) (descriptionToDB (o_Description r)) (o_status r) (o_etag r)
    (o_createdAt r) (o_updatedAt r).

(** UpdateRole / UpdateRoleWithEtag's SET clause. *)
Definition toUpdateParams (r : Role) (row : Row) : Row :=
  mkRow (r_ID row) (r_AppID row) (o_Name r) (descriptionToDB (o_Description r)) (o_status r)
    (o_etag r) (r_CreatedAt row) (o_updatedAt r).

Definition toInsertPermissionParams (roleID permission : string) : PermRow :=
  mkPermRow roleID permission.

Section Role.
Context `{Runtime}.

Definition ParseRoleID (s : string) : res string :=
  if rt_uuid_valid s then Ok s else Err (EValidation "role_id" "must be a valid UUID").

(** Unique keys: the primary key and (app_id, name). *)
Definition clash (r r' : Row) : bool :=
  rt_collate (r_ID r) (r_ID r')
  || rt_collate (r_AppID r) (r_AppID r') && rt_collate (r_Name r) (r_Name r').

(** Primary key of role_permissions: (role_id, permission). *)
Definition perm_clash (r r' : PermRow) : bool :=
  rt_collate (rp_RoleID r) (rp_RoleID r') && rt_collate (rp_Permission r) (rp_Permission r').

End Role.
