(* ===== verification/ServiceAccount.v ===== *)
(** * ServiceAccount: the machine-client aggregate and its row.

    modules/serviceaccount/internal/domain/{service_account,status}.go and
    modules/serviceaccount/internal/mariadb/mapper.go. Only the bcrypt hash of
    the secret is part of the aggregate. *)
From S2P Require Import Prelude GoStd Errors Monad Runtime Kernel.
Local Open Scope Z_scope.

Definition ServiceAccountActive : Z := 1.
Definition ServiceAccountDisabled : Z := 2.

Definition ServiceAccountStatus_Valid (s : Z) : bool :=
  bool_decide (s = ServiceAccountActive ∨ s = ServiceAccountDisabled).
Definition ServiceAccountStatus_String (s : Z) : string :=
  if decide (s = ServiceAccountActive) then "ACTIVE"
  else if decide (s = ServiceAccountDisabled) then "DISABLED"
  else "ServiceAccountStatus(" +:+ FormatInt s +:+ ")".

Record ServiceAccount := mkServiceAccount {
  v_id : string; v_etag : Etag; v_status : Z; v_createdAt : Time; v_updatedAt : Time;
  v_secretHash : bytes; v_Name : string; v_Description : string; v_LastAuthenticatedAt : Time }.
#[export] Instance ServiceAccount_eq_dec : EqDecision ServiceAccount.
Proof. solve_decision. Defined.

Definition NewServiceAccount (fresh : Etag) (id name description : string) (secretHash : bytes)
    (now : Time) : ServiceAccount :=
  mkServiceAccount id fresh ServiceAccountActive now now secretHash name description 0.

Definition set_status (st : Z) (s : ServiceAccount) : ServiceAccount :=
  mkServiceAccount (v_id s) (v_etag s) st (v_createdAt s) (v_updatedAt s) (v_secretHash s)
    (v_Name s) (v_Description s) (v_LastAuthenticatedAt s).
Definition bumpVersion (fresh : Etag) (now : Time) (s : ServiceAccount) : ServiceAccount :=
  mkServiceAccount (v_id s) fresh (v_status s) (v_createdAt s) now (v_secretHash s)
    (v_Name s) (v_Description s) (v_LastAuthenticatedAt s).

Record ServiceAccountPatch := mkServiceAccountPatch {
  p_Name : option string; p_Description : option string }.
Definition IsEmpty (p : ServiceAccountPatch) : bool :=
  bool_decide (p_Name p = None ∧ p_Description p = None).

Definition Disable (fresh : Etag) (now : Time) (s : ServiceAccount) : ServiceAccount :=
  if decide (v_status s = ServiceAccountDisabled) then s
  else bumpVersion fresh now (set_status ServiceAccountDisabled s).
Definition Enable (fresh : Etag) (now : Time) (s : ServiceAccount) : ServiceAccount :=
  if decide (v_status s = ServiceAccountActive) then s
  else bumpVersion fresh now (set_status ServiceAccountActive s).

Definition ApplyPatch (fresh : Etag) (p : ServiceAccountPatch) (now : Time)
    (s : ServiceAccount) : ServiceAccount :=
  let '(name, c1) :=
    match p_Name p with
    | Some v => if decide (v = v_Name s) then (v_Name s, false) else (v, true)
    | None => (v_Name s, false)
    end in
  let '(desc, c2) :=
    match p_Description p with
    | Some v => if decide (v = v_Description s) then (v_Description s, false) else (v, true)
    | None => (v_Description s, false)
    end in
  let s' := mkServiceAccount (v_id s) (v_etag s) (v_status s) (v_createdAt s) (v_updatedAt s)
              (v_secretHash s) name desc (v_LastAuthenticatedAt s) in
  if c1 || c2 then bumpVersion fresh now s' else s'.

Definition RotateSecret (fresh : Etag) (newHash : bytes) (now : Time) (s : ServiceAccount) : ServiceAccount :=
  bumpVersion fresh now
    (mkServiceAccount (v_id s) (v_etag s) (v_status s) (v_createdAt s) (v_updatedAt s) newHash
       (v_Name s) (v_Description s) (v_LastAuthenticatedAt s)).

(** ** Rows (dbgen.ServiceAccount) *)

Record Row := mkRow {
  r_ID : string; r_Name : string; r_Description : string; r_ClientSecretHash : bytes;
  r_Status : Z; r_Etag : string; r_CreatedAt : Time; r_UpdatedAt : Time;
  r_LastAuthenticatedAt : option Time }.
#[export] Instance Row_eq_dec : EqDecision Row.
Proof. solve_decision. Defined.

Definition lastAuthToDB (t : Time) : option Time := if IsZero t then None else Some t.

Definition dbgenToDomain (r : Row) : ServiceAccount :=
  mkServiceAccount (r_ID r) (r_Etag r) (r_Status r) (r_CreatedAt r) (r_UpdatedAt r)
    (r_ClientSecretHash r) (r_Name r) (r_Description r) (null_time (r_LastAuthenticatedAt r)).

Definition toCreateParams (s : ServiceAccount) : Row :=
  mkRow (v_id s) (v_Name s) (v_Description s) (v_secretHash s) (v_status s) (v_etag s)
    (v_createdAt s) (v_updatedAt s) (lastAuthToDB (v_LastAuthenticatedAt s)).

(** UpdateServiceAccount(WithEtag)'s SET clause. *)
Definition toUpdateParams (s : ServiceAccount) (r : Row) : Row :=
  mkRow (r_ID r) (v_Name s) (v_Description s) (v_secretHash s) (v_status s) (v_etag s)
    (r_CreatedAt r) (v_updatedAt s) (lastAuthToDB (v_LastAuthenticatedAt s)).

Section ServiceAccount.
Context `{Runtime}.

Definition ParseServiceAccountID (s : string) : res string :=
  if rt_uuid_valid s then Ok s else Err (EValidation "service_account_id" "must be a valid UUID").

(** Unique keys: the primary key and the name. *)
Definition clash (r r' : Row) : bool :=
  rt_collate (r_ID r) (r_ID r') || rt_collate (r_Name r) (r_Name r').

End ServiceAccount.
