(* ===== verification/Access.v ===== *)
(** * Access: role assignments, their row, and the page cursor.

    modules/access/internal/domain/{access,repository}.go and
    modules/access/internal/mariadb/mapper.go. *)
From S2P Require Import Prelude Errors Monad Runtime Kernel.
Local Open Scope Z_scope.

Record RoleAssignment := mkRoleAssignment {
  ra_UserID : string; ra_RoleID : string; ra_AppID : string;
  ra_GrantedByUserID : string; ra_GrantedAt : Time }.
#[export] Instance RoleAssignment_eq_dec : EqDecision RoleAssignment.
Proof. solve_decision. Defined.

Definition NewRoleAssignment (userID roleID appID grantedBy : string) (now : Time) : RoleAssignment :=
  mkRoleAssignment userID roleID appID grantedBy now.

(** ** Listing and permission rows *)

Definition OrderByUnspecified : Z := 0.
Definition OrderByGrantedAtDesc : Z := 1.
Definition OrderByGrantedAtAsc : Z := 2.
Definition OrderByRoleIDDesc : Z := 3.
Definition OrderByRoleIDAsc : Z := 4.

Record PageCursor := mkPageCursor { pc_GrantedAt : Time; pc_RoleID : string }.
#[export] Instance PageCursor_eq_dec : EqDecision PageCursor.
Proof. solve_decision. Defined.

Record ListUserRolesRow := mkListUserRolesRow { lr_RoleID : string; lr_GrantedAt : Time }.
#[export] Instance ListUserRolesRow_eq_dec : EqDecision ListUserRolesRow.
Proof. solve_decision. Defined.

Record PermissionRow := mkPermissionRow { pr_RoleID : string; pr_Permission : string }.
#[export] Instance PermissionRow_eq_dec : EqDecision PermissionRow.
Proof. solve_decision. Defined.

(** ** Rows (dbgen.RoleAssignment) *)

Record Row := mkRow {
  r_UserID : string; r_RoleID : string; r_AppID : string; r_GrantedByUserID : string;
  r_GrantedAt : Time }.
#[export] Instance Row_eq_dec : EqDecision Row.
Proof. solve_decision. Defined.

Definition dbgenToDomain (r : Row) : RoleAssignment :=
  mkRoleAssignment (r_UserID r) (r_RoleID r) (r_AppID r) (r_GrantedByUserID r) (r_GrantedAt r).
Definition toCreateParams (a : RoleAssignment) : Row :=
  mkRow (ra_UserID a) (ra_RoleID a) (ra_AppID a) (ra_GrantedByUserID a) (ra_GrantedAt a).

Section Access.
Context `{Runtime}.

Definition ParseUserID (s : string) : res string :=
  if rt_uuid_valid s then Ok s else Err (EValidation "user_id" "must be a valid UUID").
Definition ParseRoleID (s : string) : res string :=
  if rt_uuid_valid s then Ok s else Err (EValidation "role_id" "must be a valid UUID").
Definition ParseAppID (s : string) : res string :=
  if rt_uuid_valid s then Ok s else Err (EValidation "app_id" "must be a valid UUID").
Definition ParseActorID (s : string) : res string :=
  if decide (s = "") then Ok ""
  else if rt_uuid_valid s then Ok s
  else Err (EValidation "granted_by_user_id" "must be a valid UUID").

(** Primary key of role_assignments: (user_id, role_id). *)
Definition clash (r r' : Row) : bool :=
  rt_collate (r_UserID r) (r_UserID r') && rt_collate (r_RoleID r) (r_RoleID r').

End Access.
