(* ===== verification/World.v ===== *)
(** * World: the database, the clock, randomness, failures, interference.

    The state a request runs in: the tables, the instant time.Now returns, the
    number of the next random draw, a schedule of failures and a schedule of
    interference. Every call that can fail for a reason outside the code (a
    statement, a transaction boundary, a draw of randomness) consumes one entry
    of the first schedule: the call goes through, fails before it takes effect,
    or takes effect and reports a failure. Before every statement outside a
    transaction, and at the start of a transaction, the head of the second
    schedule is applied to the database: it stands for what the requests served
    concurrently have done since the last statement. Theorems quantify over
    both schedules; the exhausted schedules stand for no failure and no
    interference. *)
From S2P Require Import Prelude Errors Sql Monad Runtime Kernel AuditDomain.
From S2P Require Import AuditMapper.
From S2P Require Import Identity.
From S2P Require Import App.
From S2P Require Import Role.
From S2P Require Import ServiceAccount.
From S2P Require Import Access.
From S2P Require Import RecoveryCode.
From S2P Require Import Session.
Local Open Scope Z_scope.

Record DB := mkDB {
  db_users : list Identity.Row;
  db_apps : list App.Row;
  db_roles : list Role.Row;
  db_role_permissions : list Role.PermRow;
  db_role_assignments : list Access.Row;
  db_service_accounts : list ServiceAccount.Row;
  db_sessions : list Session.Row;
  db_batches : list RecoveryCode.BatchRow;
  db_codes : list RecoveryCode.CodeRow;
  db_audit_events : list AuditMapper.Row }.

Inductive Fault := NoFault | FailBefore | FailAfter.
#[export] Instance Fault_eq_dec : EqDecision Fault.
Proof. solve_decision. Defined.

Record World := mkWorld {
  w_db : DB;
  w_faults : list Fault;    (* exhausted: no further failure *)
  w_env : list (DB → DB);   (* exhausted: no further interference *)
  w_seed : nat;             (* number of the next random draw *)
  w_now : Time;
  w_admin_app : option string }.   (* the audit authorizer's cache of the admin app id *)

Definition empty_db : DB := mkDB [] [] [] [] [] [] [] [] [] [].

(** ** Table updates *)

Definition set_users t (d : DB) : DB :=
  mkDB t (db_apps d) (db_roles d) (db_role_permissions d) (db_role_assignments d)
    (db_service_accounts d) (db_sessions d) (db_batches d) (db_codes d) (db_audit_events d).
Definition set_apps t (d : DB) : DB :=
  mkDB (db_users d) t (db_roles d) (db_role_permissions d) (db_role_assignments d)
    (db_service_accounts d) (db_sessions d) (db_batches d) (db_codes d) (db_audit_events d).
Definition set_roles t (d : DB) : DB :=
  mkDB (db_users d) (db_apps d) t (db_role_permissions d) (db_role_assignments d)
    (db_service_accounts d) (db_sessions d) (db_batches d) (db_codes d) (db_audit_events d).
Definition set_role_permissions t (d : DB) : DB :=
  mkDB (db_users d) (db_apps d) (db_roles d) t (db_role_assignments d)
    (db_service_accounts d) (db_sessions d) (db_batches d) (db_codes d) (db_audit_events d).
Definition set_role_assignments t (d : DB) : DB :=
  mkDB (db_users d) (db_apps d) (db_roles d) (db_role_permissions d) t
    (db_service_accounts d) (db_sessions d) (db_batches d) (db_codes d) (db_audit_events d).
Definition set_service_accounts t (d : DB) : DB :=
  mkDB (db_users d) (db_apps d) (db_roles d) (db_role_permissions d) (db_role_assignments d)
    t (db_sessions d) (db_batches d) (db_codes d) (db_audit_events d).
Definition set_sessions t (d : DB) : DB :=
  mkDB (db_users d) (db_apps d) (db_roles d) (db_role_permissions d) (db_role_assignments d)
    (db_service_accounts d) t (db_batches d) (db_codes d) (db_audit_events d).
Definition set_batches t (d : DB) : DB :=
  mkDB (db_users d) (db_apps d) (db_roles d) (db_role_permissions d) (db_role_assignments d)
    (db_service_accounts d) (db_sessions d) t (db_codes d) (db_audit_events d).
Definition set_codes t (d : DB) : DB :=
  mkDB (db_users d) (db_apps d) (db_roles d) (db_role_permissions d) (db_role_assignments d)
    (db_service_accounts d) (db_sessions d) (db_batches d) t (db_audit_events d).
Definition set_audit_events t (d : DB) : DB :=
  mkDB (db_users d) (db_apps d) (db_roles d) (db_role_permissions d) (db_role_assignments d)
    (db_service_accounts d) (db_sessions d) (db_batches d) (db_codes d) t.

Definition with_db (d : DB) (w : World) : World := mkWorld d (w_faults w) (w_env w) (w_seed w) (w_now w) (w_admin_app w).
Definition tick_seed (w : World) : World :=
  mkWorld (w_db w) (w_faults w) (w_env w) (S (w_seed w)) (w_now w) (w_admin_app w).
Definition pop_fault (w : World) : World :=
  mkWorld (w_db w) (tail (w_faults w)) (w_env w) (w_seed w) (w_now w) (w_admin_app w).
Definition with_admin_app (id : string) (w : World) : World :=
  mkWorld (w_db w) (w_faults w) (w_env w) (w_seed w) (w_now w) (Some id).
Definition with_env (e : list (DB → DB)) (w : World) : World :=
  mkWorld (w_db w) (w_faults w) e (w_seed w) (w_now w) (w_admin_app w).
Definition next_fault (w : World) : Fault := default NoFault (head (w_faults w)).

(** The concurrent requests run. *)
Definition interfere (w : World) : World :=
  match w_env w with
  | [] => w
  | f :: fs => with_env fs (with_db (f (w_db w)) w)
  end.

(** The error of a call that failed on its way (a lost connection, a
    cancelled context): neither a sentinel nor a duplicate entry. *)
Definition transport_error : error := EMsg "driver: bad connection".

(** ** Primitive effects *)

(** One statement: a total function of the database that yields a value and
    the new database, or a driver error and no change. *)
Definition exec {A} (f : DB → res (A * DB)) : M World A := λ w,
  let w1 := pop_fault (interfere w) in
  match next_fault w with
  | FailBefore => (w1, Err transport_error)
  | flt =>
      match f (w_db w1) with
      | Err e => (w1, Err e)
      | Ok (a, d) =>
          (with_db d w1,
           if decide (flt = FailAfter) then Err transport_error else Ok a)
      end
  end.

(** A SELECT that cannot fail by itself, and one with [sql.ErrNoRows]. *)
Definition query {A} (f : DB → A) : M World A := exec (λ d, Ok (f d, d)).
Definition query_one {A} (f : DB → option A) : M World A :=
  exec (λ d, match f d with Some a => Ok (a, d) | None => Err ENoRows end).

(** dbutil.InTx: the body's statements take effect together or not at all,
    with no interference between them. *)
Definition begin_tx : M World unit := exec (λ d, Ok (tt, d)).
Definition atomically {A} (m : M World A) : M World A := λ w,
  let (w', r) := m (with_env [] w) in
  let w'' := with_env (w_env w) w' in
  match r with
  | Ok a => (w'', Ok a)
  | Err e => (with_db (w_db w) w'', Err e)
  end.
Definition commit_tx (saved : DB) : M World unit := λ w,
  match next_fault w with
  | FailBefore => (with_db saved (pop_fault w), Err (EWrap "commit" transport_error))
  | FailAfter => (pop_fault w, Err (EWrap "commit" transport_error))
  | NoFault => (pop_fault w, Ok tt)
  end.
Definition InTx {A} (fn : M World A) : M World A :=
  _ <- begin_tx catch err => throw (EWrap "begin tx" err) ;;
  saved <- gets w_db ;;
  a <- atomically fn ;;
  commit_tx saved ;;;
  ret a.

Definition time_now : M World Time := gets w_now.

Section Draws.
Context `{Runtime}.

(** uuid.NewV7 behind NewXID: fallible; etag.New (uuid.NewString) panics instead. *)
Definition NewV7 (msg : string) : M World string := λ w,
  let w1 := pop_fault w in
  match next_fault w with
  | NoFault => (tick_seed w1, Ok (rt_uuid (w_seed w1)))
  | _ => (w1, Err (EWrap msg (EMsg "uuid: entropy")))
  end.
Definition etag_New : M World Etag := λ w, (tick_seed w, Ok (rt_uuid (w_seed w))).

(** crypto/rand.Read into a buffer of [n] bytes. *)
Definition rand_Read (n : nat) : M World bytes := λ w,
  let w1 := pop_fault w in
  match next_fault w with
  | NoFault => (tick_seed w1, Ok (rt_rand (w_seed w1) n))
  | _ => (w1, Err (EMsg "rand: read"))
  end.

End Draws.

(** ** Conditional UPDATE and DELETE statements on one table *)

Section Statements.
Context {R : Type} `{EqDecision R} `{Runtime}.
Context (get : DB → list R) (set : list R → DB → DB) (clash : R → R → bool).

Definition dup_error : error := EMySQL mysqlErrDup.

(** INSERT, with a foreign-key check [fk] on the database. *)
Definition sql_insert (fk : DB → bool) (r : R) : M World unit :=
  exec (λ d,
    match ins clash r (get d) with
    | None => Err dup_error
    | Some t => if fk d then Ok (tt, set t d) else Err (EMySQL 1452)
    end).

(** UPDATE, yielding RowsAffected. *)
Definition sql_update (p : R → bool) (f : R → R) : M World Z :=
  exec (λ d,
    match upd_uniq clash p f (get d) with
    | None => Err dup_error
    | Some t => Ok (affected rt_found_rows p f (get d), set t d)
    end).

(** DELETE, yielding RowsAffected; [cascade] removes the dependent rows. *)
Definition sql_delete (p : R → bool) (cascade : list R → DB → DB) : M World Z :=
  exec (λ d, Ok (count p (get d), cascade (sel p (get d)) (set (del p (get d)) d))).

End Statements.
