(* ===== verification/IdentityRepo.v ===== *)
(** * IdentityRepo: the users table behind the identity repository.

    modules/identity/internal/mariadb/repository.go over the statements of
    queries/users.sql. *)
From S2P Require Import Prelude Errors Sql Monad Runtime Listing Kernel.
From S2P Require Import Access.
From S2P Require Import RecoveryCode.
From S2P Require Import Session.
From S2P Require Import Identity.
From S2P Require Import World.
Local Open Scope Z_scope.

Section IdentityRepo.
Context `{Runtime}.

(** WHERE id = ?  and  WHERE id = ? AND etag = ?. *)
Definition where_id (id : string) (r : Row) : bool := rt_collate (r_ID r) id.
Definition where_id_etag (id : string) (e : Etag) (r : Row) : bool :=
  rt_collate (r_ID r) id && rt_collate (r_Etag r) e.

Definition update_users := sql_update db_users set_users clash.

(** ON DELETE CASCADE from users: assignments, sessions, batches and codes. *)
Definition cascade_user (gone : list Row) (d : DB) : DB :=
  let is_gone id := existsb (λ u : Row, rt_collate (r_ID u) id) gone in
  let batch_gone id :=
    existsb (λ b, is_gone (rb_UserID b) && rt_collate (rb_ID b) id) (db_batches d) in
  set_role_assignments (del (λ a, is_gone (Access.r_UserID a)) (db_role_assignments d))
    (set_sessions (del (λ s, is_gone (Session.r_UserID s)) (db_sessions d))
      (set_codes (del (λ c, batch_gone (rc_BatchID c)) (db_codes d))
        (set_batches (del (λ b, is_gone (rb_UserID b)) (db_batches d)) d))).

Definition delete_users (p : Row → bool) : M World Z :=
  sql_delete db_users set_users p cascade_user.

Definition CountUserByID (id : string) : M World Z := query (λ d, count (where_id id) (db_users d)).

(** ** The generated queries (dbgen) *)

Definition Queries_CreateUser (arg : Row) : M World unit := sql_insert db_users set_users clash (λ _, true) arg.
Definition Queries_GetUserByID (id : string) : M World Row := query_one (λ d, sel_one (where_id id) (db_users d)).
Definition Queries_GetUserByEmail (email : string) : M World Row :=
  query_one (λ d, sel_one (λ r, rt_collate (r_Email r) email) (db_users d)).
Definition Queries_GetUserByUsername (username : string) : M World Row :=
  query_one (λ d, sel_one (λ r, rt_collate (r_Username r) username) (db_users d)).
Definition Queries_GetFailedLoginAttempts (id : string) : M World Z :=
  query_one (λ d, r_FailedLoginAttempts <$> sel_one (where_id id) (db_users d)).
(** [arg] is the SET clause with its parameters filled in. *)
Definition Queries_UpdateUser (arg : Row → Row) (id : string) : M World Z := update_users (where_id id) arg.
Definition Queries_UpdateUserWithEtag (arg : Row → Row) (id : string) (etag : Etag) : M World Z :=
  update_users (where_id_etag id etag) arg.
Definition Queries_UpdateUserPasswordWithEtag (arg : Row → Row) (id : string) (etag : Etag) : M World Z :=
  update_users (where_id_etag id etag) arg.
Definition Queries_UpdateUserLastLoginAt (now : Time) (id : string) : M World Z :=
  update_users (where_id id) (set_row_LastLoginAt now).
Definition Queries_IncrementFailedLogins (id : string) : M World Z :=
  update_users (where_id id) (λ r, set_row_lockout (r_FailedLoginAttempts r + 1) (r_LockoutUntil r) r).
Definition Queries_LockUser (until : option Time) (id : string) : M World Z :=
  update_users (where_id id) (set_row_lockout 0 until).
Definition Queries_ResetLoginFailures (id : string) : M World Z := update_users (where_id id) (set_row_lockout 0 None).
Definition Queries_DeleteUser (id : string) : M World Z := delete_users (where_id id).
Definition Queries_DeleteUserWithEtag (id : string) (etag : Etag) : M World Z := delete_users (where_id_etag id etag).

(** ** The repository *)

Definition Create (u : User) : M World unit :=
  _ <- Queries_CreateUser (toCreateParams u) catch err =>
    (if IsDuplicateEntry err then throw (ESentinel identity_ErrUserAlreadyExists)
     else throw (EWrap "identity repo: create" err)) ;;
  ret tt.

Definition GetByID (id : string) : M World User :=
  row <- Queries_GetUserByID id catch err =>
    (if errors_is_no_rows err then throw (ESentinel identity_ErrUserNotFound)
     else throw (EWrap "identity repo: get_by_id" err)) ;;
  ret (dbgenToDomain row).

Definition GetByEmail (email : string) : M World User :=
  row <- Queries_GetUserByEmail email catch err =>
    (if errors_is_no_rows err then throw (ESentinel identity_ErrUserNotFound)
     else throw (EWrap "identity repo: get_by_email" err)) ;;
  ret (dbgenToDomain row).

Definition GetByUsername (username : string) : M World User :=
  row <- Queries_GetUserByUsername username catch err =>
    (if errors_is_no_rows err then throw (ESentinel identity_ErrUserNotFound)
     else throw (EWrap "identity repo: get_by_username" err)) ;;
  ret (dbgenToDomain row).

Definition GetFailedLoginAttempts (id : string) : M World Z :=
  count <- Queries_GetFailedLoginAttempts id catch err =>
    (if errors_is_no_rows err then throw (ESentinel identity_ErrUserNotFound)
     else throw (EWrap "identity repo: get_failed_login_attempts" err)) ;;
  ret count.

Definition Update (u : User) (expectedEtag : Etag) : M World unit :=
  rows <- (if decide (expectedEtag = "")
           then Queries_UpdateUser (toUpdateParams u) (u_id u)
           else Queries_UpdateUserWithEtag (toUpdateParams u) (u_id u) expectedEtag) catch err =>
    (if IsDuplicateEntry err then throw (ESentinel identity_ErrUserAlreadyExists)
     else throw (EWrap "identity repo: update" err)) ;;
  if decide (rows = 1) then ret tt
  else Discriminate expectedEtag (CountUserByID (u_id u))
         (ESentinel identity_ErrUserNotFound) (ESentinel identity_ErrEtagMismatch).

Definition UpdatePassword (u : User) (expectedEtag : Etag) : M World unit :=
  if decide (expectedEtag = "") then
    throw (EMsg "identity repo: update_password: expected etag is required")
  else
    rows <- Queries_UpdateUserPasswordWithEtag (toUpdatePasswordParams u) (u_id u) expectedEtag catch err =>
      throw (EWrap "identity repo: update_password" err) ;;
    if decide (rows = 1) then ret tt
    else Discriminate expectedEtag (CountUserByID (u_id u))
           (ESentinel identity_ErrUserNotFound) (ESentinel identity_ErrEtagMismatch).

Definition UpdateLastLoginAt (id : string) (now : Time) : M World unit :=
  rows <- Queries_UpdateUserLastLoginAt now id catch err =>
    throw (EWrap "identity repo: update_last_login" err) ;;
  if decide (rows = 0) then throw (ESentinel identity_ErrUserNotFound) else ret tt.

Definition IncrementFailedLogins (id : string) : M World unit :=
  rows <- Queries_IncrementFailedLogins id catch err =>
    throw (EWrap "identity repo: increment_failed_logins" err) ;;
  if decide (rows = 0) then ret tt else ret tt.

Definition LockUser (id : string) (until : Time) : M World unit :=
  rows <- Queries_LockUser (TimeToNullTime until) id catch err =>
    throw (EWrap "identity repo: lock_user" err) ;;
  if decide (rows = 0) then throw (ESentinel identity_ErrUserNotFound) else ret tt.

Definition ResetLoginFailures (id : string) : M World unit :=
  rows <- Queries_ResetLoginFailures id catch err =>
    throw (EWrap "identity repo: reset_login_failures" err) ;;
  if decide (rows = 0) then throw (ESentinel identity_ErrUserNotFound) else ret tt.

Definition Delete (id : string) (expectedEtag : Etag) : M World unit :=
  rows <- (if decide (expectedEtag = "") then Queries_DeleteUser id
           else Queries_DeleteUserWithEtag id expectedEtag) catch err =>
    throw (EWrap "identity repo: delete" err) ;;
  if decide (rows = 1) then ret tt
  else Discriminate expectedEtag (CountUserByID id)
         (ESentinel identity_ErrUserNotFound) (ESentinel identity_ErrEtagMismatch).

(** ** ListUsers (list.go) *)

Definition OrderByUnspecified : Z := 0.
Definition OrderByCreatedAtDesc : Z := 1.
Definition OrderByCreatedAtAsc : Z := 2.
Definition OrderByUserIDDesc : Z := 3.
Definition OrderByUserIDAsc : Z := 4.
Definition OrderByUsernameDesc : Z := 5.
Definition OrderByUsernameAsc : Z := 6.

Record PageCursor := mkPageCursor { pc_CreatedAt : Time; pc_UserID : string; pc_Username : string }.

Record ListQuery := mkListQuery {
  q_PageSize : Z; q_After : option PageCursor; q_Search : string; q_Emails : list string;
  q_Usernames : list string; q_DisplayNames : list string; q_Statuses : list Z; q_OrderBy : Z }.

Record ListResult := mkListResult { lr_Users : list User; lr_NextCursor : option PageCursor }.

(** Rows strictly after the cursor in the active order. *)
Definition keysetClause (order : Z) (c : PageCursor) (r : Row) : bool :=
  if decide (order = OrderByCreatedAtAsc) then
    time_id_lt (pc_CreatedAt c) (pc_UserID c) (r_CreatedAt r) (r_ID r)
  else if decide (order = OrderByUserIDDesc) then rt_collate_lt (r_ID r) (pc_UserID c)
  else if decide (order = OrderByUserIDAsc) then rt_collate_lt (pc_UserID c) (r_ID r)
  else if decide (order = OrderByUsernameDesc) then
    name_id_lt (r_Username r) (r_ID r) (pc_Username c) (pc_UserID c)
  else if decide (order = OrderByUsernameAsc) then
    name_id_lt (pc_Username c) (pc_UserID c) (r_Username r) (r_ID r)
  else time_id_lt (r_CreatedAt r) (r_ID r) (pc_CreatedAt c) (pc_UserID c).

(** ORDER BY: [r] is listed before [r']. *)
Definition orderClauseFor (order : Z) (r r' : Row) : bool :=
  if decide (order = OrderByCreatedAtAsc) then
    time_id_lt (r_CreatedAt r) (r_ID r) (r_CreatedAt r') (r_ID r')
  else if decide (order = OrderByUserIDDesc) then rt_collate_lt (r_ID r') (r_ID r)
  else if decide (order = OrderByUserIDAsc) then rt_collate_lt (r_ID r) (r_ID r')
  else if decide (order = OrderByUsernameDesc) then
    name_id_lt (r_Username r') (r_ID r') (r_Username r) (r_ID r)
  else if decide (order = OrderByUsernameAsc) then
    name_id_lt (r_Username r) (r_ID r) (r_Username r') (r_ID r')
  else time_id_lt (r_CreatedAt r') (r_ID r') (r_CreatedAt r) (r_ID r).

(** column IN (?, ...) *)
Definition in_list (l : list string) (v : string) : bool := existsb (rt_collate v) l.

Definition status_clause (l : list Z) (st : Z) : bool :=
  if decide (l = []) then bool_decide (st ≠ UserStatusDeleted) else bool_decide (st ∈ l).

Definition search_clause (search : string) (r : Row) : bool :=
  if decide (search = "") then true
  else let pattern := like_contains search in
       rt_like pattern (r_Email r) || rt_like pattern (r_Username r) || rt_like pattern (r_DisplayName r).

(** The filters of [buildWhere], then its keyset clause. *)
Definition filters (q : ListQuery) (r : Row) : bool :=
  status_clause (q_Statuses q) (r_Status r)
  && search_clause (q_Search q) r
  && (if decide (q_Emails q = []) then true else in_list (q_Emails q) (r_Email r))
  && (if decide (q_Usernames q = []) then true else in_list (q_Usernames q) (r_Username r))
  && (if decide (q_DisplayNames q = []) then true else in_list (q_DisplayNames q) (r_DisplayName r)).
Definition buildWhere (q : ListQuery) (r : Row) : bool :=
  filters q r && after_clause (keysetClause (q_OrderBy q)) (q_After q) r.

(** The scan reads neither password_hash nor the lockout columns. *)
Definition scan_row (r : Row) : Row :=
  mkRow (r_ID r) (r_Email r) (r_Username r) None (r_DisplayName r) (r_AvatarUrl r) (r_Locale r)
    (r_Timezone r) (r_Status r) (r_Etag r) (r_CreatedAt r) (r_UpdatedAt r) (r_LastLoginAt r) 0 None.

Definition cursor_of (r : Row) : PageCursor := mkPageCursor (r_CreatedAt r) (r_ID r) (r_Username r).

Definition List (q : ListQuery) : M World ListResult :=
  if decide (q_PageSize q <= 0) then throw (EMsg "identity repo: list: page_size must be > 0")
  else
    rows <- query (λ d, fetch_rows (q_PageSize q) (buildWhere q) (orderClauseFor (q_OrderBy q))
                          (db_users d)) catch err =>
      throw (EWrap "identity repo: list" err) ;;
    let '(page, next) := trim_page (q_PageSize q) cursor_of rows in
    ret (mkListResult ((λ r, dbgenToDomain (scan_row r)) <$> page) next).

End IdentityRepo.

#[export] Hint Unfold Queries_CreateUser Queries_GetUserByID Queries_GetUserByEmail Queries_GetUserByUsername Queries_GetFailedLoginAttempts Queries_UpdateUser Queries_UpdateUserWithEtag Queries_UpdateUserPasswordWithEtag Queries_UpdateUserLastLoginAt Queries_IncrementFailedLogins Queries_LockUser Queries_ResetLoginFailures Queries_DeleteUser Queries_DeleteUserWithEtag : queries.
