(* ===== verification/SessionRepo.v ===== *)
(** * SessionRepo: the sessions table behind the session repository.

    modules/session/internal/mariadb/repository.go over queries/sessions.sql. *)
From S2P Require Import Prelude Errors Sql Monad Runtime Listing Kernel.
From S2P Require Import Identity.
From S2P Require Import Session.
From S2P Require Import World.
Local Open Scope Z_scope.

Section SessionRepo.
Context `{Runtime}.

Definition where_id (id : string) (r : Row) : bool := rt_collate (r_ID r) id.
Definition where_refresh_hash (hash : bytes) (r : Row) : bool :=
  bool_decide (r_RefreshTokenHash r = hash).
Definition where_id_hash (id : string) (hash : bytes) (r : Row) : bool :=
  rt_collate (r_ID r) id && bool_decide (r_RefreshTokenHash r = hash).
Definition where_user (userID : string) (r : Row) : bool := rt_collate (r_UserID r) userID.
(** user_id = ? AND revoked_at IS NULL *)
Definition where_user_active (userID : string) (r : Row) : bool :=
  rt_collate (r_UserID r) userID && bool_decide (r_RevokedAt r = None).

Definition update_sessions := sql_update db_sessions set_sessions clash.

(** fk_sessions_user *)
Definition fk_user (userID : string) (d : DB) : bool :=
  existsb (λ u, rt_collate (Identity.r_ID u) userID) (db_users d).

(** ** The generated queries (dbgen) *)

Definition Queries_CreateSession (arg : Row) : M World unit :=
  sql_insert db_sessions set_sessions clash (fk_user (r_UserID arg)) arg.
Definition Queries_GetSessionById (id : string) : M World Row :=
  query_one (λ d, sel_one (where_id id) (db_sessions d)).
Definition Queries_GetSessionByRefreshHash (hash : bytes) : M World Row :=
  query_one (λ d, sel_one (where_refresh_hash hash) (db_sessions d)).
(** [arg] is the SET clause with its parameters filled in. *)
Definition Queries_UpdateSession (arg : Row → Row) (id : string) : M World Z := update_sessions (where_id id) arg.
Definition Queries_RotateSessionRefresh (arg : Row → Row) (id : string) (hash : bytes) : M World Z :=
  update_sessions (where_id_hash id hash) arg.

(** ORDER BY issued_at DESC, id DESC: [newer r r'] when [r] comes first. *)
Definition newer (r r' : Row) : bool :=
  time_id_lt (r_IssuedAt r') (r_ID r') (r_IssuedAt r) (r_ID r).
Definition Queries_ListSessionsByUser (userID : string) : M World (list Row) :=
  query (λ d, order_by newer (sel (where_user userID) (db_sessions d))).
Definition Queries_RevokeAllSessionsForUser (arg : Row → Row) (userID : string) : M World Z :=
  update_sessions (where_user_active userID) arg.

(** ** The repository *)

Definition Create (s : Session) : M World unit :=
  _ <- Queries_CreateSession (toCreateParams s) catch err =>
    throw (EWrap "session repo: create" err) ;;
  ret tt.

Definition GetByID (id : string) : M World Session :=
  row <- Queries_GetSessionById id catch err =>
    (if errors_is_no_rows err then throw (ESentinel session_ErrSessionNotFound)
     else throw (EWrap "session repo: get_by_id" err)) ;;
  ret (dbgenToDomain row).

Definition GetByRefreshHash (hash : bytes) : M World Session :=
  row <- Queries_GetSessionByRefreshHash hash catch err =>
    (if errors_is_no_rows err then throw (ESentinel session_ErrSessionNotFound)
     else throw (EWrap "session repo: get_by_refresh_hash" err)) ;;
  ret (dbgenToDomain row).

Definition Update (s : Session) : M World unit :=
  rows <- Queries_UpdateSession (toUpdateParams s) (s_id s) catch err =>
    throw (EWrap "session repo: update" err) ;;
  if decide (rows = 0) then throw (ESentinel session_ErrSessionNotFound) else ret tt.

Definition Rotate (s : Session) (expectedRefreshHash : bytes) : M World unit :=
  rows <- Queries_RotateSessionRefresh (toRotateParams s) (s_id s) expectedRefreshHash catch err =>
    throw (EWrap "session repo: rotate" err) ;;
  if decide (rows = 0) then throw (ESentinel session_ErrRefreshTokenReused) else ret tt.

Definition ListByUser (userID : string) : M World (list Session) :=
  sessions <- Queries_ListSessionsByUser userID catch err =>
    throw (EWrap "session repo: list_by_user" err) ;;
  ret (dbgenToDomain <$> sessions).

Definition RevokeAllForUser (userID : string) (now : Time) : M World unit :=
  _ <- Queries_RevokeAllSessionsForUser (toRevokeParams now) userID catch err =>
    throw (EWrap "session repo: revoke_all_for_user" err) ;;
  ret tt.

End SessionRepo.

#[export] Hint Unfold Queries_CreateSession Queries_GetSessionById Queries_GetSessionByRefreshHash Queries_UpdateSession Queries_RotateSessionRefresh Queries_ListSessionsByUser Queries_RevokeAllSessionsForUser : queries.
