(* ===== verification/RecoveryCodeRepo.v ===== *)
(** * RecoveryCodeRepo: batches and codes in the database.

    modules/recoverycode/internal/mariadb/repository.go over
    queries/recoveryCodes.sql. *)
From S2P Require Import Prelude Errors Sql Monad Runtime Kernel.
From S2P Require Import Identity.
From S2P Require Import Session.
From S2P Require Import RecoveryCode.
From S2P Require Import World.
Local Open Scope Z_scope.

Section RecoveryCodeRepo.
Context `{Runtime}.

Definition where_batch (id : string) (r : BatchRow) : bool := rt_collate (rb_ID r) id.
Definition where_batch_active (id : string) (r : BatchRow) : bool :=
  rt_collate (rb_ID r) id && bool_decide (rb_RevokedAt r = None).
Definition where_user_active (userID : string) (r : BatchRow) : bool :=
  rt_collate (rb_UserID r) userID && bool_decide (rb_RevokedAt r = None).
(** batch_id = ? AND code_hash = ? AND used_at IS NULL *)
Definition where_unused (batchID : string) (hash : bytes) (r : CodeRow) : bool :=
  rt_collate (rc_BatchID r) batchID && bool_decide (rc_CodeHash r = hash)
  && bool_decide (rc_UsedAt r = None).

Definition fk_user (userID : string) (d : DB) : bool :=
  existsb (λ u, rt_collate (Identity.r_ID u) userID) (db_users d).
Definition fk_batch (batchID : string) (d : DB) : bool :=
  existsb (where_batch batchID) (db_batches d).

(** ** The generated queries (dbgen) *)

Definition update_batches := sql_update db_batches set_batches batch_clash.

Definition Queries_CreateRecoveryCodeBatch (arg : BatchRow) : M World unit :=
  sql_insert db_batches set_batches batch_clash (fk_user (rb_UserID arg)) arg.
Definition Queries_CreateRecoveryCode (arg : CodeRow) : M World unit :=
  sql_insert db_codes set_codes code_clash (fk_batch (rc_BatchID arg)) arg.
Definition Queries_GetActiveRecoveryBatchByUser (userID : string) : M World BatchRow :=
  query_one (λ d, sel_one (where_user_active userID) (db_batches d)).
Definition Queries_ListRecoveryCodesByBatch (batchID : string) : M World (list CodeRow) :=
  query (λ d, sel (λ c, rt_collate (rc_BatchID c) batchID) (db_codes d)).
Definition Queries_RevokeRecoveryBatch (now : Time) (id : string) : M World Z :=
  update_batches (where_batch_active id) (set_revoked now).
Definition Queries_RevokeActiveRecoveryBatchesForUser (now : Time) (userID : string) : M World Z :=
  update_batches (where_user_active userID) (set_revoked now).
Definition Queries_ConsumeRecoveryCode (now : Time) (batchID : string) (hash : bytes) : M World Z :=
  sql_update db_codes set_codes code_clash (where_unused batchID hash) (set_used now).

(** ** The repository *)

Definition CreateBatch (b : Batch) : M World unit :=
  InTx (
    (_ <- Queries_CreateRecoveryCodeBatch (toCreateBatchParams b) catch err =>
       throw (EWrap "recovery code repo: create batch" err) ;;
     mfor (b_codes b) (λ c,
       _ <- Queries_CreateRecoveryCode (toCreateCodeParams (b_id b) c) catch err =>
         throw (EWrap "recovery code repo: create code" err) ;;
       ret tt))).

Definition GetActiveBatchByUser (userID : string) : M World Batch :=
  row <- Queries_GetActiveRecoveryBatchByUser userID catch err =>
    (if errors_is_no_rows err then throw (ESentinel recoverycode_ErrBatchNotFound)
     else throw (EWrap "recovery code repo: get_active_batch" err)) ;;
  codes <- Queries_ListRecoveryCodesByBatch (rb_ID row) catch err =>
    throw (EWrap "recovery code repo: list_codes" err) ;;
  ret (batchAndCodes row codes).

Definition RevokeBatch (batchID : string) (now : Time) : M World unit :=
  _ <- Queries_RevokeRecoveryBatch now batchID catch err =>
    throw (EWrap "recovery code repo: revoke_batch" err) ;;
  ret tt.

Definition RevokeActiveBatchesForUser (userID : string) (now : Time) : M World unit :=
  _ <- Queries_RevokeActiveRecoveryBatchesForUser now userID catch err =>
    throw (EWrap "recovery code repo: revoke_active_for_user" err) ;;
  ret tt.

Definition ConsumeCode (batchID : string) (hash : bytes) (now : Time) : M World unit :=
  rows <- Queries_ConsumeRecoveryCode now batchID hash catch err =>
    throw (EWrap "recovery code repo: consume" err) ;;
  if decide (rows = 0) then throw (ESentinel recoverycode_ErrRecoveryCodeInvalid) else ret tt.

End RecoveryCodeRepo.

#[export] Hint Unfold Queries_CreateRecoveryCodeBatch Queries_CreateRecoveryCode Queries_GetActiveRecoveryBatchByUser Queries_ListRecoveryCodesByBatch Queries_RevokeRecoveryBatch Queries_RevokeActiveRecoveryBatchesForUser Queries_ConsumeRecoveryCode : queries.
