(* ===== verification/AppRepo.v ===== *)
(** * AppRepo: the apps table behind the app repository.

    modules/app/internal/mariadb/repository.go over queries/apps.sql. *)
From S2P Require Import Prelude Errors Sql Monad Runtime Listing Kernel.
From S2P Require Import Access.
From S2P Require Import Role.
From S2P Require Import App.
From S2P Require Import World.
Local Open Scope Z_scope.

Section AppRepo.
Context `{Runtime}.

Definition where_id (id : string) (r : Row) : bool := rt_collate (r_ID r) id.
Definition where_id_etag (id : string) (e : Etag) (r : Row) : bool :=
  rt_collate (r_ID r) id && rt_collate (r_Etag r) e.

Definition update_apps := sql_update db_apps set_apps clash.

(** ON DELETE CASCADE from apps: roles, then their permissions and assignments. *)
Definition cascade_app (gone : list Row) (d : DB) : DB :=
  let is_gone id := existsb (λ a : Row, rt_collate (r_ID a) id) gone in
  let role_gone id :=
    existsb (λ o, is_gone (Role.r_AppID o) && rt_collate (Role.r_ID o) id) (db_roles d) in
  set_role_permissions (del (λ p, role_gone (rp_RoleID p)) (db_role_permissions d))
    (set_role_assignments (del (λ a, role_gone (Access.r_RoleID a)) (db_role_assignments d))
      (set_roles (del (λ o, is_gone (Role.r_AppID o)) (db_roles d)) d)).

Definition delete_apps (p : Row → bool) : M World Z :=
  sql_delete db_apps set_apps p cascade_app.

Definition CountAppByID (id : string) : M World Z := query (λ d, count (where_id id) (db_apps d)).

(** ** The generated queries (dbgen) *)

Definition Queries_CreateApp (arg : Row) : M World unit := sql_insert db_apps set_apps clash (λ _, true) arg.
Definition Queries_GetAppByID (id : string) : M World Row :=
  query_one (λ d, sel_one (where_id id) (db_apps d)).
(** [arg] is the SET clause with its parameters filled in. *)
Definition Queries_UpdateApp (arg : Row → Row) (id : string) : M World Z := update_apps (where_id id) arg.
Definition Queries_UpdateAppWithEtag (arg : Row → Row) (id : string) (etag : Etag) : M World Z :=
  update_apps (where_id_etag id etag) arg.
Definition Queries_DeleteApp (id : string) : M World Z := delete_apps (where_id id).
Definition Queries_DeleteAppWithEtag (id : string) (etag : Etag) : M World Z :=
  delete_apps (where_id_etag id etag).

(** ** The repository *)

Definition Create (a : App) : M World unit :=
  _ <- Queries_CreateApp (toCreateParams a) catch err =>
    (if IsDuplicateEntry err then throw (ESentinel app_ErrAppAlreadyExists)
     else throw (EWrap "app repo: create" err)) ;;
  ret tt.

Definition GetByID (id : string) : M World App :=
  row <- Queries_GetAppByID id catch err =>
    (if errors_is_no_rows err then throw (ESentinel app_ErrAppNotFound)
     else throw (EWrap "app repo: get_by_id" err)) ;;
  ret (dbgenToDomain row).

Definition Update (a : App) (expectedEtag : Etag) : M World unit :=
  rows <- (if decide (expectedEtag = "")
           then Queries_UpdateApp (toUpdateParams a) (a_id a)
           else Queries_UpdateAppWithEtag (toUpdateParams a) (a_id a) expectedEtag) catch err =>
    (if IsDuplicateEntry err then throw (ESentinel app_ErrAppAlreadyExists)
     else throw (EWrap "app repo: update" err)) ;;
  if decide (rows = 1) then ret tt
  else Discriminate expectedEtag (CountAppByID (a_id a))
         (ESentinel app_ErrAppNotFound) (ESentinel app_ErrEtagMismatch).

Definition Delete (id : string) (expectedEtag : Etag) : M World unit :=
  rows <- (if decide (expectedEtag = "") then Queries_DeleteApp id
           else Queries_DeleteAppWithEtag id expectedEtag) catch err =>
    throw (EWrap "app repo: delete" err) ;;
  if decide (rows = 1) then ret tt
  else Discriminate expectedEtag (CountAppByID id)
         (ESentinel app_ErrAppNotFound) (ESentinel app_ErrEtagMismatch).

(** ** ListApps (list.go) *)

Definition OrderByUnspecified : Z := 0.
Definition OrderByCreatedAtDesc : Z := 1.
Definition OrderByCreatedAtAsc : Z := 2.
Definition OrderByAppIDDesc : Z := 3.
Definition OrderByAppIDAsc : Z := 4.
Definition OrderByNameDesc : Z := 5.
Definition OrderByNameAsc : Z := 6.

Record PageCursor := mkPageCursor { pc_CreatedAt : Time; pc_AppID : string; pc_Name : string }.
#[export] Instance PageCursor_eq_dec : EqDecision PageCursor.
Proof. solve_decision. Defined.

Record ListQuery := mkListQuery {
  q_PageSize : Z; q_After : option PageCursor; q_Search : string; q_Statuses : list Z; q_OrderBy : Z }.
Record ListResult := mkListResult { lr_Apps : list App; lr_NextCursor : option PageCursor }.

(** Rows strictly after the cursor in the active order. *)
Definition keysetClause (order : Z) (c : PageCursor) (r : Row) : bool :=
  if decide (order = OrderByCreatedAtAsc) then
    time_id_lt (pc_CreatedAt c) (pc_AppID c) (r_CreatedAt r) (r_ID r)
  else if decide (order = OrderByAppIDDesc) then rt_collate_lt (r_ID r) (pc_AppID c)
  else if decide (order = OrderByAppIDAsc) then rt_collate_lt (pc_AppID c) (r_ID r)
  else if decide (order = OrderByNameDesc) then
    name_id_lt (r_Name r) (r_ID r) (pc_Name c) (pc_AppID c)
  else if decide (order = OrderByNameAsc) then
    name_id_lt (pc_Name c) (pc_AppID c) (r_Name r) (r_ID r)
  else time_id_lt (r_CreatedAt r) (r_ID r) (pc_CreatedAt c) (pc_AppID c).

(** ORDER BY: [r] is listed before [r']. *)
Definition orderClauseFor (order : Z) (r r' : Row) : bool :=
  if decide (order = OrderByCreatedAtAsc) then
    time_id_lt (r_CreatedAt r) (r_ID r) (r_CreatedAt r') (r_ID r')
  else if decide (order = OrderByAppIDDesc) then rt_collate_lt (r_ID r') (r_ID r)
  else if decide (order = OrderByAppIDAsc) then rt_collate_lt (r_ID r) (r_ID r')
  else if decide (order = OrderByNameDesc) then
    name_id_lt (r_Name r') (r_ID r') (r_Name r) (r_ID r)
  else if decide (order = OrderByNameAsc) then
    name_id_lt (r_Name r) (r_ID r) (r_Name r') (r_ID r')
  else time_id_lt (r_CreatedAt r') (r_ID r') (r_CreatedAt r) (r_ID r).

Definition cursor_of (r : Row) : PageCursor := mkPageCursor (r_CreatedAt r) (r_ID r) (r_Name r).

(** The filters of [buildWhere], then its keyset clause. *)
Definition filters (q : ListQuery) (r : Row) : bool :=
  (if decide (q_Statuses q = []) then true else bool_decide (r_Status r ∈ q_Statuses q))
  && (if decide (q_Search q = "") then true
      else let pattern := like_contains (q_Search q) in
           rt_like pattern (r_Name r) || rt_like pattern (r_Link r) || rt_like pattern (r_Slug r)).
Definition buildWhere (q : ListQuery) (r : Row) : bool :=
  filters q r && after_clause (keysetClause (q_OrderBy q)) (q_After q) r.

Definition List (q : ListQuery) : M World ListResult :=
  if decide (q_PageSize q <= 0) then throw (EMsg "app repo: list: page_size must be > 0")
  else
    rows <- query (λ d, fetch_rows (q_PageSize q) (buildWhere q) (orderClauseFor (q_OrderBy q))
                          (db_apps d)) catch err =>
      throw (EWrap "app repo: list" err) ;;
    let '(page, next) := trim_page (q_PageSize q) cursor_of rows in
    ret (mkListResult (dbgenToDomain <$> page) next).

End AppRepo.

#[export] Hint Unfold Queries_CreateApp Queries_GetAppByID Queries_UpdateApp Queries_UpdateAppWithEtag Queries_DeleteApp Queries_DeleteAppWithEtag : queries.
