(* ===== verification/RoleRepo.v ===== *)
(** * RoleRepo: roles and their permissions in the database.

    modules/role/internal/mariadb/repository.go over queries/roles.sql. *)
From S2P Require Import Prelude Errors Sql Monad Runtime Listing Kernel.
From S2P Require Import Access.
From S2P Require Import App.
From S2P Require Import Role.
From S2P Require Import World.
Local Open Scope Z_scope.

Section RoleRepo.
Context `{Runtime}.

Definition where_id (id : string) (r : Row) : bool := rt_collate (r_ID r) id.
Definition where_id_etag (id : string) (e : Etag) (r : Row) : bool :=
  rt_collate (r_ID r) id && rt_collate (r_Etag r) e.
Definition where_role (id : string) (r : PermRow) : bool := rt_collate (rp_RoleID r) id.

Definition update_roles := sql_update db_roles set_roles clash.

Definition fk_app (appID : string) (d : DB) : bool :=
  existsb (λ a, rt_collate (App.r_ID a) appID) (db_apps d).
Definition fk_role (roleID : string) (d : DB) : bool := existsb (where_id roleID) (db_roles d).

(** ON DELETE CASCADE from roles: permissions and assignments. *)
Definition cascade_role (gone : list Row) (d : DB) : DB :=
  let is_gone id := existsb (λ o : Row, rt_collate (r_ID o) id) gone in
  set_role_permissions (del (λ p, is_gone (rp_RoleID p)) (db_role_permissions d))
    (set_role_assignments (del (λ a, is_gone (Access.r_RoleID a)) (db_role_assignments d)) d).

Definition delete_roles (p : Row → bool) : M World Z :=
  sql_delete db_roles set_roles p cascade_role.

Definition CountRoleByID (id : string) : M World Z := query (λ d, count (where_id id) (db_roles d)).

(** ** The generated queries (dbgen) *)

Definition Queries_CreateRole (arg : Row) : M World unit := sql_insert db_roles set_roles clash (fk_app (r_AppID arg)) arg.
Definition Queries_GetRoleByID (id : string) : M World Row :=
  query_one (λ d, sel_one (where_id id) (db_roles d)).
(** [arg] is the SET clause with its parameters filled in. *)
Definition Queries_UpdateRole (arg : Row → Row) (id : string) : M World Z := update_roles (where_id id) arg.
Definition Queries_UpdateRoleWithEtag (arg : Row → Row) (id : string) (etag : Etag) : M World Z :=
  update_roles (where_id_etag id etag) arg.
Definition Queries_DeleteRole (id : string) : M World Z := delete_roles (where_id id).
Definition Queries_DeleteRoleWithEtag (id : string) (etag : Etag) : M World Z :=
  delete_roles (where_id_etag id etag).

(** SELECT permission ... ORDER BY permission, under the column's collation. *)
Definition GetRolePermissions (id : string) : M World (list string) :=
  query (λ d, rp_Permission <$>
    order_by (λ p q, rt_collate_lt (rp_Permission p) (rp_Permission q))
      (sel (where_role id) (db_role_permissions d))).

Definition InsertRolePermission (p : PermRow) : M World unit :=
  sql_insert db_role_permissions set_role_permissions perm_clash (fk_role (rp_RoleID p)) p.

Definition DeleteRolePermissions (id : string) : M World unit :=
  sql_delete db_role_permissions set_role_permissions (where_role id) (λ _ d, d) ;;; ret tt.

(** ** The repository *)

Definition Create (role : Role) : M World unit :=
  InTx (
    (_ <- Queries_CreateRole (toCreateParams role) catch err =>
       (if IsDuplicateEntry err then throw (ESentinel role_ErrRoleAlreadyExists)
        else throw (EWrap "role repo: create" err)) ;;
     mfor (o_permissions role) (λ p,
       _ <- InsertRolePermission (toInsertPermissionParams (o_id role) p) catch err =>
         throw (EWrap "role repo: create: insert permission" err) ;;
       ret tt))).

Definition GetByID (id : string) : M World Role :=
  row <- Queries_GetRoleByID id catch err =>
    (if errors_is_no_rows err then throw (ESentinel role_ErrRoleNotFound)
     else throw (EWrap "role repo: get_by_id" err)) ;;
  perms <- GetRolePermissions id catch err =>
    throw (EWrap "role repo: get_by_id: permissions" err) ;;
  ret (dbgenToDomain row perms).

Definition Update (role : Role) (expectedEtag : Etag) : M World unit :=
  InTx (
    (rows <- (if decide (expectedEtag = "")
              then Queries_UpdateRole (toUpdateParams role) (o_id role)
              else Queries_UpdateRoleWithEtag (toUpdateParams role) (o_id role) expectedEtag) catch err =>
       (if IsDuplicateEntry err then throw (ESentinel role_ErrRoleAlreadyExists)
        else throw (EWrap "role repo: update" err)) ;;
     if decide (rows ≠ 1) then
       Discriminate expectedEtag (CountRoleByID (o_id role))
         (ESentinel role_ErrRoleNotFound) (ESentinel role_ErrEtagMismatch)
     else
     existing <- GetRolePermissions (o_id role) catch err =>
       throw (EWrap "role repo: update: load permissions" err) ;;
     if decide (existing = o_permissions role) then ret tt
     else
     _ <- DeleteRolePermissions (o_id role) catch err =>
       throw (EWrap "role repo: update: clear permissions" err) ;;
     mfor (o_permissions role) (λ p,
       _ <- InsertRolePermission (toInsertPermissionParams (o_id role) p) catch err =>
         throw (EWrap "role repo: update: insert permission" err) ;;
       ret tt))).

Definition Delete (id : string) (expectedEtag : Etag) : M World unit :=
  rows <- (if decide (expectedEtag = "") then Queries_DeleteRole id
           else Queries_DeleteRoleWithEtag id expectedEtag) catch err =>
    throw (EWrap "role repo: delete" err) ;;
  if decide (rows = 1) then ret tt
  else Discriminate expectedEtag (CountRoleByID id)
         (ESentinel role_ErrRoleNotFound) (ESentinel role_ErrEtagMismatch).

(** ** ListRoles (list.go) *)

Definition OrderByUnspecified : Z := 0.
Definition OrderByCreatedAtDesc : Z := 1.
Definition OrderByCreatedAtAsc : Z := 2.
Definition OrderByRoleIDDesc : Z := 3.
Definition OrderByRoleIDAsc : Z := 4.
Definition OrderByNameDesc : Z := 5.
Definition OrderByNameAsc : Z := 6.

Record PageCursor := mkPageCursor { pc_CreatedAt : Time; pc_RoleID : string; pc_Name : string }.
#[export] Instance PageCursor_eq_dec : EqDecision PageCursor.
Proof. solve_decision. Defined.

Record ListQuery := mkListQuery {
  q_AppID : string; q_PageSize : Z; q_After : option PageCursor; q_Search : string;
  q_Statuses : list Z; q_OrderBy : Z }.
Record ListResult := mkListResult { lr_Roles : list Role; lr_NextCursor : option PageCursor }.

(** Rows strictly after the cursor in the active order. *)
Definition keysetClause (order : Z) (c : PageCursor) (r : Row) : bool :=
  if decide (order = OrderByCreatedAtAsc) then
    time_id_lt (pc_CreatedAt c) (pc_RoleID c) (r_CreatedAt r) (r_ID r)
  else if decide (order = OrderByRoleIDDesc) then rt_collate_lt (r_ID r) (pc_RoleID c)
  else if decide (order = OrderByRoleIDAsc) then rt_collate_lt (pc_RoleID c) (r_ID r)
  else if decide (order = OrderByNameDesc) then
    name_id_lt (r_Name r) (r_ID r) (pc_Name c) (pc_RoleID c)
  else if decide (order = OrderByNameAsc) then
    name_id_lt (pc_Name c) (pc_RoleID c) (r_Name r) (r_ID r)
  else time_id_lt (r_CreatedAt r) (r_ID r) (pc_CreatedAt c) (pc_RoleID c).

(** ORDER BY: [r] is listed before [r']. *)
Definition orderClauseFor (order : Z) (r r' : Row) : bool :=
  if decide (order = OrderByCreatedAtAsc) then
    time_id_lt (r_CreatedAt r) (r_ID r) (r_CreatedAt r') (r_ID r')
  else if decide (order = OrderByRoleIDDesc) then rt_collate_lt (r_ID r') (r_ID r)
  else if decide (order = OrderByRoleIDAsc) then rt_collate_lt (r_ID r) (r_ID r')
  else if decide (order = OrderByNameDesc) then
    name_id_lt (r_Name r') (r_ID r') (r_Name r) (r_ID r)
  else if decide (order = OrderByNameAsc) then
    name_id_lt (r_Name r) (r_ID r) (r_Name r') (r_ID r')
  else time_id_lt (r_CreatedAt r') (r_ID r') (r_CreatedAt r) (r_ID r).

Definition cursor_of (r : Row) : PageCursor := mkPageCursor (r_CreatedAt r) (r_ID r) (r_Name r).

(** A NULL description matches no pattern. *)
Definition like_null (pattern : string) (v : option string) : bool :=
  match v with None => false | Some s => rt_like pattern s end.

(** The filters of [buildWhere], then its keyset clause. *)
Definition filters (q : ListQuery) (r : Row) : bool :=
  rt_collate (r_AppID r) (q_AppID q)
  && (if decide (q_Statuses q = []) then true else bool_decide (r_Status r ∈ q_Statuses q))
  && (if decide (q_Search q = "") then true
      else let pattern := like_contains (q_Search q) in
           rt_like pattern (r_Name r) || like_null pattern (r_Description r)).
Definition buildWhere (q : ListQuery) (r : Row) : bool :=
  filters q r && after_clause (keysetClause (q_OrderBy q)) (q_After q) r.

(** One SELECT for the permissions of the page, ORDER BY role_id, permission;
    the map from role id to permissions is this list of pairs. *)
Definition loadPermissionsForPage (pageRows : list Row) : M World (list (string * string)) :=
  if decide (pageRows = []) then ret []
  else
    rows <- query (λ d,
        order_by (λ p q, name_id_lt (rp_RoleID p) (rp_Permission p) (rp_RoleID q) (rp_Permission q))
          (sel (λ p, existsb (λ r, rt_collate (rp_RoleID p) (r_ID r)) pageRows)
             (db_role_permissions d))) catch err =>
      throw (EWrap "role repo: list: load permissions" err) ;;
    ret ((λ p, (rp_RoleID p, rp_Permission p)) <$> rows).

(** [permsByRoleID[id]]: the map's keys are compared byte by byte. *)
Definition permsByRoleID (m : list (string * string)) (id : string) : list string :=
  (List.filter (λ p, bool_decide (p.1 = id)) m).*2.

Definition List (q : ListQuery) : M World ListResult :=
  if decide (q_PageSize q <= 0) then throw (EMsg "role repo: list: page_size must be > 0")
  else if decide (q_AppID q = "") then throw (EMsg "role repo: list: app_id is required")
  else
    rows <- query (λ d, fetch_rows (q_PageSize q) (buildWhere q) (orderClauseFor (q_OrderBy q))
                          (db_roles d)) catch err =>
      throw (EWrap "role repo: list" err) ;;
    let '(pageRows, next) := trim_page (q_PageSize q) cursor_of rows in
    perms <- loadPermissionsForPage pageRows ;;
    ret (mkListResult ((λ r, dbgenToDomain r (permsByRoleID perms (r_ID r))) <$> pageRows) next).

End RoleRepo.

#[export] Hint Unfold Queries_CreateRole Queries_GetRoleByID Queries_UpdateRole Queries_UpdateRoleWithEtag Queries_DeleteRole Queries_DeleteRoleWithEtag : queries.
