(* ===== verification/ServiceAccountRepo.v ===== *)
(** * ServiceAccountRepo: the service_accounts table.

    modules/serviceaccount/internal/mariadb/repository.go over
    queries/serviceAccounts.sql. *)
From S2P Require Import Prelude Errors Sql Monad Runtime Listing Kernel.
From S2P Require Import ServiceAccount.
From S2P Require Import World.
Local Open Scope Z_scope.

Section ServiceAccountRepo.
Context `{Runtime}.

Definition where_id (id : string) (r : Row) : bool := rt_collate (r_ID r) id.
Definition where_id_etag (id : string) (e : Etag) (r : Row) : bool :=
  rt_collate (r_ID r) id && rt_collate (r_Etag r) e.

Definition update_service_accounts := sql_update db_service_accounts set_service_accounts clash.
Definition delete_service_accounts (p : Row → bool) : M World Z :=
  sql_delete db_service_accounts set_service_accounts p (λ _ d, d).
Definition CountServiceAccountByID (id : string) : M World Z :=
  query (λ d, count (where_id id) (db_service_accounts d)).

(** ** The generated queries (dbgen) *)

Definition Queries_CreateServiceAccount (arg : Row) : M World unit := sql_insert db_service_accounts set_service_accounts clash (λ _, true) arg.
Definition Queries_GetServiceAccountById (id : string) : M World Row :=
  query_one (λ d, sel_one (where_id id) (db_service_accounts d)).
(** [arg] is the SET clause with its parameters filled in. *)
Definition Queries_UpdateServiceAccount (arg : Row → Row) (id : string) : M World Z := update_service_accounts (where_id id) arg.
Definition Queries_UpdateServiceAccountWithEtag (arg : Row → Row) (id : string) (etag : Etag) : M World Z :=
  update_service_accounts (where_id_etag id etag) arg.
Definition Queries_DeleteServiceAccount (id : string) : M World Z := delete_service_accounts (where_id id).
Definition Queries_DeleteServiceAccountWithEtag (id : string) (etag : Etag) : M World Z :=
  delete_service_accounts (where_id_etag id etag).

(** ** The repository *)

Definition Create (sa : ServiceAccount) : M World unit :=
  _ <- Queries_CreateServiceAccount (toCreateParams sa) catch err =>
    (if IsDuplicateEntry err then throw (ESentinel sa_ErrServiceAccountAlreadyExists)
     else throw (EWrap "service_account repo: create" err)) ;;
  ret tt.

Definition GetByID (id : string) : M World ServiceAccount :=
  row <- Queries_GetServiceAccountById id catch err =>
    (if errors_is_no_rows err then throw (ESentinel sa_ErrServiceAccountNotFound)
     else throw (EWrap "service_account repo: get_by_id" err)) ;;
  ret (dbgenToDomain row).

Definition Update (sa : ServiceAccount) (expectedEtag : Etag) : M World unit :=
  rows <- (if decide (expectedEtag = "")
           then Queries_UpdateServiceAccount (toUpdateParams sa) (v_id sa)
           else Queries_UpdateServiceAccountWithEtag (toUpdateParams sa) (v_id sa) expectedEtag) catch err =>
    (if IsDuplicateEntry err then throw (ESentinel sa_ErrServiceAccountAlreadyExists)
     else throw (EWrap "service_account repo: update" err)) ;;
  if decide (rows = 1) then ret tt
  else Discriminate expectedEtag (CountServiceAccountByID (v_id sa))
         (ESentinel sa_ErrServiceAccountNotFound) (ESentinel sa_ErrEtagMismatch).

Definition Delete (id : string) (expectedEtag : Etag) : M World unit :=
  rows <- (if decide (expectedEtag = "") then Queries_DeleteServiceAccount id
           else Queries_DeleteServiceAccountWithEtag id expectedEtag) catch err =>
    throw (EWrap "service_account repo: delete" err) ;;
  if decide (rows = 1) then ret tt
  else Discriminate expectedEtag (CountServiceAccountByID id)
         (ESentinel sa_ErrServiceAccountNotFound) (ESentinel sa_ErrEtagMismatch).

(** ** ListServiceAccounts (list.go) *)

Definition OrderByUnspecified : Z := 0.
Definition OrderByCreatedAtDesc : Z := 1.
Definition OrderByCreatedAtAsc : Z := 2.
Definition OrderByServiceAccountIDDesc : Z := 3.
Definition OrderByServiceAccountIDAsc : Z := 4.
Definition OrderByNameDesc : Z := 5.
Definition OrderByNameAsc : Z := 6.
Definition OrderByLastAuthenticatedAtDesc : Z := 7.
Definition OrderByLastAuthenticatedAtAsc : Z := 8.

Record PageCursor := mkPageCursor { pc_CreatedAt : Time; pc_ServiceAccountID : string; pc_Name : string }.
#[export] Instance PageCursor_eq_dec : EqDecision PageCursor.
Proof. solve_decision. Defined.

Record ListQuery := mkListQuery {
  q_PageSize : Z; q_After : option PageCursor; q_Search : string; q_Statuses : list Z; q_OrderBy : Z }.
Record ListResult := mkListResult {
  lr_ServiceAccounts : list ServiceAccount; lr_NextCursor : option PageCursor }.

Definition coalesce_epoch (t : option Time) : Time := default unix_epoch t.

(** NULL sorts before every instant in ascending order. *)
Definition null_time_id_lt (t1 : option Time) (id1 : string) (t2 : option Time) (id2 : string) : bool :=
  match t1, t2 with
  | None, None => rt_collate_lt id1 id2
  | None, Some _ => true
  | Some _, None => false
  | Some a, Some b => time_id_lt a id1 b id2
  end.

(** Rows strictly after the cursor in the active order. *)
Definition keysetClause (order : Z) (c : PageCursor) (r : Row) : bool :=
  if decide (order = OrderByCreatedAtAsc) then
    time_id_lt (pc_CreatedAt c) (pc_ServiceAccountID c) (r_CreatedAt r) (r_ID r)
  else if decide (order = OrderByServiceAccountIDDesc) then rt_collate_lt (r_ID r) (pc_ServiceAccountID c)
  else if decide (order = OrderByServiceAccountIDAsc) then rt_collate_lt (pc_ServiceAccountID c) (r_ID r)
  else if decide (order = OrderByNameDesc) then
    name_id_lt (r_Name r) (r_ID r) (pc_Name c) (pc_ServiceAccountID c)
  else if decide (order = OrderByNameAsc) then
    name_id_lt (pc_Name c) (pc_ServiceAccountID c) (r_Name r) (r_ID r)
  else if decide (order = OrderByLastAuthenticatedAtDesc) then
    time_id_lt (coalesce_epoch (r_LastAuthenticatedAt r)) (r_ID r) (pc_CreatedAt c) (pc_ServiceAccountID c)
  else if decide (order = OrderByLastAuthenticatedAtAsc) then
    time_id_lt (pc_CreatedAt c) (pc_ServiceAccountID c) (coalesce_epoch (r_LastAuthenticatedAt r)) (r_ID r)
  else time_id_lt (r_CreatedAt r) (r_ID r) (pc_CreatedAt c) (pc_ServiceAccountID c).

(** ORDER BY: [r] is listed before [r']. *)
Definition orderClauseFor (order : Z) (r r' : Row) : bool :=
  if decide (order = OrderByCreatedAtAsc) then
    time_id_lt (r_CreatedAt r) (r_ID r) (r_CreatedAt r') (r_ID r')
  else if decide (order = OrderByServiceAccountIDDesc) then rt_collate_lt (r_ID r') (r_ID r)
  else if decide (order = OrderByServiceAccountIDAsc) then rt_collate_lt (r_ID r) (r_ID r')
  else if decide (order = OrderByNameDesc) then
    name_id_lt (r_Name r') (r_ID r') (r_Name r) (r_ID r)
  else if decide (order = OrderByNameAsc) then
    name_id_lt (r_Name r) (r_ID r) (r_Name r') (r_ID r')
  else if decide (order = OrderByLastAuthenticatedAtDesc) then
    null_time_id_lt (r_LastAuthenticatedAt r') (r_ID r') (r_LastAuthenticatedAt r) (r_ID r)
  else if decide (order = OrderByLastAuthenticatedAtAsc) then
    null_time_id_lt (r_LastAuthenticatedAt r) (r_ID r) (r_LastAuthenticatedAt r') (r_ID r')
  else time_id_lt (r_CreatedAt r') (r_ID r') (r_CreatedAt r) (r_ID r).

Definition cursor_of (r : Row) : PageCursor := mkPageCursor (r_CreatedAt r) (r_ID r) (r_Name r).

(** The filters of [buildWhere], then its keyset clause. *)
Definition filters (q : ListQuery) (r : Row) : bool :=
  (if decide (q_Statuses q = []) then true else bool_decide (r_Status r ∈ q_Statuses q))
  && (if decide (q_Search q = "") then true
      else let pattern := like_contains (q_Search q) in
           rt_like pattern (r_Name r) || rt_like pattern (r_Description r)).
Definition buildWhere (q : ListQuery) (r : Row) : bool :=
  filters q r && after_clause (keysetClause (q_OrderBy q)) (q_After q) r.

Definition List (q : ListQuery) : M World ListResult :=
  if decide (q_PageSize q <= 0) then throw (EMsg "service_account repo: list: page_size must be > 0")
  else
    rows <- query (λ d, fetch_rows (q_PageSize q) (buildWhere q) (orderClauseFor (q_OrderBy q))
                          (db_service_accounts d)) catch err =>
      throw (EWrap "service_account repo: list" err) ;;
    let '(page, next) := trim_page (q_PageSize q) cursor_of rows in
    ret (mkListResult (dbgenToDomain <$> page) next).

End ServiceAccountRepo.

#[export] Hint Unfold Queries_CreateServiceAccount Queries_GetServiceAccountById Queries_UpdateServiceAccount Queries_UpdateServiceAccountWithEtag Queries_DeleteServiceAccount Queries_DeleteServiceAccountWithEtag : queries.
