(* ===== verification/AccessRepo.v ===== *)
(** * AccessRepo: the role_assignments table.

    modules/access/internal/mariadb/{repository,list}.go over
    queries/roleAssignments.sql. *)
From S2P Require Import Prelude Errors Sql Monad Runtime Listing Kernel.
From S2P Require Import Identity.
From S2P Require Import Role.
From S2P Require Import Access.
From S2P Require Import World.
Local Open Scope Z_scope.

Section AccessRepo.
Context `{Runtime}.

Definition where_user_role (userID roleID : string) (r : Row) : bool :=
  rt_collate (r_UserID r) userID && rt_collate (r_RoleID r) roleID.

(** fk_role_assignments_user and fk_role_assignments_role *)
Definition fk_user_role (userID roleID : string) (d : DB) : bool :=
  existsb (λ u, rt_collate (Identity.r_ID u) userID) (db_users d)
  && existsb (λ o, rt_collate (Role.r_ID o) roleID) (db_roles d).

(** ** The generated queries (dbgen) *)

Definition Queries_CreateRoleAssignment (arg : Row) : M World unit :=
  sql_insert db_role_assignments set_role_assignments clash (fk_user_role (r_UserID arg) (r_RoleID arg)) arg.
Definition Queries_DeleteRoleAssignment (userID roleID : string) : M World Z :=
  sql_delete db_role_assignments set_role_assignments (where_user_role userID roleID) (λ _ d, d).
Definition Queries_GetRoleAssignment (userID roleID : string) : M World Row :=
  query_one (λ d, sel_one (where_user_role userID roleID) (db_role_assignments d)).

(** The join of assignments, roles and role_permissions. *)
Definition active_permissions (userID appID : string) (status : Z) (d : DB) : list PermissionRow :=
  ra ← sel (λ ra, rt_collate (r_UserID ra) userID && rt_collate (r_AppID ra) appID)
           (db_role_assignments d);
  r ← sel (λ r, rt_collate (Role.r_ID r) (r_RoleID ra) && bool_decide (Role.r_Status r = status))
          (db_roles d);
  rp ← sel (λ rp, rt_collate (rp_RoleID rp) (Role.r_ID r)) (db_role_permissions d);
  [mkPermissionRow (Role.r_ID r) (rp_Permission rp)].
Definition Queries_ListActivePermissionsByUserApp (userID appID : string) (status : Z) : M World (list PermissionRow) :=
  query (active_permissions userID appID status).

(** Generated, and not called by the repository. *)
Definition Queries_CountRoleAssignmentsByUserApp (userID appID : string) : M World Z :=
  query (λ d, count (λ r, rt_collate (r_UserID r) userID && rt_collate (r_AppID r) appID) (db_role_assignments d)).

(** ** The repository *)

Definition Create (a : RoleAssignment) : M World bool :=
  _ <- Queries_CreateRoleAssignment (toCreateParams a) catch err =>
    (if IsDuplicateEntry err then ret false else throw (EWrap "access repo: create" err)) ;;
  ret true.

Definition Get (userID roleID : string) : M World RoleAssignment :=
  row <- Queries_GetRoleAssignment userID roleID catch err =>
    (if errors_is_no_rows err then throw (ESentinel access_ErrAssignmentNotFound)
     else throw (EWrap "access repo: get" err)) ;;
  ret (dbgenToDomain row).

Definition Delete (userID roleID : string) : M World bool :=
  rows <- Queries_DeleteRoleAssignment userID roleID catch err => throw (EWrap "access repo: delete" err) ;;
  ret (bool_decide (rows = 1)).

(** The loop of [BulkCreate]: the mask in order. *)
Fixpoint bulk_insert (assignments : list RoleAssignment) : M World (list bool) :=
  match assignments with
  | [] => ret []
  | a :: rest =>
      created <- (_ <- Queries_CreateRoleAssignment (toCreateParams a) catch err =>
                    (if IsDuplicateEntry err then ret false
                     else throw (EWrap "access repo: bulk_create" err)) ;;
                  ret true) ;;
      mask <- bulk_insert rest ;;
      ret (created :: mask)
  end.

Definition BulkCreate (assignments : list RoleAssignment) : M World (list bool) :=
  InTx (bulk_insert assignments).

Definition BulkDelete (userID : string) (roleIDs : list string) : M World unit :=
  InTx (mfor roleIDs (λ rid,
    _ <- Queries_DeleteRoleAssignment userID rid catch err => throw (EWrap "access repo: bulk_delete" err) ;;
    ret tt)).

Definition activeRoleStatus : Z := 1.

Definition ListActivePermissions (userID appID : string) : M World (list PermissionRow) :=
  rows <- Queries_ListActivePermissionsByUserApp userID appID activeRoleStatus catch err =>
    throw (EWrap "access repo: list_active_permissions" err) ;;
  ret rows.

(** ** ListUserRoles *)

Record ListUserRolesQuery := mkListUserRolesQuery {
  q_UserID : string; q_AppID : string; q_PageSize : Z; q_After : option PageCursor; q_OrderBy : Z }.
Record ListUserRolesResult := mkListUserRolesResult {
  lr_Rows : list ListUserRolesRow; lr_NextCursor : option PageCursor }.

Definition keysetClause (order : Z) (c : PageCursor) (r : Row) : bool :=
  if decide (order = OrderByGrantedAtAsc) then
    time_id_lt (pc_GrantedAt c) (pc_RoleID c) (r_GrantedAt r) (r_RoleID r)
  else if decide (order = OrderByRoleIDDesc) then rt_collate_lt (r_RoleID r) (pc_RoleID c)
  else if decide (order = OrderByRoleIDAsc) then rt_collate_lt (pc_RoleID c) (r_RoleID r)
  else time_id_lt (r_GrantedAt r) (r_RoleID r) (pc_GrantedAt c) (pc_RoleID c).

Definition orderClauseFor (order : Z) (r r' : Row) : bool :=
  if decide (order = OrderByGrantedAtAsc) then
    time_id_lt (r_GrantedAt r) (r_RoleID r) (r_GrantedAt r') (r_RoleID r')
  else if decide (order = OrderByRoleIDDesc) then rt_collate_lt (r_RoleID r') (r_RoleID r)
  else if decide (order = OrderByRoleIDAsc) then rt_collate_lt (r_RoleID r) (r_RoleID r')
  else time_id_lt (r_GrantedAt r') (r_RoleID r') (r_GrantedAt r) (r_RoleID r).

Definition where_user_app (userID appID : string) (r : Row) : bool :=
  rt_collate (r_UserID r) userID && rt_collate (r_AppID r) appID.
Definition cursor_of (r : Row) : PageCursor := mkPageCursor (r_GrantedAt r) (r_RoleID r).

Definition ListUserRoles (q : ListUserRolesQuery) : M World ListUserRolesResult :=
  if decide (q_PageSize q <= 0) then throw (EMsg "access repo: list: page_size must be > 0")
  else if decide (q_UserID q = "" ∨ q_AppID q = "") then
    throw (EMsg "access repo: list: user_id and app_id are required")
  else
    rows <- query (λ d,
        fetch_rows (q_PageSize q)
          (λ r, where_user_app (q_UserID q) (q_AppID q) r
                && after_clause (keysetClause (q_OrderBy q)) (q_After q) r)
          (orderClauseFor (q_OrderBy q)) (db_role_assignments d)) catch err =>
      throw (EWrap "access repo: list" err) ;;
    let '(page, next) := trim_page (q_PageSize q) cursor_of rows in
    ret (mkListUserRolesResult ((λ r, mkListUserRolesRow (r_RoleID r) (r_GrantedAt r)) <$> page) next).

End AccessRepo.

#[export] Hint Unfold Queries_CreateRoleAssignment Queries_DeleteRoleAssignment Queries_GetRoleAssignment Queries_ListActivePermissionsByUserApp : queries.
