(* ===== verification/AuditRepo.v ===== *)
(** * AuditRepo: the append-only audit_events table and the emitter.

    modules/audit/internal/mariadb/{repository,list}.go,
    platform/audit/bus/sync.go and modules/audit/auditx/auditor.go. *)
From stdpp Require Import gmap.
From S2P Require Import Prelude Errors Sql Monad Runtime Listing Kernel AuditDomain.
From S2P Require Import AuditMapper.
From S2P Require Import World.
Local Open Scope Z_scope.

Section AuditRepo.
Context `{Runtime}.

(** ** The generated queries (dbgen) *)

Definition Queries_CreateAuditEvent (arg : Row) : M World unit :=
  sql_insert db_audit_events set_audit_events clash (λ _, true) arg.
Definition Queries_GetAuditEventByID (id : string) : M World Row :=
  query_one (λ d, sel_one (λ r, rt_collate (r_ID r) id) (db_audit_events d)).

(** ** The repository *)

Definition Create (a : Audit) : M World unit :=
  params <- lift (toCreateParams a) catch err => throw (EWrap "audit repo: create" err) ;;
  _ <- Queries_CreateAuditEvent params catch err =>
    throw (EWrap "audit repo: create" err) ;;
  ret tt.

Definition GetByID (id : string) : M World Audit :=
  row <- Queries_GetAuditEventByID id catch err =>
    (if errors_is_no_rows err then throw (ESentinel audit_ErrAuditNotFound)
     else throw (EWrap "audit repo: get_by_id" err)) ;;
  a <- lift (dbgenToDomain row) catch err => throw (EWrap "audit repo: get_by_id" err) ;;
  ret a.

(** ** List *)

Record PageCursor := mkPageCursor { pc_OccurredAt : Time; pc_AuditID : string }.

Record AuditFilters := mkAuditFilters {
  f_From : option Time; f_To : option Time; f_EventTypes : list Z; f_ActorType : Z;
  f_ActorID : string; f_ActorIP : string; f_SubjectType : Z; f_SubjectID : string;
  f_AppID : string; f_Outcomes : list Z }.

Record ListQuery := mkListQuery {
  q_PageSize : Z; q_After : option PageCursor; q_Filters : AuditFilters }.
Record ListResult := mkListResult { lr_Audits : list Audit; lr_NextCursor : option PageCursor }.

Definition defaultPageSize : Z := 50.

(** [column = ?] on a nullable column. *)
Definition eq_null (v : option string) (s : string) : bool :=
  match v with None => false | Some v => rt_collate v s end.

Definition filters (f : AuditFilters) (r : Row) : bool :=
  (match f_From f with None => true | Some t => bool_decide (t <= r_OccurredAt r) end)
  && (match f_To f with None => true | Some t => bool_decide (r_OccurredAt r < t) end)
  && (if decide (f_EventTypes f = []) then true
      else existsb (λ et, rt_collate (r_EventType r) (EventType_String et)) (f_EventTypes f))
  && (if decide (f_ActorType f = ActorTypeUnknown) then true
      else bool_decide (r_ActorType r = f_ActorType f))
  && (if decide (f_ActorID f = "") then true else eq_null (r_ActorID r) (f_ActorID f))
  && (if decide (f_ActorIP f = "") then true else eq_null (r_ActorIp r) (f_ActorIP f))
  && (if decide (f_SubjectType f = SubjectTypeUnknown) then true
      else bool_decide (r_SubjectType r = f_SubjectType f))
  && (if decide (f_SubjectID f = "") then true else eq_null (r_SubjectID r) (f_SubjectID f))
  && (if decide (f_AppID f = "") then true else eq_null (r_AppID r) (f_AppID f))
  && (if decide (f_Outcomes f = []) then true else bool_decide (r_Outcome r ∈ f_Outcomes f)).

(** (occurred_at, id) < (?, ?) and the fixed ORDER BY occurred_at DESC, id DESC. *)
Definition keysetClause (c : PageCursor) (r : Row) : bool :=
  time_id_lt (r_OccurredAt r) (r_ID r) (pc_OccurredAt c) (pc_AuditID c).
Definition orderClause (r r' : Row) : bool :=
  time_id_lt (r_OccurredAt r') (r_ID r') (r_OccurredAt r) (r_ID r).
Definition buildWhere (q : ListQuery) (r : Row) : bool :=
  filters (q_Filters q) r && after_clause keysetClause (q_After q) r.
Definition cursor_of (r : Row) : PageCursor := mkPageCursor (r_OccurredAt r) (r_ID r).

Definition hydrate (rows : list Row) : res (list Audit) :=
  foldr (λ r acc,
    a <-? match dbgenToDomain r with
          | Ok a => Ok a | Err e => Err (EWrap "audit repo: list: hydrate" e) end ;;
    l <-? acc ;; Ok (a :: l)) (Ok []) rows.

Definition List (q : ListQuery) : M World ListResult :=
  let pageSize := if decide (q_PageSize q <= 0) then defaultPageSize else q_PageSize q in
  rows <- query (λ d, fetch_rows pageSize (buildWhere q) orderClause (db_audit_events d)) catch err =>
    throw (EWrap "audit repo: list" err) ;;
  let '(page, next) := trim_page pageSize cursor_of rows in
  out <- lift (hydrate page) ;;
  ret (mkListResult out next).

(** ** SyncEmitter and Auditor *)

(** Repository errors are logged and dropped. *)
Definition SyncEmitter_Emit (a : Audit) : M World unit := ignore (Create (Sanitize a)).

(** platform/audit/bus/recorder.go: the emitter of the tests keeps the events
    as they come; its lock makes the operations atomic. *)
Definition RecorderEmitter : Type := list Audit.
Definition NewRecorderEmitter : RecorderEmitter := [].
Definition RecorderEmitter_Emit (a : Audit) (r : RecorderEmitter) : RecorderEmitter := r ++ [a].
Definition RecorderEmitter_Events (r : RecorderEmitter) : list Audit := r.
Definition RecorderEmitter_Len (r : RecorderEmitter) : nat := length r.
Definition RecorderEmitter_Reset (r : RecorderEmitter) : RecorderEmitter := [].

(** [auditx.Auditor.Emit]: build and transport errors are logged and dropped.
    NewAuditID is the last step of NewAudit that can fail: an id is drawn once
    the parameters have passed every check. *)
Definition Emit (p : NewAuditParams) : M World unit :=
  now <- time_now ;;
  match NewAudit (Ok "-") now p with
  | Err _ => ret tt
  | Ok _ =>
      id <- NewV7 "generate audit id" catch err => ret tt ;;
      match NewAudit (Ok id) now p with
      | Err _ => ret tt
      | Ok ev => SyncEmitter_Emit ev
      end
  end.

Definition Success (p : NewAuditParams) : M World unit := Emit (aud_with_outcome p OutcomeSuccess "").
Definition Fail (p : NewAuditParams) (reason : string) : M World unit :=
  Emit (aud_with_outcome p OutcomeFailure reason).
Definition Deny (p : NewAuditParams) (reason : string) : M World unit :=
  Emit (aud_with_outcome p OutcomeDenied reason).

(** The failure branch shared by the use-cases:
    [out, reason := classifyError(err); s.auditor.Emit(ctx, withOutcome(aud, out, reason)); return err]. *)
Definition audit_error {A} (classifyError : error → Z * string) (aud : NewAuditParams)
    (err : error) : M World A :=
  Emit (WithOutcome aud (classifyError err).1 (classifyError err).2) ;;;
  throw err.

(** The same branch when the use-case wraps the error it returns. *)
Definition audit_error_wrap {A} (classifyError : error → Z * string) (aud : NewAuditParams)
    (msg : string) (err : error) : M World A :=
  Emit (WithOutcome aud (classifyError err).1 (classifyError err).2) ;;;
  throw (EWrap msg err).

End AuditRepo.

#[export] Hint Unfold Queries_CreateAuditEvent Queries_GetAuditEventByID : queries.
