(* ===== verification/IdentityService.v ===== *)
(** * IdentityService: the use-cases of the identity directory.

    modules/identity/internal/service/{service,create,get,update,delete}.go. *)
From S2P Require Import Prelude Errors Sql Monad Runtime Listing Kernel AuditDomain.
From S2P Require Import World.
From S2P Require Import AuditRepo.
From S2P Require Import Identity.
From S2P Require Import IdentityRepo.
Local Open Scope Z_scope.

Section IdentityService.
Context `{Runtime}.

Definition errReasonMap : list (sentinel * (Z * string)) := [
  (identity_ErrUserNotFound, (OutcomeFailure, ReasonUserNotFound));
  (identity_ErrUserAlreadyExists, (OutcomeFailure, ReasonUserAlreadyExists));
  (identity_ErrUserDeleted, (OutcomeFailure, ReasonUserDeleted));
  (identity_ErrUserNotDeleted, (OutcomeFailure, ReasonUserNotDeleted));
  (identity_ErrEtagMismatch, (OutcomeFailure, ReasonEtagMismatch))].

Definition classifyError (err : error) : Z * string := Classify err errReasonMap.

(** ** CreateUser *)

Record CreateUserInput := mkCreateUserInput {
  cu_Email : string; cu_Username : string; cu_DisplayName : string; cu_AvatarURL : string;
  cu_Locale : string; cu_Timezone : string }.

Definition CreateUser (ctx : Ctx) (i : CreateUserInput) : M World User :=
  a <- lift (Require_actor ctx) ;;
  id <- NewV7 "generate user id" ;;
  now <- time_now ;;
  fresh <- etag_New ;;
  let user := NewUser fresh
    (mkNewUserParams id (cu_Email i) (cu_Username i) (cu_DisplayName i) (cu_AvatarURL i)
       (cu_Locale i) (cu_Timezone i) "" now) in
  let aud := aud_subject (BaseFromActor a 1) SubjectTypeUser id in
  _ <- IdentityRepo.Create user catch err => audit_error classifyError aud err ;;
  Success aud ;;;
  ret user.

(** ** GetUser, ListUsers *)

Definition GetUser (userID : string) : M World User :=
  id <- lift (ParseUserID userID) ;;
  IdentityRepo.GetByID id.

Record pageToken := mkPageToken { t_CreatedAt : Time; t_UserID : string; t_Username : string }.
Context `{JsonCodec pageToken}.

Definition encodeCursor (c : option PageCursor) : res string :=
  match c with
  | None => Ok ""
  | Some c => cursor_Encode (Some (mkPageToken (pc_CreatedAt c) (pc_UserID c) (pc_Username c)))
  end.

Definition decodeCursor (s : string) : res (option PageCursor) :=
  match cursor_Decode s with
  | Err _ => Err (EValidation "page_token" "malformed token")
  | Ok None => Ok None
  | Ok (Some t) =>
      if decide (t_UserID t = "") then Ok (Some (mkPageCursor (t_CreatedAt t) "" (t_Username t)))
      else match ParseUserID (t_UserID t) with
           | Err _ => Err (EValidation "page_token" "malformed token")
           | Ok uid => Ok (Some (mkPageCursor (t_CreatedAt t) uid (t_Username t)))
           end
  end.

Record ListUsersInput := mkListUsersInput {
  lu_PageSize : Z; lu_PageToken : string; lu_Search : string; lu_Emails : list string;
  lu_Usernames : list string; lu_DisplayNames : list string; lu_Statuses : list Z; lu_OrderBy : Z }.

Definition ListUsers (i : ListUsersInput) : M World (list User * string) :=
  after <- lift (decodeCursor (lu_PageToken i)) ;;
  pageSize <- lift (ClampPageSize (lu_PageSize i)) ;;
  res <- IdentityRepo.List (mkListQuery pageSize after (lu_Search i) (lu_Emails i) (lu_Usernames i)
                              (lu_DisplayNames i) (lu_Statuses i) (lu_OrderBy i)) ;;
  nextToken <- lift (encodeCursor (lr_NextCursor res)) ;;
  ret (lr_Users res, nextToken).

(** ** UpdateUser *)

Record UpdateUserInput := mkUpdateUserInput {
  uu_UserID : string; uu_MaskPaths : list string; uu_ExpectedEtag : string;
  uu_Email : string; uu_Username : string; uu_DisplayName : string; uu_AvatarURL : string;
  uu_Locale : string; uu_Timezone : string }.

(** One iteration of the loop of [buildPatch]. *)
Definition patch_path (i : UpdateUserInput) (path : string) (p : UserPatch) : res UserPatch :=
  if decide (path = "email") then
    Ok (mkUserPatch (Some (uu_Email i)) (p_Username p) (p_DisplayName p) (p_AvatarURL p) (p_Locale p) (p_Timezone p))
  else if decide (path = "username") then
    Ok (mkUserPatch (p_Email p) (Some (uu_Username i)) (p_DisplayName p) (p_AvatarURL p) (p_Locale p) (p_Timezone p))
  else if decide (path = "display_name") then
    Ok (mkUserPatch (p_Email p) (p_Username p) (Some (uu_DisplayName i)) (p_AvatarURL p) (p_Locale p) (p_Timezone p))
  else if decide (path = "avatar_url") then
    Ok (mkUserPatch (p_Email p) (p_Username p) (p_DisplayName p) (Some (uu_AvatarURL i)) (p_Locale p) (p_Timezone p))
  else if decide (path = "locale") then
    Ok (mkUserPatch (p_Email p) (p_Username p) (p_DisplayName p) (p_AvatarURL p) (Some (uu_Locale i)) (p_Timezone p))
  else if decide (path = "timezone") then
    Ok (mkUserPatch (p_Email p) (p_Username p) (p_DisplayName p) (p_AvatarURL p) (p_Locale p) (Some (uu_Timezone i)))
  else Err (EValidation "update_mask" ("unknown field path: " +:+ path)).

Fixpoint buildPatch_loop (i : UpdateUserInput) (paths : list string) (p : UserPatch) : res UserPatch :=
  match paths with
  | [] => Ok p
  | path :: paths' => p' <-? patch_path i path p ;; buildPatch_loop i paths' p'
  end.
Definition buildPatch (i : UpdateUserInput) : res UserPatch :=
  buildPatch_loop i (uu_MaskPaths i) (mkUserPatch None None None None None None).

Definition UpdateUser (ctx : Ctx) (i : UpdateUserInput) : M World User :=
  a <- lift (Require_actor ctx) ;;
  id <- lift (ParseUserID (uu_UserID i)) ;;
  expectedEtag <- lift (ParseExpectedEtag (uu_ExpectedEtag i) true) ;;
  if decide (uu_MaskPaths i = []) then
    throw (EValidation "update_mask" "must list at least one field")
  else
  patch <- lift (buildPatch i) ;;
  if IsEmpty patch then throw (EValidation "update_mask" "no applicable fields")
  else
  let aud := aud_subject (BaseFromActor a 4) SubjectTypeUser id in
  user <- IdentityRepo.GetByID id catch err => audit_error classifyError aud err ;;
  now <- time_now ;;
  fresh <- etag_New ;;
  user <- lift (ApplyPatch fresh patch now user) catch err => audit_error classifyError aud err ;;
  _ <- IdentityRepo.Update user expectedEtag catch err => audit_error classifyError aud err ;;
  Success aud ;;;
  ret user.

(** ** Lifecycle: DisableUser, EnableUser, SoftDeleteUser *)

Definition lifecycleEmit (ctx : Ctx) (rawID : string) (allowMissing : bool) (eventType : Z)
    (mutate : Etag → Time → User → res User) : M World unit :=
  a <- lift (Require_actor ctx) ;;
  id <- lift (ParseUserID rawID) ;;
  let aud := aud_subject (BaseFromActor a eventType) SubjectTypeUser id in
  mcatch (IdentityRepo.GetByID id)
    (λ err,
      if allowMissing && errors_is err identity_ErrUserNotFound then ret tt
      else audit_error classifyError aud err)
    (λ user,
      now <- time_now ;;
      fresh <- etag_New ;;
      user <- lift (mutate fresh now user) catch err => audit_error classifyError aud err ;;
      _ <- IdentityRepo.Update user "" catch err => audit_error classifyError aud err ;;
      Success aud).

Definition DisableUser (ctx : Ctx) (userID : string) (allowMissing : bool) : M World unit :=
  lifecycleEmit ctx userID allowMissing 5 Disable.
Definition EnableUser (ctx : Ctx) (userID : string) (allowMissing : bool) : M World unit :=
  lifecycleEmit ctx userID allowMissing 6 Enable.
Definition SoftDeleteUser (ctx : Ctx) (userID : string) (allowMissing : bool) : M World unit :=
  lifecycleEmit ctx userID allowMissing 7 (λ fresh now u, Ok (SoftDelete fresh now u)).

(** ** PermanentlyDeleteUser *)

Definition PermanentlyDeleteUser (ctx : Ctx) (userID expected : string) : M World unit :=
  a <- lift (Require_actor ctx) ;;
  id <- lift (ParseUserID userID) ;;
  if decide (expected = "") then throw (EValidation "etag" "must be provided")
  else if decide (expected = EtagWildcard) then
    throw (EValidation "etag" "wildcard is not permitted for permanent delete")
  else
  expectedEtag <- lift (etag_Parse expected) ;;
  let aud := aud_subject (BaseFromActor a 8) SubjectTypeUser id in
  user <- IdentityRepo.GetByID id catch err => audit_error classifyError aud err ;;
  if decide (u_status user ≠ UserStatusDeleted) then
    Fail aud ReasonUserNotDeleted ;;; throw (ESentinel identity_ErrUserNotDeleted)
  else if decide (u_etag user ≠ expectedEtag) then
    Fail aud ReasonEtagMismatch ;;; throw (ESentinel identity_ErrEtagMismatch)
  else
  _ <- IdentityRepo.Delete id expectedEtag catch err => audit_error classifyError aud err ;;
  Success aud.

End IdentityService.
