(* ===== verification/AppService.v ===== *)
(** * AppService: the use-cases of the app registry.

    modules/app/internal/service/{service,create,get,update,delete}.go. *)
From S2P Require Import Prelude Errors Sql Monad Runtime Listing Kernel AuditDomain.
From S2P Require Import World.
From S2P Require Import AuditRepo.
From S2P Require Import App.
From S2P Require Import AppRepo.
Local Open Scope Z_scope.

Section AppService.
Context `{Runtime}.

Definition errReasonMap : list (sentinel * (Z * string)) := [
  (app_ErrAppNotFound, (OutcomeFailure, ReasonAppNotFound));
  (app_ErrAppAlreadyExists, (OutcomeFailure, ReasonAppAlreadyExists));
  (app_ErrEtagMismatch, (OutcomeFailure, ReasonEtagMismatch));
  (app_ErrAppDisabled, (OutcomeFailure, ReasonAppDisabled));
  (app_ErrAppInMaintenance, (OutcomeFailure, ReasonAppInMaintenance))].

Definition classifyError (err : error) : Z * string := Classify err errReasonMap.

(** [aud.SubjectType = App; aud.SubjectID = id; aud.AppID = id]. *)
Definition app_aud (a : Actor) (evt : Z) (id : string) : NewAuditParams :=
  aud_app (aud_subject (BaseFromActor a evt) SubjectTypeApp id) id.

Definition CreateApp (ctx : Ctx) (name slug link : string) : M World App :=
  a <- lift (Require_actor ctx) ;;
  id <- NewV7 "generate app id" ;;
  now <- time_now ;;
  fresh <- etag_New ;;
  let target := NewApp fresh id name slug link now in
  let aud := app_aud a 21 id in
  _ <- AppRepo.Create target catch err => audit_error classifyError aud err ;;
  Success aud ;;;
  ret target.

Definition GetApp (appID : string) : M World App :=
  id <- lift (ParseAppID appID) ;;
  AppRepo.GetByID id.

(** ** ListApps *)

Record pageToken := mkPageToken { t_CreatedAt : Time; t_AppID : string; t_Name : string }.
Context `{JsonCodec pageToken}.

Definition encodeCursor (c : option PageCursor) : res string :=
  match c with
  | None => Ok ""
  | Some c => cursor_Encode (Some (mkPageToken (pc_CreatedAt c) (pc_AppID c) (pc_Name c)))
  end.

Definition decodeCursor (s : string) : res (option PageCursor) :=
  match cursor_Decode s with
  | Err _ => Err (EValidation "page_token" "malformed token")
  | Ok None => Ok None
  | Ok (Some t) =>
      if decide (t_AppID t = "") then Ok (Some (mkPageCursor (t_CreatedAt t) "" (t_Name t)))
      else match ParseAppID (t_AppID t) with
           | Err _ => Err (EValidation "page_token" "malformed token")
           | Ok id => Ok (Some (mkPageCursor (t_CreatedAt t) id (t_Name t)))
           end
  end.

Record ListAppsInput := mkListAppsInput {
  la_PageSize : Z; la_PageToken : string; la_Search : string; la_Statuses : list Z; la_OrderBy : Z }.

Definition ListApps (i : ListAppsInput) : M World (list App * string) :=
  after <- lift (decodeCursor (la_PageToken i)) ;;
  pageSize <- lift (ClampPageSize (la_PageSize i)) ;;
  res <- AppRepo.List (mkListQuery pageSize after (la_Search i) (la_Statuses i) (la_OrderBy i)) ;;
  nextToken <- lift (encodeCursor (lr_NextCursor res)) ;;
  ret (lr_Apps res, nextToken).

(** ** UpdateApp *)

Record UpdateAppInput := mkUpdateAppInput {
  ua_AppID : string; ua_MaskPaths : list string; ua_ExpectedEtag : string;
  ua_Name : string; ua_Link : string }.

Fixpoint buildPatch_loop (i : UpdateAppInput) (paths : list string) (p : AppPatch) : res AppPatch :=
  match paths with
  | [] => Ok p
  | path :: paths' =>
      if decide (path = "name") then buildPatch_loop i paths' (mkAppPatch (Some (ua_Name i)) (p_Link p))
      else if decide (path = "link") then buildPatch_loop i paths' (mkAppPatch (p_Name p) (Some (ua_Link i)))
      else Err (EValidation "update_mask" ("unknown field path: " +:+ path))
  end.
Definition buildPatch (i : UpdateAppInput) : res AppPatch :=
  buildPatch_loop i (ua_MaskPaths i) (mkAppPatch None None).

Definition UpdateApp (ctx : Ctx) (i : UpdateAppInput) : M World App :=
  a <- lift (Require_actor ctx) ;;
  id <- lift (ParseAppID (ua_AppID i)) ;;
  expectedEtag <- lift (ParseExpectedEtag (ua_ExpectedEtag i) true) ;;
  if decide (ua_MaskPaths i = []) then
    throw (EValidation "update_mask" "must list at least one field")
  else
  patch <- lift (buildPatch i) ;;
  if IsEmpty patch then throw (EValidation "update_mask" "no applicable fields")
  else
  let aud := app_aud a 24 id in
  target <- AppRepo.GetByID id catch err => audit_error classifyError aud err ;;
  now <- time_now ;;
  fresh <- etag_New ;;
  let target := ApplyPatch fresh patch now target in
  _ <- AppRepo.Update target expectedEtag catch err => audit_error classifyError aud err ;;
  Success aud ;;;
  ret target.

(** ** Lifecycle *)

Definition lifecycleEmit (ctx : Ctx) (rawID : string) (allowMissing : bool) (eventType : Z)
    (mutate : Etag → Time → App → res App) : M World unit :=
  a <- lift (Require_actor ctx) ;;
  id <- lift (ParseAppID rawID) ;;
  let aud := app_aud a eventType id in
  mcatch (AppRepo.GetByID id)
    (λ err,
      if allowMissing && errors_is err app_ErrAppNotFound then ret tt
      else audit_error classifyError aud err)
    (λ target,
      now <- time_now ;;
      fresh <- etag_New ;;
      target <- lift (mutate fresh now target) catch err => audit_error classifyError aud err ;;
      _ <- AppRepo.Update target "" catch err => audit_error classifyError aud err ;;
      Success aud).

Definition DisableApp (ctx : Ctx) (appID : string) (allowMissing : bool) : M World unit :=
  lifecycleEmit ctx appID allowMissing 25 (λ fresh now a, Ok (Disable fresh now a)).
Definition EnableApp (ctx : Ctx) (appID : string) (allowMissing : bool) : M World unit :=
  lifecycleEmit ctx appID allowMissing 26 Enable.
Definition EnterMaintenanceMode (ctx : Ctx) (appID : string) (allowMissing : bool) : M World unit :=
  lifecycleEmit ctx appID allowMissing 27 EnterMaintenance.
Definition ExitMaintenanceMode (ctx : Ctx) (appID : string) (allowMissing : bool) : M World unit :=
  lifecycleEmit ctx appID allowMissing 28 ExitMaintenance.

(** ** PermanentlyDeleteApp *)

Definition PermanentlyDeleteApp (ctx : Ctx) (appID expected : string) : M World unit :=
  a <- lift (Require_actor ctx) ;;
  id <- lift (ParseAppID appID) ;;
  if decide (expected = "") then throw (EValidation "etag" "must be provided")
  else if decide (expected = EtagWildcard) then
    throw (EValidation "etag" "wildcard is not permitted for permanent delete")
  else
  expectedEtag <- lift (etag_Parse expected) ;;
  let aud := app_aud a 29 id in
  target <- AppRepo.GetByID id catch err => audit_error classifyError aud err ;;
  if decide (a_etag target ≠ expectedEtag) then
    Fail aud ReasonEtagMismatch ;;; throw (ESentinel app_ErrEtagMismatch)
  else
  _ <- AppRepo.Delete id expectedEtag catch err => audit_error classifyError aud err ;;
  Success aud.

End AppService.
