(* ===== verification/RoleService.v ===== *)
(** * RoleService: the use-cases of the role registry.

    modules/role/internal/service/{service,create,get,update,delete}.go. *)
From S2P Require Import Prelude Errors Sql Monad Runtime Listing Kernel AuditDomain.
From S2P Require Import World.
From S2P Require Import AuditRepo.
From S2P Require Import App.
From S2P Require Import Role.
From S2P Require Import RoleRepo.
Local Open Scope Z_scope.

Section RoleService.
Context `{Runtime}.

Definition errReasonMap : list (sentinel * (Z * string)) := [
  (role_ErrRoleNotFound, (OutcomeFailure, ReasonRoleNotFound));
  (role_ErrRoleAlreadyExists, (OutcomeFailure, ReasonRoleAlreadyExists));
  (role_ErrEtagMismatch, (OutcomeFailure, ReasonEtagMismatch))].

Definition classifyError (err : error) : Z * string := Classify err errReasonMap.

Definition role_aud (a : Actor) (evt : Z) (id : string) : NewAuditParams :=
  aud_subject (BaseFromActor a evt) SubjectTypeRole id.

Definition CreateRole (ctx : Ctx) (parentAppID name description : string)
    (permissions : list string) : M World Role :=
  a <- lift (Require_actor ctx) ;;
  appID <- lift (ParseAppID parentAppID) ;;
  id <- NewV7 "generate role id" ;;
  now <- time_now ;;
  fresh <- etag_New ;;
  let r := NewRole fresh id appID name description permissions now in
  let aud := aud_subject (BaseFromActor a 41) SubjectTypeApp appID in
  _ <- RoleRepo.Create r catch err => audit_error classifyError aud err ;;
  Success aud ;;;
  ret r.

Definition GetRole (roleID : string) : M World Role :=
  id <- lift (ParseRoleID roleID) ;;
  RoleRepo.GetByID id.

(** ** ListRoles *)

Record pageToken := mkPageToken { t_CreatedAt : Time; t_RoleID : string; t_Name : string }.
Context `{JsonCodec pageToken}.

Definition encodeCursor (c : option PageCursor) : res string :=
  match c with
  | None => Ok ""
  | Some c => cursor_Encode (Some (mkPageToken (pc_CreatedAt c) (pc_RoleID c) (pc_Name c)))
  end.

Definition decodeCursor (s : string) : res (option PageCursor) :=
  match cursor_Decode s with
  | Err _ => Err (EValidation "page_token" "malformed token")
  | Ok None => Ok None
  | Ok (Some t) =>
      if decide (t_RoleID t = "") then Ok (Some (mkPageCursor (t_CreatedAt t) "" (t_Name t)))
      else match ParseRoleID (t_RoleID t) with
           | Err _ => Err (EValidation "page_token" "malformed token")
           | Ok id => Ok (Some (mkPageCursor (t_CreatedAt t) id (t_Name t)))
           end
  end.

Record ListRolesInput := mkListRolesInput {
  li_AppID : string; li_PageSize : Z; li_PageToken : string; li_Search : string;
  li_Statuses : list Z; li_OrderBy : Z }.

Definition ListRoles (i : ListRolesInput) : M World (list Role * string) :=
  appID <- lift (ParseAppID (li_AppID i)) ;;
  after <- lift (decodeCursor (li_PageToken i)) ;;
  pageSize <- lift (ClampPageSize (li_PageSize i)) ;;
  res <- RoleRepo.List (mkListQuery appID pageSize after (li_Search i) (li_Statuses i) (li_OrderBy i)) ;;
  nextToken <- lift (encodeCursor (lr_NextCursor res)) ;;
  ret (lr_Roles res, nextToken).

(** ** UpdateRole *)

Record UpdateRoleInput := mkUpdateRoleInput {
  ur_RoleID : string; ur_MaskPaths : list string; ur_ExpectedEtag : string;
  ur_Name : string; ur_Description : string; ur_Permissions : list string }.

Fixpoint buildPatch_loop (i : UpdateRoleInput) (paths : list string) (p : RolePatch) : res RolePatch :=
  match paths with
  | [] => Ok p
  | path :: paths' =>
      if decide (path = "name") then
        buildPatch_loop i paths' (mkRolePatch (Some (ur_Name i)) (p_Description p) (p_Permissions p))
      else if decide (path = "description") then
        buildPatch_loop i paths' (mkRolePatch (p_Name p) (Some (ur_Description i)) (p_Permissions p))
      else if decide (path = "permissions") then
        buildPatch_loop i paths' (mkRolePatch (p_Name p) (p_Description p) (Some (ur_Permissions i)))
      else Err (EValidation "update_mask" ("unknown field path: " +:+ path))
  end.
Definition buildPatch (i : UpdateRoleInput) : res RolePatch :=
  buildPatch_loop i (ur_MaskPaths i) (mkRolePatch None None None).

Definition UpdateRole (ctx : Ctx) (i : UpdateRoleInput) : M World Role :=
  a <- lift (Require_actor ctx) ;;
  id <- lift (ParseRoleID (ur_RoleID i)) ;;
  expectedEtag <- lift (ParseExpectedEtag (ur_ExpectedEtag i) true) ;;
  if decide (ur_MaskPaths i = []) then
    throw (EValidation "update_mask" "must list at least one field")
  else
  patch <- lift (buildPatch i) ;;
  if IsEmpty patch then throw (EValidation "update_mask" "no applicable fields")
  else
  let aud := role_aud a 44 id in
  r <- RoleRepo.GetByID id catch err => audit_error classifyError aud err ;;
  now <- time_now ;;
  fresh <- etag_New ;;
  let r := ApplyPatch fresh patch now r in
  _ <- RoleRepo.Update r expectedEtag catch err => audit_error classifyError aud err ;;
  Success aud ;;;
  ret r.

(** ** Lifecycle *)

Definition lifecycleTransition (ctx : Ctx) (rawID : string) (allowMissing : bool) (eventType : Z)
    (mutate : Etag → Time → Role → Role) : M World unit :=
  a <- lift (Require_actor ctx) ;;
  id <- lift (ParseRoleID rawID) ;;
  let aud := role_aud a eventType id in
  mcatch (RoleRepo.GetByID id)
    (λ err,
      if allowMissing && errors_is err role_ErrRoleNotFound then ret tt
      else audit_error classifyError aud err)
    (λ r,
      now <- time_now ;;
      fresh <- etag_New ;;
      _ <- RoleRepo.Update (mutate fresh now r) "" catch err => audit_error classifyError aud err ;;
      Success aud).

Definition DisableRole (ctx : Ctx) (roleID : string) (allowMissing : bool) : M World unit :=
  lifecycleTransition ctx roleID allowMissing 45 Disable.
Definition EnableRole (ctx : Ctx) (roleID : string) (allowMissing : bool) : M World unit :=
  lifecycleTransition ctx roleID allowMissing 46 Enable.

(** ** PermanentlyDeleteRole *)

Definition PermanentlyDeleteRole (ctx : Ctx) (roleID expected : string) : M World unit :=
  a <- lift (Require_actor ctx) ;;
  id <- lift (ParseRoleID roleID) ;;
  if decide (expected = "") then throw (EValidation "etag" "must be provided")
  else if decide (expected = EtagWildcard) then
    throw (EValidation "etag" "wildcard is not permitted for permanent delete")
  else
  expectedEtag <- lift (etag_Parse expected) ;;
  let aud := role_aud a 47 id in
  r <- RoleRepo.GetByID id catch err => audit_error classifyError aud err ;;
  if decide (o_etag r ≠ expectedEtag) then
    Fail aud ReasonEtagMismatch ;;; throw (ESentinel role_ErrEtagMismatch)
  else
  _ <- RoleRepo.Delete id expectedEtag catch err => audit_error classifyError aud err ;;
  Success aud.

End RoleService.
