(* ===== verification/ServiceAccountService.v ===== *)
(** * ServiceAccountService: the use-cases of machine clients.

    modules/serviceaccount/internal/service/*.go. *)
From S2P Require Import Prelude Errors Sql Monad Runtime Listing Kernel AuditDomain.
From S2P Require Import World.
From S2P Require Import AuditRepo.
From S2P Require Import ServiceAccount.
From S2P Require Import ServiceAccountRepo.
Local Open Scope Z_scope.

Section ServiceAccountService.
Context `{Runtime}.

Definition errReasonMap : list (sentinel * (Z * string)) := [
  (sa_ErrServiceAccountNotFound, (OutcomeFailure, ReasonServiceAccountNotFound));
  (sa_ErrServiceAccountAlreadyExists, (OutcomeFailure, ReasonServiceAccountAlreadyExists));
  (sa_ErrEtagMismatch, (OutcomeFailure, ReasonEtagMismatch))].

Definition classifyError (err : error) : Z * string := Classify err errReasonMap.

Definition sa_aud (a : Actor) (evt : Z) (id : string) : NewAuditParams :=
  aud_subject (BaseFromActor a evt) SubjectTypeServiceAccount id.

(** ** Secrets (secret.go) *)

Definition secretBytes : nat := 32.
Definition bcryptCost : Z := 12.

Definition generateSecret : M World (string * bytes) :=
  buf <- rand_Read secretBytes catch err => throw (EWrap "generate secret: read random" err) ;;
  let plaintext := RawURLEncoding_EncodeToString buf in
  k <- gets w_seed ;;
  match rt_bcrypt_hash k plaintext bcryptCost with
  | None => throw (EWrap "generate secret: hash" (EMsg "bcrypt"))
  | Some hash => ret (plaintext, hash)
  end.

(** ** CreateServiceAccount *)

Record CredentialsOutput := mkCredentialsOutput {
  co_Account : ServiceAccount; co_ClientSecret : string; co_IssuedAt : Time }.

Definition CreateServiceAccount (ctx : Ctx) (name description : string) : M World CredentialsOutput :=
  a <- lift (Require_actor ctx) catch err => throw (EWrap "create service account" err) ;;
  id <- NewV7 "generate service account id" ;;
  sec <- generateSecret ;;
  now <- time_now ;;
  fresh <- etag_New ;;
  let sa := NewServiceAccount fresh id name description sec.2 now in
  let aud := sa_aud a 61 (v_id sa) in
  _ <- ServiceAccountRepo.Create sa catch err =>
    audit_error_wrap classifyError aud "create service account" err ;;
  Success aud ;;;
  ret (mkCredentialsOutput sa sec.1 now).

Definition GetServiceAccount (rawID : string) : M World ServiceAccount :=
  id <- lift (ParseServiceAccountID rawID) ;;
  ServiceAccountRepo.GetByID id.

(** ** ListServiceAccounts *)

Record pageToken := mkPageToken {
  t_CreatedAt : Time; t_ServiceAccountID : string; t_Name : string }.
Context `{JsonCodec pageToken}.

Definition encodeCursor (c : option PageCursor) : res string :=
  match c with
  | None => Ok ""
  | Some c => cursor_Encode (Some (mkPageToken (pc_CreatedAt c) (pc_ServiceAccountID c) (pc_Name c)))
  end.

Definition decodeCursor (s : string) : res (option PageCursor) :=
  match cursor_Decode s with
  | Err _ => Err (EValidation "page_token" "malformed token")
  | Ok None => Ok None
  | Ok (Some t) =>
      if decide (t_ServiceAccountID t = "") then Ok (Some (mkPageCursor (t_CreatedAt t) "" (t_Name t)))
      else match ParseServiceAccountID (t_ServiceAccountID t) with
           | Err _ => Err (EValidation "page_token" "malformed token")
           | Ok id => Ok (Some (mkPageCursor (t_CreatedAt t) id (t_Name t)))
           end
  end.

Record ListServiceAccountsInput := mkListServiceAccountsInput {
  ls_PageSize : Z; ls_PageToken : string; ls_Search : string; ls_Statuses : list Z; ls_OrderBy : Z }.

Definition ListServiceAccounts (i : ListServiceAccountsInput) : M World (list ServiceAccount * string) :=
  after <- lift (decodeCursor (ls_PageToken i)) ;;
  pageSize <- lift (ClampPageSize (ls_PageSize i)) ;;
  res <- ServiceAccountRepo.List
           (mkListQuery pageSize after (ls_Search i) (ls_Statuses i) (ls_OrderBy i)) ;;
  nextToken <- lift (encodeCursor (lr_NextCursor res)) ;;
  ret (lr_ServiceAccounts res, nextToken).

(** ** RotateCredentials (rotate.go) *)

Definition RotateCredentials (ctx : Ctx) (rawID expected : string) : M World CredentialsOutput :=
  a <- lift (Require_actor ctx) catch err => throw (EWrap "rotate credentials" err) ;;
  id <- lift (ParseServiceAccountID rawID) catch err => throw (EWrap "rotate credentials" err) ;;
  expectedEtag <- lift (ParseExpectedEtag expected true) catch err =>
    throw (EWrap "rotate credentials" err) ;;
  let aud := sa_aud a 65 id in
  sa <- ServiceAccountRepo.GetByID id catch err =>
    audit_error_wrap classifyError aud "rotate credentials" err ;;
  sec <- generateSecret catch err => (Fail aud ReasonInternal ;;; throw err) ;;
  now <- time_now ;;
  fresh <- etag_New ;;
  let sa := RotateSecret fresh sec.2 now sa in
  _ <- ServiceAccountRepo.Update sa expectedEtag catch err => audit_error classifyError aud err ;;
  Success aud ;;;
  ret (mkCredentialsOutput sa sec.1 now).

(** ** UpdateServiceAccount *)

Record UpdateServiceAccountInput := mkUpdateServiceAccountInput {
  us_ServiceAccountID : string; us_MaskPaths : list string; us_ExpectedEtag : string;
  us_Name : string; us_Description : string }.

Fixpoint buildPatch_loop (i : UpdateServiceAccountInput) (paths : list string)
    (p : ServiceAccountPatch) : res ServiceAccountPatch :=
  match paths with
  | [] => Ok p
  | path :: paths' =>
      if decide (path = "name") then
        buildPatch_loop i paths' (mkServiceAccountPatch (Some (us_Name i)) (p_Description p))
      else if decide (path = "description") then
        buildPatch_loop i paths' (mkServiceAccountPatch (p_Name p) (Some (us_Description i)))
      else Err (EValidation "update_mask" ("unknown field path: " +:+ path))
  end.
Definition buildPatch (i : UpdateServiceAccountInput) : res ServiceAccountPatch :=
  buildPatch_loop i (us_MaskPaths i) (mkServiceAccountPatch None None).

Definition UpdateServiceAccount (ctx : Ctx) (i : UpdateServiceAccountInput) : M World ServiceAccount :=
  a <- lift (Require_actor ctx) ;;
  id <- lift (ParseServiceAccountID (us_ServiceAccountID i)) ;;
  expectedEtag <- lift (ParseExpectedEtag (us_ExpectedEtag i) true) ;;
  if decide (us_MaskPaths i = []) then
    throw (EValidation "update_mask" "must list at least one field")
  else
  patch <- lift (buildPatch i) ;;
  if IsEmpty patch then throw (EValidation "update_mask" "no applicable fields")
  else
  let aud := sa_aud a 64 id in
  sa <- ServiceAccountRepo.GetByID id catch err => audit_error classifyError aud err ;;
  now <- time_now ;;
  fresh <- etag_New ;;
  let sa := ApplyPatch fresh patch now sa in
  _ <- ServiceAccountRepo.Update sa expectedEtag catch err => audit_error classifyError aud err ;;
  Success aud ;;;
  ret sa.

(** ** Lifecycle *)

Definition lifecycleEmit (ctx : Ctx) (rawID : string) (allowMissing : bool) (eventType : Z)
    (mutate : Etag → Time → ServiceAccount → ServiceAccount) : M World unit :=
  a <- lift (Require_actor ctx) ;;
  id <- lift (ParseServiceAccountID rawID) ;;
  let aud := sa_aud a eventType id in
  mcatch (ServiceAccountRepo.GetByID id)
    (λ err,
      if allowMissing && errors_is err sa_ErrServiceAccountNotFound then ret tt
      else audit_error classifyError aud err)
    (λ sa,
      now <- time_now ;;
      fresh <- etag_New ;;
      _ <- ServiceAccountRepo.Update (mutate fresh now sa) "" catch err =>
        audit_error classifyError aud err ;;
      Success aud).

Definition DisableServiceAccount (ctx : Ctx) (rawID : string) (allowMissing : bool) : M World unit :=
  lifecycleEmit ctx rawID allowMissing 66 Disable.
Definition EnableServiceAccount (ctx : Ctx) (rawID : string) (allowMissing : bool) : M World unit :=
  lifecycleEmit ctx rawID allowMissing 67 Enable.

(** ** PermanentlyDeleteServiceAccount *)

Definition PermanentlyDeleteServiceAccount (ctx : Ctx) (rawID expected : string) : M World unit :=
  a <- lift (Require_actor ctx) catch err => throw (EWrap "permanently delete service_account" err) ;;
  id <- lift (ParseServiceAccountID rawID) catch err =>
    throw (EWrap "permanently delete service_account" err) ;;
  if decide (expected = "") then throw (EValidation "etag" "must be provided")
  else if decide (expected = EtagWildcard) then
    throw (EValidation "etag" "wildcard is not permitted for permanent delete")
  else
  expectedEtag <- lift (etag_Parse expected) catch err =>
    throw (EWrap "permanently delete service_account" err) ;;
  let aud := sa_aud a 68 id in
  sa <- ServiceAccountRepo.GetByID id catch err => audit_error classifyError aud err ;;
  if decide (v_etag sa ≠ expectedEtag) then
    Fail aud ReasonEtagMismatch ;;; throw (ESentinel sa_ErrEtagMismatch)
  else
  _ <- ServiceAccountRepo.Delete id expectedEtag catch err => audit_error classifyError aud err ;;
  Success aud.

End ServiceAccountService.
