(* ===== verification/Permission.v ===== *)
(** * Permission: permission strings and their matching.

    The pure helpers of modules/access/internal/service/check.go:
    [validatePermissionRequest], [isLowerIdent] and [matchPermissions]. *)
From stdpp Require Import gmap.
From S2P Require Import Prelude Errors Monad Runtime Kernel.
From S2P Require Import Access.
Local Open Scope Z_scope.

Definition colon : Ascii.ascii := Ascii.ascii_of_nat 58.

(** strings.HasSuffix *)
Definition HasSuffix (s suffix : string) : bool :=
  bool_decide (len suffix <= len s)
  && bool_decide (drop_s (String.length s - String.length suffix) s = suffix).

Definition is_lower (c : Ascii.ascii) : bool := bool_decide (97 <= byte_of c <= 122).
Definition is_digit (c : Ascii.ascii) : bool := bool_decide (48 <= byte_of c <= 57).
Definition is_underscore (c : Ascii.ascii) : bool := bool_decide (byte_of c = 95).

(** The loop over the bytes of [s] from index [i] on. The source ranges over
    runes; a byte outside ASCII starts a rune that no case accepts. *)
Fixpoint lower_ident_loop (i : nat) (s : string) : bool :=
  match s with
  | EmptyString => true
  | String c s' =>
      (is_lower c
       || bool_decide (0 < i)%nat && is_digit c
       || bool_decide (0 < i)%nat && is_underscore c)
      && lower_ident_loop (S i) s'
  end.

Definition isLowerIdent (s : string) : bool :=
  if decide (s = "") then false else lower_ident_loop 0 s.

Definition bad_length : error := EValidation "permission" "length must be between 3 and 64".
Definition bad_form : error := EValidation "permission" "must be in resource:action form".
Definition bad_ident : error :=
  EValidation "permission" "resource and action must match [a-z][a-z0-9_]*".

Definition validatePermissionRequest (p : string) : res unit :=
  if decide (len p < 3 ∨ 64 < len p) then Err bad_length
  else match index_byte p colon with
       | None => Err bad_form
       | Some i =>
           if decide (i = 0%nat ∨ Z.of_nat i = len p - 1) then Err bad_form
           else
             let resource := take_s i p in
             let action := drop_s (S i) p in
             if negb (isLowerIdent resource) || negb (isLowerIdent action) then Err bad_ident
             else Ok tt
       end.

(** [resource := requested; if colon > 0 { resource = requested[:colon] }] *)
Definition resource_of (requested : string) : string :=
  match index_byte requested colon with
  | Some (S i) => take_s (S i) requested
  | _ => requested
  end.

Definition row_matches (requested : string) (r : PermissionRow) : bool :=
  if decide (pr_Permission r = requested) then true
  else if HasSuffix (pr_Permission r) ":*" then
    bool_decide (take_s (String.length (pr_Permission r) - 2) (pr_Permission r) = resource_of requested)
  else false.

Definition matchPermissions (rows : list PermissionRow) (requested : string) : gset string :=
  fold_left (λ out r, if row_matches requested r then {[pr_RoleID r]} ∪ out else out) rows ∅.
