(* ===== verification/AccessService.v ===== *)
(** * AccessService: role assignments and authorization decisions.

    modules/access/internal/service/{service,grant,remove,check,list}.go. *)
From stdpp Require Import gmap.
From S2P Require Import Prelude Errors Sql Monad Runtime Listing Kernel AuditDomain.
From S2P Require Import World.
From S2P Require Import AuditRepo.
From S2P Require Import Identity.
From S2P Require Import IdentityRepo.
From S2P Require Import App.
From S2P Require Import AppRepo.
From S2P Require Import Role.
From S2P Require Import RoleRepo.
From S2P Require Import Access.
From S2P Require Import AccessRepo.
From S2P Require Import Permission.
Local Open Scope Z_scope.

Section AccessService.
Context `{Runtime}.

Definition errReasonMap : list (sentinel * (Z * string)) := [
  (access_ErrRoleDisabled, (OutcomeDenied, ReasonRoleDisabled));
  (access_ErrUserNotEligible, (OutcomeDenied, ReasonUserNotEligible));
  (access_ErrRoleNotInApp, (OutcomeDenied, ReasonRoleNotInApp));
  (access_ErrUserNotFound, (OutcomeFailure, ReasonUserNotFound));
  (access_ErrRoleNotFound, (OutcomeFailure, ReasonRoleNotFound));
  (access_ErrAppNotFound, (OutcomeFailure, ReasonAppNotFound))].

Definition classifyError (err : error) : Z * string := Classify err errReasonMap.

Definition bulkOpsCap : nat := 32.

(** ** Precondition checks *)

Definition loadActiveRoleInApp (rid : string) (expectedAppID : option string) : M World Role :=
  r <- RoleRepo.GetByID rid catch err =>
    (if errors_is err role_ErrRoleNotFound then throw (ESentinel access_ErrRoleNotFound)
     else throw err) ;;
  if decide (o_status r ≠ RoleStatusActive) then throw (ESentinel access_ErrRoleDisabled)
  else match expectedAppID with
       | Some aid => if decide (o_appID r ≠ aid) then throw (ESentinel access_ErrRoleNotInApp) else ret r
       | None => ret r
       end.

Definition requireUserEligible (uid : string) : M World unit :=
  u <- IdentityRepo.GetByID uid catch err =>
    (if errors_is err identity_ErrUserNotFound then throw (ESentinel access_ErrUserNotFound)
     else throw err) ;;
  if decide (u_status u ≠ UserStatusActive) then throw (ESentinel access_ErrUserNotEligible)
  else ret tt.

Definition requireUserExists (uid : string) : M World unit :=
  _ <- IdentityRepo.GetByID uid catch err =>
    (if errors_is err identity_ErrUserNotFound then throw (ESentinel access_ErrUserNotFound)
     else throw err) ;;
  ret tt.

Definition requireAppExists (aid : string) : M World unit :=
  _ <- AppRepo.GetByID aid catch err =>
    (if errors_is err app_ErrAppNotFound then throw (ESentinel access_ErrAppNotFound)
     else throw err) ;;
  ret tt.

Definition loadAnyRole (rid : string) : M World Role :=
  r <- RoleRepo.GetByID rid catch err =>
    (if errors_is err role_ErrRoleNotFound then throw (ESentinel access_ErrRoleNotFound)
     else throw err) ;;
  ret r.

(** ** GrantRoleToUser, BulkGrantRoles (grant.go) *)

Definition GrantRoleToUser (ctx : Ctx) (userID roleID actorID : string) :
    M World (RoleAssignment * bool) :=
  a <- lift (Require_actor ctx) ;;
  uid <- lift (Access.ParseUserID userID) ;;
  rid <- lift (Access.ParseRoleID roleID) ;;
  actorID <- lift (ParseActorID actorID) ;;
  let aud := aud_subject (BaseFromActor a 85) SubjectTypeUser uid in
  r <- loadActiveRoleInApp rid None catch err => audit_error classifyError aud err ;;
  let aud := aud_app aud (o_appID r) in
  _ <- requireUserEligible uid catch err => audit_error classifyError aud err ;;
  now <- time_now ;;
  let target := NewRoleAssignment uid rid (o_appID r) actorID now in
  created <- AccessRepo.Create target catch err => audit_error classifyError aud err ;;
  if negb created then
    existing <- AccessRepo.Get uid rid catch err => audit_error classifyError aud err ;;
    Success aud ;;;
    ret (existing, false)
  else
    Success aud ;;;
    ret (target, true).

(** The loop of [parseBulkInput] over the raw role ids. *)
Fixpoint parse_roles (rawRoles seen : list string) : res (list string) :=
  match rawRoles with
  | [] => Ok []
  | raw :: rest =>
      rid <-? Access.ParseRoleID raw ;;
      if decide (rid ∈ seen) then Err (EValidation "role_ids" "duplicate role_id in request")
      else rids <-? parse_roles rest (rid :: seen) ;; Ok (rid :: rids)
  end.

Definition parseBulkInput (rawUser rawApp : string) (rawRoles : list string) (rawActor : string) :
    res (string * string * list string * string) :=
  if decide (rawRoles = []) then Err (EValidation "role_ids" "must contain at least one role")
  else if decide (bulkOpsCap < length rawRoles)%nat then
    Err (EValidation "role_ids" "too many roles in one request")
  else
    uid <-? Access.ParseUserID rawUser ;;
    aid <-? Access.ParseAppID rawApp ;;
    actorID <-? ParseActorID rawActor ;;
    rids <-? parse_roles rawRoles [] ;;
    Ok (uid, aid, rids, actorID).

(** [for i, was := range createdMask]: re-granted entries take the stored row. *)
Fixpoint fetch_existing (aud : NewAuditParams) (uid : string)
    (entries : list (RoleAssignment * bool)) : M World (list RoleAssignment) :=
  match entries with
  | [] => ret []
  | (a, was) :: rest =>
      a' <- (if was : bool then ret a
             else (existing <- AccessRepo.Get uid (ra_RoleID a) catch gerr =>
                     audit_error classifyError aud gerr ;;
                   ret existing)) ;;
      rest' <- fetch_existing aud uid rest ;;
      ret (a' :: rest')
  end.

Definition BulkGrantRoles (ctx : Ctx) (userID appID : string) (roleIDs : list string)
    (actorID : string) : M World (list RoleAssignment * list bool) :=
  a <- lift (Require_actor ctx) ;;
  parsed <- lift (parseBulkInput userID appID roleIDs actorID) ;;
  let '(uid, aid, ridsTyped, actorID) := parsed in
  let aud := aud_app (aud_subject (BaseFromActor a 87) SubjectTypeUser uid) aid in
  _ <- requireAppExists aid catch err => audit_error classifyError aud err ;;
  _ <- requireUserEligible uid catch err => audit_error classifyError aud err ;;
  mfor ridsTyped (λ rid,
    _ <- loadActiveRoleInApp rid (Some aid) catch err => audit_error classifyError aud err ;;
    ret tt) ;;;
  now <- time_now ;;
  let assignments := (λ rid, NewRoleAssignment uid rid aid actorID now) <$> ridsTyped in
  createdMask <- AccessRepo.BulkCreate assignments catch err => audit_error classifyError aud err ;;
  assignments <- fetch_existing aud uid (zip assignments createdMask) ;;
  Success aud ;;;
  ret (assignments, createdMask).

(** ** RemoveRoleFromUser, BulkRemoveRoles (remove.go) *)

Definition RemoveRoleFromUser (ctx : Ctx) (userID roleID : string) : M World unit :=
  a <- lift (Require_actor ctx) ;;
  uid <- lift (Access.ParseUserID userID) ;;
  rid <- lift (Access.ParseRoleID roleID) ;;
  let aud := aud_subject (BaseFromActor a 86) SubjectTypeUser uid in
  _ <- requireUserExists uid catch err => audit_error classifyError aud err ;;
  r <- loadAnyRole rid catch err => audit_error classifyError aud err ;;
  let aud := aud_app aud (o_appID r) in
  _ <- AccessRepo.Delete uid rid catch err => audit_error classifyError aud err ;;
  Success aud.

Definition BulkRemoveRoles (ctx : Ctx) (userID appID : string) (roleIDs : list string) : M World unit :=
  a <- lift (Require_actor ctx) ;;
  parsed <- lift (parseBulkInput userID appID roleIDs "") ;;
  let '(uid, aid, ridsTyped, _) := parsed in
  let aud := aud_app (aud_subject (BaseFromActor a 88) SubjectTypeUser uid) aid in
  _ <- requireAppExists aid catch err => audit_error classifyError aud err ;;
  _ <- requireUserExists uid catch err => audit_error classifyError aud err ;;
  mfor ridsTyped (λ rid,
    r <- loadAnyRole rid catch err => audit_error classifyError aud err ;;
    if decide (o_appID r ≠ aid) then audit_error classifyError aud (ESentinel access_ErrRoleNotInApp)
    else ret tt) ;;;
  _ <- AccessRepo.BulkDelete uid ridsTyped catch err => audit_error classifyError aud err ;;
  Success aud.

(** ** HasRoleInApp, CheckPermission, BatchCheckPermission (check.go) *)

Definition HasRoleInApp (userID roleID : string) : M World bool :=
  uid <- lift (Access.ParseUserID userID) ;;
  rid <- lift (Access.ParseRoleID roleID) ;;
  requireUserExists uid ;;;
  loadAnyRole rid ;;;
  _ <- AccessRepo.Get uid rid catch err =>
    (if errors_is err access_ErrAssignmentNotFound then ret false else throw err) ;;
  ret true.

Definition parseCheckInput (rawUser rawApp : string) (rawPerms : list string) :
    res (string * string * list string) :=
  if decide (rawPerms = []) then Err (EValidation "permissions" "must contain at least one entry")
  else if decide (bulkOpsCap < length rawPerms)%nat then
    Err (EValidation "permissions" "too many permissions in one request")
  else
    uid <-? Access.ParseUserID rawUser ;;
    aid <-? Access.ParseAppID rawApp ;;
    _ <-? foldr (λ p acc, _ <-? validatePermissionRequest p ;; acc) (Ok tt) rawPerms ;;
    Ok (uid, aid, rawPerms).

Record CheckPermissionOutput := mkCheckPermissionOutput {
  cp_Allowed : bool; cp_MatchedRoleIDs : list string }.

(** The range over the matched set has no fixed order: the set's elements. *)
Definition CheckPermission (userID appID permission : string) : M World CheckPermissionOutput :=
  parsed <- lift (parseCheckInput userID appID [permission]) ;;
  let '(uid, aid, perms) := parsed in
  requireUserExists uid ;;;
  requireAppExists aid ;;;
  rows <- AccessRepo.ListActivePermissions uid aid ;;
  let matched := elements (matchPermissions rows (default "" (head perms))) in
  ret (mkCheckPermissionOutput (bool_decide (0 < length matched)%nat) matched).

Definition BatchCheckPermission (userID appID : string) (permissions : list string) :
    M World (list bool) :=
  parsed <- lift (parseCheckInput userID appID permissions) ;;
  let '(uid, aid, perms) := parsed in
  requireUserExists uid ;;;
  requireAppExists aid ;;;
  rows <- AccessRepo.ListActivePermissions uid aid ;;
  ret ((λ p, bool_decide (0 < size (matchPermissions rows p))%nat) <$> perms).

(** ** ListUserRoles (list.go) *)

Record pageToken := mkPageToken { t_GrantedAt : Time; t_RoleID : string }.
Context `{JsonCodec pageToken}.

Definition encodeCursor (c : option Access.PageCursor) : res string :=
  match c with
  | None => Ok ""
  | Some c => cursor_Encode (Some (mkPageToken (pc_GrantedAt c) (Access.pc_RoleID c)))
  end.

Definition decodeCursor (s : string) : res (option Access.PageCursor) :=
  match cursor_Decode s with
  | Err _ => Err (EValidation "page_token" "malformed token")
  | Ok None => Ok None
  | Ok (Some t) =>
      if decide (t_RoleID t = "") then Ok (Some (Access.mkPageCursor (t_GrantedAt t) ""))
      else match Access.ParseRoleID (t_RoleID t) with
           | Err _ => Err (EValidation "page_token" "malformed token")
           | Ok rid => Ok (Some (Access.mkPageCursor (t_GrantedAt t) rid))
           end
  end.

Record ListUserRolesInput := mkListUserRolesInput {
  lu_UserID : string; lu_AppID : string; lu_PageSize : Z; lu_PageToken : string; lu_OrderBy : Z }.

(** Hydration skips the roles that cannot be loaded. *)
Fixpoint hydrate_roles (rows : list ListUserRolesRow) : M World (list Role) :=
  match rows with
  | [] => ret []
  | row :: rest =>
      r <- (r <- RoleRepo.GetByID (lr_RoleID row) catch err => ret None ;; ret (Some r)) ;;
      roles <- hydrate_roles rest ;;
      ret (match r with Some r => r :: roles | None => roles end)
  end.

Definition ListUserRoles (i : ListUserRolesInput) : M World (list Role * string) :=
  uid <- lift (Access.ParseUserID (lu_UserID i)) ;;
  aid <- lift (Access.ParseAppID (lu_AppID i)) ;;
  requireUserExists uid ;;;
  requireAppExists aid ;;;
  after <- lift (decodeCursor (lu_PageToken i)) ;;
  pageSize <- lift (ClampPageSize (lu_PageSize i)) ;;
  res <- AccessRepo.ListUserRoles (mkListUserRolesQuery uid aid pageSize after (lu_OrderBy i)) ;;
  roles <- hydrate_roles (lr_Rows res) ;;
  nextToken <- lift (encodeCursor (lr_NextCursor res)) ;;
  ret (roles, nextToken).

End AccessService.
