(* ===== verification/AuthBase.v ===== *)
(** * AuthBase: what the authentication use-cases share.

    modules/auth/internal/service/{service,helpers}.go, the token generator
    platform/crypto/randtoken, the signer and verifier platform/crypto/jwt and
    platform/crypto/passwordhash. *)
From S2P Require Import Prelude Errors Sql Monad Runtime Listing Kernel AuditDomain.
From S2P Require Import World.
From S2P Require Import AuditRepo.
From S2P Require Import Identity.
From S2P Require Import IdentityRepo.
From S2P Require Import Session.
From S2P Require Import SessionRepo.
Local Open Scope Z_scope.

(** The configuration the service and the token signer are built with. *)
Record AuthConfig := mkAuthConfig {
  cfg_issuer : string;
  cfg_accessTTL : Z;
  cfg_refreshTTL : Z;           (* absolute hard cap *)
  cfg_refreshRotationTTL : Z;   (* sliding window *)
  cfg_bcryptCost : Z }.

Section AuthBase.
Context `{Runtime} (cfg : AuthConfig).

(** ** platform/crypto/passwordhash *)

Definition passwordhash_Hash (plaintext : string) : M World bytes :=
  k <- gets w_seed ;;
  match rt_bcrypt_hash k plaintext (cfg_bcryptCost cfg) with
  | None => throw (EMsg "bcrypt")
  | Some h => ret h
  end.
Definition passwordhash_Compare (hash : bytes) (plaintext : string) : bool :=
  rt_bcrypt_compare hash plaintext.

(** ** platform/crypto/randtoken *)

Definition tokenGen_Hash (plaintext : string) : bytes := rt_sha256 plaintext.
Definition tokenGen_Generate : M World (string * bytes) :=
  buf <- rand_Read 32 catch err => throw (EWrap "generate secret: read random" err) ;;
  let plaintext := RawURLEncoding_EncodeToString buf in
  ret (plaintext, tokenGen_Hash plaintext).

(** ** platform/crypto/jwt *)

Definition jwt_SubjectTypeUser : string := "user".
Definition jwt_SubjectTypeServiceAccount : string := "service_account".

Record Claims := mkClaims {
  cl_Issuer : string; cl_Subject : string; cl_SubjectType : string; cl_SessionID : string;
  cl_IssuedAt : Time; cl_ExpiresAt : Time; cl_JTI : string }.

Definition tokenClaimsToClaims (c : tokenClaims) : Claims :=
  mkClaims (tc_Issuer c) (tc_Subject c) (tc_SubjectType c) (tc_SessionID c)
    (NumericDate_Time (tc_IssuedAt c)) (NumericDate_Time (tc_ExpiresAt c)) (tc_ID c).

(** [Sign]: issuer and validity come from the signer's own configuration. *)
Definition Sign (subject subjectType sessionID jti : string) : M World string :=
  now <- time_now ;;
  match rt_jwt_sign (mkTokenClaims (cfg_issuer cfg) subject (NumericDate now)
                       (NumericDate (now + cfg_accessTTL cfg)) jti subjectType sessionID) with
  | Some tok => ret tok
  | None => throw (EMsg "jwt: sign")
  end.

(** 30 seconds. *)
Definition jwt_leeway : Z := 30 * 1000000000.

Definition Verify (token : string) : M World Claims :=
  now <- time_now ;;
  match rt_jwt_parse token (cfg_issuer cfg) jwt_leeway now with
  | Some c => ret (tokenClaimsToClaims c)
  | None => throw (EWrap "jwt" (EMsg "parse"))
  end.

Definition Claims_IsExpired (now : Time) (c : Claims) : bool := negb (Before now (cl_ExpiresAt c)).

(** ** helpers.go *)

Definition revokeSessionBestEffort (sess : Session) (now : Time) : M World unit :=
  ignore (SessionRepo.Update (Session.Revoke now sess)).

(** [s.auditor.Fail(ctx, aud, reason); return err] and its [Deny] counterpart. *)
Definition fail {A} (aud : NewAuditParams) (reason : string) (err : error) : M World A :=
  Fail aud reason ;;; throw err.
Definition deny {A} (aud : NewAuditParams) (reason : string) (err : error) : M World A :=
  Deny aud reason ;;; throw err.

(** ** Minting a session and its token pair

    The steps login.go, change_password.go and
    reset_password_with_recovery_code.go share: identifiers, refresh token, the
    two deadlines with the sliding one capped by the hard cap, the session row
    and the access token. [op] prefixes the error messages. *)

Record AuthTokens := mkAuthTokens {
  at_AccessToken : string; at_AccessExpiresAt : Time; at_RefreshToken : string;
  at_RefreshExpiresAt : Time; at_SessionID : string; at_SubjectID : string }.

(** [e := now.Add(refreshRotationTTL); if e.After(cap) { e = cap }] *)
Definition sliding_deadline (now cap : Time) : Time :=
  let e := now + cfg_refreshRotationTTL cfg in
  if After e cap then cap else e.

Definition mint_session (op : string) (aud : NewAuditParams) (user : User)
    (userAgent ipAddress : string) (now : Time) : M World AuthTokens :=
  sessionID <- NewV7 "session: new id" catch err =>
    fail aud ReasonInternal (EWrap (op +:+ ": new session id") err) ;;
  jti <- NewV7 "uuid" catch err => fail aud ReasonInternal (EWrap (op +:+ ": new jti") err) ;;
  refresh <- tokenGen_Generate catch err =>
    fail aud ReasonInternal (EWrap (op +:+ ": gen refresh token") err) ;;
  let '(refreshPlain, refreshHash) := refresh in
  let sessionExpiresAt := now + cfg_refreshTTL cfg in
  let refreshExpiresAt := sliding_deadline now sessionExpiresAt in
  let sess := NewSession (mkNewSessionParams sessionID (u_id user) refreshHash userAgent ipAddress
                            now sessionExpiresAt refreshExpiresAt) in
  _ <- SessionRepo.Create sess catch err =>
    fail aud ReasonInternal (EWrap (op +:+ ": create session") err) ;;
  access <- Sign (u_id user) jwt_SubjectTypeUser (s_id sess) jti catch err =>
    fail aud ReasonInternal (EWrap (op +:+ ": sign access token") err) ;;
  ret (mkAuthTokens access (now + cfg_accessTTL cfg) refreshPlain refreshExpiresAt (s_id sess) (u_id user)).

(** [lookupUser] (login.go), also used by the password reset. *)
Definition lookupUser (email username : string) : M World User :=
  if decide (email ≠ "") then GetByEmail email else GetByUsername username.

End AuthBase.
