(* ===== verification/AuthLogin.v ===== *)
(** * AuthLogin: registration, login, logout and token validation.

    modules/auth/internal/service/{register,login,logout,validate}.go. *)
From S2P Require Import Prelude Errors Sql Monad Runtime Listing Kernel AuditDomain.
From S2P Require Import World.
From S2P Require Import AuditRepo.
From S2P Require Import App.
From S2P Require Import AppRepo.
From S2P Require Import Identity.
From S2P Require Import IdentityRepo.
From S2P Require Import Session.
From S2P Require Import SessionRepo.
From S2P Require Import AuthBase.
Local Open Scope Z_scope.

Section AuthLogin.
Context `{Runtime} (cfg : AuthConfig).

(** ** Register *)

Record RegisterInput := mkRegisterInput {
  rg_Email : string; rg_Username : string; rg_DisplayName : string; rg_AvatarURL : string;
  rg_Locale : string; rg_Timezone : string; rg_Password : string; rg_IpAddress : string;
  rg_UserAgent : string }.

Definition Register (r : RegisterInput) : M World User :=
  passwordHash <- passwordhash_Hash cfg (rg_Password r) ;;
  id <- NewV7 "generate user id" catch err => throw (EWrap "register: new user id" err) ;;
  now <- time_now ;;
  fresh <- etag_New ;;
  let user := NewUser fresh
    (mkNewUserParams id (rg_Email r) (rg_Username r) (rg_DisplayName r) (rg_AvatarURL r)
       (rg_Locale r) (rg_Timezone r) passwordHash now) in
  let aud := aud_subject (aud_base 101 ActorTypeAnonymous (rg_IpAddress r) (rg_UserAgent r))
               SubjectTypeUser (u_id user) in
  _ <- IdentityRepo.Create user catch err =>
    ((if errors_is err identity_ErrUserAlreadyExists then Fail aud ReasonUserAlreadyExists
      else match errors_as_validation err with
           | Some _ => Fail aud ReasonValidationFailed
           | None => Fail aud ReasonInternal
           end) ;;;
     throw (EWrap "register: create user" err)) ;;
  Success aud ;;;
  ret user.

(** ** Login *)

Record LoginInput := mkLoginInput {
  lg_AppID : string; lg_Email : string; lg_Username : string; lg_Password : string;
  lg_UserAgent : string; lg_IpAddress : string }.

Definition validateLoginInput (i : LoginInput) : res unit :=
  if decide (lg_AppID i = "") then Err (EValidation "app_id" "required")
  else
    let hasEmail := bool_decide (lg_Email i ≠ "") in
    let hasUsername := bool_decide (lg_Username i ≠ "") in
    if decide (hasEmail = hasUsername) then
      Err (EValidation "email_or_username" "exactly one of email or username must be provided")
    else if decide (lg_Password i = "") then Err (EValidation "password" "required")
    else Ok tt.

(** The denial a non-active app is audited with. *)
Definition app_status_reason (st : Z) : string :=
  if decide (st = AppStatusDisabled) then ReasonAppDisabled
  else if decide (st = AppStatusMaintenance) then ReasonAppInMaintenance
  else ReasonInternal.

Definition ErrInvalidCredentials : error := ESentinel auth_ErrInvalidCredentials.

Definition Login (i : LoginInput) : M World (AuthTokens * User) :=
  lift (validateLoginInput i) ;;;
  let aud := aud_base 102 ActorTypeAnonymous (lg_IpAddress i) (lg_UserAgent i) in
  appID <- lift (ParseAppID (lg_AppID i)) ;;
  let aud := aud_app aud appID in
  a <- AppRepo.GetByID appID catch err =>
    (if errors_is err app_ErrAppNotFound then fail aud ReasonAppNotFound ErrInvalidCredentials
     else fail aud ReasonInternal (EWrap "login: get app" err)) ;;
  if decide (a_status a ≠ AppStatusActive) then
    deny aud (app_status_reason (a_status a)) ErrInvalidCredentials
  else
  user <- lookupUser (lg_Email i) (lg_Username i) catch err =>
    (if errors_is err identity_ErrUserNotFound then fail aud ReasonUserNotFound ErrInvalidCredentials
     else fail aud ReasonInternal (EWrap "login: lookup user" err)) ;;
  let aud := aud_subject aud SubjectTypeUser (u_id user) in
  if decide (u_status user = UserStatusDeleted) then deny aud ReasonUserDeleted ErrInvalidCredentials
  else if decide (u_status user = UserStatusBlocked) then
    deny aud ReasonUserBlocked (ESentinel auth_ErrUserBlocked)
  else if negb (HasPassword user) then fail aud ReasonInvalidCredentials ErrInvalidCredentials
  else if negb (passwordhash_Compare (u_passwordHash user) (lg_Password i)) then
    fail aud ReasonPasswordMismatch ErrInvalidCredentials
  else
  now <- time_now ;;
  tokens <- mint_session cfg "login" aud user (lg_UserAgent i) (lg_IpAddress i) now ;;
  ignore (UpdateLastLoginAt (u_id user) now) ;;;
  Success aud ;;;
  ret (tokens, user).

(** ** Logout *)

Definition Logout (ctx : Ctx) (sessionID : string) : M World unit :=
  a <- lift (Require_actor ctx) ;;
  sid <- lift (ParseSessionID sessionID) ;;
  let aud := aud_subject (BaseFromActor a 103) SubjectTypeUser (a_ID a) in
  mcatch (SessionRepo.GetByID sid)
    (λ err,
      if errors_is err session_ErrSessionNotFound then Success aud
      else fail aud ReasonInternal (EWrap "logout: get session" err))
    (λ sess,
      if Session.IsRevoked sess then Success aud
      else
        now <- time_now ;;
        _ <- SessionRepo.Update (Session.Revoke now sess) catch err =>
          fail aud ReasonInternal (EWrap "logout: persist revocation" err) ;;
        Success aud).

(** ** Validate *)

Record ValidateOutput := mkValidateOutput {
  vo_SubjectID : string; vo_SubjectType : string; vo_SessionID : string; vo_AppID : string;
  vo_ExpiresAt : Time }.

Definition ErrInvalidToken : error := ESentinel auth_ErrInvalidToken.

Definition Validate (accessToken : string) : M World ValidateOutput :=
  if decide (accessToken = "") then throw (EValidation "access_token" "required")
  else
  claims <- Verify cfg accessToken catch err => throw ErrInvalidToken ;;
  (if decide (cl_SubjectType claims = jwt_SubjectTypeUser) then
     sid <- lift (ParseSessionID (cl_SessionID claims)) catch perr => throw ErrInvalidToken ;;
     sess <- SessionRepo.GetByID sid catch gerr =>
       (if errors_is gerr session_ErrSessionNotFound then throw ErrInvalidToken
        else throw (EWrap "validate: get session" gerr)) ;;
     now <- time_now ;;
     if negb (Session.IsActive now sess) then throw ErrInvalidToken else ret tt
   else if decide (cl_SubjectType claims = jwt_SubjectTypeServiceAccount) then ret tt
   else throw ErrInvalidToken) ;;;
  ret (mkValidateOutput (cl_Subject claims) (cl_SubjectType claims) (cl_SessionID claims) ""
         (cl_ExpiresAt claims)).

End AuthLogin.
