(* ===== verification/AuthRefresh.v ===== *)
(** * AuthRefresh: refresh-token rotation.

    modules/auth/internal/service/refresh.go. *)
From S2P Require Import Prelude Errors Sql Monad Runtime Listing Kernel AuditDomain.
From S2P Require Import World.
From S2P Require Import AuditRepo.
From S2P Require Import Identity.
From S2P Require Import IdentityRepo.
From S2P Require Import Session.
From S2P Require Import SessionRepo.
From S2P Require Import AuthBase.
Local Open Scope Z_scope.

Section AuthRefresh.
Context `{Runtime} (cfg : AuthConfig).

Definition ErrInvalidToken : error := ESentinel auth_ErrInvalidToken.

Definition Refresh (refreshToken : string) : M World AuthTokens :=
  if decide (refreshToken = "") then throw (EValidation "refresh_token" "required")
  else
  now <- time_now ;;
  let oldHash := tokenGen_Hash refreshToken in
  let aud := aud_base 104 ActorTypeAnonymous "" "" in
  sess <- GetByRefreshHash oldHash catch err =>
    (if errors_is err session_ErrSessionNotFound then fail aud ReasonInvalidToken ErrInvalidToken
     else fail aud ReasonInternal (EWrap "refresh: get session" err)) ;;
  let aud := aud_subject aud SubjectTypeSession (s_id sess) in
  if Session.IsRevoked sess || IsAbsoluteExpired now sess || IsRefreshExpired now sess then
    fail aud ReasonInvalidToken ErrInvalidToken
  else
  userID <- lift (ParseUserID (s_userID sess)) catch err =>
    fail aud ReasonInternal (EWrap "refresh: parse user id from session" err) ;;
  user <- IdentityRepo.GetByID userID catch err =>
    (if errors_is err identity_ErrUserNotFound then
       revokeSessionBestEffort sess now ;;;
       fail aud ReasonUserNotFound ErrInvalidToken
     else fail aud ReasonInternal (EWrap "refresh: get user" err)) ;;
  if decide (u_status user = UserStatusDeleted) then
    revokeSessionBestEffort sess now ;;;
    deny aud ReasonUserDeleted ErrInvalidToken
  else if decide (u_status user = UserStatusBlocked) then
    revokeSessionBestEffort sess now ;;;
    deny aud ReasonUserBlocked (ESentinel auth_ErrUserBlocked)
  else
  refresh <- tokenGen_Generate catch err =>
    fail aud ReasonInternal (EWrap "refresh: gen new refresh token" err) ;;
  let '(newPlain, newHash) := refresh in
  let newRefreshExpiresAt := sliding_deadline cfg now (s_expiresAt sess) in
  sess <- lift (RotateRefresh newHash now newRefreshExpiresAt sess) catch err =>
    fail aud ReasonInternal (EWrap "refresh: rotate aggregate" err) ;;
  _ <- Rotate sess oldHash catch err =>
    (if errors_is err session_ErrRefreshTokenReused then
       ignore (RevokeAllForUser (s_userID sess) now) ;;;
       fail aud ReasonRefreshTokenReused (ESentinel auth_ErrRefreshTokenReused)
     else fail aud ReasonInternal (EWrap "refresh: rotate session" err)) ;;
  jti <- NewV7 "uuid" catch err => fail aud ReasonInternal (EWrap "refresh: new jti" err) ;;
  access <- Sign cfg (u_id user) jwt_SubjectTypeUser (s_id sess) jti catch err =>
    fail aud ReasonInternal (EWrap "refresh: sign access token" err) ;;
  Success aud ;;;
  ret (mkAuthTokens access (now + cfg_accessTTL cfg) newPlain newRefreshExpiresAt (s_id sess) userID).

End AuthRefresh.
