(* ===== verification/AuthPassword.v ===== *)
(** * AuthPassword: password change, recovery codes, password reset.

    modules/auth/internal/service/{change_password,generate_recovery_codes,
    reset_password_with_recovery_code}.go and
    platform/crypto/recoverycode/generator.go on the random source. *)
From S2P Require Import Prelude Errors Sql Monad Runtime Listing Kernel AuditDomain.
From S2P Require Import World.
From S2P Require Import AuditRepo.
From S2P Require Import App.
From S2P Require Import AppRepo.
From S2P Require Import RecoveryCode.
From S2P Require Import RecoveryCodeRepo.
From S2P Require Import Session.
From S2P Require Import SessionRepo.
From S2P Require Import Identity.
From S2P Require Import IdentityRepo.
From S2P Require Import AuthBase.
Local Open Scope Z_scope.

Section AuthPassword.
Context `{Runtime} (cfg : AuthConfig).

Definition ErrInvalidToken : error := ESentinel auth_ErrInvalidToken.
Definition ErrPasswordMismatch : error := ESentinel auth_ErrPasswordMismatch.

(** ** ChangePassword *)

Record ChangePasswordInput := mkChangePasswordInput {
  cw_UserID : string; cw_OldPassword : string; cw_NewPassword : string;
  cw_UserAgent : string; cw_IpAddress : string }.

Definition validateChangePasswordInput (i : ChangePasswordInput) : res unit :=
  if decide (cw_UserID i = "") then Err (EValidation "user_id" "required")
  else if decide (cw_OldPassword i = "") then Err (EValidation "old_password" "required")
  else if decide (cw_NewPassword i = "") then Err (EValidation "new_password" "required")
  else if decide (cw_NewPassword i = cw_OldPassword i) then
    Err (EValidation "new_password" "must differ from old_password")
  else Ok tt.

(** Hash the new password, persist it under the etag read before the
    mutation, and revoke every session: the steps both flows share. *)
Definition replace_password (op : string) (aud : NewAuditParams) (user : User)
    (newPassword : string) (now : Time) : M World unit :=
  newHash <- passwordhash_Hash cfg newPassword catch err =>
    fail aud ReasonInternal (EWrap (op +:+ ": hash new password") err) ;;
  let preEtag := u_etag user in
  fresh <- etag_New ;;
  user <- lift (SetPassword fresh newHash now user) catch err =>
    fail aud ReasonInternal (EWrap (op +:+ ": set password") err) ;;
  _ <- UpdatePassword user preEtag catch err =>
    ((if errors_is err identity_ErrEtagMismatch then Fail aud ReasonEtagMismatch
      else Fail aud ReasonInternal) ;;;
     throw (EWrap (op +:+ ": persist password") err)) ;;
  _ <- RevokeAllForUser (u_id user) now catch err =>
    fail aud ReasonInternal (EWrap (op +:+ ": revoke sessions") err) ;;
  ret tt.

Definition ChangePassword (ctx : Ctx) (i : ChangePasswordInput) : M World AuthTokens :=
  a <- lift (Require_actor ctx) ;;
  lift (validateChangePasswordInput i) ;;;
  userID <- lift (ParseUserID (cw_UserID i)) ;;
  let aud := aud_subject (BaseFromActor a 106) SubjectTypeUser userID in
  user <- IdentityRepo.GetByID userID catch err =>
    (if errors_is err identity_ErrUserNotFound then fail aud ReasonInvalidToken ErrInvalidToken
     else fail aud ReasonInternal (EWrap "change password: get user" err)) ;;
  if decide (u_status user = UserStatusDeleted) then
    deny aud ReasonUserDeleted (ESentinel auth_ErrUserDeleted)
  else if decide (u_status user = UserStatusBlocked) then
    deny aud ReasonUserBlocked (ESentinel auth_ErrUserBlocked)
  else if negb (HasPassword user) then fail aud ReasonPasswordMismatch ErrPasswordMismatch
  else if negb (passwordhash_Compare (u_passwordHash user) (cw_OldPassword i)) then
    fail aud ReasonPasswordMismatch ErrPasswordMismatch
  else
  now <- time_now ;;
  replace_password "change password" aud user (cw_NewPassword i) now ;;;
  tokens <- mint_session cfg "change password" aud user (cw_UserAgent i) (cw_IpAddress i) now ;;
  Success aud ;;;
  ret tokens.

(** ** The recovery-code generator *)

(** The loop of [Generate]; [None] when the fuel is out, which the source's
    unbounded loop never is. *)
Fixpoint generate_loop (fuel : nat) (codes : list string) (hashes : list bytes) :
    M World (option (list string * list bytes)) :=
  if decide (codesInBatch <= length codes)%nat then ret (Some (codes, hashes))
  else
    match fuel with
    | O => ret None
    | S fuel' =>
        buf <- rand_Read codeLength catch err => throw (EWrap "recoverycode: gen" err) ;;
        let code := randomCode buf in
        if decide (code ∈ codes) then generate_loop fuel' codes hashes
        else generate_loop fuel' (codes ++ [code]) (hashes ++ [hashNormalised code])
    end.

(** ** GenerateRecoveryCodes; [fuel] bounds the draws of the generator. *)

Definition GenerateRecoveryCodes (fuel : nat) (ctx : Ctx) (rawUserID : string) :
    M World (option (list string * Time)) :=
  a <- lift (Require_actor ctx) ;;
  userID <- lift (ParseUserID rawUserID) ;;
  let aud := aud_subject (BaseFromActor a 111) SubjectTypeUser userID in
  user <- IdentityRepo.GetByID userID catch err =>
    (if errors_is err identity_ErrUserNotFound then fail aud ReasonInvalidToken ErrInvalidToken
     else fail aud ReasonInternal (EWrap "generate recovery codes: get user" err)) ;;
  if decide (u_status user = UserStatusDeleted) then
    deny aud ReasonUserDeleted (ESentinel auth_ErrUserDeleted)
  else if decide (u_status user = UserStatusBlocked) then
    deny aud ReasonUserBlocked (ESentinel auth_ErrUserBlocked)
  else
  now <- time_now ;;
  _ <- RevokeActiveBatchesForUser (u_id user) now catch err =>
    fail aud ReasonInternal (EWrap "generate recovery codes: revoke active batches" err) ;;
  gen <- generate_loop fuel [] [] catch err =>
    fail aud ReasonInternal (EWrap "generate recovery codes: gen" err) ;;
  match gen with
  | None => ret None
  | Some (codes, hashes) =>
      batchID <- NewV7 "generate batch id" catch err =>
        fail aud ReasonInternal (EWrap "generate recovery codes: new batch id" err) ;;
      let batch := NewBatch batchID (u_id user) now hashes in
      _ <- CreateBatch batch catch err =>
        fail aud ReasonInternal (EWrap "generate recovery codes: persist batch" err) ;;
      Success aud ;;;
      ret (Some (codes, now))
  end.

(** ** ResetPasswordWithRecoveryCode *)

Record ResetInput := mkResetInput {
  rs_Email : string; rs_Username : string; rs_AppID : string; rs_AppSlug : string;
  rs_RecoveryCode : string; rs_NewPassword : string; rs_UserAgent : string; rs_IpAddress : string }.

Definition validateResetPasswordInput (i : ResetInput) : res unit :=
  let hasEmail := bool_decide (rs_Email i ≠ "") in
  let hasUsername := bool_decide (rs_Username i ≠ "") in
  if decide (hasEmail = hasUsername) then
    Err (EValidation "email_or_username" "exactly one of email or username must be provided")
  else
  let hasAppID := bool_decide (rs_AppID i ≠ "") in
  let hasAppSlug := bool_decide (rs_AppSlug i ≠ "") in
  if decide (hasAppID = hasAppSlug) then
    Err (EValidation "app_target" "exactly one of app_id or app_slug must be provided")
  else if decide (rs_RecoveryCode i = "") then Err (EValidation "recovery_code" "required")
  else if decide (rs_NewPassword i = "") then Err (EValidation "new_password" "required")
  else Ok tt.

Definition resolveApp (appID appSlug : string) : M World App :=
  if decide (appSlug ≠ "") then
    throw (EValidation "app_slug" "app_slug resolution is not yet supported; use app_id")
  else
  id <- lift (ParseAppID appID) ;;
  AppRepo.GetByID id.

Definition reset_app_reason (st : Z) : string :=
  if decide (st = AppStatusDisabled) then ReasonAppDisabled
  else if decide (st = AppStatusMaintenance) then ReasonAppInMaintenance
  else ReasonInternal.

Definition ErrRecoveryCodeInvalid : error := ESentinel recoverycode_ErrRecoveryCodeInvalid.

Definition ResetPasswordWithRecoveryCode (i : ResetInput) : M World AuthTokens :=
  lift (validateResetPasswordInput i) ;;;
  let aud := aud_base 112 ActorTypeAnonymous (rs_IpAddress i) (rs_UserAgent i) in
  a <- resolveApp (rs_AppID i) (rs_AppSlug i) catch err =>
    (if errors_is err app_ErrAppNotFound then fail aud ReasonAppNotFound err
     else fail aud ReasonInternal err) ;;
  let aud := aud_app aud (a_id a) in
  if decide (a_status a ≠ AppStatusActive) then
    deny aud (reset_app_reason (a_status a)) (ESentinel app_ErrAppDisabled)
  else
  user <- lookupUser (rs_Email i) (rs_Username i) catch err =>
    (if errors_is err identity_ErrUserNotFound then fail aud ReasonUserNotFound err
     else fail aud ReasonInternal err) ;;
  let aud := aud_subject aud SubjectTypeUser (u_id user) in
  if decide (u_status user = UserStatusDeleted) then
    deny aud ReasonUserDeleted (ESentinel auth_ErrUserDeleted)
  else if decide (u_status user = UserStatusBlocked) then
    deny aud ReasonUserBlocked (ESentinel auth_ErrUserBlocked)
  else
  batch <- GetActiveBatchByUser (u_id user) catch err =>
    (if errors_is err recoverycode_ErrBatchNotFound then
       fail aud ReasonRecoveryCodeInvalid ErrRecoveryCodeInvalid
     else fail aud ReasonInternal (EWrap "reset password: get active batch" err)) ;;
  now <- time_now ;;
  let hash := RecoveryCode.Hash (rs_RecoveryCode i) in
  _ <- ConsumeCode (b_id batch) hash now catch err =>
    (if errors_is err recoverycode_ErrRecoveryCodeInvalid then fail aud ReasonRecoveryCodeInvalid err
     else fail aud ReasonInternal (EWrap "reset password: consume code" err)) ;;
  replace_password "reset password" aud user (rs_NewPassword i) now ;;;
  tokens <- mint_session cfg "reset password" aud user (rs_UserAgent i) (rs_IpAddress i) now ;;
  Success aud ;;;
  ret tokens.

End AuthPassword.
