(* ===== verification/AuthSessions.v ===== *)
(** * AuthSessions: listing and revoking sessions.

    modules/auth/internal/service/{list_sessions,revoke_session,
    revoke_all_sessions,revoke_token}.go. *)
From S2P Require Import Prelude Errors Sql Monad Runtime Listing Kernel AuditDomain.
From S2P Require Import World.
From S2P Require Import AuditRepo.
From S2P Require Import Identity.
From S2P Require Import Session.
From S2P Require Import SessionRepo.
From S2P Require Import AuthBase.
Local Open Scope Z_scope.

(** ** The pure part of ListSessions *)

Definition defaultListSessionsPageSize : Z := 50.
Definition maxListSessionsPageSize : Z := 100.

Record sessionsPageToken := mkSessionsPageToken { st_IssuedAt : Time; st_SessionID : string }.
#[export] Instance sessionsPageToken_eq_dec : EqDecision sessionsPageToken.
Proof. solve_decision. Defined.

Definition sessions_page_size (raw : Z) : res Z :=
  if decide (raw < 0) then Err (EValidation "page_size" "must be ≥ 0")
  else if decide (raw = 0) then Ok defaultListSessionsPageSize
  else if decide (maxListSessionsPageSize < raw) then Ok maxListSessionsPageSize
  else Ok raw.

(** [sess] sits strictly past the cursor; ids compare byte by byte. *)
Definition cursorBefore (sess : Session) (c : sessionsPageToken) : bool :=
  if Before (s_issuedAt sess) (st_IssuedAt c) then true
  else if bool_decide (s_issuedAt sess = st_IssuedAt c) && str_lt (s_id sess) (st_SessionID c) then true
  else false.

(** [active[start:]], with [start] the first index past the cursor and
    [len(active)] when there is none. *)
Fixpoint skip_to_cursor (active : list Session) (c : sessionsPageToken) : list Session :=
  match active with
  | [] => []
  | sess :: rest => if cursorBefore sess c then active else skip_to_cursor rest c
  end.

Definition token_of (sess : Session) : sessionsPageToken :=
  mkSessionsPageToken (s_issuedAt sess) (s_id sess).

Definition selectSessionsPage (active : list Session) (after : option sessionsPageToken)
    (pageSize : Z) : list Session * option sessionsPageToken :=
  let remaining := match after with None => active | Some c => skip_to_cursor active c end in
  trim_page pageSize token_of remaining.

Section AuthSessions.
Context `{Runtime}.

Section ListSessions.
Context `{JsonCodec sessionsPageToken}.

Definition encodeSessionsCursor (c : option sessionsPageToken) : res string := cursor_Encode c.

Definition decodeSessionsCursor (s : string) : res (option sessionsPageToken) :=
  match cursor_Decode s with
  | Err _ => Err (EValidation "page_token" "malformed token")
  | Ok None => Ok None
  | Ok (Some t) =>
      match ParseSessionID (st_SessionID t) with
      | Err _ => Err (EValidation "page_token" "malformed token")
      | Ok _ => Ok (Some t)
      end
  end.

Record ListSessionsOutput := mkListSessionsOutput {
  ls_Sessions : list Session; ls_NextPageToken : string; ls_TotalSize : Z }.

Definition ListSessions (rawUserID : string) (rawPageSize : Z) (pageToken : string) :
    M World ListSessionsOutput :=
  userID <- lift (ParseUserID rawUserID) ;;
  pageSize <- lift (sessions_page_size rawPageSize) ;;
  after <- lift (decodeSessionsCursor pageToken) ;;
  all <- ListByUser userID catch err => throw (EWrap "list sessions: list by user" err) ;;
  now <- time_now ;;
  let active := List.filter (Session.IsActive now) all in
  let '(page, next) := selectSessionsPage active after pageSize in
  nextToken <- lift (encodeSessionsCursor next) catch err =>
    throw (EWrap "list sessions: encode cursor" err) ;;
  ret (mkListSessionsOutput page nextToken (Z.of_nat (length active))).

End ListSessions.

(** ** RevokeSession *)

Definition RevokeSession (ctx : Ctx) (callerUserID sessionID : string) : M World unit :=
  a <- lift (Require_actor ctx) ;;
  sid <- lift (ParseSessionID sessionID) ;;
  let aud := aud_subject (BaseFromActor a 108) SubjectTypeSession sid in
  sess <- SessionRepo.GetByID sid catch err =>
    (if errors_is err session_ErrSessionNotFound then
       fail aud ReasonSessionNotFound (ESentinel session_ErrSessionNotFound)
     else fail aud ReasonInternal (EWrap "revoke session: get session" err)) ;;
  if decide (s_userID sess ≠ callerUserID) then
    deny aud ReasonPermissionDenied (ESentinel session_ErrSessionNotOwned)
  else if Session.IsRevoked sess then Success aud
  else
  now <- time_now ;;
  _ <- SessionRepo.Update (Session.Revoke now sess) catch err =>
    fail aud ReasonInternal (EWrap "revoke session: persist revocation" err) ;;
  Success aud.

(** ** RevokeAllSessions *)

(** One iteration of the loop over the caller's sessions. *)
Definition revoke_except (aud : NewAuditParams) (current : string) (now : Time) (sess : Session) :
    M World unit :=
  if Session.IsRevoked sess then ret tt
  else if decide (s_id sess = current) then ret tt
  else
  _ <- SessionRepo.Update (Session.Revoke now sess) catch err =>
    fail aud ReasonInternal (EWrap "revoke all sessions: persist revocation" err) ;;
  ret tt.

Definition RevokeAllSessions (ctx : Ctx) (callerUserID currentSessionID : string)
    (exceptCurrent : bool) : M World unit :=
  a <- lift (Require_actor ctx) ;;
  userID <- lift (ParseUserID callerUserID) ;;
  now <- time_now ;;
  let aud := aud_subject (BaseFromActor a 109) SubjectTypeUser userID in
  if negb exceptCurrent then
    _ <- RevokeAllForUser userID now catch err =>
      fail aud ReasonInternal (EWrap "revoke all sessions" err) ;;
    Success aud
  else
  all <- ListByUser userID catch err =>
    fail aud ReasonInternal (EWrap "revoke all sessions: list by user" err) ;;
  mfor all (revoke_except aud currentSessionID now) ;;;
  Success aud.

(** ** RevokeToken *)

Definition RevokeToken (ctx : Ctx) (callerUserID refreshToken : string) : M World unit :=
  a <- lift (Require_actor ctx) ;;
  if decide (refreshToken = "") then throw (EValidation "refresh_token" "required")
  else
  let hash := tokenGen_Hash refreshToken in
  let aud := BaseFromActor a 110 in
  mcatch (GetByRefreshHash hash)
    (λ err,
      if errors_is err session_ErrSessionNotFound then Success aud
      else fail aud ReasonInternal (EWrap "revoke token: get session" err))
    (λ sess,
      let aud := aud_subject aud SubjectTypeSession (s_id sess) in
      if decide (s_userID sess ≠ callerUserID) then
        deny aud ReasonPermissionDenied (ESentinel session_ErrSessionNotOwned)
      else if Session.IsRevoked sess then Success aud
      else
      now <- time_now ;;
      _ <- SessionRepo.Update (Session.Revoke now sess) catch err =>
        fail aud ReasonInternal (EWrap "revoke token: persist revocation" err) ;;
      Success aud).

End AuthSessions.
