(* ===== verification/AuthServiceAccount.v ===== *)
(** * AuthServiceAccount: the client-credentials grant.

    modules/auth/internal/service/service_account.go. *)
From S2P Require Import Prelude Errors Sql Monad Runtime Listing Kernel AuditDomain.
From S2P Require Import World.
From S2P Require Import AuditRepo.
From S2P Require Import App.
From S2P Require Import AppRepo.
From S2P Require Import ServiceAccount.
From S2P Require Import ServiceAccountRepo.
From S2P Require Import AuthBase.
Local Open Scope Z_scope.

Section AuthServiceAccount.
Context `{Runtime} (cfg : AuthConfig).

Record AuthenticateServiceAccountInput := mkAuthenticateServiceAccountInput {
  as_ServiceAccountID : string; as_ClientSecret : string; as_AppID : string; as_AppSlug : string;
  as_IpAddress : string; as_UserAgent : string }.

Record AuthenticateServiceAccountOutput := mkAuthenticateServiceAccountOutput {
  ao_AccessToken : string; ao_AccessExpiresAt : Time; ao_SubjectID : string }.

Definition validateServiceAccountAuthInput (i : AuthenticateServiceAccountInput) : res unit :=
  if decide (as_ServiceAccountID i = "") then Err (EValidation "service_account_id" "required")
  else if decide (as_ClientSecret i = "") then Err (EValidation "client_secret" "required")
  else if decide (as_AppID i = "" ∧ as_AppSlug i = "") then Err (EValidation "app_target" "required")
  else if decide (as_AppID i = "" ∧ as_AppSlug i ≠ "") then
    Err (EValidation "app_slug" "app_slug authentication is not yet supported; use app_id")
  else Ok tt.

Definition ErrServiceAccountInvalidCredentials : error := ESentinel sa_ErrServiceAccountInvalidCredentials.

Definition AuthenticateServiceAccount (i : AuthenticateServiceAccountInput) :
    M World AuthenticateServiceAccountOutput :=
  lift (validateServiceAccountAuthInput i) ;;;
  let aud := aud_base 113 ActorTypeAnonymous (as_IpAddress i) (as_UserAgent i) in
  appID <- lift (ParseAppID (as_AppID i)) ;;
  let aud := aud_app aud appID in
  a <- AppRepo.GetByID appID catch err =>
    (if errors_is err app_ErrAppNotFound then fail aud ReasonAppNotFound err
     else fail aud ReasonInternal err) ;;
  if decide (a_status a = AppStatusDisabled) then
    deny aud ReasonAppDisabled (ESentinel app_ErrAppDisabled)
  else if decide (a_status a = AppStatusMaintenance) then
    deny aud ReasonAppInMaintenance (ESentinel app_ErrAppInMaintenance)
  else
  saID <- lift (ParseServiceAccountID (as_ServiceAccountID i)) ;;
  sa <- ServiceAccountRepo.GetByID saID catch err =>
    (if errors_is err sa_ErrServiceAccountNotFound then
       fail aud ReasonServiceAccountNotFound ErrServiceAccountInvalidCredentials
     else fail aud ReasonInternal (EWrap "auth sa: get account" err)) ;;
  let aud := aud_subject aud SubjectTypeServiceAccount (v_id sa) in
  if decide (v_status sa = ServiceAccountDisabled) then
    deny aud ReasonServiceAccountDisabled (ESentinel sa_ErrServiceAccountDisabled)
  else if negb (passwordhash_Compare (v_secretHash sa) (as_ClientSecret i)) then
    fail aud ReasonInvalidClientCredentials ErrServiceAccountInvalidCredentials
  else
  jti <- NewV7 "uuid" catch err => fail aud ReasonInternal (EWrap "auth sa: new jti" err) ;;
  access <- Sign cfg (v_id sa) jwt_SubjectTypeServiceAccount "" jti catch err =>
    fail aud ReasonInternal (EWrap "auth sa: sign access token" err) ;;
  Success aud ;;;
  now <- time_now ;;
  ret (mkAuthenticateServiceAccountOutput access (now + cfg_accessTTL cfg) (v_id sa)).

End AuthServiceAccount.
