(* ===== verification/AuditService.v ===== *)
(** * AuditService: reading the audit log.

    modules/audit/internal/service/*.go against the interface of its
    authorizer, and platform/audit/authz/access.go, the authorizer backed by
    the access service. *)
From stdpp Require Import gmap.
From S2P Require Import Prelude Errors Sql Monad Runtime Listing Kernel AuditDomain.
From S2P Require Import App.
From S2P Require Import AccessService.
From S2P Require Import AuditMapper.
From S2P Require Import World.
From S2P Require Import AuditRepo.
Local Open Scope Z_scope.

(** authz.go: "may this caller read the audit log?" *)
Class AuditAuthorizer := { CanReadAudit : Ctx → M World bool }.

Definition AlwaysDenyAuthorizer : AuditAuthorizer := {| CanReadAudit := λ _, ret false |}.
Definition AlwaysAllowAuthorizer : AuditAuthorizer := {| CanReadAudit := λ _, ret true |}.

Section AuditService.
Context `{Runtime} `{AuditAuthorizer}.

Definition ParseAuditID (s : string) : res string :=
  if rt_uuid_valid s then Ok s else Err (EValidation "audit_id" "must be a valid UUID").

Definition requireAuditRead (ctx : Ctx) : M World unit :=
  ok <- CanReadAudit ctx ;;
  if negb ok then throw (ESentinel audit_ErrPermissionDenied) else ret tt.

Definition GetAuditEvent (ctx : Ctx) (rawID : string) : M World Audit :=
  requireAuditRead ctx ;;;
  id <- lift (ParseAuditID rawID) ;;
  AuditRepo.GetByID id.

(** ** Filters *)

Record AuditFiltersInput := mkAuditFiltersInput {
  fi_From : option Time; fi_To : option Time; fi_EventTypeSlugs : list string; fi_ActorType : Z;
  fi_ActorID : string; fi_ActorIP : string; fi_SubjectType : Z; fi_SubjectID : string;
  fi_AppID : string; fi_Outcomes : list Z }.

(** The decimal digits of a natural number, with the fuel its value gives. *)
Fixpoint itoa_loop (fuel : nat) (n : nat) (acc : string) : string :=
  match fuel with
  | O => acc
  | S fuel' =>
      if decide (n = 0%nat) then acc
      else itoa_loop fuel' (n / 10) (String (Ascii.ascii_of_nat (48 + n mod 10)) acc)
  end.
Definition itoa (n : nat) : string := if decide (n = 0%nat) then "0" else itoa_loop n n "".

Fixpoint parse_slugs (slugs : list string) : res (list Z) :=
  match slugs with
  | [] => Ok []
  | slug :: rest =>
      let et := ParseEventTypeSlug slug in
      if decide (et = 0) then Err (EValidation "filters.event_types" ("unknown event_type: " +:+ slug))
      else ets <-? parse_slugs rest ;; Ok (et :: ets)
  end.

Fixpoint check_outcomes (i : nat) (os : list Z) : res unit :=
  match os with
  | [] => Ok tt
  | o :: rest =>
      if negb (Outcome_IsKnown o) then
        Err (EValidation "filters.outcomes" ("unknown outcome at index " +:+ itoa i))
      else check_outcomes (S i) rest
  end.

(** An optional UUID filter. *)
Definition parse_filter (field s : string) : res string :=
  if decide (s = "") then Ok ""
  else if rt_uuid_valid s then Ok s else Err (EValidation field "must be a valid UUID").

Definition buildFilters (i : AuditFiltersInput) : res AuditFilters :=
  if bool_decide (fi_ActorType i ≠ ActorTypeUnknown) && negb (ActorType_IsKnown (fi_ActorType i)) then
    Err (EValidation "filters.actor_type" "unknown actor_type")
  else if bool_decide (fi_SubjectType i ≠ SubjectTypeUnknown) && negb (SubjectType_IsKnown (fi_SubjectType i)) then
    Err (EValidation "filters.subject_type" "unknown subject_type")
  else
  types <-? parse_slugs (fi_EventTypeSlugs i) ;;
  actorID <-? parse_filter "filters.actor_id" (fi_ActorID i) ;;
  subjectID <-? parse_filter "filters.subject_id" (fi_SubjectID i) ;;
  appID <-? parse_filter "filters.app_id" (fi_AppID i) ;;
  _ <-? check_outcomes 0 (fi_Outcomes i) ;;
  Ok (mkAuditFilters (fi_From i) (fi_To i) types (fi_ActorType i) actorID (fi_ActorIP i)
        (fi_SubjectType i) subjectID appID (fi_Outcomes i)).

(** ** ListAuditEvents *)

Record pageToken := mkPageToken { t_OccurredAt : Time; t_AuditID : string }.
Context `{JsonCodec pageToken}.

Definition encodeCursor (c : option PageCursor) : res string :=
  match c with
  | None => Ok ""
  | Some c => cursor_Encode (Some (mkPageToken (pc_OccurredAt c) (pc_AuditID c)))
  end.

Definition decodeCursor (s : string) : res (option PageCursor) :=
  match cursor_Decode s with
  | Err _ => Err (EValidation "page_token" "malformed token")
  | Ok None => Ok None
  | Ok (Some t) =>
      if decide (t_AuditID t = "") then Ok (Some (mkPageCursor (t_OccurredAt t) ""))
      else match ParseAuditID (t_AuditID t) with
           | Err _ => Err (EValidation "page_token" "malformed token")
           | Ok id => Ok (Some (mkPageCursor (t_OccurredAt t) id))
           end
  end.

Definition ListAuditEvents (ctx : Ctx) (rawPageSize : Z) (rawToken : string)
    (rawFilters : AuditFiltersInput) : M World (list Audit * string) :=
  requireAuditRead ctx ;;;
  pageSize <- lift (ClampPageSize rawPageSize) ;;
  after <- lift (decodeCursor rawToken) ;;
  filters <- lift (buildFilters rawFilters) ;;
  res <- AuditRepo.List (mkListQuery pageSize after filters) ;;
  nextToken <- lift (encodeCursor (lr_NextCursor res)) ;;
  ret (lr_Audits res, nextToken).

End AuditService.

(** ** platform/audit/authz: the authorizer backed by CheckPermission *)

Section AccessBacked.
Context `{Runtime}.

Definition adminAppSlug : string := "sso-admin".
Definition requiredPermission : string := "audit:read".

(** Hits are cached in the process, misses are not. *)
Definition resolveAdminAppID : M World string :=
  cached <- gets w_admin_app ;;
  match cached with
  | Some id => ret id
  | None =>
      id <- query_one (λ d, App.r_ID <$> sel_one (λ r, rt_collate (App.r_Slug r) adminAppSlug) (db_apps d)) ;;
      (λ w, (with_admin_app id w, Ok id))
  end.

Definition CanReadAudit_access (ctx : Ctx) : M World bool :=
  match From_ctx ctx with
  | None => ret false
  | Some act =>
      if negb (IsUser act) then ret false
      else
      mcatch resolveAdminAppID
        (λ err, if errors_is_no_rows err then ret false else throw err)
        (λ resolved,
          output <- CheckPermission (a_ID act) resolved requiredPermission ;;
          ret (cp_Allowed output))
  end.

Definition AccessBackedAuthorizer : AuditAuthorizer := {| CanReadAudit := CanReadAudit_access |}.

End AccessBacked.
