(* ===== verification/WorldFacts.v ===== *)
(** * WorldFacts: reasoning about the primitive effects.

    [inv G P] lifts a predicate on (number of draws, instant, database) to
    worlds whose pending interference only does what [G] allows; the lemmas of
    this file say when a primitive effect keeps it, whatever fails, provided
    that what [G] allows preserves [P]. *)
From S2P Require Import Prelude Errors Sql Monad Runtime Kernel World.
Local Open Scope Z_scope.

Definition db_pred := nat → Time → DB → Prop.

(** [P] is preserved by an atomic change of the database. *)
Definition respects (P : db_pred) (f : DB → DB) : Prop := ∀ s n d, P s n d → P s n (f d).

Class Respected (G : (DB → DB) → Prop) (P : db_pred) : Prop :=
  respected : ∀ f, G f → respects P f.

Record inv (G : (DB → DB) → Prop) (P : db_pred) (w : World) : Prop := {
  inv_db : P (w_seed w) (w_now w) (w_db w);
  inv_env : Forall G (w_env w) }.

(** The clock is left alone, and draws are not taken back. *)
Definition still (s : nat) (n : Time) (w : World) : Prop := (s <= w_seed w)%nat ∧ w_now w = n.

Section Inv.
Context (G : (DB → DB) → Prop) (P : db_pred) {G_ok : Respected G P}.

Lemma inv_interfere w : inv G P w → inv G P (interfere w).
Proof.
  intros [HP Henv]. unfold interfere. destruct (w_env w) as [|f fs] eqn:E.
  - split; [done|]. by rewrite E.
  - apply Forall_cons in Henv as [Hf Hfs]. split; simpl; [by apply G_ok|done].
Qed.

Lemma keeps_exec {A} (f : DB → res (A * DB)) (Q : A → Prop) :
  (∀ s n d a d', P s n d → f d = Ok (a, d') → P s n d' ∧ Q a) →
  keeps (inv G P) (exec f) Q.
Proof.
  intros Hf w Hw. apply inv_interfere in Hw as [HP Henv]. unfold exec. simpl.
  assert (Hi : inv G P (pop_fault (interfere w))) by (by split).
  destruct (next_fault w); [|by split|].
  all: destruct (f _) as [[a d']|e] eqn:E; simpl; [|by split].
  all: destruct (Hf _ _ _ _ _ HP E) as [HP' HQ]; split; [by split|].
  all: by intros ? [= <-].
Qed.

Lemma keeps_query {A} (f : DB → A) (Q : A → Prop) :
  (∀ s n d, P s n d → Q (f d)) → keeps (inv G P) (query f) Q.
Proof. intros Hf. apply keeps_exec. intros s n d a d' HP [= <- <-]. eauto. Qed.

Lemma keeps_query_one {A} (f : DB → option A) (Q : A → Prop) :
  (∀ s n d a, P s n d → f d = Some a → Q a) → keeps (inv G P) (query_one f) Q.
Proof.
  intros Hf. apply keeps_exec. intros s n d a d' HP E. case_match; [|done].
  simplify_eq. eauto.
Qed.

Lemma keeps_time_now (Q : Time → Prop) :
  (∀ s n d, P s n d → Q n) → keeps (inv G P) time_now Q.
Proof. intros HQ. apply keeps_gets. intros w [HP _]. eauto. Qed.

Context (P_seed : ∀ s n d, P s n d → P (S s) n d).

Lemma P_seed_le s s' n d : (s <= s')%nat → P s n d → P s' n d.
Proof using P_seed. induction 1; auto. Qed.

Lemma inv_tick w : inv G P w → inv G P (tick_seed (pop_fault w)).
Proof using P_seed. intros [? ?]. split; simpl; auto. Qed.

Lemma keeps_NewV7 `{Runtime} msg (Q : string → Prop) :
  (∀ s n d, P s n d → Q (rt_uuid s)) → keeps (inv G P) (NewV7 msg) Q.
Proof using P_seed.
  intros HQ w Hw. unfold NewV7. destruct (next_fault w); simpl.
  - split; [by apply inv_tick|]. intros ? [= <-]. destruct Hw. eauto.
  - destruct Hw. by split.
  - destruct Hw. by split.
Qed.

Lemma keeps_etag_New `{Runtime} (Q : string → Prop) :
  (∀ s n d, P s n d → Q (rt_uuid s)) → keeps (inv G P) etag_New Q.
Proof using P_seed.
  intros HQ w [HP Henv]. split; [by split; simpl; auto|]. intros ? [= <-]. eauto.
Qed.

Lemma keeps_rand_Read `{Runtime} k (Q : bytes → Prop) :
  (∀ s n d, P s n d → Q (rt_rand s k)) → keeps (inv G P) (rand_Read k) Q.
Proof using P_seed.
  intros HQ w Hw. unfold rand_Read. destruct (next_fault w); simpl.
  - split; [by apply inv_tick|]. intros ? [= <-]. destruct Hw. eauto.
  - destruct Hw. by split.
  - destruct Hw. by split.
Qed.

(** A transaction whose body keeps the invariant keeps it, also when it is
    rolled back. *)
Lemma keeps_atomically {A} (m : M World A) (Q : A → Prop) :
  keeps (inv G P) m Q → (∀ s n, keeps (still s n) m (λ _, True)) →
  keeps (inv G P) (atomically m) Q.
Proof.
  intros Hm Hs w [HP Henv]. unfold atomically.
  destruct (Hm (with_env [] w)) as [[HP' _] HQ]; [by split; simpl|].
  destruct (Hs (w_seed w) _ (with_env [] w) (conj (le_n _) eq_refl)) as [[Hs1 Hs2] _].
  destruct (m (with_env [] w)) as [w' [a|e]]; simpl in *.
  - split; [by split|]. exact HQ.
  - split; [|done]. split; simpl; [rewrite Hs2; by eapply P_seed_le|done].
Qed.

Lemma keeps_InTx {A} (m : M World A) (Q : A → Prop) :
  keeps (inv G P) m Q → (∀ s n, keeps (still s n) m (λ _, True)) →
  keeps (inv G P) (InTx m) Q.
Proof.
  intros Hm Hs w Hw. unfold InTx, gobind, mcatch, gets.
  assert (Hb : keeps (inv G P) begin_tx (λ _, True)) by (apply keeps_exec; intros; simplify_eq; done).
  destruct (Hb w Hw) as [Hw1 _]. destruct (begin_tx w) as [w1 [[]|e]]; simpl in *; [|by split].
  assert (Hm' := keeps_atomically m Q Hm Hs).
  destruct (Hm' w1 Hw1) as [Hw2 HQ]. unfold atomically in *.
  destruct (Hs (w_seed w1) _ (with_env [] w1) (conj (le_n _) eq_refl)) as [[Hs1 Hs2] _].
  destruct (m (with_env [] w1)) as [w2 [a|e]]; simpl in *; [|by split].
  unfold commit_tx. destruct Hw1 as [HP1 Henv1], Hw2 as [HP2 Henv2].
  destruct (next_fault _); simpl; (split; [split; simpl|]); try done.
  rewrite Hs2. by eapply P_seed_le.
Qed.

End Inv.

(** ** The body of a transaction takes no time *)

Lemma still_exec {A} (f : DB → res (A * DB)) s n : keeps (still s n) (exec f) (λ _, True).
Proof.
  intros w [Hs <-]. unfold exec, still. simpl.
  assert (E : w_seed (interfere w) = w_seed w ∧ w_now (interfere w) = w_now w).
  { unfold interfere. by destruct (w_env w). }
  destruct E as [E1 E2]. rewrite <- E1 in Hs.
  destruct (next_fault w); [|by split|]; destruct (f _) as [[]|]; by split.
Qed.
Lemma still_now s n : keeps (still s n) time_now (λ _, True).
Proof. by apply keeps_gets. Qed.
Lemma still_NewV7 `{Runtime} msg s n : keeps (still s n) (NewV7 msg) (λ _, True).
Proof.
  intros w [Hs <-]. unfold NewV7, still in *. destruct (next_fault w); simpl; (split; [|done]); split; (lia || done).
Qed.
Lemma still_etag `{Runtime} s n : keeps (still s n) etag_New (λ _, True).
Proof. intros w [Hs <-]. unfold still. simpl. split; [|done]. split; [lia|done]. Qed.

#[export] Hint Resolve still_exec still_now still_NewV7 still_etag : sso.
#[export] Hint Extern 1 (keeps (still _ _) (query _) _) => apply still_exec : sso.
#[export] Hint Extern 1 (keeps (still _ _) (query_one _) _) => apply still_exec : sso.
#[export] Hint Extern 1 (keeps (still _ _) (sql_insert _ _ _ _ _) _) => apply still_exec : sso.
#[export] Hint Extern 1 (keeps (still _ _) (sql_update _ _ _ _ _) _) => apply still_exec : sso.
#[export] Hint Extern 1 (keeps (still _ _) (sql_delete _ _ _ _) _) => apply still_exec : sso.

(** ** A request that runs alone keeps running alone *)

Definition alone (n : Time) (w : World) : Prop := w_env w = [] ∧ w_now w = n.

Lemma alone_exec {A} (f : DB → res (A * DB)) n : keeps (alone n) (exec f) (λ _, True).
Proof.
  intros w [E <-]. unfold exec, alone, interfere. rewrite E.
  destruct (next_fault w); [|by split|].
  all: destruct (f _) as [[]|]; by split.
Qed.
Lemma alone_NewV7 `{Runtime} msg n : keeps (alone n) (NewV7 msg) (λ _, True).
Proof. intros w [E <-]. unfold NewV7. by destruct (next_fault w). Qed.
Lemma alone_rand `{Runtime} k n : keeps (alone n) (rand_Read k) (λ _, True).
Proof. intros w [E <-]. unfold rand_Read. by destruct (next_fault w). Qed.
Lemma alone_etag `{Runtime} n : keeps (alone n) etag_New (λ _, True).
Proof. intros w [E <-]. by split. Qed.

#[export] Hint Resolve alone_exec alone_NewV7 alone_rand alone_etag : sso.
#[export] Hint Extern 1 (keeps (alone _) (query _) _) => apply alone_exec : sso.
#[export] Hint Extern 1 (keeps (alone _) (query_one _) _) => apply alone_exec : sso.
#[export] Hint Extern 1 (keeps (alone _) (sql_insert _ _ _ _ _) _) => apply alone_exec : sso.
#[export] Hint Extern 1 (keeps (alone _) (sql_update _ _ _ _ _) _) => apply alone_exec : sso.
#[export] Hint Extern 1 (keeps (alone _) (sql_delete _ _ _ _) _) => apply alone_exec : sso.
