(* ===== verification/Rpc.v ===== *)
(** * Rpc: the requests the server serves.

    One constructor per use-case of the service packages; [run] calls it. The
    histories in Change are made of them. *)
From S2P Require Import Prelude Errors Monad Runtime Kernel World.
From S2P Require Import IdentityService AppService RoleService ServiceAccountService AccessService.
From S2P Require Import AuthBase AuthLogin AuthRefresh AuthPassword AuthSessions AuthServiceAccount.
From S2P Require Import AuditService.
Local Open Scope Z_scope.

Inductive Rpc :=
  (* modules/identity/internal/service *)
  | CreateUser (ctx : Ctx) (i : IdentityService.CreateUserInput)
  | GetUser (userID : string)
  | ListUsers (i : IdentityService.ListUsersInput)
  | UpdateUser (ctx : Ctx) (i : IdentityService.UpdateUserInput)
  | DisableUser (ctx : Ctx) (userID : string) (allowMissing : bool)
  | EnableUser (ctx : Ctx) (userID : string) (allowMissing : bool)
  | SoftDeleteUser (ctx : Ctx) (userID : string) (allowMissing : bool)
  | PermanentlyDeleteUser (ctx : Ctx) (userID etag : string)
  (* modules/app/internal/service *)
  | CreateApp (ctx : Ctx) (name slug link : string)
  | GetApp (appID : string)
  | ListApps (i : AppService.ListAppsInput)
  | UpdateApp (ctx : Ctx) (i : AppService.UpdateAppInput)
  | DisableApp (ctx : Ctx) (appID : string) (allowMissing : bool)
  | EnableApp (ctx : Ctx) (appID : string) (allowMissing : bool)
  | EnterMaintenanceMode (ctx : Ctx) (appID : string) (allowMissing : bool)
  | ExitMaintenanceMode (ctx : Ctx) (appID : string) (allowMissing : bool)
  | PermanentlyDeleteApp (ctx : Ctx) (appID etag : string)
  (* modules/role/internal/service *)
  | CreateRole (ctx : Ctx) (appID name description : string) (permissions : list string)
  | GetRole (roleID : string)
  | ListRoles (i : RoleService.ListRolesInput)
  | UpdateRole (ctx : Ctx) (i : RoleService.UpdateRoleInput)
  | DisableRole (ctx : Ctx) (roleID : string) (allowMissing : bool)
  | EnableRole (ctx : Ctx) (roleID : string) (allowMissing : bool)
  | PermanentlyDeleteRole (ctx : Ctx) (roleID etag : string)
  (* modules/serviceaccount/internal/service *)
  | CreateServiceAccount (ctx : Ctx) (name description : string)
  | GetServiceAccount (id : string)
  | ListServiceAccounts (i : ServiceAccountService.ListServiceAccountsInput)
  | RotateCredentials (ctx : Ctx) (id etag : string)
  | UpdateServiceAccount (ctx : Ctx) (i : ServiceAccountService.UpdateServiceAccountInput)
  | DisableServiceAccount (ctx : Ctx) (id : string) (allowMissing : bool)
  | EnableServiceAccount (ctx : Ctx) (id : string) (allowMissing : bool)
  | PermanentlyDeleteServiceAccount (ctx : Ctx) (id etag : string)
  (* modules/access/internal/service *)
  | GrantRoleToUser (ctx : Ctx) (userID roleID actorID : string)
  | BulkGrantRoles (ctx : Ctx) (userID appID : string) (roleIDs : list string) (actorID : string)
  | RemoveRoleFromUser (ctx : Ctx) (userID roleID : string)
  | BulkRemoveRoles (ctx : Ctx) (userID appID : string) (roleIDs : list string)
  | HasRoleInApp (userID roleID : string)
  | CheckPermission (userID appID permission : string)
  | BatchCheckPermission (userID appID : string) (permissions : list string)
  | ListUserRoles (i : AccessService.ListUserRolesInput)
  (* modules/auth/internal/service *)
  | Register (i : RegisterInput)
  | Login (i : LoginInput)
  | Logout (ctx : Ctx) (sessionID : string)
  | Validate (accessToken : string)
  | Refresh (refreshToken : string)
  | ChangePassword (ctx : Ctx) (i : ChangePasswordInput)
  | GenerateRecoveryCodes (fuel : nat) (ctx : Ctx) (userID : string)
  | ResetPasswordWithRecoveryCode (i : ResetInput)
  | ListSessions (userID : string) (pageSize : Z) (pageToken : string)
  | RevokeSession (ctx : Ctx) (callerUserID sessionID : string)
  | RevokeAllSessions (ctx : Ctx) (callerUserID currentSessionID : string) (exceptCurrent : bool)
  | RevokeToken (ctx : Ctx) (callerUserID refreshToken : string)
  | AuthenticateServiceAccount (i : AuthenticateServiceAccountInput)
  (* modules/audit/internal/service *)
  | GetAuditEvent (ctx : Ctx) (id : string)
  | ListAuditEvents (ctx : Ctx) (pageSize : Z) (pageToken : string) (filters : AuditFiltersInput).

Section Rpc.
Context `{Runtime} (cfg : AuthConfig).
Context `{JsonCodec IdentityService.pageToken} `{JsonCodec AppService.pageToken}
  `{JsonCodec RoleService.pageToken} `{JsonCodec ServiceAccountService.pageToken}
  `{JsonCodec AccessService.pageToken} `{JsonCodec AuditService.pageToken}
  `{JsonCodec sessionsPageToken}.

(** The authorizer bootstrap.go installs. *)
#[local] Existing Instance AccessBackedAuthorizer.

(** The reply is dropped: a step is about the state a request leaves. *)
Definition void {A} (m : M World A) : M World unit := m ;;; ret tt.

Definition run (r : Rpc) : M World unit :=
  match r with
  | CreateUser ctx i => void (IdentityService.CreateUser ctx i)
  | GetUser id => void (IdentityService.GetUser id)
  | ListUsers i => void (IdentityService.ListUsers i)
  | UpdateUser ctx i => void (IdentityService.UpdateUser ctx i)
  | DisableUser ctx id b => void (IdentityService.DisableUser ctx id b)
  | EnableUser ctx id b => void (IdentityService.EnableUser ctx id b)
  | SoftDeleteUser ctx id b => void (IdentityService.SoftDeleteUser ctx id b)
  | PermanentlyDeleteUser ctx id e => void (IdentityService.PermanentlyDeleteUser ctx id e)
  | CreateApp ctx n s l => void (AppService.CreateApp ctx n s l)
  | GetApp id => void (AppService.GetApp id)
  | ListApps i => void (AppService.ListApps i)
  | UpdateApp ctx i => void (AppService.UpdateApp ctx i)
  | DisableApp ctx id b => void (AppService.DisableApp ctx id b)
  | EnableApp ctx id b => void (AppService.EnableApp ctx id b)
  | EnterMaintenanceMode ctx id b => void (AppService.EnterMaintenanceMode ctx id b)
  | ExitMaintenanceMode ctx id b => void (AppService.ExitMaintenanceMode ctx id b)
  | PermanentlyDeleteApp ctx id e => void (AppService.PermanentlyDeleteApp ctx id e)
  | CreateRole ctx aid n dsc ps => void (RoleService.CreateRole ctx aid n dsc ps)
  | GetRole id => void (RoleService.GetRole id)
  | ListRoles i => void (RoleService.ListRoles i)
  | UpdateRole ctx i => void (RoleService.UpdateRole ctx i)
  | DisableRole ctx id b => void (RoleService.DisableRole ctx id b)
  | EnableRole ctx id b => void (RoleService.EnableRole ctx id b)
  | PermanentlyDeleteRole ctx id e => void (RoleService.PermanentlyDeleteRole ctx id e)
  | CreateServiceAccount ctx n dsc => void (ServiceAccountService.CreateServiceAccount ctx n dsc)
  | GetServiceAccount id => void (ServiceAccountService.GetServiceAccount id)
  | ListServiceAccounts i => void (ServiceAccountService.ListServiceAccounts i)
  | RotateCredentials ctx id e => void (ServiceAccountService.RotateCredentials ctx id e)
  | UpdateServiceAccount ctx i => void (ServiceAccountService.UpdateServiceAccount ctx i)
  | DisableServiceAccount ctx id b => void (ServiceAccountService.DisableServiceAccount ctx id b)
  | EnableServiceAccount ctx id b => void (ServiceAccountService.EnableServiceAccount ctx id b)
  | PermanentlyDeleteServiceAccount ctx id e =>
      void (ServiceAccountService.PermanentlyDeleteServiceAccount ctx id e)
  | GrantRoleToUser ctx u r a => void (AccessService.GrantRoleToUser ctx u r a)
  | BulkGrantRoles ctx u a rs act => void (AccessService.BulkGrantRoles ctx u a rs act)
  | RemoveRoleFromUser ctx u r => void (AccessService.RemoveRoleFromUser ctx u r)
  | BulkRemoveRoles ctx u a rs => void (AccessService.BulkRemoveRoles ctx u a rs)
  | HasRoleInApp u r => void (AccessService.HasRoleInApp u r)
  | CheckPermission u a p => void (AccessService.CheckPermission u a p)
  | BatchCheckPermission u a ps => void (AccessService.BatchCheckPermission u a ps)
  | ListUserRoles i => void (AccessService.ListUserRoles i)
  | Register i => void (AuthLogin.Register cfg i)
  | Login i => void (AuthLogin.Login cfg i)
  | Logout ctx sid => void (AuthLogin.Logout ctx sid)
  | Validate t => void (AuthLogin.Validate cfg t)
  | Refresh t => void (AuthRefresh.Refresh cfg t)
  | ChangePassword ctx i => void (AuthPassword.ChangePassword cfg ctx i)
  | GenerateRecoveryCodes fuel ctx u => void (AuthPassword.GenerateRecoveryCodes fuel ctx u)
  | ResetPasswordWithRecoveryCode i => void (AuthPassword.ResetPasswordWithRecoveryCode cfg i)
  | ListSessions u n t => void (AuthSessions.ListSessions u n t)
  | RevokeSession ctx u sid => void (AuthSessions.RevokeSession ctx u sid)
  | RevokeAllSessions ctx u cur b => void (AuthSessions.RevokeAllSessions ctx u cur b)
  | RevokeToken ctx u t => void (AuthSessions.RevokeToken ctx u t)
  | AuthenticateServiceAccount i => void (AuthServiceAccount.AuthenticateServiceAccount cfg i)
  | GetAuditEvent ctx id => void (AuditService.GetAuditEvent ctx id)
  | ListAuditEvents ctx n t f => void (AuditService.ListAuditEvents ctx n t f)
  end.

End Rpc.
