(* ===== verification/Outcome.v ===== *)
(** * Outcome: what a successful request went through.

    [m w = (w', Ok a)] is taken apart step by step: each statement of a
    request that succeeded succeeded itself, on the database as the concurrent
    requests had left it. [never_ok m] marks the failure branches. *)
From S2P Require Import Prelude Errors Sql Monad Runtime Kernel AuditDomain World WorldFacts AuditRepo.
From S2P Require Import AuthBase.
Local Open Scope Z_scope.

Definition never_ok {A} (m : M World A) : Prop := ∀ w w' a, m w ≠ (w', Ok a).

Section Never.
Lemma never_throw {A} e : never_ok (throw (A := A) e).
Proof. by intros w w' a [=]. Qed.
Lemma never_gobind {A B} (m : M World A) (k : A → M World B) :
  (∀ a, never_ok (k a)) → never_ok (gobind m k).
Proof. intros Hk w w' b. unfold gobind, mcatch. destruct (m w) as [w1 [a|e]]; [apply Hk|done]. Qed.
Lemma never_mcatch {A B} (m : M World A) h (k : A → M World B) :
  (∀ e, never_ok (h e)) → (∀ a, never_ok (k a)) → never_ok (mcatch m h k).
Proof. intros Hh Hk w w' b. unfold mcatch. destruct (m w) as [w1 [a|e]]; [apply Hk|apply Hh]. Qed.
End Never.

Section Ok.
Context `{Runtime}.

Lemma never_audit_error {A} c aud e : never_ok (audit_error (A := A) c aud e).
Proof. apply never_gobind. intros. apply never_throw. Qed.
Lemma never_audit_error_wrap {A} c aud m e : never_ok (audit_error_wrap (A := A) c aud m e).
Proof. apply never_gobind. intros. apply never_throw. Qed.
Lemma never_fail {A} aud r e : never_ok (fail (A := A) aud r e).
Proof. apply never_gobind. intros. apply never_throw. Qed.
Lemma never_deny {A} aud r e : never_ok (deny (A := A) aud r e).
Proof. apply never_gobind. intros. apply never_throw. Qed.

Lemma gobind_ok {A B} (m : M World A) (k : A → M World B) w w' b :
  gobind m k w = (w', Ok b) → ∃ w1 a, m w = (w1, Ok a) ∧ k a w1 = (w', Ok b).
Proof. unfold gobind, mcatch. destruct (m w) as [w1 [a|e]]; [eauto|done]. Qed.

Lemma mcatch_ok {A B} (m : M World A) h (k : A → M World B) w w' b :
  mcatch m h k w = (w', Ok b) →
  (∃ w1 a, m w = (w1, Ok a) ∧ k a w1 = (w', Ok b)) ∨
  (∃ w1 e, m w = (w1, Err e) ∧ h e w1 = (w', Ok b)).
Proof. unfold mcatch. destruct (m w) as [w1 [a|e]]; eauto. Qed.

Lemma mcatch_ok_never {A B} (m : M World A) h (k : A → M World B) w w' b :
  mcatch m h k w = (w', Ok b) → (∀ e, never_ok (h e)) →
  ∃ w1 a, m w = (w1, Ok a) ∧ k a w1 = (w', Ok b).
Proof. intros [?|(w1 & e & _ & Hh)]%mcatch_ok Hn; [done|]. by apply Hn in Hh. Qed.

Lemma ret_ok {A} (a b : A) (w w' : World) : ret a w = (w', Ok b) → w' = w ∧ b = a.
Proof. by intros [= <- <-]. Qed.

Lemma lift_ok {A} (r : res A) (w w' : World) a : lift r w = (w', Ok a) → r = Ok a ∧ w' = w.
Proof. by intros [= <- ->]. Qed.

Lemma gets_ok {A} (f : World → A) w w' a : gets f w = (w', Ok a) → a = f w ∧ w' = w.
Proof. by intros [= <- <-]. Qed.

Lemma now_ok w w' t : time_now w = (w', Ok t) → t = w_now w ∧ w' = w.
Proof. by intros [= <- <-]. Qed.

Lemma etag_ok w w' t : etag_New w = (w', Ok t) → t = rt_uuid (w_seed w) ∧ w' = tick_seed w.
Proof. by intros [= <- <-]. Qed.

Lemma NewV7_ok msg w w' id :
  NewV7 msg w = (w', Ok id) → id = rt_uuid (w_seed w) ∧ w' = tick_seed (pop_fault w).
Proof. unfold NewV7. case_match; [|done..]. by intros [= <- <-]. Qed.

Lemma rand_ok k w w' b :
  rand_Read k w = (w', Ok b) → b = rt_rand (w_seed w) k ∧ w' = tick_seed (pop_fault w).
Proof. unfold rand_Read. case_match; [|done..]. by intros [= <- <-]. Qed.

(** The world a statement leaves when it changes nothing. *)
Definition after_stmt (w : World) : World := pop_fault (interfere w).

Lemma now_after_stmt w : w_now (after_stmt w) = w_now w.
Proof. unfold after_stmt, interfere. by destruct (w_env w). Qed.
Lemma seed_after_stmt w : w_seed (after_stmt w) = w_seed w.
Proof. unfold after_stmt, interfere. by destruct (w_env w). Qed.

Lemma exec_ok {A} (f : DB → res (A * DB)) w w' a :
  exec f w = (w', Ok a) →
  ∃ d, f (w_db (interfere w)) = Ok (a, d) ∧ w' = with_db d (after_stmt w).
Proof.
  unfold exec, after_stmt. destruct (next_fault w); [|done|].
  all: simpl; destruct (f _) as [[a' d]|e]; [|done]; intros [= <- <-]; eauto.
Qed.

Lemma with_same_db w : with_db (w_db w) w = w.
Proof. by destruct w. Qed.

Lemma query_ok {A} (f : DB → A) w w' a :
  query f w = (w', Ok a) → a = f (w_db (interfere w)) ∧ w' = after_stmt w.
Proof. intros (d & [= <- <-] & ->)%exec_ok. split; [done|]. exact (with_same_db (after_stmt w)). Qed.

Lemma query_one_ok {A} (f : DB → option A) w w' a :
  query_one f w = (w', Ok a) → f (w_db (interfere w)) = Some a ∧ w' = after_stmt w.
Proof.
  intros (d & E & ->)%exec_ok. case_match; [|done]. simplify_eq. split; [done|]. exact (with_same_db (after_stmt w)).
Qed.

Lemma query_one_err {A} (f : DB → option A) w w' e :
  query_one f w = (w', Err e) → w' = after_stmt w ∧
  (e = transport_error ∨ e = ENoRows ∧ f (w_db (interfere w)) = None).
Proof.
  unfold query_one, exec. fold (after_stmt w). change (w_db (after_stmt w)) with (w_db (interfere w)).
  destruct (next_fault w); [|by intros [= <- <-]; auto|]; destruct (f _) eqn:E; intros [= <- <-].
  all: split; [exact (with_same_db (after_stmt w))|auto].
Qed.

Lemma update_ok {R} `{EqDecision R} get set (clash : R → R → bool) p f w w' k :
  sql_update get set clash p f w = (w', Ok k) →
  let d := w_db (interfere w) in
  ∃ t, upd_uniq clash p f (get d) = Some t ∧ k = affected rt_found_rows p f (get d) ∧
       w' = with_db (set t d) (after_stmt w).
Proof. intros (d & E & ->)%exec_ok. case_match; [|done]. simplify_eq. eauto. Qed.

Lemma insert_ok {R} get set (clash : R → R → bool) fk r w w' u :
  sql_insert get set clash fk r w = (w', Ok u) →
  let d := w_db (interfere w) in
  ∃ t, ins clash r (get d) = Some t ∧ fk d = true ∧ w' = with_db (set t d) (after_stmt w).
Proof. intros (d & E & ->)%exec_ok. repeat case_match; [|done..]. simplify_eq. eauto. Qed.

(** *** Without interference *)

Lemma quiet_interfere w : w_env w = [] → interfere w = w.
Proof. intros E. unfold interfere. by rewrite E. Qed.
Lemma quiet_after w : w_env w = [] → after_stmt w = pop_fault w.
Proof. intros E. unfold after_stmt. by rewrite quiet_interfere. Qed.

(** *** Transactions *)

(** Without interference a transaction that reports an error has either left
    the database alone or, when only the commit's answer was lost, applied its
    body in full. *)
Lemma InTx_err {A} (m : M World A) w w' e :
  w_env w = [] → InTx m w = (w', Err e) →
  w_db w' = w_db w ∨
  ∃ w0 w1 a, w_db w0 = w_db w ∧ w_env w0 = [] ∧ m w0 = (w1, Ok a) ∧ w_db w' = w_db w1.
Proof.
  intros Henv. unfold InTx, gobind, gets. unfold mcatch.
  assert (Hb : ∃ r, begin_tx w = (pop_fault w, r)).
  { unfold begin_tx, exec, interfere. rewrite Henv. destruct w. simpl.
    destruct (next_fault _); simpl; eauto. }
  destruct Hb as [r Hb]. rewrite Hb. destruct r as [[]|eb]; [|by intros [= <- <-]; left].
  simpl. unfold atomically. destruct (m _) as [w1 [a|em]] eqn:Em; [|by intros [= <- <-]; left].
  unfold commit_tx. simpl. destruct (next_fault _); simpl; intros [= <- <-]; [by left|].
  right. exists (with_env [] (pop_fault w)), w1, a. by split_and!.
Qed.

(** A transaction that commits ran its body alone, on the database as the
    concurrent requests had left it. *)
Lemma InTx_ok_at {A} (m : M World A) w w' a :
  InTx m w = (w', Ok a) →
  ∃ w0 w1, w_db w0 = w_db (interfere w) ∧ w_env w0 = [] ∧ m w0 = (w1, Ok a) ∧ w_db w' = w_db w1.
Proof.
  unfold InTx, gobind, gets. unfold mcatch.
  assert (Hb : ∃ r, begin_tx w = (after_stmt w, r)).
  { unfold begin_tx, exec, after_stmt. destruct (next_fault w); simpl; eexists; [|done|].
    - apply f_equal2; [exact (with_same_db (pop_fault (interfere w)))|done].
    - apply f_equal2; [exact (with_same_db (pop_fault (interfere w)))|done]. }
  destruct Hb as [r Hb]. rewrite Hb. destruct r as [[]|eb]; [|done].
  simpl. unfold atomically. destruct (m _) as [w1 [a'|em]] eqn:Em; [|done].
  unfold commit_tx. simpl. destruct (next_fault _); simpl; intros [= <- <-].
  exists (with_env [] (after_stmt w)), w1. by split_and!.
Qed.

Lemma InTx_ok {A} (m : M World A) w w' a :
  w_env w = [] → InTx m w = (w', Ok a) →
  ∃ w0 w1, w_db w0 = w_db w ∧ w_env w0 = [] ∧ m w0 = (w1, Ok a) ∧ w_db w' = w_db w1.
Proof. intros Henv E. apply InTx_ok_at in E. unfold interfere in E. by rewrite Henv in E. Qed.

Lemma alone_InTx {A} (m : M World A) n :
  keeps (alone n) m (λ _, True) → keeps (alone n) (InTx m) (λ _, True).
Proof.
  intros Hm w Hw. unfold InTx, gobind, gets. unfold mcatch.
  destruct (alone_exec (λ d, Ok (tt, d)) n w Hw) as [Hb _]. unfold begin_tx.
  destruct (exec _ w) as [w1 [[]|e]]; simpl in *; [|by split]. unfold atomically.
  destruct (Hm (with_env [] w1)) as [[_ Hn] _]; [by destruct Hb|].
  destruct (m _) as [w2 [a|e]]; simpl in *; destruct Hb; [|by split].
  unfold commit_tx. by destruct (next_fault _).
Qed.

(** *** Without failures and interference a statement does what it says *)

Definition calm (w : World) : Prop := w_faults w = [] ∧ w_env w = [].

Lemma calm_interfere w : calm w → interfere w = w.
Proof. intros [_ E]. unfold interfere. by rewrite E. Qed.
Lemma calm_pop w : calm w → pop_fault w = w.
Proof. intros [E _]. destruct w as [d fs env s n a]. simpl in E. by rewrite E. Qed.
Lemma calm_fault w : calm w → next_fault w = NoFault.
Proof. intros [E _]. unfold next_fault. by rewrite E. Qed.
Lemma calm_after w : calm w → after_stmt w = w.
Proof. intros Hc. unfold after_stmt. by rewrite (calm_interfere w Hc), (calm_pop w Hc). Qed.
Lemma calm_with_db d w : calm w → calm (with_db d w).
Proof. done. Qed.
Lemma calm_tick w : calm w → calm (tick_seed w).
Proof. done. Qed.

Lemma exec_calm {A} (f : DB → res (A * DB)) w :
  calm w → exec f w = match f (w_db w) with Err e => (w, Err e) | Ok (a, d) => (with_db d w, Ok a) end.
Proof.
  intros Hc. unfold exec. rewrite (calm_fault w Hc), (calm_interfere w Hc), (calm_pop w Hc).
  by destruct (f (w_db w)) as [[a d]|e].
Qed.

Lemma query_calm {A} (f : DB → A) w : calm w → query f w = (w, Ok (f (w_db w))).
Proof. intros Hc. unfold query. rewrite exec_calm by done. by rewrite with_same_db. Qed.

Lemma query_one_calm {A} (f : DB → option A) w :
  calm w → query_one f w = (w, match f (w_db w) with Some a => Ok a | None => Err ENoRows end).
Proof.
  intros Hc. unfold query_one. rewrite exec_calm by done. destruct (f (w_db w)); [|done].
  by rewrite with_same_db.
Qed.

Lemma insert_calm {R} get set (clash : R → R → bool) fk r w :
  calm w →
  sql_insert get set clash fk r w =
    match ins clash r (get (w_db w)) with
    | None => (w, Err dup_error)
    | Some t => if fk (w_db w) then (with_db (set t (w_db w)) w, Ok tt) else (w, Err (EMySQL 1452))
    end.
Proof.
  intros Hc. unfold sql_insert. rewrite exec_calm by done.
  destruct (ins _ _ _); [|done]. by destruct (fk _).
Qed.

Lemma update_calm {R} `{EqDecision R} get set (clash : R → R → bool) p f w :
  calm w →
  sql_update get set clash p f w =
    match upd_uniq clash p f (get (w_db w)) with
    | None => (w, Err dup_error)
    | Some t => (with_db (set t (w_db w)) w, Ok (affected rt_found_rows p f (get (w_db w))))
    end.
Proof. intros Hc. unfold sql_update. rewrite exec_calm by done. by destruct (upd_uniq _ _ _ _). Qed.

Lemma NewV7_calm msg w : calm w → NewV7 msg w = (tick_seed w, Ok (rt_uuid (w_seed w))).
Proof. intros Hc. unfold NewV7. by rewrite (calm_fault w Hc), (calm_pop w Hc). Qed.

Lemma rand_calm k w : calm w → rand_Read k w = (tick_seed w, Ok (rt_rand (w_seed w) k)).
Proof. intros Hc. unfold rand_Read. by rewrite (calm_fault w Hc), (calm_pop w Hc). Qed.

Lemma InTx_refused {A} (m : M World A) w e :
  calm w → m w = (w, Err e) → InTx m w = (w, Err e).
Proof.
  intros [Hf Henv] Hm. unfold InTx, begin_tx, exec, next_fault, interfere, gobind, mcatch, gets, ret.
  rewrite Hf, Henv. destruct w as [d fs env s n ad]. simpl in *. subst fs env.
  unfold atomically, pop_fault, with_db, with_env. simpl in *. by rewrite Hm.
Qed.

(** Sequencing equations. *)
Lemma gobind_eq {A B} (m : M World A) (k : A → M World B) w w1 a :
  m w = (w1, Ok a) → gobind m k w = k a w1.
Proof. unfold gobind, mcatch. by intros ->. Qed.
Lemma gobind_err {A B} (m : M World A) (k : A → M World B) w w1 e :
  m w = (w1, Err e) → gobind m k w = (w1, Err e).
Proof. unfold gobind, mcatch. by intros ->. Qed.
Lemma mcatch_eq {A B} (m : M World A) h (k : A → M World B) w w1 a :
  m w = (w1, Ok a) → mcatch m h k w = k a w1.
Proof. unfold mcatch. by intros ->. Qed.
Lemma mcatch_err {A B} (m : M World A) h (k : A → M World B) w w1 e :
  m w = (w1, Err e) → mcatch m h k w = h e w1.
Proof. unfold mcatch. by intros ->. Qed.

End Ok.

Ltac never :=
  lazymatch goal with
  | |- ∀ _, _ => intros; never
  | |- never_ok (throw _) => apply never_throw
  | |- never_ok (fail _ _ _) => apply never_fail
  | |- never_ok (deny _ _ _) => apply never_deny
  | |- never_ok (audit_error _ _ _) => apply never_audit_error
  | |- never_ok (audit_error_wrap _ _ _ _) => apply never_audit_error_wrap
  | |- never_ok (gobind _ _) => apply never_gobind; never
  | |- never_ok (mcatch _ _ _) => apply never_mcatch; never
  | |- never_ok (let _ := _ in _) => cbv zeta; never
  | |- never_ok (match ?x with _ => _ end) => destruct x; never
  end.

(** Closes a goal with a failure branch that succeeded in [H]. *)
Ltac never_here H :=
  match type of H with
  | ?m _ = (_, Ok _) => let Hn := fresh in
      assert (Hn : never_ok m) by never; exfalso; exact (Hn _ _ _ H)
  end.

(** One step of the inversion of [H : m w = (w', Ok a)]. *)
Ltac ok_step H :=
  cbv zeta beta in H;
  lazymatch type of H with
  | gobind _ _ _ = (_, Ok _) =>
      let w := fresh "w" in let a := fresh "a" in let Hm := fresh "Hm" in
      apply gobind_ok in H as (w & a & Hm & H); try ok_leaf Hm
  | mcatch _ _ _ _ = (_, Ok _) =>
      let w := fresh "w" in let a := fresh "a" in let Hm := fresh "Hm" in
      apply mcatch_ok_never in H as (w & a & Hm & H); [try ok_leaf Hm|never]
  | (if decide ?P then _ else _) _ = _ =>
      let Hd := fresh "Hd" in destruct (decide P) as [Hd|Hd];
      try never_here H
  | (if ?b then _ else _) _ = _ =>
      let Hb := fresh "Hb" in destruct b eqn:Hb; try never_here H
  | (match ?x with _ => _ end) _ = _ =>
      let Hb := fresh "Hb" in destruct x eqn:Hb; try never_here H
  | ret _ _ = _ => ok_leaf H
  | throw _ _ = _ => discriminate H
  end
with ok_leaf H :=
  lazymatch type of H with
  | lift _ _ = _ => apply lift_ok in H as [H ->]
  | ret _ _ = _ => apply ret_ok in H as [-> ->]
  | gets _ _ = _ => apply gets_ok in H as [-> ->]
  | time_now _ = _ => apply now_ok in H as [-> ->]
  | etag_New _ = _ => apply etag_ok in H as [-> ->]
  | NewV7 _ _ = _ => apply NewV7_ok in H as [-> ->]
  | rand_Read _ _ = _ => apply rand_ok in H as [-> ->]
  end.
