(* ===== verification/Scenario.v ===== *)
(** * Scenario: a small concrete server, at which the witnesses evaluate.

    One active user with a password, one application, one role, one live and
    one revoked session, one recovery batch; the toy runtime draws its
    identifiers as "id", "ida", "idaa", ... *)
From S2P Require Import Prelude Errors Sql Monad Runtime Kernel AuditDomain.
From S2P Require Import Identity App Role ServiceAccount Access Session RecoveryCode World AuthBase.
From S2P Require Import IdentityService AppService RoleService ServiceAccountService AccessService.
From S2P Require Import AuditService AuthSessions.
Local Open Scope Z_scope.

#[export] Existing Instance Toy.runtime_laws.
Definition toy : Runtime := Toy.runtime false.
#[export] Instance toy_laws : @RuntimeLaws toy := Toy.runtime_laws false.

(** Page tokens that the witnesses do not exchange. *)
Definition no_codec (T : Type) : JsonCodec T :=
  {| json_marshal _ := None; json_unmarshal _ := None |}.

Definition second : Z := 1000000000.
Definition toy_cfg : AuthConfig :=
  mkAuthConfig "sso" (900 * second) (604800 * second) (86400 * second) 10.
Definition t0 : Time := unix_epoch + 1000 * second.

Definition user_row : Identity.Row :=
  Identity.mkRow "idu" "a@b.c" "ann" (Some "bc:secret") "Ann" None "en" "UTC" UserStatusActive
    "ide" t0 t0 None 0 None.
Definition app_row : App.Row := App.mkRow "idp" "Shop" "shop" "" AppStatusActive "ide" t0 t0.
Definition role_row : Role.Row := Role.mkRow "idr" "idp" "clerk" None RoleStatusActive "ide" t0 t0.

(** A session of the user, with refresh token [tok], revoked at [rev]. *)
Definition session_row (id tok : string) (rev : option Time) : Session.Row :=
  Session.mkRow id "idu" (Toy.sha256 tok) None None t0 (t0 + 604800 * second) (t0 + 86400 * second) t0 rev.

Definition batch_row : BatchRow := mkBatchRow "idb" "idu" t0 None.
Definition code_row (code : string) (used : option Time) : CodeRow :=
  mkCodeRow "idb" (Toy.sha256 code) used.

Definition toy_db : DB :=
  mkDB [user_row] [app_row] [role_row] [mkPermRow "idr" "orders:*"; mkPermRow "idr" "stock:read"] []
    [] [session_row "idx" "rx" (Some t0); session_row "idy" "ry" None] [batch_row]
    [code_row "AAAABBBBCCCC" None; code_row "DDDDEEEEFFFF" (Some t0)] [].
Definition toy_world : World := mkWorld toy_db [] [] 0 (t0 + 60 * second) None.

(** The context of a request of the user. *)
Definition toy_ctx : Ctx := mkCtx (Some (mkActor "idu" KindUser "idy" "" "")) None None.

(** Names that the toy runtime never draws. *)
Lemma toy_fresh (x : string) c s :
  x = "id" +:+ String c s → c ≠ Ascii.ascii_of_nat 97 →
  ∀ k, @rt_collate toy (@rt_uuid toy k) x = false.
Proof.
  intros -> Hc k. simpl. apply bool_decide_eq_false. unfold Toy.uuid. simpl.
  destruct k as [|k]; simpl; intros E; [done|]. apply Hc. by injection E.
Qed.
