(* ===== verification/Purge.v ===== *)
(** * Purge: the retention command of the audit log.

    cmd/audit-purge/main.go: the parsed flags, the environment, the cutoff with
    Go's wrapping 64-bit durations, and the loop of batched DELETE statements. A DELETE with LIMIT and without
    ORDER BY takes the first matching rows in the order of the table. Parsing
    RFC 3339 instants is an argument; the connection is the one of [World]. *)
From stdpp Require Import list.
From S2P Require Import Prelude Errors Sql Monad Runtime Kernel AuditDomain AuditMapper World Outcome GoStd Scenario.
Local Open Scope Z_scope.

(** int64 arithmetic: time.Duration. *)
Definition int64 (n : Z) : Z := (n + 2 ^ 63) mod 2 ^ 64 - 2 ^ 63.
Definition Hour : Z := 3600 * 1000000000.

Section Cutoff.
Context (time_Parse_RFC3339 : string → option Time).

(** [-time.Duration(retentionDays) * 24 * time.Hour]. *)
Definition retention (retentionDays : Z) : Z := int64 (int64 (int64 (- retentionDays) * 24) * Hour).

Definition resolveAuditCutoff (before : string) (retentionDays : Z) (now : Time) : res Time :=
  if decide (before ≠ "") then
    match time_Parse_RFC3339 before with
    | Some t => Ok t
    | None => Err (EWrap "parse -before" (EMsg "parsing time"))
    end
  else if decide (retentionDays <= 0) then
    Err (EMsg "-retention-days must be > 0 when -before is empty")
  else Ok (now + retention retentionDays).

End Cutoff.

(** [WHERE occurred_at < ?]. *)
Definition older (cutoff : Time) (r : AuditMapper.Row) : bool := bool_decide (r_OccurredAt r < cutoff).

Fixpoint del_limit {R} (p : R → bool) (n : nat) (t : list R) : list R :=
  match t with
  | [] => []
  | r :: t' =>
      if p r then match n with O => t | S n' => del_limit p n' t' end
      else r :: del_limit p n t'
  end.

Definition deleteAuditEvents (cutoff : Time) (limit : Z) : M World Z :=
  exec (λ d,
    let t := db_audit_events d in
    Ok (Z.min limit (count (older cutoff) t),
        set_audit_events (del_limit (older cutoff) (Z.to_nat limit) t) d)).

(** The loop; [None]: out of fuel. *)
Fixpoint purge_loop (fuel : nat) (cutoff : Time) (batchSize round totalDeleted : Z) : M World (option Z) :=
  match fuel with
  | O => ret None
  | S fuel' =>
      n <- deleteAuditEvents cutoff batchSize catch err =>
        throw (EWrap ("delete batch " +:+ FormatInt round) err) ;;
      let totalDeleted := totalDeleted + n in
      if decide (n = 0) then ret (Some totalDeleted)
      else if decide (batchSize > n) then ret (Some totalDeleted)
      else purge_loop fuel' cutoff batchSize (round + 1) totalDeleted
  end.

(** What the command prints at the end: the rows a dry run would delete, or
    the rows it deleted. *)
Definition auditPurge (fuel : nat) (cutoff : Time) (dryRun : bool) (batchSize sleep : Z) : M World (option Z) :=
  if decide (batchSize <= 0) then throw (EMsg "-batch-size must be > 0")
  else if decide (sleep < 0) then throw (EMsg "-sleep must be >= 0")
  else
  _ <- exec (λ d, Ok (tt, d)) catch err => throw (EWrap "ping" err) ;;
  if dryRun then
    n <- query (λ d, count (older cutoff) (db_audit_events d)) catch err => throw (EWrap "count" err) ;;
    ret (Some n)
  else purge_loop fuel cutoff batchSize 1 0.

(** ** The command line (init, main) *)

Record Flags := mkFlags {
  fl_Host : string; fl_Port : string; fl_User : string; fl_Password : string; fl_Name : string; fl_TLS : string;
  fl_Before : string; fl_RetentionDays : Z; fl_DryRun : bool; fl_BatchSize : Z; fl_Sleep : Z }.

Definition envOr (getenv : string → string) (key def : string) : string :=
  let v := getenv key in if decide (v ≠ "") then v else def.

(** [init], for a command line without flags. *)
Definition default_flags (getenv : string → string) : Flags :=
  mkFlags (envOr getenv "DB_HOST" "127.0.0.1") (envOr getenv "DB_PORT" "3306") (envOr getenv "DB_USERNAME" "root")
    (getenv "DB_PASSWORD") (envOr getenv "DB_NAME" "sso") (envOr getenv "DB_TLS" "false")
    "" 365 false 1000 100000000.

Definition buildAppDSN (host port user password dbname tls : string) : string :=
  let addr := JoinHostPort host port in
  user +:+ ":" +:+ password +:+ "@tcp(" +:+ addr +:+ ")/" +:+ dbname +:+ "?parseTime=true&loc=UTC&tls=" +:+ tls.

Example dsn_default :
  let o := default_flags (λ _, "") in
  buildAppDSN (fl_Host o) (fl_Port o) (fl_User o) (fl_Password o) (fl_Name o) (fl_TLS o) =
  "root:@tcp(127.0.0.1:3306)/sso?parseTime=true&loc=UTC&tls=false".
Proof. reflexivity. Qed.

(** [main] against the database the DSN names; an error is what log.Fatalf
    ends the process with. *)
Definition main (parse : string → option Time) (fuel : nat) (o : Flags) : M World (option Z) :=
  now <- time_now ;;
  cutoff <- lift (resolveAuditCutoff parse (fl_Before o) (fl_RetentionDays o) now) catch err =>
    throw (EWrap "audit:purge" err) ;;
  n <- auditPurge fuel cutoff (fl_DryRun o) (fl_BatchSize o) (fl_Sleep o) catch err =>
    throw (EWrap "audit:purge" err) ;;
  ret n.

(** ** Deleting in batches *)

Section Batches.
Context {R : Type} (p : R → bool).

Lemma del_cons r t : del p (r :: t) = if p r then del p t else r :: del p t.
Proof. unfold del. simpl. by destruct (p r). Qed.

Lemma del_limit_del n t : del p (del_limit p n t) = del p t.
Proof.
  revert n. induction t as [|r t IH]; intros n; [done|]. cbn [del_limit].
  rewrite del_cons. destruct (p r) eqn:E; [destruct n|]; rewrite ?del_cons, ?E, ?IH; done.
Qed.

Lemma count_cons r t : count p (r :: t) = (if p r then 1 else 0) + count p t.
Proof. unfold count, sel. simpl. destruct (p r); simpl; lia. Qed.

Lemma del_limit_count n t : count p (del_limit p n t) = count p t - Z.min (Z.of_nat n) (count p t).
Proof.
  revert n. induction t as [|r t IH]; intros n; [unfold count; simpl; lia|]. pose proof (count_nonneg p t).
  cbn [del_limit]. rewrite count_cons. destruct (p r) eqn:E; [destruct n as [|n]|]; rewrite ?count_cons, ?E, ?IH; lia.
Qed.

Lemma del_limit_sublist n t : del_limit p n t `sublist_of` t.
Proof.
  revert n. induction t as [|r t IH]; intros n; [done|]. simpl.
  destruct (p r); [destruct n; [done|by apply sublist_cons]|by apply sublist_skip].
Qed.

Lemma del_id t : count p t = 0 → del p t = t.
Proof.
  induction t as [|r t IH]; [done|]. rewrite count_cons, del_cons. pose proof (count_nonneg p t).
  destruct (p r); [lia|]. intros Hz. rewrite IH; [done|lia].
Qed.

Lemma del_limit_sel (q : R → bool) n t : (∀ r, q r = true → p r = false) → sel q (del_limit p n t) = sel q t.
Proof.
  intros Hq. unfold sel. revert n. induction t as [|r t IH]; intros n; [done|]. cbn [del_limit filter list_filter].
  destruct (p r) eqn:E; [destruct n; [done|]|]; simpl; rewrite IH; [|done].
  destruct (q r) eqn:Eq; [by rewrite Hq in E|done].
Qed.

(** A partial batch left nothing behind. *)
Lemma del_limit_partial n t : count p t <= Z.of_nat n → del_limit p n t = del p t.
Proof.
  intros Hn. rewrite <- (del_limit_del n t). symmetry. apply del_id. rewrite del_limit_count. lia.
Qed.
End Batches.

Definition with_events (t : list AuditMapper.Row) (w : World) : World := with_db (set_audit_events t (w_db w)) w.

Lemma purge_loop_calm fuel cutoff batch round total w :
  calm w → 0 < batch →
  let t := db_audit_events (w_db w) in
  (Z.to_nat (count (older cutoff) t / batch) < fuel)%nat →
  purge_loop fuel cutoff batch round total w =
    (with_events (del (older cutoff) t) w, Ok (Some (total + count (older cutoff) t))).
Proof.
  intros Hc Hb. revert round total w Hc. induction fuel as [|fuel IH]; intros round total w Hc t Hf; [lia|].
  pose proof (count_nonneg (older cutoff) t) as Hn. simpl. unfold mcatch at 1, deleteAuditEvents.
  rewrite exec_calm by done. fold t. set (t' := del_limit (older cutoff) (Z.to_nat batch) t).
  assert (Hpart : count (older cutoff) t < batch → t' = del (older cutoff) t)
    by (intros; apply del_limit_partial; lia).
  assert (Hz : count (older cutoff) t = 0 → t' = t) by (intros; rewrite Hpart by lia; by apply del_id).
  destruct (decide (Z.min batch (count (older cutoff) t) = 0)) as [E|E].
  { unfold ret. rewrite Hpart by lia. repeat f_equal. lia. }
  destruct (decide (batch > Z.min batch (count (older cutoff) t))) as [E'|E'].
  { unfold ret. rewrite Hpart by lia. repeat f_equal. lia. }
  rewrite IH; [|done|].
  - simpl. unfold with_events. simpl. subst t'. rewrite del_limit_del, del_limit_count. do 3 f_equal. lia.
  - simpl. subst t'. rewrite del_limit_count.
    replace (count (older cutoff) t - Z.min (Z.of_nat (Z.to_nat batch)) (count (older cutoff) t))
      with (count (older cutoff) t + (-1) * batch) by lia.
    rewrite Z.div_add by lia.
    assert (1 <= count (older cutoff) t / batch) by (apply Z.div_le_lower_bound; lia). lia.
Qed.

(** A purge terminates and deletes exactly the audit events that occurred
    before the cutoff, in however many batches, and reports how many they
    were; one round per full batch and one more is enough. *)
Theorem purge_complete fuel cutoff batchSize sleep w :
  calm w → 0 < batchSize → 0 <= sleep →
  let t := db_audit_events (w_db w) in
  (Z.to_nat (count (older cutoff) t / batchSize) < fuel)%nat →
  auditPurge fuel cutoff false batchSize sleep w =
    (with_events (del (older cutoff) t) w, Ok (Some (count (older cutoff) t))).
Proof.
  intros Hc Hb Hs t Hf. unfold auditPurge. rewrite !decide_False by lia. unfold mcatch at 1.
  rewrite exec_calm by done. rewrite with_same_db. by rewrite purge_loop_calm.
Qed.

(** What a purge may do to the database, whatever fails. *)
Definition purged (cutoff : Time) (w w' : World) : Prop :=
  w_env w' = [] ∧ ∃ t', w_db w' = set_audit_events t' (w_db w) ∧
    t' `sublist_of` db_audit_events (w_db w) ∧
    del (older cutoff) t' = del (older cutoff) (db_audit_events (w_db w)).

Lemma purged_refl cutoff w : w_env w = [] → purged cutoff w w.
Proof. intros He. split; [done|]. exists (db_audit_events (w_db w)). split_and!; [by destruct (w_db w)|done|done]. Qed.

Lemma purged_trans cutoff w1 w2 w3 : purged cutoff w1 w2 → purged cutoff w2 w3 → purged cutoff w1 w3.
Proof.
  intros (_ & t2 & E2 & Hs2 & Hd2) (He & t3 & E3 & Hs3 & Hd3). split; [done|]. exists t3.
  rewrite E2 in *. simpl in *. split_and!; [done|by trans t2|congruence].
Qed.

Lemma exec_purged {A} cutoff (f : DB → res (A * DB)) w :
  w_env w = [] →
  (∀ d a d', f d = Ok (a, d') → ∃ t', d' = set_audit_events t' d ∧ t' `sublist_of` db_audit_events d ∧
     del (older cutoff) t' = del (older cutoff) (db_audit_events d)) →
  purged cutoff w (exec f w).1.
Proof.
  intros He Hf. unfold exec. rewrite (quiet_interfere w He). simpl.
  assert (Hp : purged cutoff w (pop_fault w)) by (destruct (purged_refl cutoff w He); by split).
  destruct (next_fault w); [|done|]; destruct (f (w_db w)) as [[a d]|e] eqn:E; try done.
  all: split; [done|]; by destruct (Hf _ _ _ E) as (t' & -> & ? & ?); exists t'.
Qed.

Lemma id_purged cutoff (d : DB) : ∃ t', d = set_audit_events t' d ∧ t' `sublist_of` db_audit_events d ∧
  del (older cutoff) t' = del (older cutoff) (db_audit_events d).
Proof. exists (db_audit_events d). split_and!; [by destruct d|done|done]. Qed.

Lemma purge_loop_purged fuel cutoff batch round total w :
  w_env w = [] → purged cutoff w (purge_loop fuel cutoff batch round total w).1.
Proof.
  revert round total w. induction fuel as [|fuel IH]; intros round total w He; [by apply purged_refl|].
  simpl. unfold mcatch.
  pose proof (exec_purged cutoff (λ d, Ok (Z.min batch (count (older cutoff) (db_audit_events d)),
    set_audit_events (del_limit (older cutoff) (Z.to_nat batch) (db_audit_events d)) d)) w He) as Hp.
  unfold deleteAuditEvents. destruct (exec _ w) as [w1 [n|e]]; simpl in Hp.
  all: assert (Hp' : purged cutoff w w1) by
    (apply Hp; intros d a d' [= <- <-]; eexists; split_and!; [done|apply del_limit_sublist|apply del_limit_del]).
  - case_decide; [done|]. case_decide; [done|]. eapply purged_trans; [exact Hp'|]. apply IH, Hp'.
  - done.
Qed.

(** A purge never loses an event it should keep: whatever fails, and
    wherever the loop stops, the events from the cutoff on are still there, in
    order, nothing is added, and no other table is touched; a dry run changes
    nothing at all. *)
Theorem purge_keeps_recent fuel cutoff dryRun batchSize sleep w :
  w_env w = [] →
  let w' := (auditPurge fuel cutoff dryRun batchSize sleep w).1 in
  purged cutoff w w' ∧ (dryRun = true → w_db w' = w_db w).
Proof.
  intros He. unfold auditPurge. case_decide; [by split; [apply purged_refl|]|].
  case_decide; [by split; [apply purged_refl|]|]. unfold mcatch.
  pose proof (exec_purged cutoff (λ d, Ok (tt, d)) w He) as Hping.
  assert (Hdb : w_db (exec (λ d, Ok (tt, d)) w).1 = w_db w).
  { unfold exec. rewrite (quiet_interfere w He). by destruct (next_fault w). }
  destruct (exec _ w) as [w1 [[]|e]]; simpl in *.
  all: assert (Hp : purged cutoff w w1) by (apply Hping; intros d a d' [= _ <-]; apply id_purged).
  2:{ by split. }
  destruct dryRun.
  - unfold query.
    assert (Hq : w_db (exec (λ d, Ok (count (older cutoff) (db_audit_events d), d)) w1).1 = w_db w1 ∧
                 w_env (exec (λ d, Ok (count (older cutoff) (db_audit_events d), d)) w1).1 = []).
    { unfold exec. rewrite (quiet_interfere w1) by apply Hp. by destruct Hp; destruct (next_fault w1). }
    destruct (exec _ w1) as [w2 [n|e]]; simpl in *; destruct Hq as [Hq1 Hq2].
    all: split; [|congruence]; destruct Hp as (_ & t' & ? & ?); split; [done|]; exists t'; by rewrite Hq1.
  - split; [|done]. eapply purged_trans; [exact Hp|]. apply purge_loop_purged, Hp.
Qed.

(** C34. Whatever fails and wherever the loop stops, a purge only takes events from
    before the cutoff, keeps the order of the rest and touches no other table,
    and a dry run changes nothing; where nothing fails it terminates, after one
    round per full batch and one more, takes exactly those events and reports
    how many they were. *)
Theorem purging fuel cutoff dryRun batchSize sleep w :
  w_env w = [] →
  let done := auditPurge fuel cutoff dryRun batchSize sleep w in
  let t := db_audit_events (w_db w) in
  purged cutoff w done.1 ∧
  (dryRun = true → w_db done.1 = w_db w) ∧
  (dryRun = false → calm w → 0 < batchSize → 0 <= sleep →
   (Z.to_nat (count (older cutoff) t / batchSize) < fuel)%nat →
   done = (with_events (del (older cutoff) t) w, Ok (Some (count (older cutoff) t)))).
Proof.
  intros He. destruct (purge_keeps_recent fuel cutoff dryRun batchSize sleep w He) as [Hp Hd].
  split_and!; [exact Hp|exact Hd|]. intros ->. apply purge_complete.
Qed.

(** ** The cutoff *)

Lemma int64_id n : - 2 ^ 63 <= n < 2 ^ 63 → int64 n = n.
Proof. intros Hn. unfold int64. rewrite Z.mod_small; lia. Qed.
Lemma int64_wrap n : - 2 ^ 64 - 2 ^ 63 <= n < - 2 ^ 63 → int64 n = n + 2 ^ 64.
Proof.
  intros Hn. unfold int64. replace (n + 2 ^ 63) with (n + 2 ^ 63 + 2 ^ 64 + (-1) * 2 ^ 64) by lia.
  rewrite Z.mod_add, Z.mod_small; lia.
Qed.

Lemma cutoff_window parse days now :
  (0 < days <= 106751 → resolveAuditCutoff parse "" days now = Ok (now - days * (24 * Hour))) ∧
  (106751 < days <= 213503 →
   ∃ cutoff, resolveAuditCutoff parse "" days now = Ok cutoff ∧ now < cutoff ∧
     ∀ r, r_OccurredAt r <= now → older cutoff r = true).
Proof.
  unfold resolveAuditCutoff, retention. rewrite decide_False by (intros Hne; by apply Hne).
  split; intros Hd; rewrite decide_False by lia.
  - rewrite (int64_id (- days)), (int64_id (- days * 24)), int64_id by (unfold Hour; lia). f_equal. lia.
  - rewrite (int64_id (- days)), (int64_id (- days * 24)), int64_wrap by (unfold Hour; lia).
    eexists. split; [done|]. split; [unfold Hour; lia|]. intros r Hr. apply bool_decide_eq_true.
    unfold Hour in *. lia.
Qed.

Lemma count_le_length {R} (p : R → bool) t : count p t <= Z.of_nat (length t).
Proof. unfold count, sel. pose proof (List.filter_length_le p t). lia. Qed.

(** A command line that deletes by retention. *)
Definition by_retention (o : Flags) : Prop :=
  fl_Before o = "" ∧ fl_DryRun o = false ∧ 0 < fl_BatchSize o ∧ 0 <= fl_Sleep o.

Lemma main_purges parse fuel o w cutoff : calm w → by_retention o →
  (length (db_audit_events (w_db w)) < fuel)%nat →
  resolveAuditCutoff parse "" (fl_RetentionDays o) (w_now w) = Ok cutoff →
  main parse fuel o w = (with_events (del (older cutoff) (db_audit_events (w_db w))) w,
                         Ok (Some (count (older cutoff) (db_audit_events (w_db w))))).
Proof.
  intros Hc (Hb & Hdry & Hbs & Hsl) Hf Hcut. unfold main.
  rewrite (gobind_eq _ _ w w (w_now w) eq_refl), Hb. rewrite (mcatch_eq _ _ _ w w cutoff) by by rewrite Hcut.
  rewrite Hdry. erewrite mcatch_eq; [reflexivity|]. apply purge_complete; [done..|].
  set (t := db_audit_events (w_db w)) in *. pose proof (count_le_length (older cutoff) t). pose proof (count_nonneg (older cutoff) t).
  assert (count (older cutoff) t / fl_BatchSize o <= count (older cutoff) t) by (apply Z.div_le_upper_bound; nia). lia.
Qed.


(** ** Instances *)

Section Witness.
#[local] Existing Instance toy.

Definition event_at (id : string) (t : Time) : AuditMapper.Row :=
  AuditMapper.mkRow id t "auth.login" 1 None None None 1 None None 1 None "{}".
Definition log_world : World :=
  with_events [event_at "e1" 5; event_at "e2" 30; event_at "e3" 7; event_at "e4" 9] toy_world.

Definition shaky_world : World :=
  mkWorld (w_db log_world) [NoFault; NoFault; FailBefore] [] 0 (w_now toy_world) None.

Lemma purging_witness :
  ((auditPurge 2 10 false 2 0 log_world).2 = Ok (Some 3) ∧
   db_audit_events (w_db (auditPurge 2 10 false 2 0 log_world).1) = [event_at "e2" 30]) ∧
  event_at "e2" 30 ∈ db_audit_events (w_db (auditPurge 9 10 false 1 0 shaky_world).1).
Proof.
  split.
  - rewrite (proj2 (proj2 (purging 2 10 false 2 0 log_world eq_refl)) eq_refl ltac:(by split) ltac:(lia)
      ltac:(lia) ltac:(vm_compute; lia)). split; vm_compute; reflexivity.
  - destruct (purging 9 10 false 1 0 shaky_world eq_refl) as [(_ & t' & -> & _ & Hd) _].
    assert (Hin : event_at "e2" 30 ∈ del (older 10) t') by (rewrite Hd; vm_compute; constructor).
    apply elem_of_del in Hin as [Hin _]. exact Hin.
Defined.

(** 200000 days, some 547 years: everything is gone. *)
Definition ages : Flags := mkFlags "127.0.0.1" "3306" "root" "" "sso" "false" "" 200000 false 1000 0.


End Witness.
