(* ===== verification/Seed.v ===== *)
(** * Seed: the command that provisions the administration application.

    cmd/seed/main.go: the sso-admin application, its six roles, the first
    administrator and its assignments, found or created in one transaction.
    The environment ([os.Getenv]) and the parsed flags are arguments. A panic of uuid.NewV7 is an
    error here: the process ends and the transaction rolls back. *)
From stdpp Require Import list.
From S2P Require Import Prelude Errors Sql Monad Runtime Kernel AuditDomain World Outcome GoStd.
From S2P Require Import Identity App Role Access AccessRepo RoleRepo AuthBase Scenario.
Local Open Scope Z_scope.

Definition seedAppName : string := "sso-admin".
Definition seedAppSlug : string := "sso-admin".
Definition seedStatusActive : Z := 1.

Definition seedRoles : list (string * list string) := [
  ("sso.admin.users", ["users:*"]);
  ("sso.admin.apps", ["apps:*"]);
  ("sso.admin.roles", ["roles:*"]);
  ("sso.admin.service_accounts", ["service_accounts:*"]);
  ("sso.admin.audit", ["audit:read"]);
  ("sso.admin.super",
     ["users:*"; "apps:*"; "roles:*"; "service_accounts:*"; "audit:*"; "sessions:*"; "access:*"])].

Record SeedData := mkSeedData {
  sd_email : string; sd_password : string; sd_username : string;
  sd_appLink : string; sd_displayName : string; sd_bcryptCost : Z }.

(** ** strconv.Atoi *)

Fixpoint digits_value (s : string) (acc : Z) : option Z :=
  match s with
  | EmptyString => Some acc
  | String c s' =>
      let d := byte_of c - 48 in
      if decide (0 <= d <= 9) then digits_value s' (10 * acc + d) else None
  end.
Definition Atoi (s : string) : option Z :=
  let '(neg, body) :=
    match s with
    | String c s' => if decide (c = chr 45) then (true, s') else if decide (c = chr 43) then (false, s') else (false, s)
    | EmptyString => (false, s)
    end in
  if decide (body = "") then None
  else
    v ← digits_value body 0;
    let n := if neg : bool then - v else v in
    if decide (- 2 ^ 63 <= n < 2 ^ 63) then Some n else None.

Example atoi_12 : Atoi "12" = Some 12. Proof. reflexivity. Qed.
Example atoi_neg : Atoi "-7" = Some (-7). Proof. reflexivity. Qed.
Example atoi_bad : Atoi "1x" = None. Proof. reflexivity. Qed.

Section Seed.
Context `{Runtime} (getenv : string → string).

Definition envOr (key def : string) : string := if decide (getenv key ≠ "") then getenv key else def.

(** [init], for a command line without flags: where the database is. *)
Record Flags := mkFlags {
  fl_Host : string; fl_Port : string; fl_User : string; fl_Password : string; fl_Name : string; fl_TLS : string }.
Definition default_flags : Flags :=
  mkFlags (envOr "DB_HOST" "127.0.0.1") (envOr "DB_PORT" "3306") (envOr "DB_USERNAME" "root")
    (getenv "DB_PASSWORD") (envOr "DB_NAME" "sso") (envOr "DB_TLS" "false").
Definition buildAppDSN (host port user password dbname tls : string) : string :=
  let addr := JoinHostPort host port in
  user +:+ ":" +:+ password +:+ "@tcp(" +:+ addr +:+ ")/" +:+ dbname +:+ "?parseTime=true&loc=UTC&tls=" +:+ tls.

Definition getSeedDataFromEnv : res SeedData :=
  let email := envOr "SSO_SEED_ADMIN_EMAIL" "" in
  let password := envOr "SSO_SEED_ADMIN_PASSWORD" "" in
  let username := envOr "SSO_SEED_ADMIN_USERNAME" "" in
  if decide (email = "" ∨ password = "" ∨ username = "") then
    Err (EMsg "SSO_SEED_ADMIN_EMAIL, SSO_SEED_ADMIN_PASSWORD, SSO_SEED_ADMIN_USERNAME are required")
  else
  let appLink := envOr "SSO_SEED_ADMIN_APP_LINK" "https://sso-admin.local/" in
  let displayName := envOr "SSO_SEED_ADMIN_DISPLAY_NAME" "Admin" in
  let s := getenv "SSO_SEED_ADMIN_BCRYPT_COST" in
  if decide (s = "") then Ok (mkSeedData email password username appLink displayName 12)
  else match Atoi s with
       | Some c =>
           if decide (c < 4 ∨ c > 31) then Err (EMsg "SSO_SEED_ADMIN_BCRYPT_COST must be integer 4..31")
           else Ok (mkSeedData email password username appLink displayName c)
       | None => Err (EMsg "SSO_SEED_ADMIN_BCRYPT_COST must be integer 4..31")
       end.

(** [if err == nil { return id }; if err != sql.ErrNoRows { .. }; create]. *)
Definition find_or_create (find : DB → option string) (create : M World string) : M World string :=
  id <- query_one find catch err =>
    (match err with ENoRows => create | _ => throw (EWrap "select" err) end) ;;
  ret id.

Definition seedNewIDv7 : M World string := NewV7 "uuid.NewV7".

Definition findApp (d : DB) : option string :=
  App.r_ID <$> sel_one (λ r, rt_collate (App.r_Slug r) seedAppSlug) (db_apps d).
Definition seedFindOrCreateApp (link : string) : M World string :=
  find_or_create findApp
    (id <- seedNewIDv7 ;;
     etag <- etag_New ;;
     now <- time_now ;;
     _ <- sql_insert db_apps set_apps App.clash (λ _, true)
            (App.mkRow id seedAppName seedAppSlug link seedStatusActive etag now now)
       catch err => throw (EWrap "insert" err) ;;
     ret id).

Definition findRole (appID name : string) (d : DB) : option string :=
  Role.r_ID <$> sel_one (λ r, rt_collate (Role.r_AppID r) appID && rt_collate (Role.r_Name r) name) (db_roles d).
Definition insert_permission (roleID perm : string) : M World unit :=
  _ <- sql_insert db_role_permissions set_role_permissions Role.perm_clash (fk_role roleID)
         (mkPermRow roleID perm)
    catch err => throw (EWrap ("insert permission " +:+ perm) err) ;;
  ret tt.
Definition seedFindOrCreateRole (appID name : string) (permissions : list string) : M World string :=
  find_or_create (findRole appID name)
    (id <- seedNewIDv7 ;;
     etag <- etag_New ;;
     now <- time_now ;;
     _ <- sql_insert db_roles set_roles Role.clash (fk_app appID)
            (Role.mkRow id appID name None seedStatusActive etag now now)
       catch err => throw (EWrap "insert role" err) ;;
     mfor permissions (insert_permission id) ;;;
     ret id).

Definition findUser (email : string) (d : DB) : option string :=
  Identity.r_ID <$> sel_one (λ r, rt_collate (Identity.r_Email r) email) (db_users d).
Definition seedFindOrCreateUser (email username displayName : string) (passwordHash : bytes) : M World string :=
  find_or_create (findUser email)
    (id <- seedNewIDv7 ;;
     etag <- etag_New ;;
     now <- time_now ;;
     _ <- sql_insert db_users set_users Identity.clash (λ _, true)
            (Identity.mkRow id email username (Some passwordHash) displayName None "" "" seedStatusActive
               etag now now None 0 None)
       catch err => throw (EWrap "insert user" err) ;;
     ret id).

(** INSERT IGNORE: a duplicate or a dangling reference inserts nothing. *)
Definition insert_ignore (fk : DB → bool) (r : Access.Row) : M World Z :=
  exec (λ d,
    match ins Access.clash r (db_role_assignments d) with
    | Some t => if fk d then Ok (1, set_role_assignments t d) else Ok (0, d)
    | None => Ok (0, d)
    end).
Definition seedEnsureAssignment (userID roleID appID : string) (now : Time) : M World bool :=
  n <- insert_ignore (fk_user_role userID roleID) (Access.mkRow userID roleID appID userID now) catch err =>
    throw (EWrap "insert" err) ;;
  ret (bool_decide (n > 0)).

Fixpoint ensure_roles (appID : string) (roles : list (string * list string)) : M World (list string) :=
  match roles with
  | [] => ret []
  | (name, permissions) :: rest =>
      id <- seedFindOrCreateRole appID name permissions catch err => throw (EWrap ("role " +:+ name) err) ;;
      ids <- ensure_roles appID rest ;;
      ret (id :: ids)
  end.

Definition seed_tx (data : SeedData) (passwordHash : bytes) : M World unit :=
  appID <- seedFindOrCreateApp (sd_appLink data) catch err => throw (EWrap "app" err) ;;
  roleIDs <- ensure_roles appID seedRoles ;;
  userID <- seedFindOrCreateUser (sd_email data) (sd_username data) (sd_displayName data) passwordHash
    catch err => throw (EWrap "user" err) ;;
  now <- time_now ;;
  mfor roleIDs (λ roleID,
    _ <- seedEnsureAssignment userID roleID appID now catch err => throw (EWrap "assignment" err) ;; ret tt).

Definition seedAdmin : M World unit :=
  data <- lift getSeedDataFromEnv ;;
  k <- gets w_seed ;;
  match rt_bcrypt_hash k (sd_password data) (sd_bcryptCost data) with
  | None => throw (EWrap "hash password" (EMsg "bcrypt"))
  | Some passwordHash =>
      _ <- exec (λ d, Ok (tt, d)) catch err => throw (EWrap "ping" err) ;;
      InTx (seed_tx data passwordHash)
  end.

(** [main] against the database the DSN names; an error is what log.Fatalf
    ends the process with. *)
Definition main : M World unit :=
  _ <- seedAdmin catch err => throw (EWrap "seed-admin" err) ;;
  ret tt.

End Seed.

(** ** Seeding only adds rows *)

Section SeedFacts.
Context `{RuntimeLaws} (getenv : string → string).

Definition extends (d d' : DB) : Prop :=
  ∃ a o u s, db_apps d' = db_apps d ++ a ∧ db_roles d' = db_roles d ++ o ∧
    db_users d' = db_users d ++ u ∧ db_role_assignments d' = db_role_assignments d ++ s.
#[export] Instance extends_preorder : PreOrder extends.
Proof.
  split; [intros d; exists [], [], [], []; by rewrite !app_nil_r|].
  intros d1 d2 d3 (a & o & u & s & Ha & Ho & Hu & Hs) (a' & o' & u' & s' & Ha' & Ho' & Hu' & Hs').
  exists (a ++ a'), (o ++ o'), (u ++ u'), (s ++ s').
  rewrite Ha', Ho', Hu', Hs', Ha, Ho, Hu, Hs, !app_assoc. done.
Qed.

Definition grew (w w' : World) : Prop := w_env w' = [] ∧ extends (w_db w) (w_db w').
Lemma grew_trans w1 w2 w3 : grew w1 w2 → grew w2 w3 → grew w1 w3.
Proof using. intros [_ H1] [He H2]. split; [done|]. by etrans. Qed.

Lemma sel_one_app {R} (p : R → bool) t t' :
  sel_one p (t ++ t') = match sel_one p t with Some r => Some r | None => sel_one p t' end.
Proof using. unfold sel_one. induction t as [|r t IH]; [done|]. simpl. by destruct (p r). Qed.

Lemma sel_one_here {R} (p : R → bool) t r : sel_one p t = None → p r = true → sel_one p (t ++ [r]) = Some r.
Proof using. intros Hn Hp. rewrite sel_one_app, Hn. unfold sel_one. simpl. by rewrite Hp. Qed.

(** A lookup that finds its row keeps finding it. *)
Definition stable (find : DB → option string) : Prop :=
  ∀ d d' id, extends d d' → find d = Some id → find d' = Some id.

Lemma stable_app : stable findApp.
Proof using.
  intros d d' id (a & o & u & s & Ha & _) Hf. unfold findApp in *. rewrite Ha, sel_one_app.
  by destruct (sel_one _ (db_apps d)).
Qed.
Lemma stable_role appID name : stable (findRole appID name).
Proof using.
  intros d d' id (a & o & u & s & _ & Ho & _) Hf. unfold findRole in *. rewrite Ho, sel_one_app.
  by destruct (sel_one _ (db_roles d)).
Qed.
Lemma stable_user email : stable (findUser email).
Proof using.
  intros d d' id (a & o & u & s & _ & _ & Hu & _) Hf. unfold findUser in *. rewrite Hu, sel_one_app.
  by destruct (sel_one _ (db_users d)).
Qed.

Lemma query_one_quiet {A} (f : DB → option A) w w' r : w_env w = [] → query_one f w = (w', r) →
  w_db w' = w_db w ∧ w_env w' = [] ∧
  match r with Ok a => f (w_db w) = Some a | Err e => e = transport_error ∨ e = ENoRows ∧ f (w_db w) = None end.
Proof using.
  intros He Eq. destruct r as [a|e].
  - apply query_one_ok in Eq as [Hf ->]. rewrite (quiet_interfere w He) in Hf. by rewrite (quiet_after w He).
  - apply query_one_err in Eq as [-> Hc]. rewrite (quiet_interfere w He) in Hc. by rewrite (quiet_after w He).
Qed.

Lemma find_or_create_ok find create w w' id :
  w_env w = [] →
  (∀ w1 w2 id', w_env w1 = [] → find (w_db w1) = None → create w1 = (w2, Ok id') →
     grew w1 w2 ∧ find (w_db w2) = Some id') →
  find_or_create find create w = (w', Ok id) → grew w w' ∧ find (w_db w') = Some id.
Proof using.
  intros He Hcreate. unfold find_or_create, mcatch.
  destruct (query_one find w) as [w1 [id'|e]] eqn:Eq; destruct (query_one_quiet _ _ _ _ He Eq) as (Hdb & He1 & Hr).
  - intros [= <- <-]. rewrite Hdb. by split; [split; [|rewrite Hdb]|].
  - destruct Hr as [->|[-> Hnone]]; [done|]. intros Ec.
    destruct (Hcreate w1 w' id He1 ltac:(by rewrite Hdb) Ec) as [[He' Hx] Hf]. rewrite Hdb in Hx. done.
Qed.

(** A row was appended to its table. *)
Lemma insert_quiet {R} get set (clash : R → R → bool) fk r w w' u :
  w_env w = [] → sql_insert get set clash fk r w = (w', Ok u) →
  w_env w' = [] ∧ w_db w' = set (get (w_db w) ++ [r]) (w_db w).
Proof using.
  intros He Ei. apply insert_ok in Ei as (t & Ht & _ & ->). rewrite (quiet_interfere w He) in *.
  rewrite (quiet_after w He). split; [done|]. unfold ins in Ht. destruct (existsb _ _); [done|].
  by injection Ht as <-.
Qed.

Lemma findApp_ok link w w' id : w_env w = [] → seedFindOrCreateApp link w = (w', Ok id) →
  grew w w' ∧ findApp (w_db w') = Some id.
Proof.
  intros He. apply find_or_create_ok; [done|]. intros w1 w2 id' He1 Hn Ec. repeat ok_step Ec.
  unfold seedNewIDv7 in Hm. apply NewV7_ok in Hm as [-> ->].
  match goal with Hi : sql_insert _ _ _ _ _ _ = _ |- _ => apply insert_quiet in Hi as [He2 Hdb]; [|done] end. simpl in Hdb. unfold grew, findApp in *. rewrite Hdb. simpl.
  destruct (sel_one _ (db_apps (w_db w1))) eqn:Es; [done|]. split.
  - split; [done|]. eexists [_], [], [], []. simpl. by rewrite !app_nil_r.
  - rewrite sel_one_here; [done|done|]. simpl. apply rt_collate_refl.
Qed.

Lemma findUser_ok email username name hash w w' id : w_env w = [] →
  seedFindOrCreateUser email username name hash w = (w', Ok id) →
  grew w w' ∧ findUser email (w_db w') = Some id.
Proof.
  intros He. apply find_or_create_ok; [done|]. intros w1 w2 id' He1 Hn Ec. repeat ok_step Ec.
  unfold seedNewIDv7 in Hm. apply NewV7_ok in Hm as [-> ->].
  match goal with Hi : sql_insert _ _ _ _ _ _ = _ |- _ => apply insert_quiet in Hi as [He2 Hdb]; [|done] end. simpl in Hdb. unfold grew, findUser in *. rewrite Hdb. simpl.
  destruct (sel_one _ (db_users (w_db w1))) eqn:Es; [done|]. split.
  - split; [done|]. eexists [], [], [_], []. simpl. by rewrite !app_nil_r.
  - rewrite sel_one_here; [done|done|]. simpl. apply rt_collate_refl.
Qed.

Lemma permissions_ok roleID perms w w' u : w_env w = [] → mfor perms (insert_permission roleID) w = (w', Ok u) →
  w_env w' = [] ∧ ∃ t, w_db w' = set_role_permissions t (w_db w).
Proof using.
  revert w. induction perms as [|perm perms IH]; intros w He Em; simpl in Em; ok_step Em.
  - split; [done|]. exists (db_role_permissions (w_db w)). by destruct (w_db w).
  - unfold insert_permission in Hm. repeat ok_step Hm.
    apply insert_quiet in Hm0 as [He0 Hdb]; [|done]. apply IH in Em as (He' & t & ->); [|done].
    split; [done|]. exists t. by rewrite Hdb.
Qed.

Lemma findRole_ok appID name perms w w' id : w_env w = [] →
  seedFindOrCreateRole appID name perms w = (w', Ok id) →
  grew w w' ∧ findRole appID name (w_db w') = Some id.
Proof.
  intros He. apply find_or_create_ok; [done|]. intros w1 w2 id' He1 Hn Ec. repeat ok_step Ec.
  unfold seedNewIDv7 in Hm. apply NewV7_ok in Hm as [-> ->].
  match goal with Hi : sql_insert _ _ _ _ _ _ = _ |- _ => apply insert_quiet in Hi as [He2 Hdb]; [|done] end. 
  match goal with Hp : mfor _ _ _ = _ |- _ => apply permissions_ok in Hp as (He3 & t & Hdb3); [|done] end.
  rewrite Hdb3, Hdb in *. simpl in *. unfold grew, findRole in *. rewrite Hdb3. simpl.
  destruct (sel_one _ (db_roles (w_db w1))) eqn:Es; [done|]. split.
  - split; [done|]. eexists [], [_], [], []. simpl. by rewrite !app_nil_r.
  - rewrite sel_one_here; [done|done|]. simpl. by rewrite !rt_collate_refl.
Qed.

Lemma ensure_roles_ok appID roles w w' ids : w_env w = [] →
  ensure_roles appID roles w = (w', Ok ids) →
  grew w w' ∧ Forall2 (λ role id, findRole appID role.1 (w_db w') = Some id) roles ids.
Proof.
  revert w ids. induction roles as [|[name perms] roles IH]; intros w ids He Er; simpl in Er.
  - ok_step Er. by split.
  - repeat ok_step Er. apply findRole_ok in Hm as [Hg Hf]; [|done].
    apply IH in Hm0 as [Hg' Hall]; [|apply Hg]. split; [by eapply grew_trans|].
    constructor; [|done]. eapply stable_role; [apply Hg'|done].
Qed.

Definition assigned (userID roleID : string) (d : DB) : bool :=
  existsb (Access.clash (Access.mkRow userID roleID "" "" 0)) (db_role_assignments d).

Lemma assigned_extends u o d d' : extends d d' → assigned u o d = true → assigned u o d' = true.
Proof using.
  intros (a & ro & us & s & _ & _ & _ & Hs) Ha. unfold assigned in *. by rewrite Hs, existsb_app, Ha.
Qed.
Lemma fk_extends u o d d' : extends d d' → fk_user_role u o d = true → fk_user_role u o d' = true.
Proof using.
  intros (a & ro & us & s & _ & Ho & Hu & _) Hf. unfold fk_user_role in *.
  apply andb_true_iff in Hf as [H1 H2]. by rewrite Ho, Hu, !existsb_app, H1, H2.
Qed.

Lemma found_fk appID name email u o d :
  findUser email d = Some u → findRole appID name d = Some o → fk_user_role u o d = true.
Proof.
  unfold findUser, findRole, fk_user_role.
  destruct (sel_one _ (db_users d)) as [ru|] eqn:Eu; [|done]. intros [= <-].
  destruct (sel_one _ (db_roles d)) as [ro|] eqn:Eo; [|done]. intros [= <-].
  apply sel_one_Some in Eu as [Hu _]. apply sel_one_Some in Eo as [Ho _].
  apply andb_true_iff. split; apply existsb_exists; eexists; (split; [by apply list_elem_of_In|apply rt_collate_refl]).
Qed.

Lemma assignment_ok u o appID now w w' b : w_env w = [] → fk_user_role u o (w_db w) = true →
  seedEnsureAssignment u o appID now w = (w', Ok b) → grew w w' ∧ assigned u o (w_db w') = true.
Proof.
  intros He Hfk Ea. unfold seedEnsureAssignment in Ea. repeat ok_step Ea.
  unfold insert_ignore in Hm. apply exec_ok in Hm as (d & Ed & ->).
  rewrite (quiet_interfere w He) in Ed. rewrite (quiet_after w He). rewrite Hfk in Ed. unfold grew, assigned, ins in *.
  destruct (existsb _ _) eqn:Ex; injection Ed as <- <-; simpl.
  - split; [by split|]. exact Ex.
  - split.
    + split; [done|]. eexists [], [], [], [_]. simpl. by rewrite !app_nil_r.
    + rewrite existsb_app. simpl. unfold Access.clash. simpl. rewrite !rt_collate_refl. by rewrite orb_true_r.
Qed.

Lemma assignments_ok u appID now ids w w' r : w_env w = [] →
  Forall (λ o, fk_user_role u o (w_db w) = true) ids →
  mfor ids (λ roleID,
    _ <- seedEnsureAssignment u roleID appID now catch err => throw (EWrap "assignment" err) ;; ret tt) w
    = (w', Ok r) →
  grew w w' ∧ Forall (λ o, assigned u o (w_db w') = true) ids.
Proof.
  revert w. induction ids as [|o ids IH]; intros w He Hfk Em; simpl in Em.
  - ok_step Em. by split.
  - apply Forall_cons in Hfk as [Ho Hfk]. ok_step Em. repeat ok_step Hm.
    apply assignment_ok in Hm0 as [Hg Ha]; [|done..].
    apply IH in Em as [Hg' Hall]; [|apply Hg|].
    + split; [by eapply grew_trans|]. constructor; [|done]. eapply assigned_extends; [apply Hg'|done].
    + eapply Forall_impl; [exact Hfk|]. intros o' Ho'. eapply fk_extends; [apply Hg|done].
Qed.

(** The administrator is provisioned: the application, its six roles, the user,
    and every role assigned to the user. *)
Definition seeded (email : string) (d : DB) : Prop :=
  ∃ appID userID, findApp d = Some appID ∧ findUser email d = Some userID ∧
    Forall (λ role : string * list string,
      ∃ id, findRole appID role.1 d = Some id ∧ assigned userID id d = true) seedRoles.

Lemma seed_tx_ok data hash w w' u : w_env w = [] → seed_tx data hash w = (w', Ok u) →
  seeded (sd_email data) (w_db w').
Proof.
  intros He E. unfold seed_tx in E.
  apply mcatch_ok_never in E as (w1 & appID & Ea & E); [|never]. apply findApp_ok in Ea as [Hg1 Hf1]; [|done].
  ok_step E. apply ensure_roles_ok in Hm as [Hg2 Hroles]; [|apply Hg1].
  apply mcatch_ok_never in E as (w3 & userID & Eu & E); [|never]. apply findUser_ok in Eu as [Hg3 Hf3]; [|apply Hg2].
  ok_step E. apply assignments_ok in E as [Hg4 Hall]; [|apply Hg3|].
  - exists appID, userID. split; [|split].
    + eapply stable_app; [|exact Hf1]. etrans; [apply Hg2|]. etrans; [apply Hg3|apply Hg4].
    + eapply stable_user; [apply Hg4|exact Hf3].
    + apply Forall_lookup. intros i role Hi. destruct (Forall2_lookup_l _ _ _ _ _ Hroles Hi) as (id & Hid & Hf).
      exists id. split; [|exact (Forall_lookup_1 _ _ _ _ Hall Hid)].
      eapply stable_role; [|exact Hf]. etrans; [apply Hg3|apply Hg4].
  - apply Forall_lookup. intros i id Hid. destruct (Forall2_lookup_r _ _ _ _ _ Hroles Hid) as (role & _ & Hf).
    eapply found_fk; [exact Hf3|]. eapply stable_role; [apply Hg3|exact Hf].
Qed.

(** ** A second run finds everything *)

Lemma find_or_create_calm find create w id :
  calm w → find (w_db w) = Some id → find_or_create find create w = (w, Ok id).
Proof using. intros Hc Hf. unfold find_or_create, mcatch. by rewrite query_one_calm, Hf. Qed.

Lemma ensure_roles_calm appID roles u w : calm w →
  Forall (λ role : string * list string,
    ∃ id, findRole appID role.1 (w_db w) = Some id ∧ assigned u id (w_db w) = true) roles →
  ∃ ids, ensure_roles appID roles w = (w, Ok ids) ∧ Forall (λ o, assigned u o (w_db w) = true) ids.
Proof using.
  intros Hc. induction roles as [|[name perms] roles IH]; intros Hall; [by exists []|].
  apply Forall_cons in Hall as [(id & Hf & Ha) Hall]. destruct (IH Hall) as (ids & Hids & Has).
  exists (id :: ids). split; [|by constructor]. simpl.
  rewrite (mcatch_eq _ _ _ w w id) by by apply find_or_create_calm. by rewrite (gobind_eq _ _ w w ids).
Qed.

Lemma assignments_calm u appID now ids w : calm w → Forall (λ o, assigned u o (w_db w) = true) ids →
  mfor ids (λ roleID,
    _ <- seedEnsureAssignment u roleID appID now catch err => throw (EWrap "assignment" err) ;; ret tt) w
    = (w, Ok tt).
Proof using.
  intros Hc. induction 1 as [|o ids Ho _ IH]; [done|]. simpl. rewrite (gobind_eq _ _ w w tt); [done|].
  rewrite (mcatch_eq _ _ _ w w false); [done|]. unfold seedEnsureAssignment.
  rewrite (mcatch_eq _ _ _ w w 0); [done|]. unfold insert_ignore. rewrite exec_calm by done.
  unfold ins. change (existsb _ _) with (assigned u o (w_db w)). rewrite Ho. by rewrite with_same_db.
Qed.

Lemma InTx_calm {A} (m : M World A) w a : calm w → m w = (w, Ok a) → InTx m w = (w, Ok a).
Proof using.
  intros [Hf Henv] Hm. unfold InTx, begin_tx, exec, next_fault, interfere, gobind, mcatch, gets, ret.
  rewrite Hf, Henv. destruct w as [d fs env s n ad]. simpl in *. subst fs env.
  unfold atomically, pop_fault, with_db, with_env, commit_tx. simpl in *. by rewrite Hm.
Qed.

(** C35. Seeding provisions the administrator and is idempotent: a run that
    succeeds leaves the application, its six roles, the user with the given
    e-mail and an assignment of each role to that user; from then on a run
    succeeds and changes nothing. *)
Theorem seed_idempotent data w w1 : w_env w = [] →
  getSeedDataFromEnv getenv = Ok data → seedAdmin getenv w = (w1, Ok tt) →
  seeded (sd_email data) (w_db w1) ∧
  ∀ w2, calm w2 → w_db w2 = w_db w1 →
    is_Some (rt_bcrypt_hash (w_seed w2) (sd_password data) (sd_bcryptCost data)) →
    seedAdmin getenv w2 = (w2, Ok tt).
Proof.
  intros He Hdata E.
  assert (Hs : seeded (sd_email data) (w_db w1)).
  { unfold seedAdmin in E. ok_step E. rewrite Hdata in Hm. injection Hm as <-. repeat ok_step E.
    apply exec_ok in Hm as (d & [= _ <-] & ->). rewrite (quiet_after w He) in E. apply InTx_ok in E; [|done].
    destruct E as (w0 & w1' & _ & He0 & Em & ->). by eapply seed_tx_ok. }
  split; [done|]. intros w2 Hc Hdb [hash Hh]. destruct Hs as (appID & userID & Ha & Hu & Hroles).
  rewrite <- Hdb in *. unfold seedAdmin. rewrite (gobind_eq _ _ w2 w2 data) by by rewrite Hdata.
  rewrite (gobind_eq _ _ w2 w2 (w_seed w2)) by done. rewrite Hh.
  rewrite (mcatch_eq _ _ _ w2 w2 tt) by (rewrite exec_calm by done; by rewrite with_same_db).
  apply InTx_calm; [done|]. unfold seed_tx.
  rewrite (mcatch_eq _ _ _ w2 w2 appID) by by apply find_or_create_calm.
  destruct (ensure_roles_calm appID seedRoles userID w2 Hc Hroles) as (ids & Hids & Has).
  rewrite (gobind_eq _ _ w2 w2 ids) by done.
  rewrite (mcatch_eq _ _ _ w2 w2 userID) by by apply find_or_create_calm.
  rewrite (gobind_eq _ _ w2 w2 (w_now w2)) by done. by apply assignments_calm.
Qed.

End SeedFacts.

(** ** Instances *)

Section Witness.
#[local] Existing Instance toy.

Definition seed_env (key : string) : string :=
  if decide (key = "SSO_SEED_ADMIN_EMAIL") then "root@b.c"
  else if decide (key = "SSO_SEED_ADMIN_PASSWORD") then "changeme"
  else if decide (key = "SSO_SEED_ADMIN_USERNAME") then "root" else "".

Lemma seed_idempotent_witness :
  (seedAdmin seed_env (seedAdmin seed_env toy_world).1).2 = Ok tt.
Proof.
  destruct (seedAdmin seed_env toy_world) as [w1 r] eqn:E.
  assert (Hr : (seedAdmin seed_env toy_world).2 = Ok tt ∧ calm (seedAdmin seed_env toy_world).1).
  { split; [vm_compute; reflexivity|split; vm_compute; reflexivity]. }
  rewrite E in Hr. destruct Hr as [Hr Hc]. simpl in Hr, Hc. subst r.
  destruct (seed_idempotent seed_env (mkSeedData "root@b.c" "changeme" "root" "https://sso-admin.local/" "Admin" 12)
    toy_world w1 ltac:(reflexivity) ltac:(vm_compute; reflexivity) E) as [_ Hagain].
  cbn [fst]. rewrite (Hagain w1 Hc eq_refl ltac:(eexists; vm_compute; reflexivity)). reflexivity.
Defined.

End Witness.
