(* ===== verification/Change.v ===== *)
(** * Change: the abstract transitions of the database.

    [change] lists the ways a statement of the service may change the tables
    that matter to authentication and audit, and bounds what it may do to the
    others. [run_keeps] is the refinement theorem of the development: whatever
    request is served, whatever fails and whatever runs concurrently, the
    database only ever moves along [change]; [seed_keeps] and [purge_keeps] say
    the same of the commands that operators run beside the server. The
    invariants of SessionSafety, CodeSafety and AuditSafety are proved by cases
    on [change]. A history is a sequence of steps: a request is served, cmd/seed
    or cmd/audit-purge runs, each under some schedule of failures and some
    interference within [rely], or the clock advances; [history_keeps] carries
    an invariant of [change] along a history. *)
From S2P Require Import Prelude Errors Sql Monad Runtime Listing Kernel AuditDomain.
From S2P Require Import AuditMapper Identity Session RecoveryCode App Role ServiceAccount Access.
From S2P Require Import World WorldFacts AuditRepo IdentityRepo SessionRepo RecoveryCodeRepo AppRepo.
From S2P Require Import RoleRepo ServiceAccountRepo AccessRepo.
From S2P Require Import IdentityService AppService RoleService ServiceAccountService AccessService.
From S2P Require Import AuthBase AuthLogin AuthRefresh AuthPassword AuthSessions AuthServiceAccount.
From S2P Require Import AuditService Rpc Purge Seed.
Local Open Scope Z_scope.

(** No audit event is kept from the purges; all of them are. *)
Definition unkept (r : AuditMapper.Row) : bool := false.
Definition all_kept (r : AuditMapper.Row) : bool := true.

Section Change.
Context `{Runtime} (cfg : AuthConfig).

(** What is known of the session rows ever stored, of the identifiers drawn
    from now on, and of the instants at which requests are served; the audit
    events no purge may delete. *)
Context (KS : Session.Row → Prop) (F : string → Prop) (N : Time → Prop) (KE : AuditMapper.Row → bool).

(** The row of a session minted at [now]. *)
Definition minted (id user : string) (hash : bytes) (ua ip : string) (now : Time) : Session :=
  NewSession (mkNewSessionParams id user hash ua ip now (now + cfg_refreshTTL cfg)
                (sliding_deadline cfg now (now + cfg_refreshTTL cfg))).

Inductive change (d : DB) : DB → Prop :=
  | ch_users t : (uniq Identity.clash (db_users d) = true → uniq Identity.clash t = true) →
      change d (set_users t d)
  | ch_apps t : (uniq App.clash (db_apps d) = true → uniq App.clash t = true) →
      change d (set_apps t d)
  | ch_roles t : (uniq Role.clash (db_roles d) = true → uniq Role.clash t = true) →
      change d (set_roles t d)
  | ch_role_permissions t :
      (uniq Role.perm_clash (db_role_permissions d) = true → uniq Role.perm_clash t = true) →
      change d (set_role_permissions t d)
  | ch_role_assignments t :
      (uniq Access.clash (db_role_assignments d) = true → uniq Access.clash t = true) →
      change d (set_role_assignments t d)
  | ch_service_accounts t :
      (uniq ServiceAccount.clash (db_service_accounts d) = true → uniq ServiceAccount.clash t = true) →
      change d (set_service_accounts t d)
  (* the cascades of DELETE FROM users *)
  | ch_drop_sessions p : change d (set_sessions (del p (db_sessions d)) d)
  | ch_drop_batches p : change d (set_batches (del p (db_batches d)) d)
  | ch_drop_codes p : change d (set_codes (del p (db_codes d)) d)
  (* sessions *)
  | ch_session_create id user hash ua ip now t : F id → N now →
      ins Session.clash (Session.toCreateParams (minted id user hash ua ip now)) (db_sessions d) = Some t →
      change d (set_sessions t d)
  | ch_session_revoke r0 now t : KS r0 → N now →
      upd_uniq Session.clash (SessionRepo.where_id (Session.r_ID r0))
        (Session.toUpdateParams (Session.Revoke now (Session.dbgenToDomain r0))) (db_sessions d) = Some t →
      change d (set_sessions t d)
  | ch_session_rotate r0 hash now sess t : KS r0 → N now →
      RotateRefresh hash now (sliding_deadline cfg now (Session.r_ExpiresAt r0))
        (Session.dbgenToDomain r0) = Ok sess →
      upd_uniq Session.clash (where_id_hash (Session.r_ID r0) (Session.r_RefreshTokenHash r0))
        (toRotateParams sess) (db_sessions d) = Some t →
      change d (set_sessions t d)
  | ch_sessions_revoke_all user now t : N now →
      upd_uniq Session.clash (SessionRepo.where_user_active user) (toRevokeParams now)
        (db_sessions d) = Some t →
      change d (set_sessions t d)
  (* recovery codes *)
  | ch_batch_create id user now t : F id → N now →
      ins batch_clash (mkBatchRow id user now None) (db_batches d) = Some t →
      change d (set_batches t d)
  | ch_code_create id hash t : F id →
      ins code_clash (mkCodeRow id hash None) (db_codes d) = Some t →
      change d (set_codes t d)
  | ch_batches_revoke user now t : N now →
      upd_uniq batch_clash (RecoveryCodeRepo.where_user_active user) (set_revoked now)
        (db_batches d) = Some t →
      change d (set_batches t d)
  | ch_code_consume batch hash now t : N now →
      upd_uniq code_clash (where_unused batch hash) (set_used now) (db_codes d) = Some t →
      change d (set_codes t d)
  (* the audit log *)
  | ch_audit id now p ev row t : F id → N now → NewAudit (Ok id) now p = Ok ev →
      AuditMapper.toCreateParams (Sanitize ev) = Ok row →
      ins AuditMapper.clash row (db_audit_events d) = Some t →
      change d (set_audit_events t d)
  | ch_purge t : t `sublist_of` db_audit_events d → sel KE t = sel KE (db_audit_events d) →
      change d (set_audit_events t d).

(** [P] is an invariant of the transitions, and gives what they assume. *)
Record Closed (P : db_pred) : Prop := {
  cl_seed : ∀ s n d, P s n d → P (S s) n d;
  cl_fresh : ∀ s n d, P s n d → F (rt_uuid s);
  cl_now : ∀ s n d, P s n d → N n;
  cl_read : ∀ s n d r, P s n d → r ∈ db_sessions d → KS r;
  cl_change : ∀ s n d d', P s n d → change d d' → P s n d' }.

(** What the requests served at the same time may do between two statements. *)
Definition rely (f : DB → DB) : Prop := ∀ d, rtc change d (f d).

Lemma closed_rtc P s n d d' : Closed P → rtc change d d' → P s n d → P s n d'.
Proof.
  intros HP. induction 1 as [|d1 d2 d3 Hc _ IH]; [done|]. intros HPd.
  apply IH. by eapply (cl_change _ HP).
Qed.

(** ** The statements of the repositories *)

Section Keeps.
Context {laws : RuntimeLaws} (P : db_pred) (HP : Closed P).

#[local] Instance closed_respected : Respected rely P.
Proof using HP. intros f Hf s n d HPd. eapply closed_rtc; [exact HP|apply Hf|exact HPd]. Qed.

Lemma keeps_insert {R} get set (clash : R → R → bool) fk r (Q : unit → Prop) :
  (∀ d t, ins clash r (get d) = Some t → change d (set t d)) → Q tt →
  keeps (inv rely P) (sql_insert get set clash fk r) Q.
Proof using HP.
  intros Hc HQ. apply (keeps_exec rely P). intros s n d [] d' HPd. simpl.
  repeat case_match; intros; simplify_eq. split; [|done]. eapply (cl_change _ HP); eauto.
Qed.

Lemma keeps_update {R} `{EqDecision R} get set (clash : R → R → bool) p f :
  (∀ d t, upd_uniq clash p f (get d) = Some t → change d (set t d)) →
  keeps (inv rely P) (sql_update get set clash p f) (λ _, True).
Proof using HP.
  intros Hc. apply (keeps_exec rely P). intros s n d k d' HPd. simpl.
  case_match; intros; simplify_eq. split; [|done]. eapply (cl_change _ HP); eauto.
Qed.

Lemma keeps_delete {R} get set p cascade :
  (∀ s n d gone, P s n d → P s n (cascade gone (set (del p (get d)) d))) →
  keeps (inv rely P) (sql_delete (R := R) get set p cascade) (λ _, True).
Proof using HP.
  intros Hc. apply (keeps_exec rely P). intros s n d k d' HPd. simpl. intros; simplify_eq. split; [|done].
  apply Hc, HPd.
Qed.

(** Tables that [change] leaves free, up to their unique keys. *)
Lemma keeps_users_update p f : keeps (inv rely P) (update_users p f) (λ _, True).
Proof using HP. apply keeps_update. intros d t E. apply ch_users. intros _. by eapply upd_uniq_uniq. Qed.
Lemma keeps_apps_update p f : keeps (inv rely P) (update_apps p f) (λ _, True).
Proof using HP. apply keeps_update. intros d t E. apply ch_apps. intros _. by eapply upd_uniq_uniq. Qed.
Lemma keeps_roles_update p f : keeps (inv rely P) (update_roles p f) (λ _, True).
Proof using HP. apply keeps_update. intros d t E. apply ch_roles. intros _. by eapply upd_uniq_uniq. Qed.
Lemma keeps_sas_update p f : keeps (inv rely P) (update_service_accounts p f) (λ _, True).
Proof using HP.
  apply keeps_update. intros d t E. apply ch_service_accounts. intros _. by eapply upd_uniq_uniq.
Qed.

Ltac clash_sym := repeat first [apply rt_collate_sym | apply (f_equal2 orb) | apply (f_equal2 andb)].

Lemma users_sym r r' : Identity.clash r r' = Identity.clash r' r.
Proof using laws. unfold Identity.clash. clash_sym. Qed.
Lemma apps_sym r r' : App.clash r r' = App.clash r' r.
Proof using laws. unfold App.clash. clash_sym. Qed.
Lemma roles_sym r r' : Role.clash r r' = Role.clash r' r.
Proof using laws. unfold Role.clash. clash_sym. Qed.
Lemma perms_sym r r' : Role.perm_clash r r' = Role.perm_clash r' r.
Proof using laws. unfold Role.perm_clash. clash_sym. Qed.
Lemma assignments_sym r r' : Access.clash r r' = Access.clash r' r.
Proof using laws. unfold Access.clash. clash_sym. Qed.
Lemma sas_sym r r' : ServiceAccount.clash r r' = ServiceAccount.clash r' r.
Proof using laws. unfold ServiceAccount.clash. clash_sym. Qed.

Lemma keeps_users_insert fk r : keeps (inv rely P) (sql_insert db_users set_users Identity.clash fk r) (λ _, True).
Proof using HP laws. apply keeps_insert; [|done]. intros d t E. apply ch_users. intros Hu. by eapply ins_uniq; [apply users_sym|apply Hu|exact E]. Qed.
Lemma keeps_apps_insert fk r : keeps (inv rely P) (sql_insert db_apps set_apps App.clash fk r) (λ _, True).
Proof using HP laws. apply keeps_insert; [|done]. intros d t E. apply ch_apps. intros Hu. by eapply ins_uniq; [apply apps_sym|apply Hu|exact E]. Qed.
Lemma keeps_roles_insert fk r : keeps (inv rely P) (sql_insert db_roles set_roles Role.clash fk r) (λ _, True).
Proof using HP laws. apply keeps_insert; [|done]. intros d t E. apply ch_roles. intros Hu. by eapply ins_uniq; [apply roles_sym|apply Hu|exact E]. Qed.
Lemma keeps_perms_insert fk r :
  keeps (inv rely P) (sql_insert db_role_permissions set_role_permissions Role.perm_clash fk r) (λ _, True).
Proof using HP laws.
  apply keeps_insert; [|done]. intros d t E. apply ch_role_permissions. intros Hu. by eapply ins_uniq; [apply perms_sym|apply Hu|exact E].
Qed.
Lemma keeps_assignments_insert fk r :
  keeps (inv rely P) (sql_insert db_role_assignments set_role_assignments Access.clash fk r) (λ _, True).
Proof using HP laws.
  apply keeps_insert; [|done]. intros d t E. apply ch_role_assignments. intros Hu. by eapply ins_uniq; [apply assignments_sym|apply Hu|exact E].
Qed.
Lemma keeps_sas_insert fk r :
  keeps (inv rely P) (sql_insert db_service_accounts set_service_accounts ServiceAccount.clash fk r) (λ _, True).
Proof using HP laws.
  apply keeps_insert; [|done]. intros d t E. apply ch_service_accounts. intros Hu. by eapply ins_uniq; [apply sas_sym|apply Hu|exact E].
Qed.

Ltac delete_step :=
  match goal with
  | |- P _ _ (set_users _ ?d) => apply (cl_change _ HP) with d; [|apply ch_users; by apply uniq_filter]
  | |- P _ _ (set_apps _ ?d) => apply (cl_change _ HP) with d; [|apply ch_apps; by apply uniq_filter]
  | |- P _ _ (set_roles _ ?d) => apply (cl_change _ HP) with d; [|apply ch_roles; by apply uniq_filter]
  | |- P _ _ (set_role_permissions _ ?d) =>
      apply (cl_change _ HP) with d; [|apply ch_role_permissions; by apply uniq_filter]
  | |- P _ _ (set_role_assignments _ ?d) =>
      apply (cl_change _ HP) with d; [|apply ch_role_assignments; by apply uniq_filter]
  | |- P _ _ (set_service_accounts _ ?d) =>
      apply (cl_change _ HP) with d; [|apply ch_service_accounts; by apply uniq_filter]
  | |- P _ _ (set_sessions _ ?d) => apply (cl_change _ HP) with d; [|exact (ch_drop_sessions d _)]
  | |- P _ _ (set_batches _ ?d) => apply (cl_change _ HP) with d; [|exact (ch_drop_batches d _)]
  | |- P _ _ (set_codes _ ?d) => apply (cl_change _ HP) with d; [|exact (ch_drop_codes d _)]
  end.
Ltac deleting := apply keeps_delete; intros s n d gone HPd; cbv zeta beta delta [cascade_user cascade_app cascade_role];
  repeat delete_step; exact HPd.

Lemma keeps_users_delete p : keeps (inv rely P) (delete_users p) (λ _, True).
Proof using HP. deleting. Qed.
Lemma keeps_apps_delete p : keeps (inv rely P) (delete_apps p) (λ _, True).
Proof using HP. deleting. Qed.
Lemma keeps_roles_delete p : keeps (inv rely P) (delete_roles p) (λ _, True).
Proof using HP. deleting. Qed.
Lemma keeps_sas_delete p : keeps (inv rely P) (delete_service_accounts p) (λ _, True).
Proof using HP. deleting. Qed.
Lemma keeps_perms_delete p :
  keeps (inv rely P) (sql_delete db_role_permissions set_role_permissions p (λ _ d, d)) (λ _, True).
Proof using HP. deleting. Qed.
Lemma keeps_assignments_delete p :
  keeps (inv rely P) (sql_delete db_role_assignments set_role_assignments p (λ _ d, d)) (λ _, True).
Proof using HP. deleting. Qed.

(** ** Reads, draws and the clock *)

Definition snap (sess : Session) : Prop := ∃ r0, KS r0 ∧ sess = Session.dbgenToDomain r0.
Definition snap_hash (hash : bytes) (sess : Session) : Prop :=
  ∃ r0, KS r0 ∧ sess = Session.dbgenToDomain r0 ∧ Session.r_RefreshTokenHash r0 = hash.

Lemma keeps_now : keeps (inv rely P) time_now N.
Proof using HP. apply (keeps_time_now rely P). intros. by eapply cl_now. Qed.
Lemma keeps_uuid msg : keeps (inv rely P) (NewV7 msg) F.
Proof using HP. apply (keeps_NewV7 rely P); [apply HP|]. intros. by eapply cl_fresh. Qed.
Lemma keeps_etag : keeps (inv rely P) etag_New (λ _, True).
Proof using HP. apply (keeps_etag_New rely P); [apply HP|done]. Qed.
Lemma keeps_rand k : keeps (inv rely P) (rand_Read k) (λ _, True).
Proof using HP. apply (keeps_rand_Read rely P); [apply HP|done]. Qed.
Lemma keeps_q {A} (f : DB → A) : keeps (inv rely P) (query f) (λ _, True).
Proof using HP. by apply (keeps_query rely P). Qed.
Lemma keeps_q1 {A} (f : DB → option A) : keeps (inv rely P) (query_one f) (λ _, True).
Proof using HP. by apply (keeps_query_one rely P). Qed.
Lemma keeps_begin : keeps (inv rely P) begin_tx (λ _, True).
Proof using HP. by apply (keeps_query rely P). Qed.

Lemma keeps_session_get id : keeps (inv rely P) (SessionRepo.GetByID id) snap.
Proof using HP.
  eapply (keeps_mcatch _ _ _ _ KS).
  - apply (keeps_query_one rely P). intros s n d r HPd [Hr _]%sel_one_Some. by eapply cl_read.
  - intros e. by destruct (errors_is_no_rows e); apply keeps_throw.
  - intros r Hr. apply keeps_ret. by exists r.
Qed.

Lemma keeps_session_by_hash hash : keeps (inv rely P) (GetByRefreshHash hash) (snap_hash hash).
Proof using HP.
  eapply (keeps_mcatch _ _ _ _ (λ r, KS r ∧ Session.r_RefreshTokenHash r = hash)).
  - apply (keeps_query_one rely P). intros s n d r HPd [Hr Hh]%sel_one_Some.
    apply bool_decide_eq_true in Hh. split; [by eapply cl_read|done].
  - intros e. by destruct (errors_is_no_rows e); apply keeps_throw.
  - intros r [Hr Hh]. apply keeps_ret. by exists r.
Qed.

Lemma keeps_session_list user : keeps (inv rely P) (ListByUser user) (Forall snap).
Proof using HP.
  eapply (keeps_mcatch _ _ _ _ (Forall KS)).
  - apply (keeps_query rely P). intros s n d HPd. apply Forall_forall. intros r Hr.
    rewrite order_by_perm in Hr. apply elem_of_sel in Hr as [Hr _]. by eapply cl_read.
  - intros e. apply keeps_throw.
  - intros l Hl. apply keeps_ret. apply Forall_fmap. eapply Forall_impl; [exact Hl|].
    intros r Hr. by exists r.
Qed.

(** ** Sessions, recovery codes and audit events *)

Lemma keeps_session_create id user hash ua ip now :
  F id → N now → keeps (inv rely P) (SessionRepo.Create (minted id user hash ua ip now)) (λ _, True).
Proof using HP.
  intros Hid Hn. unfold SessionRepo.Create. keeps_step.
  - apply keeps_insert; [|done]. intros d t E. by eapply ch_session_create.
  - apply keeps_throw.
  - by apply keeps_ret.
Qed.

Lemma keeps_session_revoke sess now :
  snap sess → N now → keeps (inv rely P) (SessionRepo.Update (Session.Revoke now sess)) (λ _, True).
Proof using HP.
  intros (r0 & Hr & ->) Hn. unfold SessionRepo.Update, SessionRepo.update_sessions. keeps_walk.
  apply keeps_update. intros d t E. eapply ch_session_revoke; [done..|].
  by rewrite (proj1 (Session.Revoke_fields now (Session.dbgenToDomain r0))) in E.
Qed.

Lemma keeps_session_rotate sess sess' hash now :
  snap_hash hash sess → N now → ∀ hash',
  RotateRefresh hash' now (sliding_deadline cfg now (s_expiresAt sess)) sess = Ok sess' →
  keeps (inv rely P) (Rotate sess' hash) (λ _, True).
Proof using HP.
  intros (r0 & Hr & -> & <-) Hn hash' Hrot. unfold Rotate, SessionRepo.update_sessions. keeps_walk.
  apply keeps_update. intros d t E. rewrite (Session.RotateRefresh_id _ _ _ _ _ Hrot) in E.
  by eapply ch_session_rotate.
Qed.

Lemma keeps_revoke_all user now : N now → keeps (inv rely P) (RevokeAllForUser user now) (λ _, True).
Proof using HP.
  intros Hn. unfold RevokeAllForUser, SessionRepo.update_sessions. keeps_walk.
  apply keeps_update. intros d t E. by eapply ch_sessions_revoke_all.
Qed.

Lemma keeps_batches_revoke user now : N now → keeps (inv rely P) (RevokeActiveBatchesForUser user now) (λ _, True).
Proof using HP.
  intros Hn. unfold RevokeActiveBatchesForUser, update_batches. keeps_walk.
  apply keeps_update. intros d t E. by eapply ch_batches_revoke.
Qed.

Lemma keeps_consume batch hash now : N now → keeps (inv rely P) (ConsumeCode batch hash now) (λ _, True).
Proof using HP.
  intros Hn. unfold ConsumeCode. keeps_walk.
  apply keeps_update. intros d t E. by eapply ch_code_consume.
Qed.

Lemma keeps_batch_create id user now hashes : F id → N now →
  keeps (inv rely P) (CreateBatch (NewBatch id user now hashes)) (λ _, True).
Proof using HP.
  intros Hid Hn. unfold CreateBatch. apply (keeps_InTx rely P); [apply HP| |intros; keeps_walk].
  keeps_step; [|apply keeps_throw|].
  - apply keeps_insert; [|done]. intros d t E. by eapply ch_batch_create.
  - simpl. apply keeps_mfor; [done|]. intros c [h [-> _]]%list_elem_of_fmap. keeps_walk.
    apply keeps_insert; [|done]. intros d t E. by eapply ch_code_create.
Qed.

Lemma keeps_Emit p : keeps (inv rely P) (Emit p) (λ _, True).
Proof using HP.
  unfold Emit. eapply keeps_gobind; [apply keeps_now|]. intros now Hn.
  destruct (NewAudit (Ok "-") now p); [|by apply keeps_ret].
  eapply keeps_mcatch; [apply keeps_uuid|intros; by apply keeps_ret|]. intros id Hid. simpl.
  destruct (NewAudit (Ok id) now p) as [ev|] eqn:E; [|by apply keeps_ret].
  unfold SyncEmitter_Emit. eapply (keeps_ignore _ _ (λ _, True)); [|done].
  unfold AuditRepo.Create. eapply (keeps_mcatch _ _ _ _ (λ r, AuditMapper.toCreateParams (Sanitize ev) = Ok r)).
  - by apply keeps_lift.
  - intros. apply keeps_throw.
  - intros row Hrow. keeps_step; [|apply keeps_throw|by apply keeps_ret].
    apply keeps_insert; [|done]. intros d t Ht. by eapply ch_audit.
Qed.

(** ** The use-cases *)

#[local] Hint Resolve keeps_users_update keeps_apps_update keeps_roles_update keeps_sas_update
  keeps_users_insert keeps_apps_insert keeps_roles_insert keeps_perms_insert keeps_assignments_insert
  keeps_sas_insert keeps_users_delete keeps_apps_delete keeps_roles_delete keeps_sas_delete
  keeps_perms_delete keeps_assignments_delete keeps_etag keeps_rand keeps_q keeps_q1 keeps_begin
  keeps_session_revoke keeps_session_rotate keeps_revoke_all keeps_batches_revoke keeps_consume
  keeps_batch_create keeps_Emit keeps_session_create : sso.

Lemma keeps_audit_error {A} c aud e (Q : A → Prop) : keeps (inv rely P) (audit_error c aud e) Q.
Proof using HP. eapply keeps_gobind; [apply keeps_Emit|]. intros. apply keeps_throw. Qed.
Lemma keeps_audit_error_wrap {A} c aud m e (Q : A → Prop) : keeps (inv rely P) (audit_error_wrap c aud m e) Q.
Proof using HP. eapply keeps_gobind; [apply keeps_Emit|]. intros. apply keeps_throw. Qed.
Lemma keeps_fail {A} aud r e (Q : A → Prop) : keeps (inv rely P) (fail aud r e) Q.
Proof using HP. eapply keeps_gobind; [apply keeps_Emit|]. intros. apply keeps_throw. Qed.
Lemma keeps_deny {A} aud r e (Q : A → Prop) : keeps (inv rely P) (deny aud r e) Q.
Proof using HP. eapply keeps_gobind; [apply keeps_Emit|]. intros. apply keeps_throw. Qed.
Lemma keeps_lift_eq {A} (r : res A) : keeps (inv rely P) (lift r) (λ a, r = Ok a).
Proof using HP. by apply keeps_lift. Qed.
#[local] Hint Resolve keeps_audit_error keeps_audit_error_wrap keeps_fail keeps_deny : sso.

(** What a step learns from the computation it binds. *)
Ltac learn := first
  [ apply keeps_now | apply keeps_uuid | apply keeps_session_get | apply keeps_session_by_hash
  | apply keeps_session_list | apply keeps_lift_eq ].
Ltac unfold_head := match goal with |- keeps _ ?m _ =>
  let rec go t := lazymatch t with ?f _ => go f | ?c => unfold c end in go m end.
Ltac walk_step :=
  lazymatch goal with
  | |- keeps _ (ret _) _ => apply keeps_ret; exact Logic.I
  | |- keeps _ (throw _) _ => apply keeps_throw
  | |- keeps _ (mcatch _ _ _) _ =>
      first [eapply keeps_mcatch; [solve [learn]|intros ?|intros ? ?]
            |eapply (keeps_mcatch _ _ _ _ (λ _, True)); [|intros ?|intros ? _]]
  | |- keeps _ (gobind _ _) _ =>
      first [eapply keeps_gobind; [solve [learn]|intros ? ?]
            |eapply (keeps_gobind _ _ _ (λ _, True)); [|intros ? _]]
  | |- keeps _ (if decide _ then _ else _) _ => apply keeps_decide; intros ?
  | |- keeps _ (match ?x with _ => _ end) _ => destruct x eqn:?
  | |- keeps _ (let _ := _ in _) _ => cbv zeta
  | |- keeps _ (mfor _ _) _ => 
      apply keeps_mfor; [exact Logic.I|intros ? ?];
      try match goal with Hl : Forall snap ?l, Hx : ?x ∈ ?l |- _ =>
            pose proof (proj1 (Forall_forall _ _) Hl x Hx) end
  | H : snap_hash _ ?s |- keeps _ (Rotate _ _) _ =>
      cbv beta in *; eapply keeps_session_rotate; eassumption
  | _ => first [solve [eauto with sso]|keeps_step|unfold_head]
  end.
Ltac walk := repeat walk_step.

Lemma snap_hash_snap h sess : snap_hash h sess → snap sess.
Proof using HP. intros (r0 & ? & ? & _). by exists r0. Qed.
#[local] Hint Resolve snap_hash_snap : sso.

Lemma keeps_mint op aud user ua ip now : N now → keeps (inv rely P) (mint_session cfg op aud user ua ip now) (λ _, True).
Proof using HP. intros Hn. unfold mint_session. walk. Qed.

Lemma keeps_replace_password op aud user pw now :
  N now → keeps (inv rely P) (replace_password cfg op aud user pw now) (λ _, True).
Proof using HP. intros Hn. unfold replace_password. walk. Qed.

Lemma keeps_generate fuel codes hashes : keeps (inv rely P) (generate_loop fuel codes hashes) (λ _, True).
Proof using HP.
  revert codes hashes. induction fuel as [|fuel IH]; intros codes hashes; simpl; walk; apply IH.
Qed.

Lemma keeps_bulk_insert l : keeps (inv rely P) (bulk_insert l) (λ _, True).
Proof using HP laws. induction l as [|a l IH]; simpl; walk. Qed.
Lemma still_bulk_insert l s n : keeps (still s n) (bulk_insert l) (λ _, True).
Proof using HP. induction l as [|a l IH]; simpl; walk. Qed.

Lemma keeps_fetch_existing aud uid l : keeps (inv rely P) (fetch_existing aud uid l) (λ _, True).
Proof using HP. induction l as [|[a was] l IH]; simpl; walk. Qed.
Lemma keeps_hydrate l : keeps (inv rely P) (hydrate_roles l) (λ _, True).
Proof using HP. induction l as [|r l IH]; simpl; walk. Qed.

#[local] Hint Resolve keeps_mint keeps_replace_password keeps_generate keeps_bulk_insert
  still_bulk_insert keeps_fetch_existing keeps_hydrate : sso.

Lemma keeps_role_create r : keeps (inv rely P) (RoleRepo.Create r) (λ _, True).
Proof using HP laws. apply (keeps_InTx rely P); [apply HP| |intros]; walk. Qed.
Lemma keeps_role_update r e : keeps (inv rely P) (RoleRepo.Update r e) (λ _, True).
Proof using HP laws. apply (keeps_InTx rely P); [apply HP| |intros]; walk. Qed.
Lemma keeps_bulk_create l : keeps (inv rely P) (BulkCreate l) (λ _, True).
Proof using HP laws. apply (keeps_InTx rely P); [apply HP| |intros]; walk. Qed.
Lemma keeps_bulk_delete u l : keeps (inv rely P) (BulkDelete u l) (λ _, True).
Proof using HP laws. apply (keeps_InTx rely P); [apply HP| |intros]; walk. Qed.
#[local] Hint Resolve keeps_role_create keeps_role_update keeps_bulk_create keeps_bulk_delete : sso.

Lemma keeps_admin_app : keeps (inv rely P) resolveAdminAppID (λ _, True).
Proof using HP.
  unfold resolveAdminAppID. walk. intros w [? ?]. by split.
Qed.
#[local] Hint Resolve keeps_admin_app : sso.
Lemma keeps_CanReadAudit ctx : keeps (inv rely P) (@CanReadAudit AccessBackedAuthorizer ctx) (λ _, True).
Proof using HP. unfold CanReadAudit, AccessBackedAuthorizer, CanReadAudit_access. walk. Qed.
#[local] Hint Resolve keeps_CanReadAudit : sso.

Context `{JsonCodec IdentityService.pageToken} `{JsonCodec AppService.pageToken}
  `{JsonCodec RoleService.pageToken} `{JsonCodec ServiceAccountService.pageToken}
  `{JsonCodec AccessService.pageToken} `{JsonCodec AuditService.pageToken}
  `{JsonCodec sessionsPageToken}.

(** Every request keeps every invariant of [change]. *)
Theorem run_keeps r : keeps (inv rely P) (run cfg r) (λ _, True).
Proof using HP laws. destruct r; unfold run, void; walk. Qed.

(** ** The commands of operators *)

Lemma keeps_find_or_create find create :
  keeps (inv rely P) create (λ _, True) → keeps (inv rely P) (find_or_create find create) (λ _, True).
Proof using HP. intros Hc. unfold find_or_create. walk. Qed.
Lemma keeps_insert_ignore fk r : keeps (inv rely P) (insert_ignore fk r) (λ _, True).
Proof using HP laws.
  apply (keeps_exec rely P). intros s n d k d' HPd. repeat case_match; intros; simplify_eq; split; try done.
  eapply (cl_change _ HP); [exact HPd|]. apply ch_role_assignments. intros Hu. eapply ins_uniq; [apply assignments_sym|exact Hu|eassumption].
Qed.
#[local] Hint Resolve keeps_find_or_create keeps_insert_ignore : sso.

Lemma keeps_ensure_roles appID roles : keeps (inv rely P) (ensure_roles appID roles) (λ _, True).
Proof using HP laws. induction roles as [|[name perms] roles IH]; simpl; walk. Qed.
Lemma still_find_or_create s n find create :
  keeps (still s n) create (λ _, True) → keeps (still s n) (find_or_create find create) (λ _, True).
Proof using HP. intros Hc. unfold find_or_create. walk. Qed.
#[local] Hint Resolve still_find_or_create : sso.
Lemma still_ensure_roles s n appID roles : keeps (still s n) (ensure_roles appID roles) (λ _, True).
Proof using HP. induction roles as [|[name perms] roles IH]; simpl; walk. Qed.
#[local] Hint Resolve keeps_ensure_roles still_ensure_roles : sso.

Lemma keeps_seed_tx data hash : keeps (inv rely P) (InTx (seed_tx data hash)) (λ _, True).
Proof using HP laws. apply (keeps_InTx rely P); [apply HP| |intros]; walk. Qed.
#[local] Hint Resolve keeps_seed_tx : sso.

Theorem seed_keeps getenv : keeps (inv rely P) (seedAdmin getenv) (λ _, True).
Proof using HP laws. unfold seedAdmin. walk. Qed.

(** A batch of the purge takes none of the events to keep. *)
Lemma keeps_purge_batch cutoff limit : (∀ r, KE r = true → older cutoff r = false) →
  keeps (inv rely P) (deleteAuditEvents cutoff limit) (λ _, True).
Proof using HP.
  intros Hc. apply (keeps_exec rely P). intros s n d k d' HPd [= <- <-]. split; [|done].
  eapply (cl_change _ HP); [exact HPd|]. apply ch_purge; [apply del_limit_sublist|by apply del_limit_sel].
Qed.
Lemma keeps_purge_loop fuel cutoff batchSize round total : (∀ r, KE r = true → older cutoff r = false) →
  keeps (inv rely P) (purge_loop fuel cutoff batchSize round total) (λ _, True).
Proof using HP.
  intros Hc. revert round total. induction fuel as [|fuel IH]; intros round total; simpl; [by apply keeps_ret|].
  eapply keeps_mcatch; [by apply keeps_purge_batch|intros; apply keeps_throw|]. intros k _. walk.
Qed.

Theorem purge_keeps fuel cutoff dryRun batchSize sleep : (∀ r, KE r = true → older cutoff r = false) →
  keeps (inv rely P) (auditPurge fuel cutoff dryRun batchSize sleep) (λ _, True).
Proof using HP. intros Hc. pose proof keeps_purge_loop. unfold auditPurge. walk. Qed.

End Keeps.
End Change.

(** ** The server over time *)

(** A request is about to be served. *)
Definition load (fs : list Fault) (env : list (DB → DB)) (w : World) : World :=
  mkWorld (w_db w) fs env (w_seed w) (w_now w) (w_admin_app w).

Definition holds (P : db_pred) (w : World) : Prop := P (w_seed w) (w_now w) (w_db w).

Section History.
Context `{Runtime} (cfg : AuthConfig).
Context `{JsonCodec IdentityService.pageToken} `{JsonCodec AppService.pageToken}
  `{JsonCodec RoleService.pageToken} `{JsonCodec ServiceAccountService.pageToken}
  `{JsonCodec AccessService.pageToken} `{JsonCodec AuditService.pageToken}
  `{JsonCodec sessionsPageToken}.
Context (KS : Session.Row → Prop) (F : string → Prop) (N : Time → Prop) (KE : AuditMapper.Row → bool).

(** An operator runs a command beside the server. A purge has a cutoff before
    the events that are to be kept. *)
Inductive command (w : World) : World → Prop :=
  | command_seed getenv fs env : Forall (rely cfg KS F N KE) env → command w (seedAdmin getenv (load fs env w)).1
  | command_purge fuel cutoff dryRun batchSize sleep fs env :
      Forall (rely cfg KS F N KE) env → (∀ r, KE r = true → older cutoff r = false) →
      command w (auditPurge fuel cutoff dryRun batchSize sleep (load fs env w)).1.

Inductive step (w : World) : World → Prop :=
  | step_rpc r fs env : Forall (rely cfg KS F N KE) env → step w (run cfg r (load fs env w)).1
  | step_command w' : command w w' → step w w'
  | step_tick t : w_now w <= t →
      step w (mkWorld (w_db w) (w_faults w) (w_env w) (w_seed w) t (w_admin_app w)).

Context {laws : RuntimeLaws} (P : db_pred) (HP : Closed cfg KS F N KE P).
Context (HPn : ∀ s n n' d, P s n d → n <= n' → P s n' d).

Lemma load_inv fs env w : Forall (rely cfg KS F N KE) env → holds P w → inv (rely cfg KS F N KE) P (load fs env w).
Proof. by split. Qed.

Lemma command_keeps w w' : command w w' → holds P w → holds P w'.
Proof using HP laws.
  intros [getenv fs env Henv|fuel cutoff dryRun batchSize sleep fs env Henv Hc] Hw.
  - destruct (seed_keeps cfg KS F N KE P HP getenv (load fs env w)) as [[Hdb _] _]; [by apply load_inv|done].
  - destruct (purge_keeps cfg KS F N KE P HP fuel cutoff dryRun batchSize sleep Hc (load fs env w)) as [[Hdb _] _];
      [by apply load_inv|done].
Qed.

Lemma step_keeps w w' : step w w' → holds P w → holds P w'.
Proof using HP HPn laws.
  intros [r fs env Henv|w1 Hc|t Ht] Hw.
  - destruct (run_keeps cfg KS F N KE P HP r (load fs env w)) as [[Hdb _] _]; [by apply load_inv|done].
  - by eapply command_keeps.
  - unfold holds in *. simpl. eauto.
Qed.

Lemma history_keeps w w' : rtc step w w' → holds P w → holds P w'.
Proof using HP HPn laws. induction 1; [done|]. eauto using step_keeps. Qed.

End History.
