(* ===== verification/SessionSafety.v ===== *)
(** * SessionSafety: what holds of a session over every history.

    A revoked session is never usable again ([dead]); the owner, the start and
    the hard cap of a session never change and its sliding deadline never
    passes the cap ([capped]); the unique keys of the sessions table hold. *)
From S2P Require Import Prelude Errors Sql Monad Runtime Kernel AuditDomain World WorldFacts.
From S2P Require Import Session SessionRepo Identity IdentityRepo AuditRepo.
From S2P Require Import IdentityService AppService RoleService ServiceAccountService AccessService.
From S2P Require Import AuditService AuthBase AuthLogin AuthRefresh AuthSessions Rpc Change Outcome.
From S2P Require Import Scenario.
Local Open Scope Z_scope.

Section SessionSafety.
Context `{Runtime} (cfg : AuthConfig).
Implicit Types (x : string) (d : DB).

(** ** A revoked session stays revoked *)

(** No identifier drawn from draw [s] on is [x]. *)
Definition not_drawn (s : nat) x : Prop := ∀ k, (s <= k)%nat → rt_collate (rt_uuid k) x = false.
Definition other x (id : string) : Prop := rt_collate id x = false.
Definition any (r : Session.Row) : Prop := True.
Definition positive (t : Time) : Prop := 0 < t.

Definition dead x d : Prop :=
  ∀ r, r ∈ db_sessions d → rt_collate (Session.r_ID r) x = true →
  Session.IsRevoked (Session.dbgenToDomain r) = true.

Definition P_dead x : db_pred := λ s n d, not_drawn s x ∧ positive n ∧ dead x d.

Lemma not_drawn_S s x : not_drawn s x → not_drawn (S s) x.
Proof. intros Hs k Hk. apply Hs. lia. Qed.

Lemma dead_upd x p f d t :
  dead x d →
  (∀ r, r ∈ db_sessions d → p r = true → rt_collate (Session.r_ID (f r)) x = true →
        rt_collate (Session.r_ID r) x = true ∧
        (Session.IsRevoked (Session.dbgenToDomain r) = true →
         Session.IsRevoked (Session.dbgenToDomain (f r)) = true)) →
  upd_uniq Session.clash p f (db_sessions d) = Some t → dead x (set_sessions t d).
Proof.
  unfold upd_uniq. intros Hd Hf E. case_match; [|done]. simplify_eq.
  intros r' [r [Hr ->]]%elem_of_upd. destruct (p r) eqn:Ep; [|by apply Hd].
  intros Hx. destruct (Hf r Hr Ep Hx) as [Hx' Hrev]. apply Hrev. by apply Hd.
Qed.

Lemma revoked_row s r : Session.IsRevoked s = true → Session.IsRevoked (Session.dbgenToDomain (Session.toUpdateParams s r)) = true.
Proof.
  rewrite !Session.IsRevoked_true. intros Hs. simpl. unfold Session.revokedAtToDB.
  by autorewrite with sso_simpl.
Qed.

Lemma closed_dead x : Closed cfg any (other x) positive unkept (P_dead x).
Proof.
  split.
  - intros s n d (? & ? & ?). split; [by apply not_drawn_S|done].
  - intros s n d (Hs & _). by apply Hs.
  - by intros s n d (_ & ? & _).
  - done.
  - intros s n d d' (Hs & Hn & Hd) Hc. split; [done|]. split; [done|].
    destruct Hc as [| | | | | |p| | |id user hash ua ip now t Hid Hnow Hins|r0 now t _ Hnow Hupd
                   |r0 hash now sess t _ Hnow Hrot Hupd|user now t Hnow Hupd| | | | | |]; try exact Hd.
    + intros r [Hr _]%elem_of_del. by apply Hd.
    + intros r Hr. apply (elem_of_ins _ _ _ _ _ Hins) in Hr as [Hr| ->]; [by apply Hd|].
      simpl. unfold other in Hid. congruence.
    + eapply dead_upd; [exact Hd| |exact Hupd]. intros r _ Hp Hx. split; [done|]. intros _.
      apply revoked_row, Session.Revoke_revoked. unfold positive in Hnow. lia.
    + eapply dead_upd; [exact Hd| |exact Hupd]. done.
    + eapply dead_upd; [exact Hd| |exact Hupd]. intros r _ Hp Hx. split; [done|]. intros _.
      apply Session.IsRevoked_true. simpl. unfold Session.revokedAtToDB.
      autorewrite with sso_simpl. unfold positive in Hnow. lia.
Qed.

Lemma P_dead_mono x s n n' d : P_dead x s n d → n <= n' → P_dead x s n' d.
Proof. unfold P_dead, positive. intros (? & ? & ?) ?. repeat split; auto; lia. Qed.

(** ** Reading a session *)

Lemma session_get_ok id w w' s :
  SessionRepo.GetByID id w = (w', Ok s) →
  ∃ r, sel_one (SessionRepo.where_id id) (db_sessions (w_db (interfere w))) = Some r ∧
       s = Session.dbgenToDomain r ∧ w' = after_stmt w.
Proof.
  intros E. unfold SessionRepo.GetByID in E. ok_step E. apply query_one_ok in Hm as [Hm ->].
  ok_step E. eauto.
Qed.

Lemma session_by_hash_ok hash w w' s :
  GetByRefreshHash hash w = (w', Ok s) →
  ∃ r, sel_one (where_refresh_hash hash) (db_sessions (w_db (interfere w))) = Some r ∧
       s = Session.dbgenToDomain r ∧ w' = after_stmt w.
Proof.
  intros E. unfold GetByRefreshHash in E. ok_step E. apply query_one_ok in Hm as [Hm ->].
  ok_step E. eauto.
Qed.

(** A session that is read unrevoked is not a dead one. *)
Lemma dead_read x d p r :
  dead x d → sel_one p (db_sessions d) = Some r →
  Session.IsRevoked (Session.dbgenToDomain r) = false → rt_collate (Session.r_ID r) x = false.
Proof.
  intros Hd [Hr _]%sel_one_Some Hrev. destruct (rt_collate _ _) eqn:E; [|done].
  rewrite (Hd r Hr E) in Hrev. done.
Qed.

Lemma dead_interfere x env w :
  Forall (rely cfg any (other x) positive unkept) env → w_env w = env → holds (P_dead x) w →
  dead x (w_db (interfere w)).
Proof.
  intros Henv <- Hw. pose proof (closed_dead x) as HP.
  assert (Hi : inv (rely cfg any (other x) positive unkept) (P_dead x) w) by by split.
  assert (Hr : Respected (rely cfg any (other x) positive unkept) (P_dead x)).
  { intros f Hf s n d HPd. eapply closed_rtc; [exact HP|apply Hf|exact HPd]. }
  apply inv_interfere in Hi as [(_ & _ & Hd) _]; [exact Hd|exact Hr].
Qed.

Lemma Refresh_session tok w w' out :
  AuthRefresh.Refresh cfg tok w = (w', Ok out) →
  ∃ r, sel_one (where_refresh_hash (tokenGen_Hash tok)) (db_sessions (w_db (interfere w))) = Some r ∧
       Session.IsActive (w_now w) (Session.dbgenToDomain r) = true ∧ at_SessionID out = Session.r_ID r.
Proof.
  intros E. unfold AuthRefresh.Refresh in E. repeat ok_step E.
  apply session_by_hash_ok in Hm as (r & Hr & -> & ->). exists r. split; [exact Hr|]. split.
  - unfold Session.IsActive. apply orb_false_iff in Hb as [[-> ->]%orb_false_iff ->]. done.
  - simpl. by rewrite (RotateRefresh_id _ _ _ _ _ Hm3).
Qed.

Lemma Validate_session tok w w' out :
  AuthLogin.Validate cfg tok w = (w', Ok out) → vo_SubjectType out = jwt_SubjectTypeUser →
  ∃ r, sel_one (SessionRepo.where_id (vo_SessionID out)) (db_sessions (w_db (interfere w))) = Some r ∧
       Session.IsActive (w_now w) (Session.dbgenToDomain r) = true.
Proof.
  intros E Hu. unfold AuthLogin.Validate, Verify in E. repeat ok_step E.
  repeat ok_step Hm. simpl in Hu. unfold ParseSessionID in Hm0. rewrite decide_True in Hm0 by done.
  repeat ok_step Hm0. case_match; simplify_eq.
  apply session_get_ok in Hm1 as (r & Hr & -> & ->). exists r. split; [exact Hr|].
  by rewrite now_after_stmt, negb_false_iff in Hb0.
Qed.

Context {laws : RuntimeLaws}.
Context `{JsonCodec IdentityService.pageToken} `{JsonCodec AppService.pageToken}
  `{JsonCodec RoleService.pageToken} `{JsonCodec ServiceAccountService.pageToken}
  `{JsonCodec AccessService.pageToken} `{JsonCodec AuditService.pageToken}
  `{JsonCodec sessionsPageToken}.

(** C1. Once session [x] is revoked, it is revoked for good: after any history of
    requests and operators' commands, whatever fails and whatever runs
    concurrently, no access token of [x] validates and no refresh token of [x]
    is exchanged. *)
Theorem revoked_session_unusable x w w' fs env :
  not_drawn (w_seed w) x → 0 < w_now w → dead x (w_db w) →
  rtc (step cfg any (other x) positive unkept) w w' →
  Forall (rely cfg any (other x) positive unkept) env →
  (∀ tok out, (AuthLogin.Validate cfg tok (load fs env w')).2 = Ok out →
     vo_SubjectType out = jwt_SubjectTypeUser → rt_collate (vo_SessionID out) x = false) ∧
  (∀ tok out, (AuthRefresh.Refresh cfg tok (load fs env w')).2 = Ok out →
     rt_collate (at_SessionID out) x = false).
Proof using laws.
  intros Hx Hn Hd Hhist Henv.
  assert (HP : holds (P_dead x) w').
  { eapply history_keeps; [exact laws|apply closed_dead|apply P_dead_mono|exact Hhist|]. done. }
  assert (Hdx : dead x (w_db (interfere (load fs env w')))).
  { by apply (dead_interfere x env). }
  split; intros tok out E.
  - intros Hu. destruct (AuthLogin.Validate _ _ _) as [w1 r1] eqn:Ev. simpl in E. subst r1.
    apply Validate_session in Ev as (r & Hr & [Hrev _]%IsActive_revoked); [|done].
    pose proof (dead_read _ _ _ _ Hdx Hr Hrev) as Hrx.
    apply sel_one_Some in Hr as [_ Hid]. unfold SessionRepo.where_id in Hid.
    destruct (rt_collate (vo_SessionID out) x) eqn:Ec; [|done].
    by rewrite (rt_collate_trans _ _ _ Hid Ec) in Hrx.
  - destruct (AuthRefresh.Refresh _ _ _) as [w1 r1] eqn:Ev. simpl in E. subst r1.
    apply Refresh_session in Ev as (r & Hr & [Hrev _]%IsActive_revoked & ->).
    by eapply dead_read.
Qed.

(** ** Revoking a session *)

Lemma session_clash_sym r r' : Session.clash r r' = Session.clash r' r.
Proof using laws.
  unfold Session.clash. f_equal; [apply rt_collate_sym|]. apply bool_decide_ext. naive_solver.
Qed.

Definition P_live x : db_pred := λ s n d,
  not_drawn s x ∧ positive n ∧ uniq Session.clash (db_sessions d) = true.

Lemma closed_live x : Closed cfg any (other x) positive unkept (P_live x).
Proof using laws.
  split.
  - intros s n d (? & ? & ?). split; [by apply not_drawn_S|done].
  - intros s n d (Hs & _). by apply Hs.
  - by intros s n d (_ & ? & _).
  - done.
  - intros s n d d' (Hs & Hn & Hu) Hc. split; [done|]. split; [done|].
    destruct Hc; try exact Hu; simpl.
    + by apply uniq_filter.
    + eapply ins_uniq; [apply session_clash_sym|exact Hu|done].
    + by eapply upd_uniq_uniq.
    + by eapply upd_uniq_uniq.
    + by eapply upd_uniq_uniq.
Qed.

Abbreviation R x := (rely cfg any (other x) positive unkept).

#[local] Instance dead_respected x : Respected (R x) (P_dead x).
Proof. intros f Hf s n d HPd. eapply closed_rtc; [apply closed_dead|apply Hf|exact HPd]. Qed.
#[local] Instance live_respected x : Respected (R x) (P_live x).
Proof using laws. intros f Hf s n d HPd. eapply closed_rtc; [apply closed_live|apply Hf|exact HPd]. Qed.

Lemma inv_after_stmt P x w `{!Respected (R x) P} : inv (R x) P w → inv (R x) P (after_stmt w).
Proof using. intros Hw. apply inv_interfere in Hw as [? ?]; [by split|done]. Qed.

Lemma inv_dead x w : inv (R x) (P_live x) w → dead x (w_db w) → inv (R x) (P_dead x) w.
Proof using. intros [(? & ? & ?) ?] ?. by split. Qed.

(** The row a lookup by key returns is the only one with that key. *)
Lemma dead_of_found x d r :
  uniq Session.clash (db_sessions d) = true →
  sel_one (SessionRepo.where_id x) (db_sessions d) = Some r →
  Session.IsRevoked (Session.dbgenToDomain r) = true → dead x d.
Proof using laws.
  intros Hu [Hr Hid]%sel_one_Some Hrev r' Hr' Hid'. unfold SessionRepo.where_id in Hid.
  replace r' with r; [done|]. eapply uniq_elem; [apply session_clash_sym|exact Hu|done|done|].
  unfold Session.clash. rewrite rt_collate_sym in Hid'. by rewrite (rt_collate_trans _ _ _ Hid Hid').
Qed.

Lemma Update_revoke_dead x now s w w' u :
  inv (R x) (P_live x) w → positive now → rt_collate (s_id s) x = true →
  SessionRepo.Update (Session.Revoke now s) w = (w', Ok u) → inv (R x) (P_dead x) w'.
Proof using laws.
  intros Hw Hnow Hid E. unfold SessionRepo.Update in E. ok_step E.
  assert (Hw' := inv_after_stmt (P_live x) x w Hw).
  apply update_ok in Hm as (t & Ht & -> & ->). ok_step E. ok_step E. simpl in *.
  destruct Hw' as [(Hs & Hn & Hu) Henv]. split; [|exact Henv]. split; [exact Hs|]. split; [exact Hn|].
  unfold upd_uniq in Ht. case_match; [|done]. injection Ht as <-.
  intros r' [r [Hr ->]]%elem_of_upd Hx. unfold SessionRepo.where_id in *.
  rewrite (proj1 (Session.Revoke_fields now s)) in *.
  destruct (rt_collate (Session.r_ID r) (s_id s)) eqn:Ec.
  - apply revoked_row, Session.Revoke_revoked. unfold positive in Hnow. lia.
  - rewrite rt_collate_sym in Hid. by rewrite (rt_collate_trans _ _ _ Hx Hid) in Ec.
Qed.

Lemma Success_dead x aud w w' u :
  inv (R x) (P_dead x) w → Success aud w = (w', Ok u) → dead x (w_db w').
Proof using laws.
  intros Hw E. destruct (keeps_Emit cfg any (other x) positive unkept (P_dead x) (closed_dead x)
    (aud_with_outcome aud OutcomeSuccess "") w Hw) as [[(_ & _ & Hd) _] _].
  unfold Success in E. rewrite E in Hd. exact Hd.
Qed.

(** A logout that reports success has revoked the session, whatever fails and
    whatever runs concurrently: it was gone, or revoked, or it is revoked now. *)
Lemma Logout_dead ctx x w w' u :
  uniq Session.clash (db_sessions (w_db w)) = true →
  not_drawn (w_seed w) x → 0 < w_now w → Forall (R x) (w_env w) →
  AuthLogin.Logout ctx x w = (w', Ok u) → dead x (w_db w').
Proof using laws.
  intros Hu Hx Hn Henv E. assert (Hw : inv (R x) (P_live x) w) by by split.
  unfold AuthLogin.Logout in E. ok_step E. ok_step E.
  unfold ParseSessionID in Hm0. case_match; [|done]. injection Hm0 as <-.
  assert (Hw' := inv_after_stmt (P_live x) x w Hw).
  apply mcatch_ok in E as [(w1 & s & Hs & E)|(w1 & e & He & E)].
  - apply session_get_ok in Hs as (r & Hr & -> & ->). ok_step E.
    + eapply Success_dead; [apply inv_dead; [exact Hw'|]|exact E].
      destruct Hw' as [(_ & _ & Hu') _]. by eapply dead_of_found.
    + repeat ok_step E. eapply Success_dead; [|exact E].
      apply sel_one_Some in Hr as [_ Hid].
      eapply (Update_revoke_dead x _ (Session.dbgenToDomain r)); [exact Hw'| |exact Hid|exact Hm0].
      rewrite now_after_stmt. exact Hn.
  - unfold SessionRepo.GetByID, mcatch in He; autounfold with queries in He. ok_step E.
    destruct (query_one _ w) as [w2 [r|e2]] eqn:Eq; [done|].
    apply query_one_err in Eq as [-> [->|[-> Hnone]]]; simpl in He; injection He as He1 <-; [done|subst w1].
    eapply Success_dead; [apply inv_dead; [exact Hw'|]|exact E].
    intros r Hr Hid. pose proof (proj1 (sel_one_None _ _) Hnone r Hr) as Hf.
    unfold SessionRepo.where_id in Hf. congruence.
Qed.

(** ** The identity and the hard cap of a session *)

(** A row of session [x] belongs to user [u], was issued at [i], has hard cap
    [e], and its sliding deadline does not pass the cap. *)
Definition capped_row x u (i e : Time) (r : Session.Row) : Prop :=
  rt_collate (Session.r_ID r) x = true →
  Session.r_UserID r = u ∧ Session.r_IssuedAt r = i ∧ Session.r_ExpiresAt r = e ∧
  Session.r_RefreshTokenExpiresAt r <= e.
Definition capped x u i e d : Prop := ∀ r, r ∈ db_sessions d → capped_row x u i e r.
Definition P_capped x u i e : db_pred := λ s n d, not_drawn s x ∧ positive n ∧ capped x u i e d.

Lemma sliding_deadline_cap now cap : sliding_deadline cfg now cap <= cap.
Proof. unfold sliding_deadline, After. case_bool_decide; lia. Qed.

Lemma capped_upd x u i e p f d t :
  capped x u i e d →
  (∀ r, r ∈ db_sessions d → p r = true → capped_row x u i e r → capped_row x u i e (f r)) →
  upd_uniq Session.clash p f (db_sessions d) = Some t → capped x u i e (set_sessions t d).
Proof.
  unfold upd_uniq. intros Hd Hf E. case_match; [|done]. simplify_eq.
  intros r' [r [Hr ->]]%elem_of_upd. destruct (p r) eqn:Ep; [|by apply Hd]. apply Hf; auto.
Qed.

Lemma closed_capped x u i e : Closed cfg (capped_row x u i e) (other x) positive unkept (P_capped x u i e).
Proof using laws.
  split.
  - intros s n d (? & ? & ?). split; [by apply not_drawn_S|done].
  - intros s n d (Hs & _). by apply Hs.
  - by intros s n d (_ & ? & _).
  - intros s n d r (_ & _ & Hd) Hr. by apply Hd.
  - intros s n d d' (Hs & Hn & Hd) Hc. split; [done|]. split; [done|].
    destruct Hc as [| | | | | |p| | |id user hash ua ip now t Hid Hnow Hins|r0 now t HK Hnow Hupd
                   |r0 hash now sess t HK Hnow Hrot Hupd|user now t Hnow Hupd| | | | | |]; try exact Hd.
    + intros r [Hr _]%elem_of_del. by apply Hd.
    + intros r Hr. apply (elem_of_ins _ _ _ _ _ Hins) in Hr as [Hr| ->]; [by apply Hd|].
      intros Hx. simpl in Hx. unfold other in Hid. congruence.
    + eapply capped_upd; [exact Hd| |exact Hupd]. unfold SessionRepo.where_id.
      intros r _ Hp _ Hx. rewrite rt_collate_sym in Hp.
      destruct (HK (rt_collate_trans _ _ _ Hp Hx)) as (? & ? & ? & ?).
      unfold Session.Revoke. by case_match.
    + eapply capped_upd; [exact Hd| |exact Hupd]. intros r _ [Hp _]%andb_true_iff Hr Hx.
      destruct (Hr Hx) as (? & ? & ? & ?). rewrite rt_collate_sym in Hp.
      destruct (HK (rt_collate_trans _ _ _ Hp Hx)) as (? & ? & <- & ?).
      apply Session.RotateRefresh_ok in Hrot as [_ ->]. simpl.
      repeat split; try done. apply sliding_deadline_cap.
    + eapply capped_upd; [exact Hd| |exact Hupd]. done.
Qed.

(** C13. Whatever history a session goes through, it keeps its owner, its start and
    its hard cap, and rotation never moves its deadline past the cap; once the
    clock reaches the cap no token of the session works any more. *)
Theorem session_hard_cap x u i e w w' fs env :
  not_drawn (w_seed w) x → 0 < w_now w → capped x u i e (w_db w) →
  rtc (step cfg (capped_row x u i e) (other x) positive unkept) w w' →
  Forall (rely cfg (capped_row x u i e) (other x) positive unkept) env →
  capped x u i e (w_db w') ∧
  (e <= w_now w' → ∀ tok out,
     (AuthRefresh.Refresh cfg tok (load fs env w')).2 = Ok out → rt_collate (at_SessionID out) x = false).
Proof using laws.
  intros Hx Hn Hd Hhist Henv. pose proof (closed_capped x u i e) as HP.
  assert (Hw : holds (P_capped x u i e) w').
  { eapply history_keeps; [exact laws|exact HP| |exact Hhist|done].
    unfold P_capped, positive. intros s n n' d (? & ? & ?) ?. split; [done|]. split; [lia|done]. }
  split; [apply Hw|]. intros He tok out E.
  destruct (AuthRefresh.Refresh _ _ _) as [w1 r1] eqn:Ev. simpl in E. subst r1.
  apply Refresh_session in Ev as (r & [Hr _]%sel_one_Some & [_ Hexp]%IsActive_revoked & ->).
  assert (HR : Respected (rely cfg (capped_row x u i e) (other x) positive unkept) (P_capped x u i e)).
  { intros f Hf s n d HPd. eapply closed_rtc; [exact HP|apply Hf|exact HPd]. }
  destruct (inv_interfere _ (P_capped x u i e) (load fs env w')) as [(_ & _ & Hc) _]; [by split|].
  destruct (rt_collate (Session.r_ID r) x) eqn:Ex; [|done].
  destruct (Hc r Hr Ex) as (_ & _ & Hre & _).
  unfold IsAbsoluteExpired, Before in Hexp. simpl in Hexp. rewrite Hre in Hexp.
  apply negb_false_iff, bool_decide_eq_true in Hexp. lia.
Qed.

End SessionSafety.

(** ** Instances *)

Section Witness.
#[local] Existing Instance toy.
#[local] Instance codec T : JsonCodec T := no_codec T.

Lemma revoked_session_unusable_witness :
  ¬ ∃ out, (AuthRefresh.Refresh toy_cfg "rx" (load [] [] (run toy_cfg (Rpc.Refresh "rx") toy_world).1)).2 = Ok out
           ∧ rt_collate (at_SessionID out) "idx" = true.
Proof.
  intros (out & E & Hx).
  pose proof (proj2 (revoked_session_unusable toy_cfg "idx" toy_world
    (run toy_cfg (Rpc.Refresh "rx") (load [] [] toy_world)).1 [] []
    ltac:(intros k _; by eapply toy_fresh)
    ltac:(reflexivity)
    ltac:(intros r Hr; repeat (apply elem_of_cons in Hr as [->|Hr]; [by vm_compute|]); by apply elem_of_nil in Hr)
    ltac:(apply rtc_once, step_rpc; constructor)
    ltac:(constructor)) "rx" out E) as Hf.
  rewrite Hx in Hf. discriminate Hf.
Defined.

Lemma session_hard_cap_witness :
  capped "idy" "idu" t0 (t0 + 604800 * second) (w_db (run toy_cfg (Rpc.Refresh "ry") (load [] [] toy_world)).1).
Proof.
  apply (session_hard_cap toy_cfg "idy" "idu" t0 (t0 + 604800 * second) toy_world _ [] []
    ltac:(intros k _; by eapply toy_fresh)
    ltac:(reflexivity)
    ltac:(intros r Hr; repeat (apply elem_of_cons in Hr as [->|Hr]; [by vm_compute|]); by apply elem_of_nil in Hr)
    ltac:(apply rtc_once, step_rpc; constructor)
    ltac:(constructor)).
Defined.

End Witness.
