(* ===== verification/CodeSafety.v ===== *)
(** * CodeSafety: what holds of recovery codes over every history.

    A used code is never accepted again ([used]); a revoked batch is never
    active again ([revoked]). *)
From S2P Require Import Prelude Errors Sql Monad Runtime Kernel AuditDomain World WorldFacts.
From S2P Require Import Identity IdentityRepo RecoveryCode RecoveryCodeRepo AuditRepo.
From S2P Require Import IdentityService AppService RoleService ServiceAccountService AccessService.
From S2P Require Import AuditService AuthBase AuthPassword AuthSessions Rpc Change Outcome.
From S2P Require Import Scenario SessionSafety.
Local Open Scope Z_scope.

Section CodeSafety.
Context `{Runtime} (cfg : AuthConfig).
Implicit Types (b h : string) (d : DB).

Definition used b h d : Prop :=
  ∀ c, c ∈ db_codes d → rt_collate (rc_BatchID c) b = true → rc_CodeHash c = h → rc_UsedAt c ≠ None.
Definition revoked b d : Prop :=
  ∀ r, r ∈ db_batches d → rt_collate (rb_ID r) b = true → rb_RevokedAt r ≠ None.

Definition P_used b h : db_pred := λ s n d, not_drawn s b ∧ positive n ∧ used b h d.
Definition P_revoked b : db_pred := λ s n d, not_drawn s b ∧ positive n ∧ revoked b d.

Lemma positive_not_null t : positive t → TimeToNullTime t ≠ None.
Proof. unfold positive, TimeToNullTime, IsZero. case_bool_decide; [lia|done]. Qed.

Lemma closed_used b h : Closed cfg any (other b) positive unkept (P_used b h).
Proof.
  split.
  - intros s n d (? & ? & ?). split; [by apply not_drawn_S|done].
  - intros s n d (Hs & _). by apply Hs.
  - by intros s n d (_ & ? & _).
  - done.
  - intros s n d d' (Hs & Hn & Hd) Hc. split; [done|]. split; [done|].
    destruct Hc as [| | | | | | | |p| | | | | |id hash t Hid Hins| |batch hash now t Hnow Hupd| |]; try exact Hd.
    + intros c [Hc _]%elem_of_del. by apply Hd.
    + intros c Hc Hb Hh. apply (elem_of_ins _ _ _ _ _ Hins) in Hc as [Hc| ->]; [by apply Hd|].
      simpl in Hb. unfold other in Hid. congruence.
    + unfold upd_uniq in Hupd. case_match; [|done]. injection Hupd as <-.
      intros c' [c [Hc ->]]%elem_of_upd Hb Hh. destruct (where_unused batch hash c).
      * by apply positive_not_null.
      * by apply Hd.
Qed.

Lemma closed_revoked b : Closed cfg any (other b) positive unkept (P_revoked b).
Proof.
  split.
  - intros s n d (? & ? & ?). split; [by apply not_drawn_S|done].
  - intros s n d (Hs & _). by apply Hs.
  - by intros s n d (_ & ? & _).
  - done.
  - intros s n d d' (Hs & Hn & Hd) Hc. split; [done|]. split; [done|].
    destruct Hc as [| | | | | | |p| | | | | |id user now t Hid Hnow Hins| |user now t Hnow Hupd| | |]; try exact Hd.
    + intros r [Hr _]%elem_of_del. by apply Hd.
    + intros r Hr Hb. apply (elem_of_ins _ _ _ _ _ Hins) in Hr as [Hr| ->]; [by apply Hd|].
      simpl in Hb. unfold other in Hid. congruence.
    + unfold upd_uniq in Hupd. case_match; [|done]. injection Hupd as <-.
      intros r' [r [Hr ->]]%elem_of_upd Hb. destruct (RecoveryCodeRepo.where_user_active user r).
      * by apply positive_not_null.
      * by apply Hd.
Qed.

Lemma P_used_mono b h s n n' d : P_used b h s n d → n <= n' → P_used b h s n' d.
Proof. unfold P_used, positive. intros (? & ? & ?) ?. split; [done|]. split; [lia|done]. Qed.
Lemma P_revoked_mono b s n n' d : P_revoked b s n d → n <= n' → P_revoked b s n' d.
Proof. unfold P_revoked, positive. intros (? & ? & ?) ?. split; [done|]. split; [lia|done]. Qed.

#[local] Instance used_respected b h : Respected (rely cfg any (other b) positive unkept) (P_used b h).
Proof. intros f Hf s n d HPd. eapply closed_rtc; [apply closed_used|apply Hf|exact HPd]. Qed.
#[local] Instance revoked_respected b : Respected (rely cfg any (other b) positive unkept) (P_revoked b).
Proof. intros f Hf s n d HPd. eapply closed_rtc; [apply closed_revoked|apply Hf|exact HPd]. Qed.

(** ** Consuming a code *)

Lemma ConsumeCode_ok b h now w w' u :
  ConsumeCode b h now w = (w', Ok u) →
  ∃ t, upd_uniq code_clash (where_unused b h) (set_used now) (db_codes (w_db (interfere w))) = Some t ∧
       (∃ c, c ∈ db_codes (w_db (interfere w)) ∧ where_unused b h c = true) ∧
       w' = with_db (set_codes t (w_db (interfere w))) (after_stmt w).
Proof.
  intros E. unfold ConsumeCode in E. ok_step E. apply update_ok in Hm as (t & Ht & -> & ->).
  ok_step E. ok_step E. exists t. split; [done|]. split; [|done].
  destruct (sel_one (where_unused b h) (db_codes (w_db (interfere w)))) as [c|] eqn:Es.
  - exists c. by apply sel_one_Some.
  - apply count_sel_one in Es. exfalso. apply Hd. pose proof (changed_le_matched
      (where_unused b h) (set_used now) (db_codes (w_db (interfere w)))) as Hle.
    unfold affected, matched in *. rewrite Es in *.
    pose proof (count_nonneg (λ r, where_unused b h r && bool_decide (set_used now r ≠ r))
      (db_codes (w_db (interfere w)))). unfold changed in *. case_match; lia.
Qed.

Lemma consumed_used b h now d t :
  positive now → upd_uniq code_clash (where_unused b h) (set_used now) (db_codes d) = Some t →
  used b h (set_codes t d).
Proof.
  unfold upd_uniq. intros Hnow E. case_match; [|done]. injection E as <-.
  intros c' [c [Hc ->]]%elem_of_upd Hb Hh. destruct (where_unused b h c) eqn:Ew.
  - by apply positive_not_null.
  - unfold where_unused in Ew. rewrite Hb, (bool_decide_eq_true_2 _ Hh) in Ew. simpl in Ew.
    by apply bool_decide_eq_false in Ew.
Qed.

Context {laws : RuntimeLaws}.
Context `{JsonCodec IdentityService.pageToken} `{JsonCodec AppService.pageToken}
  `{JsonCodec RoleService.pageToken} `{JsonCodec ServiceAccountService.pageToken}
  `{JsonCodec AccessService.pageToken} `{JsonCodec AuditService.pageToken}
  `{JsonCodec sessionsPageToken}.

(** C4. A recovery code is consumed at most once: the call that consumes it marks
    it used, and after any history of requests and operators' commands,
    whatever fails and whatever runs concurrently, no call consumes it again. *)
Theorem recovery_code_single_use b h now w w0 w' fs env :
  not_drawn (w_seed w) b → 0 < w_now w → 0 < now → Forall (rely cfg any (other b) positive unkept) (w_env w) →
  ConsumeCode b h now w = (w0, Ok tt) →
  rtc (step cfg any (other b) positive unkept) w0 w' → Forall (rely cfg any (other b) positive unkept) env →
  ∀ b' now', (ConsumeCode b' h now' (load fs env w')).2 = Ok tt → rt_collate b' b = false.
Proof using laws.
  intros Hb Hn Hnow Henv Hc Hhist Henv' b' now' E.
  apply ConsumeCode_ok in Hc as (t & Ht & _ & ->).
  assert (HP : holds (P_used b h) w').
  { eapply history_keeps; [exact laws|apply closed_used|apply P_used_mono|exact Hhist|].
    unfold holds. change (w_seed (with_db _ _)) with (w_seed (after_stmt w)).
    change (w_now (with_db _ _)) with (w_now (after_stmt w)).
    rewrite seed_after_stmt, now_after_stmt. split; [done|]. split; [done|]. by eapply consumed_used. }
  destruct (ConsumeCode b' h now' _) as [w1 r1] eqn:Ec. simpl in E. subst r1.
  apply ConsumeCode_ok in Ec as (t' & _ & (c & Hc & Hw) & _).
  destruct (inv_interfere _ (P_used b h) (load fs env w')) as [(_ & _ & Hu) _]; [by split|].
  destruct (rt_collate b' b) eqn:Eb; [|done]. unfold where_unused in Hw.
  apply andb_true_iff in Hw as [[Hb' Hh]%andb_true_iff Hnone].
  apply bool_decide_eq_true in Hh, Hnone. exfalso.
  eapply (Hu c Hc); [|exact Hh|exact Hnone]. by eapply rt_collate_trans.
Qed.

(** A revoked batch is never active again: after any history no lookup of a
    user's active batch returns it. *)
Theorem revoked_batch_stays_revoked b w w' fs env u bt :
  not_drawn (w_seed w) b → 0 < w_now w → revoked b (w_db w) →
  rtc (step cfg any (other b) positive unkept) w w' → Forall (rely cfg any (other b) positive unkept) env →
  (GetActiveBatchByUser u (load fs env w')).2 = Ok bt → rt_collate (b_id bt) b = false.
Proof using laws.
  intros Hb Hn Hd Hhist Henv E.
  assert (HP : holds (P_revoked b) w').
  { eapply history_keeps; [exact laws|apply closed_revoked|apply P_revoked_mono|exact Hhist|done]. }
  destruct (GetActiveBatchByUser u _) as [w1 r1] eqn:Eg. simpl in E. subst r1.
  unfold GetActiveBatchByUser in Eg. ok_step Eg.
  apply query_one_ok in Hm as [[Hr Hact]%sel_one_Some _].
  ok_step Eg. ok_step Eg. simpl.
  destruct (inv_interfere _ (P_revoked b) (load fs env w')) as [(_ & _ & Hu) _]; [by split|].
  destruct (rt_collate (rb_ID a) b) eqn:Eb; [|done]. exfalso.
  apply (Hu a Hr Eb). apply andb_true_iff in Hact as [_ Hact]. by apply bool_decide_eq_true in Hact.
Qed.

End CodeSafety.

(** ** Instances *)

Section Witness.
#[local] Existing Instance toy.
#[local] Instance codec T : JsonCodec T := no_codec T.

Lemma recovery_code_single_use_witness :
  (ConsumeCode "idb" (Toy.sha256 "AAAABBBBCCCC") 1
     (ConsumeCode "idb" (Toy.sha256 "AAAABBBBCCCC") 1 toy_world).1).2 ≠ Ok tt.
Proof.
  intros E. discriminate (recovery_code_single_use toy_cfg "idb" (Toy.sha256 "AAAABBBBCCCC") 1 toy_world
    (ConsumeCode "idb" (Toy.sha256 "AAAABBBBCCCC") 1 toy_world).1
    (ConsumeCode "idb" (Toy.sha256 "AAAABBBBCCCC") 1 toy_world).1 [] []
    ltac:(intros k _; by eapply toy_fresh) ltac:(reflexivity) ltac:(reflexivity) ltac:(constructor)
    ltac:(vm_compute; reflexivity) ltac:(apply rtc_refl) ltac:(constructor) "idb" 1 E).
Defined.

Lemma revoked_batch_stays_revoked_witness :
  let w := (RevokeActiveBatchesForUser "idu" t0 toy_world).1 in
  ¬ ∃ bt, (GetActiveBatchByUser "idu" (load [] [] w)).2 = Ok bt ∧ rt_collate (b_id bt) "idb" = true.
Proof.
  intros w (bt & E & Hb).
  pose proof (revoked_batch_stays_revoked toy_cfg "idb" w w [] [] "idu" bt
    ltac:(intros k _; by eapply toy_fresh) ltac:(reflexivity)
    ltac:(intros r Hr; vm_compute in Hr;
          repeat (apply elem_of_cons in Hr as [->|Hr]; [by vm_compute|]); by apply elem_of_nil in Hr)
    ltac:(apply rtc_refl) ltac:(constructor) E) as Hf.
  rewrite Hb in Hf. discriminate Hf.
Defined.

End Witness.
