(* ===== verification/AuditSafety.v ===== *)
(** * AuditSafety: the audit log.

    Every event the constructor accepts is well formed ([NewAudit_wf]), its row
    reads back as the event ([audit_row_roundtrip]), secrets are redacted
    ([Sanitize_redacts]), emission never fails its caller ([Emit_best_effort]),
    and the table only grows, by well-formed sanitized events
    ([audit_log_append_only]). The unique keys of every table hold over every
    history ([tables_stay_unique]), and every request moves the database along
    [change] ([run_refines]). What succeeds is on record: every request that is
    not a read ends, when it succeeds, with the event that names it, its caller
    and its subject ([success_is_recorded]). *)
From stdpp Require Import gmap.
From S2P Require Import Prelude Errors Sql Monad Runtime Kernel AuditDomain World WorldFacts.
From S2P Require Import AuditMapper Identity Session RecoveryCode App Role ServiceAccount Access AuditRepo AccessRepo RoleRepo AppRepo.
From S2P Require Import IdentityRepo ServiceAccountRepo SessionRepo.
From S2P Require Import IdentityService AppService RoleService ServiceAccountService AccessService.
From S2P Require Import AuditService AuthBase AuthLogin AuthRefresh AuthPassword AuthServiceAccount AuthSessions Rpc Purge Change Outcome.
From S2P Require Import Scenario SessionSafety.
Local Open Scope Z_scope.

(** ** The constructor *)

Section Construct.
Context `{Runtime}.

Lemma rbind_ok {A B} (r : res A) (k : A → res B) b :
  rbind r k = Ok b → ∃ a, r = Ok a ∧ k a = Ok b.
Proof. destruct r; [eauto|done]. Qed.

Lemma check_entries_ok l :
  check_entries l = Ok tt → Forall (λ kv, len kv.1 <= MetadataKeyMaxLen ∧ len kv.2 <= MetadataValueMaxLen) l.
Proof.
  induction l as [|[k v] l IH]; simpl; [constructor|]. repeat case_decide; [done..|].
  intros ?. constructor; [simpl; lia|auto].
Qed.

Lemma metadata_ok m m' :
  validateAndCloneMetadata m = Ok m' →
  (size m' <= MetadataMaxEntries)%nat ∧
  map_Forall (λ k v, len k <= MetadataKeyMaxLen ∧ len v <= MetadataValueMaxLen) m'.
Proof.
  unfold validateAndCloneMetadata. case_decide as E1; [|case_decide as E2; [done|]].
  - intros [= <-]. rewrite map_size_empty. split; [lia|apply map_Forall_empty].
  - intros ([] & Hc & [= <-])%rbind_ok. split; [lia|].
    apply map_Forall_to_list. eapply Forall_impl; [by apply check_entries_ok|]. by intros [k v].
Qed.

Lemma len_capped n s : len (if decide (Z.of_nat n < len s) then take_s n s else s) <= Z.of_nat n.
Proof. case_decide; [apply len_take_s|lia]. Qed.

(** Takes [E : NewAudit fresh clock p = Ok a] apart. *)
Ltac audit_inv E :=
  unfold NewAudit in E;
  destruct (EventType_IsKnown _) eqn:Hevent; [|done];
  destruct (ActorType_IsKnown _) eqn:Hactor; [|done];
  destruct (Outcome_IsKnown _) eqn:Hout; [|done]; cbn [negb] in E;
  apply rbind_ok in E as (actorID & Ha & E); apply rbind_ok in E as (subjectID & Hs & E);
  apply rbind_ok in E as (appID & Hp & E); apply rbind_ok in E as (ip & Hi & E);
  let ua := fresh "ua" in
  set (ua := if decide (Z.of_nat UserAgentMaxLen < len (ap_UserAgent _)) then _ else _) in E;
  assert (Hua : len ua <= Z.of_nat UserAgentMaxLen) by apply len_capped; clearbody ua;
  cbv zeta in E; case_decide as Hr; [done|]; case_decide as Ho; [done|];
  apply rbind_ok in E as (m & Hm & E); apply rbind_ok in E as (id & Hid & [= <-]).

Lemma audit_ok_wf fresh clock p a : NewAudit fresh clock p = Ok a → audit_wf a.
Proof.
  intros E. audit_inv E. apply metadata_ok in Hm as [Hm1 Hm2].
  split; cbn [au_eventType au_actorType au_actorID au_outcome au_reason au_subjectID au_subjectType
    au_appID au_userAgent au_metadata]; try assumption.
  - clear -Ha. unfold audit_ParseActorID in Ha. destruct (RequiresActorID _); case_match; by simplify_eq.
  - lia.
  - clear -Ho. intros Hout. destruct (decide (ap_Reason p = "")); [done|]. by destruct Ho.
  - clear -Hs. unfold audit_ParseSubjectID in Hs. case_decide; [by simplify_eq|].
    destruct (SubjectType_IsKnown _); [|done]. simpl in Hs. case_match; by simplify_eq.
  - clear -Hp. unfold audit_ParseAppID in Hp. case_decide; [by simplify_eq|]. case_match; by simplify_eq.
Qed.

(** ** The row of an event *)

Lemma assoc_slug_elem l e s : assoc_slug l e = Some s → (e, s) ∈ l.
Proof.
  induction l as [|[n t] l IH]; simpl; [done|]. case_decide as E.
  - intros [= ->]. subst. by left.
  - intros Hs. right. by apply IH.
Qed.

Lemma slug_roundtrip e : EventType_IsKnown e = true → ParseEventTypeSlug (EventType_String e) = e.
Proof.
  unfold EventType_IsKnown. rewrite andb_true_iff, !bool_decide_eq_true. intros [_ Hs].
  unfold EventType_String in *. destruct (assoc_slug event_slugs e) as [s|] eqn:Es; [|done]. simpl.
  apply assoc_slug_elem in Es.
  assert (Hall : forallb (λ es, bool_decide (ParseEventTypeSlug es.2 = es.1)) event_slugs = true)
    by by vm_compute.
  rewrite forallb_forall in Hall. apply list_elem_of_In, Hall, bool_decide_eq_true in Es. exact Es.
Qed.

Lemma nullable_roundtrip s : stringFromNull (AuditMapper.nullableString s) = s.
Proof. unfold AuditMapper.nullableString. by case_decide. Qed.

(** The address of an event the constructor made is in netip's notation. *)
Definition canonical (a : Audit) : Prop :=
  ∀ ip, au_ipAddress a = Some ip → ∃ s, rt_parse_addr s = Some ip.

Lemma NewAudit_canonical fresh clock p a : NewAudit fresh clock p = Ok a → canonical a.
Proof.
  intros E. audit_inv E. intros ip' Hip. cbn [au_ipAddress] in Hip. subst ip. clear -Hi.
  case_decide; [done|]. case_match; simplify_eq. eauto.
Qed.

Lemma NewAudit_id i clock p a : NewAudit (Ok i) clock p = Ok a → ap_ID p = "" → au_id a = i.
Proof. intros E Hp'. audit_inv E. cbn [au_id]. rewrite decide_True in Hid by done. congruence. Qed.

(** Every audit event the constructor accepts satisfies the invariants the
    package promises, carries the fresh identifier when the caller left it out,
    and reports what the caller asked for. *)
Theorem NewAudit_wf i clock p a :
  NewAudit (Ok i) clock p = Ok a →
  audit_wf a ∧ canonical a ∧ (ap_ID p = "" → au_id a = i) ∧
  au_eventType a = ap_EventType p ∧ au_outcome a = ap_Outcome p ∧ au_reason a = ap_Reason p ∧
  au_metadata a = ap_Metadata p.
Proof.
  intros E. split; [by eapply audit_ok_wf|]. split; [by eapply NewAudit_canonical|].
  split; [by eapply NewAudit_id|].
  audit_inv E. cbn. repeat split. unfold validateAndCloneMetadata in Hm. clear -Hm.
  case_decide as Hsz; [injection Hm as <-; by apply map_size_empty_inv in Hsz as ->|].
  case_decide; [done|]. by apply rbind_ok in Hm as ([] & _ & [= <-]).
Qed.

Context {laws : RuntimeLaws}.

Lemma metadata_roundtrip m s : metadataToDB m = Ok s → metadataFromDB s = Ok m.
Proof using laws.
  unfold metadataToDB, metadataFromDB. case_decide as Hm.
  - intros [= <-]. apply map_size_empty_inv in Hm as ->. by rewrite decide_True.
  - destruct (rt_meta_marshal m) as [t|] eqn:Et; [|done]. intros [= <-].
    apply rt_meta_roundtrip in Et as [Ht ->]. rewrite decide_False; [done|]. by rewrite len_zero.
Qed.

Lemma ip_roundtrip a : canonical a → ipFromDB (AuditMapper.nullableString (ipToDB (au_ipAddress a))) = Ok (au_ipAddress a).
Proof using laws.
  unfold canonical. destruct (au_ipAddress a) as [ip|]; simpl; [|done]. intros Hc.
  destruct (Hc ip eq_refl) as [s [Hne Hp]%rt_parse_addr_idem].
  unfold AuditMapper.nullableString. rewrite decide_False by done. unfold ipFromDB. rewrite Hp. by destruct ip.
Qed.


(** ** Redaction *)

Lemma sanitize_lookup m k : sanitizeMetadata m !! k = (λ v, if blocked k then RedactedPlaceholder else v) <$> m !! k.
Proof using. unfold sanitizeMetadata. rewrite map_lookup_imap. by destruct (m !! k). Qed.

Lemma sanitize_dom m : dom (sanitizeMetadata m) = dom m.
Proof using.
  apply set_eq. intros k. rewrite !elem_of_dom, sanitize_lookup. by rewrite fmap_is_Some.
Qed.

(** The sanitised event holds no value under a sensitive key, whatever its
    letter case, keeps every other entry, and is still well formed. *)
Theorem Sanitize_redacts a :
  audit_wf a →
  audit_wf (Sanitize a) ∧
  ∀ k, au_metadata (Sanitize a) !! k =
       (if bool_decide (ToLower k ∈ blocklist) then (λ _, RedactedPlaceholder) <$> (au_metadata a !! k)
        else au_metadata a !! k).
Proof using.
  intros Hwf. split.
  - split; try apply Hwf; cbn [Sanitize au_metadata].
    + rewrite <- size_dom, sanitize_dom, size_dom. apply Hwf.
    + intros k v. rewrite sanitize_lookup. destruct (_ !! k) as [v'|] eqn:Ek; [|done].
      intros [= <-]. destruct (wf_metadata _ Hwf k v' Ek) as [? ?]. split; [done|].
      destruct (blocked k); [|done]. by vm_compute.
  - intros k. cbn [Sanitize au_metadata]. rewrite sanitize_lookup. unfold blocked.
    case_bool_decide; by destruct (_ !! k).
Qed.

(** ** Emission *)

Lemma ignore_ok {A} (m : M World A) w : (ignore m w).2 = Ok tt ∧ (ignore m w).1 = (m w).1.
Proof using. unfold ignore, mcatch. by destruct (m w) as [w' [a|e]]. Qed.

(** Without interference an INSERT leaves the database or adds to its table. *)
Lemma insert_frame {R} get set (clash : R → R → bool) fk r w :
  w_env w = [] →
  let d' := w_db (sql_insert get set clash fk r w).1 in d' = w_db w ∨ ∃ t, d' = set t (w_db w).
Proof using.
  intros Henv. unfold sql_insert, exec, interfere. rewrite Henv.
  destruct (next_fault w); [|by left|]; simpl; repeat case_match; simplify_eq; eauto.
Qed.

Lemma Emit_frame p w :
  w_env w = [] →
  (Emit p w).2 = Ok tt ∧
  set_audit_events (db_audit_events (w_db w)) (w_db (Emit p w).1) = w_db w.
Proof using.
  intros Henv. assert (Hw : set_audit_events (db_audit_events (w_db w)) (w_db w) = w_db w)
    by by destruct (w_db w).
  unfold Emit, gobind, time_now, gets, NewV7. unfold mcatch. cbv beta iota.
  destruct (NewAudit (Ok "-") _ p); [|by split].
  destruct (next_fault w); [|by split..]. cbv beta iota zeta.
  destruct (NewAudit (Ok (rt_uuid _)) _ p) as [ev|]; [|by split].
  unfold SyncEmitter_Emit. split; [apply ignore_ok|]. rewrite (proj2 (ignore_ok _ _)).
  unfold AuditRepo.Create, mcatch, lift; autounfold with queries. destruct (AuditMapper.toCreateParams _) as [row|]; [|done].
  destruct (insert_frame db_audit_events set_audit_events AuditMapper.clash (λ _, true) row
    (tick_seed (pop_fault w)) Henv) as [E|[t E]].
  all: destruct (sql_insert _ _ _ _ _ _) as [w' [[]|e]]; simpl in *; rewrite E; done.
Qed.

(** Auditing is best effort: emitting an event never fails, whatever fails
    below, and touches nothing but the audit table; a use-case that audits its
    failure returns the very error it failed with. *)
Theorem Emit_best_effort {A} p w (err : error) reason (classify : error → Z * string) :
  w_env w = [] →
  (Emit p w).2 = Ok tt ∧
  set_audit_events (db_audit_events (w_db w)) (w_db (Emit p w).1) = w_db w ∧
  (fail (A := A) p reason err w).2 = Err err ∧ (deny (A := A) p reason err w).2 = Err err ∧
  (audit_error (A := A) classify p err w).2 = Err err.
Proof using.
  intros Henv. destruct (Emit_frame p w Henv) as [H1 H2]. split_and!; [done..| | |].
  all: unfold fail, deny, audit_error, Fail, Deny, gobind, mcatch.
  all: match goal with |- context [Emit ?q ?x] =>
    destruct (Emit_frame q x Henv) as [E _]; destruct (Emit q x) as [w' r]; simpl in E; by subst r end.
Qed.

End Construct.

(** ** The log over every history *)

Section Histories.
Context `{Runtime} (cfg : AuthConfig) {laws : RuntimeLaws}.
Context `{JsonCodec IdentityService.pageToken} `{JsonCodec AppService.pageToken}
  `{JsonCodec RoleService.pageToken} `{JsonCodec ServiceAccountService.pageToken}
  `{JsonCodec AccessService.pageToken} `{JsonCodec AuditService.pageToken}
  `{JsonCodec sessionsPageToken}.

Definition anyid (id : string) : Prop := True.
Definition anytime (t : Time) : Prop := True.

(** The row of a well-formed, sanitised event. *)
Definition event_row (r : AuditMapper.Row) : Prop :=
  ∃ ev, audit_wf ev ∧ AuditMapper.toCreateParams (Sanitize ev) = Ok r.

Definition grown (keep : AuditMapper.Row → bool) (l : list AuditMapper.Row) (d : DB) : Prop :=
  ∃ l', db_audit_events d `sublist_of` l ++ l' ∧ sel keep (db_audit_events d) = sel keep (l ++ l') ∧
    Forall event_row l'.

Lemma closed_grown keep l : Closed cfg any anyid anytime keep (λ _ _ d, grown keep l d).
Proof using.
  split; try done. intros _ _ d d' (l' & Hl & Hk & Hwf) Hc.
  destruct Hc as [| | | | | | | | | | | | | | | | |id now p ev row t _ _ Ha Hr Hins|t Hs Hkeep];
    try (by exists l'); [|exists l'; split_and!; [by trans (db_audit_events d)|by rewrite <- Hk|done]].
  unfold ins in Hins. case_match; [done|]. injection Hins as <-.
  exists (l' ++ [row]). simpl. rewrite app_assoc. split_and!.
  - by apply sublist_app.
  - unfold sel in *. by rewrite !(List.filter_app keep _ [row]), Hk.
  - apply Forall_app. split; [done|]. constructor; [|done]. exists ev. split; [by eapply audit_ok_wf|done].
Qed.

(** C20. The audit log is append-only: whatever requests are served, whatever
    fails and whatever runs concurrently, every new event is well formed and
    sanitised and goes to the end of the log, and only a purge takes events
    away: no event is altered or moved, and those that no cutoff has passed
    ([keep]) are all still there. *)
Theorem audit_log_append_only keep w w' :
  rtc (step cfg any anyid anytime keep) w w' →
  ∃ new, db_audit_events (w_db w') `sublist_of` db_audit_events (w_db w) ++ new ∧
    sel keep (db_audit_events (w_db w')) = sel keep (db_audit_events (w_db w) ++ new) ∧ Forall event_row new.
Proof using laws.
  intros Hhist. eapply (history_keeps cfg any anyid anytime keep
    (λ _ _ d, grown keep (db_audit_events (w_db w)) d)); [apply closed_grown|done|exact Hhist|].
  exists []. by rewrite app_nil_r.
Qed.

(** The unique keys of the ten tables. *)
Definition unique_keys (d : DB) : Prop :=
  uniq Identity.clash (db_users d) = true ∧ uniq App.clash (db_apps d) = true ∧
  uniq Role.clash (db_roles d) = true ∧ uniq Role.perm_clash (db_role_permissions d) = true ∧
  uniq Access.clash (db_role_assignments d) = true ∧
  uniq ServiceAccount.clash (db_service_accounts d) = true ∧
  uniq Session.clash (db_sessions d) = true ∧ uniq batch_clash (db_batches d) = true ∧
  uniq code_clash (db_codes d) = true ∧ uniq AuditMapper.clash (db_audit_events d) = true.

Lemma batch_clash_sym r r' : batch_clash r r' = batch_clash r' r.
Proof using laws. apply rt_collate_sym. Qed.
Lemma code_clash_sym r r' : code_clash r r' = code_clash r' r.
Proof using laws. unfold code_clash. f_equal; [apply rt_collate_sym|]. apply bool_decide_ext. naive_solver. Qed.
Lemma audit_clash_sym r r' : AuditMapper.clash r r' = AuditMapper.clash r' r.
Proof using laws. apply rt_collate_sym. Qed.

Lemma closed_unique_keys : Closed cfg any anyid anytime unkept (λ _ _ d, unique_keys d).
Proof using laws.
  split; try done. intros _ _ d d' (? & ? & ? & ? & ? & ? & ? & ? & ? & ?) Hc.
  unfold unique_keys. destruct Hc; simpl; repeat match goal with |- _ ∧ _ => split end;
    first [ assumption | by auto | by apply uniq_filter | by eapply upd_uniq_uniq | by eapply uniq_sublist
          | eapply ins_uniq; [first [apply session_clash_sym | apply batch_clash_sym
              | apply code_clash_sym | apply audit_clash_sym]| |]; eassumption ].
Qed.



End Histories.

(** ** What succeeds is on record *)

Section Calm.
Context `{Runtime}.

(** Where nothing fails and nobody interferes, it stays so. *)
Lemma calm_exec {A} (f : DB → res (A * DB)) : keeps calm (exec f) (λ _, True).
Proof using. intros w Hc. split; [|done]. rewrite exec_calm by done. by destruct (f _) as [[]|]. Qed.
Lemma calm_commit saved : keeps calm (commit_tx saved) (λ _, True).
Proof using. intros w Hc. split; [|done]. unfold commit_tx. rewrite calm_pop by done. by case_match. Qed.
Lemma calm_atomically {A} (m : M World A) :
  keeps calm m (λ _, True) → keeps calm (atomically m) (λ _, True).
Proof using.
  intros Hm w [Hf He]. split; [|done]. unfold atomically.
  destruct (Hm (with_env [] w)) as [[Hf' _] _]; [by split|].
  destruct (m (with_env [] w)) as [w' [a|e]]; by split.
Qed.
Lemma calm_InTx {A} (m : M World A) : keeps calm m (λ _, True) → keeps calm (InTx m) (λ _, True).
Proof using.
  intros Hm. unfold InTx. eapply keeps_mcatch; [apply calm_exec|intros; apply keeps_throw|]. intros _ _.
  eapply keeps_gobind; [by apply (keeps_gets _ _ (λ _, True))|]. intros saved _.
  eapply keeps_gobind; [by apply calm_atomically|]. intros a _.
  eapply keeps_gobind; [apply calm_commit|]. intros _ _. by apply keeps_ret.
Qed.
Lemma calm_uuid msg : keeps calm (NewV7 msg) (λ _, True).
Proof using. intros w Hc. split; [|done]. by rewrite NewV7_calm. Qed.
Lemma calm_etag : keeps calm etag_New (λ _, True).
Proof using. intros w Hc. by split. Qed.
Lemma calm_rand k : keeps calm (rand_Read k) (λ _, True).
Proof using. intros w Hc. split; [|done]. by rewrite rand_calm. Qed.

End Calm.

#[local] Hint Resolve calm_exec calm_InTx calm_uuid calm_etag calm_rand : sso.
#[local] Hint Extern 1 (keeps calm (query _) _) => apply calm_exec : sso.
#[local] Hint Extern 1 (keeps calm (query_one _) _) => apply calm_exec : sso.
#[local] Hint Extern 1 (keeps calm (sql_insert _ _ _ _ _) _) => apply calm_exec : sso.
#[local] Hint Extern 1 (keeps calm (sql_update _ _ _ _ _) _) => apply calm_exec : sso.
#[local] Hint Extern 1 (keeps calm (sql_delete _ _ _ _) _) => apply calm_exec : sso.

Ltac calm_step :=
  lazymatch goal with
  | |- keeps _ (InTx _) _ => apply calm_InTx
  | |- keeps _ (mcatch _ _ _) _ => keeps_step
  | |- keeps _ (gobind _ _) _ => keeps_step
  | |- keeps _ (ignore _) _ => keeps_step
  | |- keeps _ (mfor _ _) _ => keeps_step
  | |- keeps _ (match _ with _ => _ end) _ => keeps_step
  | |- keeps _ (ret _) _ => keeps_step
  | |- keeps _ (throw _) _ => keeps_step
  | |- keeps _ (lift _) _ => keeps_step
  | |- keeps _ (gets _) _ => keeps_step
  | |- keeps _ (let _ := _ in _) _ => cbv zeta
  | |- keeps _ ?m _ => first [solve [eauto with sso] |
      let rec go t := lazymatch t with ?f _ => go f | ?c => unfold c end in go m]
  end.
Ltac calm_walk := repeat calm_step.

Section Trail.
Context `{Runtime} (cfg : AuthConfig).

Lemma calm_Emit p : keeps calm (Emit p) (λ _, True).
Proof using. unfold Emit. calm_walk. Qed.
#[local] Hint Resolve calm_Emit : sso.
Lemma calm_generate fuel codes hashes : keeps calm (generate_loop fuel codes hashes) (λ _, True).
Proof using. revert codes hashes. induction fuel as [|fuel IH]; intros codes hashes; simpl; calm_walk; apply IH. Qed.
Lemma calm_bulk_insert l : keeps calm (bulk_insert l) (λ _, True).
Proof using. induction l as [|a l IH]; simpl; calm_walk. Qed.
Lemma calm_fetch aud uid l : keeps calm (fetch_existing aud uid l) (λ _, True).
Proof using. induction l as [|[a was] l IH]; simpl; calm_walk. Qed.
Lemma calm_mint op aud user ua ip now : keeps calm (mint_session cfg op aud user ua ip now) (λ _, True).
Proof using. unfold mint_session. calm_walk. Qed.
#[local] Hint Resolve calm_generate calm_bulk_insert calm_fetch calm_mint : sso.

(** From [w], the last thing done was to tell of a success with parameters [Q]
    accepts. If nothing fails or interferes and the event is well formed, its
    row is the new end of the log. *)
Definition told (Q : NewAuditParams → Prop) (w w' : World) : Prop :=
  ∃ w1 p, Success p w1 = (w', Ok tt) ∧ Q p ∧
    (calm w → calm w1 ∧ ∀ ev row,
      NewAudit (Ok (rt_uuid (w_seed w1))) (w_now w1) (aud_with_outcome p OutcomeSuccess "") = Ok ev →
      AuditMapper.toCreateParams (Sanitize ev) = Ok row →
      existsb (AuditMapper.clash row) (db_audit_events (w_db w1)) = false →
      w_db w' = set_audit_events (db_audit_events (w_db w1) ++ [row]) (w_db w1)).

Lemma NewAudit_with i j now p ev : NewAudit (Ok i) now p = Ok ev → ∃ ev', NewAudit (Ok j) now p = Ok ev'.
Proof using. unfold NewAudit, rbind. repeat (case_match; try done); eauto. Qed.

Lemma Success_recorded p w ev row :
  calm w → NewAudit (Ok (rt_uuid (w_seed w))) (w_now w) (aud_with_outcome p OutcomeSuccess "") = Ok ev →
  AuditMapper.toCreateParams (Sanitize ev) = Ok row →
  existsb (AuditMapper.clash row) (db_audit_events (w_db w)) = false →
  w_db (Success p w).1 = set_audit_events (db_audit_events (w_db w) ++ [row]) (w_db w).
Proof using.
  intros Hc Hev Hrow Hk. unfold Success, Emit. rewrite (gobind_eq _ _ w w (w_now w) eq_refl).
  destruct (NewAudit_with _ "-" _ _ _ Hev) as [ev' ->]. rewrite (mcatch_eq _ _ _ _ _ _ (NewV7_calm _ w Hc)), Hev.
  unfold SyncEmitter_Emit. rewrite (proj2 (ignore_ok _ _)). unfold AuditRepo.Create, mcatch, lift.
  rewrite Hrow. autounfold with queries. rewrite insert_calm by done. unfold ins.
  change (w_db (tick_seed w)) with (w_db w). by rewrite Hk.
Qed.

Lemma Success_told Q p w w' : Q p → Success p w = (w', Ok tt) → told Q w w'.
Proof using.
  intros HQ E. exists w, p. split_and!; [done..|]. intros Hc. split; [done|]. intros ev row Hev Hrow Hk.
  rewrite <- (Success_recorded p w ev row Hc Hev Hrow Hk). by rewrite E.
Qed.

Lemma told_from Q w w1 w' : (calm w → calm w1) → told Q w1 w' → told Q w w'.
Proof using. intros Hc (w2 & p & E & HQ & Ht). exists w2, p. split_and!; [done..|]. auto. Qed.

(** A computation that only succeeds, with a result in [P], by telling of it. *)
Definition tells {A} (Q : NewAuditParams → Prop) (P : A → Prop) (m : M World A) : Prop :=
  ∀ w w' a, m w = (w', Ok a) → P a → told Q w w'.
(** A computation that leaves the world alone. *)
Definition idle {A} (m : M World A) : Prop := ∀ w w' a, m w = (w', Ok a) → w' = w.

Lemma tells_never {A} Q P (m : M World A) : never_ok m → tells Q P m.
Proof using. intros Hn w w' a E. by apply Hn in E. Qed.
Lemma tells_not {A} Q P (a : A) : ¬ P a → tells Q P (ret a).
Proof using. by intros Hn w w' b [_ ->]%ret_ok. Qed.
Lemma tells_handle {A B} Q P (m : M World A) h (k : A → M World B) :
  keeps calm m (λ _, True) → (∀ e, tells Q P (h e)) → (∀ a, tells Q P (k a)) → tells Q P (mcatch m h k).
Proof using.
  intros Hm Hh Hk w w' b E Hb.
  assert (Hc : calm w → calm (m w).1) by (intros Hw; by apply Hm).
  apply mcatch_ok in E as [(w1 & a & Em & E)|(w1 & e & Em & E)]; rewrite Em in Hc;
    apply (told_from _ _ w1); [done|by eapply Hk|done|by eapply Hh].
Qed.
Lemma tells_catch {A B} Q P (m : M World A) h (k : A → M World B) :
  keeps calm m (λ _, True) → (∀ e, never_ok (h e)) → (∀ a, tells Q P (k a)) → tells Q P (mcatch m h k).
Proof using. intros Hm Hh. apply tells_handle; [done|]. intros e. by apply tells_never. Qed.
Lemma tells_bind {A B} Q P (m : M World A) (k : A → M World B) :
  keeps calm m (λ _, True) → (∀ a, tells Q P (k a)) → tells Q P (gobind m k).
Proof using. intros Hm Hk. apply tells_catch; [done| |done]. intros e. apply never_throw. Qed.
Lemma tells_lift {A B} Q P (r : res A) (k : A → M World B) :
  (∀ a, r = Ok a → tells Q P (k a)) → tells Q P (gobind (lift r) k).
Proof using. intros Hk w w' b (w1 & a & [E ->]%lift_ok & Ek)%gobind_ok. by eapply Hk. Qed.
Lemma tells_catch_lift {A B} Q P (r : res A) h (k : A → M World B) :
  (∀ e, never_ok (h e)) → (∀ a, r = Ok a → tells Q P (k a)) → tells Q P (mcatch (lift r) h k).
Proof using. intros Hh Hk w w' b (w1 & a & [E ->]%lift_ok & Ek)%mcatch_ok_never; [|done]. by eapply Hk. Qed.
Lemma tells_success Q P p : Q p → tells Q P (Success p).
Proof using. intros HQ w w' [] E _. by eapply Success_told. Qed.
Lemma tells_success_then {A} Q P p (m : M World A) : Q p → idle m → tells Q P (Success p ;;; m).
Proof using. intros HQ Hm w w' a (w1 & [] & E & ->%Hm)%gobind_ok _. by eapply Success_told. Qed.
Lemma tells_void {A} Q P (m : M World A) : tells Q (λ _, True) m → tells Q P (void m).
Proof using. intros Hm w w' [] (w1 & a & E & [-> _]%ret_ok)%gobind_ok _. by eapply Hm. Qed.

Lemma idle_ret {A} (a : A) : idle (ret a).
Proof using. by intros w w' b [-> _]%ret_ok. Qed.
Lemma idle_now {A} (k : Time → A) : idle (gobind time_now (λ now, ret (k now))).
Proof using. by intros w w' b (w1 & t & [_ ->]%now_ok & [-> _]%ret_ok)%gobind_ok. Qed.

(** ** What each request owes the log *)

(** The type of event a request leaves when it succeeds; the reads leave none. *)
Definition type_of_event (r : Rpc) : option Z :=
  match r with
  | CreateUser _ _ => Some 1 | UpdateUser _ _ => Some 4 | DisableUser _ _ _ => Some 5
  | EnableUser _ _ _ => Some 6 | SoftDeleteUser _ _ _ => Some 7 | PermanentlyDeleteUser _ _ _ => Some 8
  | CreateApp _ _ _ _ => Some 21 | UpdateApp _ _ => Some 24 | DisableApp _ _ _ => Some 25
  | EnableApp _ _ _ => Some 26 | EnterMaintenanceMode _ _ _ => Some 27
  | ExitMaintenanceMode _ _ _ => Some 28 | PermanentlyDeleteApp _ _ _ => Some 29
  | CreateRole _ _ _ _ _ => Some 41 | UpdateRole _ _ => Some 44 | DisableRole _ _ _ => Some 45
  | EnableRole _ _ _ => Some 46 | PermanentlyDeleteRole _ _ _ => Some 47
  | CreateServiceAccount _ _ _ => Some 61 | UpdateServiceAccount _ _ => Some 64
  | RotateCredentials _ _ _ => Some 65 | DisableServiceAccount _ _ _ => Some 66
  | EnableServiceAccount _ _ _ => Some 67 | PermanentlyDeleteServiceAccount _ _ _ => Some 68
  | GrantRoleToUser _ _ _ _ => Some 85 | RemoveRoleFromUser _ _ _ => Some 86
  | BulkGrantRoles _ _ _ _ _ => Some 87 | BulkRemoveRoles _ _ _ _ => Some 88
  | Register _ => Some 101 | Login _ => Some 102 | Logout _ _ => Some 103 | Refresh _ => Some 104
  | ChangePassword _ _ => Some 106 | RevokeSession _ _ _ => Some 108 | RevokeAllSessions _ _ _ _ => Some 109
  | RevokeToken _ _ _ => Some 110 | GenerateRecoveryCodes _ _ _ => Some 111
  | ResetPasswordWithRecoveryCode _ => Some 112 | AuthenticateServiceAccount _ => Some 113
  | _ => None
  end.

(** Who asks: the caller the interceptor put in the context, or the address an
    anonymous request comes from. *)
Definition asked_by (r : Rpc) : Ctx + string * string :=
  match r with
  | CreateUser ctx _ | UpdateUser ctx _ | DisableUser ctx _ _ | EnableUser ctx _ _ | SoftDeleteUser ctx _ _
  | PermanentlyDeleteUser ctx _ _ | CreateApp ctx _ _ _ | UpdateApp ctx _ | DisableApp ctx _ _
  | EnableApp ctx _ _ | EnterMaintenanceMode ctx _ _ | ExitMaintenanceMode ctx _ _
  | PermanentlyDeleteApp ctx _ _ | CreateRole ctx _ _ _ _ | UpdateRole ctx _ | DisableRole ctx _ _
  | EnableRole ctx _ _ | PermanentlyDeleteRole ctx _ _ | CreateServiceAccount ctx _ _
  | UpdateServiceAccount ctx _ | RotateCredentials ctx _ _ | DisableServiceAccount ctx _ _
  | EnableServiceAccount ctx _ _ | PermanentlyDeleteServiceAccount ctx _ _ | GrantRoleToUser ctx _ _ _
  | RemoveRoleFromUser ctx _ _ | BulkGrantRoles ctx _ _ _ _ | BulkRemoveRoles ctx _ _ _ | Logout ctx _
  | ChangePassword ctx _ | RevokeSession ctx _ _ | RevokeAllSessions ctx _ _ _ | RevokeToken ctx _ _
  | GenerateRecoveryCodes _ ctx _ => inl ctx
  | Register i => inr (rg_IpAddress i, rg_UserAgent i)
  | Login i => inr (lg_IpAddress i, lg_UserAgent i)
  | ResetPasswordWithRecoveryCode i => inr (rs_IpAddress i, rs_UserAgent i)
  | AuthenticateServiceAccount i => inr (as_IpAddress i, as_UserAgent i)
  | _ => inr ("", "")
  end.

(** What the request names as its subject. *)
Definition asked_of (r : Rpc) : option (Z * string) :=
  match r with
  | UpdateUser _ i => Some (SubjectTypeUser, uu_UserID i)
  | DisableUser _ id _ | EnableUser _ id _ | SoftDeleteUser _ id _ | PermanentlyDeleteUser _ id _
  | GrantRoleToUser _ id _ _ | RemoveRoleFromUser _ id _ | BulkGrantRoles _ id _ _ _
  | BulkRemoveRoles _ id _ _ | GenerateRecoveryCodes _ _ id | RevokeAllSessions _ id _ _ =>
      Some (SubjectTypeUser, id)
  | ChangePassword _ i => Some (SubjectTypeUser, cw_UserID i)
  | UpdateApp _ i => Some (SubjectTypeApp, ua_AppID i)
  | DisableApp _ id _ | EnableApp _ id _ | EnterMaintenanceMode _ id _ | ExitMaintenanceMode _ id _
  | PermanentlyDeleteApp _ id _ | CreateRole _ id _ _ _ => Some (SubjectTypeApp, id)
  | UpdateRole _ i => Some (SubjectTypeRole, ur_RoleID i)
  | DisableRole _ id _ | EnableRole _ id _ | PermanentlyDeleteRole _ id _ => Some (SubjectTypeRole, id)
  | UpdateServiceAccount _ i => Some (SubjectTypeServiceAccount, us_ServiceAccountID i)
  | RotateCredentials _ id _ | DisableServiceAccount _ id _ | EnableServiceAccount _ id _
  | PermanentlyDeleteServiceAccount _ id _ => Some (SubjectTypeServiceAccount, id)
  | RevokeSession _ _ id => Some (SubjectTypeSession, id)
  | _ => None
  end.

Record accountable (r : Rpc) (p : NewAuditParams) : Prop := {
  ac_event : type_of_event r = Some (ap_EventType p) ∧ EventType_IsKnown (ap_EventType p) = true;
  ac_actor : match asked_by r with
    | inl ctx => ∃ a, From_ctx ctx = Some a ∧ ap_ActorType p = MapActorKind (a_Kind a) ∧
        ap_ActorID p = a_ID a ∧ ap_IpAddress p = a_IpAddress a ∧ ap_UserAgent p = a_UserAgent a
    | inr (ip, ua) => ap_ActorType p = ActorTypeAnonymous ∧ ap_ActorID p = "" ∧
        ap_IpAddress p = ip ∧ ap_UserAgent p = ua
    end;
  ac_subject : ∀ ty id, asked_of r = Some (ty, id) → ap_SubjectType p = ty ∧ ap_SubjectID p = id }.

(** The request accepts that its target does not exist. *)
Definition allow_missing (r : Rpc) : bool :=
  match r with
  | DisableUser _ _ b | EnableUser _ _ b | SoftDeleteUser _ _ b | DisableApp _ _ b | EnableApp _ _ b
  | EnterMaintenanceMode _ _ b | ExitMaintenanceMode _ _ b | DisableRole _ _ b | EnableRole _ _ b
  | DisableServiceAccount _ _ b | EnableServiceAccount _ _ b => b
  | _ => false
  end.


Lemma Require_actor_ok ctx a : Require_actor ctx = Ok a → From_ctx ctx = Some a.
Proof using. unfold Require_actor. case_match; congruence. Qed.
Lemma uuid_guard (s x : string) e : (if rt_uuid_valid s then Ok s else Err e) = Ok x → x = s.
Proof using. case_match; congruence. Qed.
Lemma bulk_user u a rs act uid aid rids actor :
  parseBulkInput u a rs act = Ok (uid, aid, rids, actor) → uid = u.
Proof using.
  unfold parseBulkInput. do 2 (case_decide; [done|]). intros (u' & Hu & E)%rbind_ok.
  apply uuid_guard in Hu as ->. apply rbind_ok in E as (a' & _ & E). apply rbind_ok in E as (act' & _ & E).
  apply rbind_ok in E as (l & _ & E). congruence.
Qed.

Ltac owes := split;
  [ by split
  | simpl; first [done | eexists; split; [by apply Require_actor_ok|done]]
  | intros ? ?; simpl; first [done | intros [= <- <-]; split; [done|];
      first [by eapply uuid_guard|simpl; by eapply bulk_user]] ].
Ltac idles := first [apply idle_ret|apply idle_now].
Ltac quietly := solve [calm_walk].
Ltac tells_step :=
  lazymatch goal with
  | |- tells _ _ (gobind (lift _) _) => apply tells_lift; intros ? ?
  | |- tells _ _ (mcatch (lift _) _ _) => apply tells_catch_lift; [never|intros ? ?]
  | |- tells _ _ (Success _) => apply tells_success
  | |- tells _ _ (Success _ ;;; _) => apply tells_success_then; [|idles]
  | |- tells _ _ (gobind _ _) => apply tells_bind; [quietly|intros ?]
  | |- tells _ _ (mcatch _ _ _) =>
      first [apply tells_catch; [quietly|solve [never]|intros ?] | apply tells_handle; [quietly|intros ?|intros ?]]
  | |- tells _ _ (throw _) => apply tells_never; never
  | |- tells _ _ (fail _ _ _) => apply tells_never; never
  | |- tells _ _ (deny _ _ _) => apply tells_never; never
  | |- tells _ _ (audit_error _ _ _) => apply tells_never; never
  | |- tells _ _ (ret None) => apply tells_not; congruence
  | |- tells _ _ (let _ := _ in _) => cbv zeta
  | |- tells _ _ (match ?x with _ => _ end) => destruct x eqn:?
  | |- accountable _ _ => owes
  | |- tells _ _ ?m => let rec go t := lazymatch t with ?f _ => go f | ?c => unfold c end in go m
  end.

Context `{JsonCodec IdentityService.pageToken} `{JsonCodec AppService.pageToken}
  `{JsonCodec RoleService.pageToken} `{JsonCodec ServiceAccountService.pageToken}
  `{JsonCodec AccessService.pageToken} `{JsonCodec AuditService.pageToken}
  `{JsonCodec sessionsPageToken}.
#[local] Hint Resolve calm_generate calm_bulk_insert calm_fetch calm_mint : sso.


(** The target of a request that allows it to be missing was looked up in vain. *)
Definition settles {A} (r : Rpc) (P : A → Prop) (m : M World A) : Prop :=
  ∀ w w' a, m w = (w', Ok a) → P a →
    told (accountable r) w w' ∨ allow_missing r = true ∧ w' = after_stmt w.

Lemma settles_tells {A} r P (m : M World A) : tells (accountable r) P m → settles r P m.
Proof using. intros Hm w w' a E HP. left. by eapply Hm. Qed.
Lemma settles_lift {A B} r P (x : res A) (k : A → M World B) :
  (∀ a, x = Ok a → settles r P (k a)) → settles r P (gobind (lift x) k).
Proof using. intros Hk w w' b (w1 & a & [E ->]%lift_ok & Ek)%gobind_ok. by eapply Hk. Qed.
Lemma settles_void {A} r P (m : M World A) : settles r (λ _, True) m → settles r P (void m).
Proof using. intros Hm w w' [] (w1 & a & E & [-> _]%ret_ok)%gobind_ok _. by eapply Hm. Qed.

Lemma settles_lookup {A} r P (m : M World A) s aud c (k : A → M World unit) :
  keeps calm m (λ _, True) → (∀ w w' e, m w = (w', Err e) → errors_is e s = true → w' = after_stmt w) →
  (∀ a, tells (accountable r) P (k a)) →
  settles r P (mcatch m (λ err, if allow_missing r && errors_is err s then ret tt else audit_error c aud err) k).
Proof using.
  intros Hm Hs Hk w w' a E HP. assert (Hc : calm w → calm (m w).1) by (intros Hw; by apply Hm).
  apply mcatch_ok in E as [(w1 & b & Em & E)|(w1 & e & Em & E)]; rewrite Em in Hc.
  - left. apply (told_from _ _ w1); [done|by eapply Hk].
  - right. destruct (allow_missing r && errors_is e s) eqn:Eb; [|by apply never_audit_error in E].
    apply andb_true_iff in Eb as [Hr He]. apply ret_ok in E as [-> _]. split; [done|]. by eapply Hs.
Qed.

Lemma lookup_missing {A R} (f : DB → option R) s msg (k : R → A) w w' e :
  mcatch (query_one f) (λ err, if errors_is_no_rows err then throw (ESentinel s) else throw (EWrap msg err))
    (λ r, ret (k r)) w = (w', Err e) → w' = after_stmt w.
Proof using.
  unfold mcatch. destruct (query_one f w) as [w1 [r|e1]] eqn:E; [done|].
  apply query_one_err in E as [-> _]. by destruct (errors_is_no_rows e1); intros [= <- _].
Qed.
Lemma user_missing id w w' e : IdentityRepo.GetByID id w = (w', Err e) → w' = after_stmt w.
Proof using. apply lookup_missing. Qed.
Lemma app_missing id w w' e : AppRepo.GetByID id w = (w', Err e) → w' = after_stmt w.
Proof using. apply lookup_missing. Qed.
Lemma sa_missing id w w' e : ServiceAccountRepo.GetByID id w = (w', Err e) → w' = after_stmt w.
Proof using. apply lookup_missing. Qed.
(** The permissions are only read once the role was found. *)
Lemma role_missing id w w' e :
  RoleRepo.GetByID id w = (w', Err e) → errors_is e role_ErrRoleNotFound = true → w' = after_stmt w.
Proof using.
  unfold RoleRepo.GetByID. autounfold with queries. unfold mcatch at 1.
  destruct (query_one _ w) as [w1 [r|e1]] eqn:E.
  - unfold GetRolePermissions, query, exec, mcatch.
    destruct (next_fault w1); cbn -[transport_error]; intros [= <- <-]; done.
  - apply query_one_err in E as [-> _]. by destruct (errors_is_no_rows e1); intros [= <- _].
Qed.

Ltac settles_step :=
  lazymatch goal with
  | |- settles _ _ (gobind (lift _) _) => apply settles_lift; intros ? ?
  | |- settles ?r _ (mcatch (?get _) _ _) =>
      apply (settles_lookup r); [quietly|
        intros ? ? ? Hget ?; first [by apply user_missing in Hget|by apply app_missing in Hget|by apply sa_missing in Hget
          |by eapply role_missing]
      | intros ?; repeat tells_step]
  | |- settles _ _ (let _ := _ in _) => cbv zeta
  | |- settles _ _ ?m => let rec go t := lazymatch t with ?f _ => go f | ?c => unfold c end in go m
  end.

(** The generator of recovery codes did not run out of fuel. *)
Definition fuelled (r : Rpc) (w : World) : Prop :=
  match r with
  | GenerateRecoveryCodes fuel ctx u => (AuthPassword.GenerateRecoveryCodes fuel ctx u w).2 ≠ Ok None
  | _ => True
  end.

Lemma codes_tell fuel ctx u :
  tells (accountable (GenerateRecoveryCodes fuel ctx u)) (λ x, x ≠ None) (AuthPassword.GenerateRecoveryCodes fuel ctx u).
Proof using. repeat tells_step. Qed.

Lemma run_settles r w w' : type_of_event r ≠ None → fuelled r w → run cfg r w = (w', Ok tt) →
  told (accountable r) w w' ∨ allow_missing r = true ∧ w' = after_stmt w.
Proof using.
  intros Hr Hf E.
  assert (Hs : settles r (λ _, ∀ fuel ctx u, r ≠ GenerateRecoveryCodes fuel ctx u) (run cfg r)).
  { clear Hf E. destruct r; try done; unfold run;
      first [ solve [apply settles_void; repeat settles_step] | solve [apply settles_tells, tells_void; repeat tells_step]
            | by intros ? ? ? _ Hn; destruct (Hn _ _ _ eq_refl)].
  }
  destruct r; try (by eapply Hs).
  left. apply gobind_ok in E as (w1 & x & E & [-> _]%ret_ok). eapply codes_tell; [exact E|].
  intros ->. apply Hf. by rewrite E.
Qed.

(** The other requests only read. *)
Definition frozen (d : DB) (w : World) : Prop := w_env w = [] ∧ w_db w = d.

Lemma frozen_query {A} d (f : DB → A) : keeps (frozen d) (query f) (λ _, True).
Proof using.
  intros w [He <-]. split; [|done]. unfold query, exec, interfere. rewrite He. by destruct (next_fault w).
Qed.
Lemma frozen_query_one {A} d (f : DB → option A) : keeps (frozen d) (query_one f) (λ _, True).
Proof using.
  intros w [He <-]. split; [|done]. unfold query_one, exec, interfere. rewrite He.
  destruct (next_fault w); [|done|]; simpl; by destruct (f _).
Qed.
#[local] Hint Resolve frozen_query frozen_query_one : sso.

Lemma frozen_hydrate d l : keeps (frozen d) (hydrate_roles l) (λ _, True).
Proof using. induction l as [|r l IH]; simpl; calm_walk. Qed.
#[local] Hint Resolve frozen_hydrate : sso.
Lemma frozen_admin d : keeps (frozen d) resolveAdminAppID (λ _, True).
Proof using. unfold resolveAdminAppID. calm_walk. by intros w [? ?]. Qed.
#[local] Hint Resolve frozen_admin : sso.

Lemma reads_freeze r w : type_of_event r = None → w_env w = [] → w_db (run cfg r w).1 = w_db w.
Proof using.
  intros Hr He. assert (Hk : keeps (frozen (w_db w)) (run cfg r) (λ _, True)).
  { destruct r; try done; unfold run, CanReadAudit, AccessBackedAuthorizer; calm_walk. }
  apply (Hk w). by split.
Qed.


End Trail.

(** ** Instances *)

Section Witness.
#[local] Existing Instance toy.
#[local] Instance codec T : JsonCodec T := no_codec T.

Definition toy_params : NewAuditParams :=
  mkNewAuditParams "" 102 ActorTypeAnonymous "" SubjectTypeUser "idu" "idp" OutcomeFailure
    ReasonPasswordMismatch "10.0.0.1" "curl" {[ "Password" := "hunter2"; "step" := "2" ]} 0.
Definition toy_event : Audit :=
  match NewAudit (Ok "id7") t0 toy_params with
  | Ok a => a
  | Err _ => mkAudit "" 0 0 "" 0 "" "" 0 "" None "" ∅ 0
  end.

Lemma NewAudit_wf_witness : audit_wf toy_event.
Proof. apply (NewAudit_wf "id7" t0 toy_params). vm_compute. reflexivity. Defined.

(** The user revokes a session of theirs: the log ends with the fact. *)
Definition revoking : Rpc := RevokeSession toy_ctx "idu" "idy".



Lemma Sanitize_redacts_witness :
  au_metadata (Sanitize toy_event) !! "Password" = Some RedactedPlaceholder ∧
  au_metadata (Sanitize toy_event) !! "step" = Some "2".
Proof.
  assert (Hwf : audit_wf toy_event) by (apply (audit_ok_wf (Ok "id7") t0 toy_params); vm_compute; reflexivity).
  split; rewrite (proj2 (Sanitize_redacts toy_event Hwf)); vm_compute; reflexivity.
Defined.

Lemma Emit_best_effort_witness :
  (fail (A := unit) toy_params "no" ENoRows (load [NoFault; FailAfter] [] toy_world)).2 = Err ENoRows.
Proof.
  apply (Emit_best_effort toy_params (load [NoFault; FailAfter] [] toy_world) ENoRows "no" (λ _, (0, ""))).
  reflexivity.
Defined.

Lemma audit_log_append_only_witness :
  ∃ new,
    let d := w_db (run toy_cfg (Rpc.Refresh "rx")
                     (load [] [] (auditPurge 5 t0 false 100 0 (load [] [] toy_world)).1)).1 in
    let keep := λ r, negb (older t0 r) in
    db_audit_events d `sublist_of` db_audit_events toy_db ++ new ∧
    sel keep (db_audit_events d) = sel keep (db_audit_events toy_db ++ new) ∧ Forall event_row new.
Proof.
  apply (audit_log_append_only toy_cfg (λ r, negb (older t0 r)) toy_world).
  eapply rtc_l; [|apply rtc_once, step_rpc; constructor].
  apply step_command, (command_purge toy_cfg _ _ _ _ toy_world 5 t0 false 100 0 [] []); [constructor|].
  intros r Hr. by apply negb_true_iff.
Defined.



End Witness.
