(* ===== verification/AccessFacts.v ===== *)
(** * AccessFacts: decisions and grants of the access service.

    Requests are exactly the [resource:action] strings of two lower-case
    identifiers; a stored permission covers a request when it is equal to it
    or is the wildcard [resource:*] of its resource; the check follows the
    assignments of the user to active roles of the application. *)
From stdpp Require Import gmap.
From S2P Require Import Prelude Errors Sql Monad Runtime Listing Kernel AuditDomain World.
From S2P Require Import Identity IdentityRepo App AppRepo Role RoleRepo Access AccessRepo AuditRepo.
From S2P Require Import AccessService AuditService AuthBase Outcome Permission Scenario.
Local Open Scope Z_scope.


(** ** Requests *)

(** [\[a-z\]\[a-z0-9_\]*], spelled out. *)
Definition lower_ident (s : string) : Prop :=
  match string_to_list s with
  | [] => False
  | c :: cs => is_lower c = true ∧ Forall (λ c, is_lower c || is_digit c || is_underscore c = true) cs
  end.

Lemma lower_ident_loop_tail i s :
  (0 < i)%nat →
  lower_ident_loop i s = true ↔
  Forall (λ c, is_lower c || is_digit c || is_underscore c = true) (string_to_list s).
Proof.
  revert i. induction s as [|c s IH]; intros i Hi; simpl; [by split|].
  rewrite andb_true_iff, Forall_cons, (IH (S i)) by lia.
  rewrite !bool_decide_eq_true_2 by lia. by rewrite !andb_true_l.
Qed.

Lemma isLowerIdent_spec s : isLowerIdent s = true ↔ lower_ident s.
Proof.
  unfold isLowerIdent, lower_ident. destruct s as [|c s]; [by split|]. simpl.
  rewrite andb_true_iff, lower_ident_loop_tail by lia.
  by rewrite !orb_false_r.
Qed.

(** *** Splitting at the first colon *)

Lemma append_nil_l (s : string) : "" +:+ s = s.
Proof. done. Qed.
Lemma append_String c (a b : string) : String c a +:+ b = String c (a +:+ b).
Proof. done. Qed.

Lemma index_byte_app a b c :
  c ∉ string_to_list a → index_byte (a +:+ String c b) c = Some (String.length a).
Proof.
  induction a as [|d a IH]; intros Hc.
  - rewrite append_nil_l. simpl. by rewrite decide_True.
  - rewrite append_String. simpl in *. apply not_elem_of_cons in Hc as [Hd Ha].
    by rewrite decide_False, IH.
Qed.

Lemma take_s_app a b : take_s (String.length a) (a +:+ b) = a.
Proof. induction a as [|d a IH]; [by destruct b|]. rewrite append_String. simpl. by rewrite IH. Qed.

Lemma drop_s_app a c b : drop_s (S (String.length a)) (a +:+ String c b) = b.
Proof. induction a as [|d a IH]; [by destruct b|]. rewrite append_String. exact IH. Qed.

Lemma drop_s_length a b : drop_s (String.length a) (a +:+ b) = b.
Proof. induction a as [|d a IH]; [by destruct b|]. rewrite append_String. exact IH. Qed.

Lemma index_byte_Some s c i :
  index_byte s c = Some i →
  s = take_s i s +:+ String c (drop_s (S i) s) ∧ c ∉ string_to_list (take_s i s) ∧
  String.length (take_s i s) = i.
Proof.
  revert i. induction s as [|d s IH]; intros i; simpl; [done|]. case_decide as E.
  - intros [= <-]. subst d. simpl. destruct s; set_solver.
  - destruct (index_byte s c) as [j|] eqn:Ej; simpl; [|done]. intros [= <-]. simpl.
    destruct (IH j eq_refl) as (Hs & Hn & Hl). rewrite append_String. split_and!.
    + f_equal. exact Hs.
    + set_solver.
    + by f_equal.
Qed.

Lemma len_length s : len s = Z.of_nat (String.length s).
Proof. induction s; simpl; lia. Qed.

Lemma length_s_app a b : String.length (a +:+ b) = (String.length a + String.length b)%nat.
Proof. induction a as [|c a IH]; [done|]. rewrite append_String. simpl. by rewrite IH. Qed.

Lemma lower_ident_no_colon s : lower_ident s → colon ∉ string_to_list s.
Proof.
  unfold lower_ident. destruct (string_to_list s) as [|c cs]; [done|]. intros [Hc Hcs].
  rewrite not_elem_of_cons. split; [intros <-; by vm_compute in Hc|].
  rewrite Forall_forall in Hcs. intros Hin. apply Hcs in Hin. by vm_compute in Hin.
Qed.

Lemma lower_ident_nonempty s : lower_ident s → (0 < String.length s)%nat.
Proof. destruct s; simpl; [done|lia]. Qed.

(** The requests that pass are the strings [resource:action] of 3 to 64 bytes
    whose two parts are lower-case identifiers. *)
Theorem validatePermissionRequest_spec p :
  validatePermissionRequest p = Ok tt ↔
  3 <= len p <= 64 ∧ ∃ res act, p = res +:+ String colon act ∧ lower_ident res ∧ lower_ident act.
Proof.
  unfold validatePermissionRequest. split.
  - case_decide as Hlen; [done|]. intros E. split; [lia|].
    destruct (index_byte p colon) as [i|] eqn:Ei; [|done]. case_decide as Hi; [done|].
    destruct (index_byte_Some _ _ _ Ei) as (Hp & _).
    exists (take_s i p), (drop_s (S i) p). split; [exact Hp|]. rewrite <- !isLowerIdent_spec.
    destruct (isLowerIdent (take_s i p)), (isLowerIdent (drop_s (S i) p)); done.
  - intros [Hlen (res & act & -> & Hres & Hact)]. rewrite decide_False by lia.
    rewrite index_byte_app by by apply lower_ident_no_colon.
    pose proof (lower_ident_nonempty _ Hres). pose proof (lower_ident_nonempty _ Hact).
    rewrite decide_False.
    + rewrite take_s_app, drop_s_app. apply isLowerIdent_spec in Hres as ->, Hact as ->. done.
    + rewrite len_length, length_s_app. simpl. lia.
Qed.

Lemma string_to_list_append a b : string_to_list (a +:+ b) = string_to_list a ++ string_to_list b.
Proof. induction a as [|c a IH]; [done|]. rewrite append_String. simpl. by rewrite IH. Qed.

Lemma append_inj_r a b t : a +:+ t = b +:+ t → a = b.
Proof.
  intros E. apply string_to_list_inj. apply (f_equal string_to_list) in E.
  rewrite !string_to_list_append in E. by apply app_inv_tail in E.
Qed.

(** ** Matching *)

(** A stored permission covers [resource:action] literally or as [resource:*]. *)
Definition covers (perm res act : string) : Prop :=
  perm = res +:+ String colon act ∨ perm = res +:+ ":*".

Lemma HasSuffix_spec s t : HasSuffix s t = true ↔ ∃ a, s = a +:+ t.
Proof.
  unfold HasSuffix. rewrite andb_true_iff, !bool_decide_eq_true, !len_length. split.
  - intros [Hle Hd]. exists (take_s (String.length s - String.length t) s).
    rewrite <- (take_drop_s (String.length s - String.length t) s) at 1. by rewrite Hd.
  - intros [a ->]. rewrite length_s_app. split; [lia|].
    replace (_ + _ - _)%nat with (String.length a) by lia. apply drop_s_length.
Qed.

Lemma row_matches_spec res act r :
  colon ∉ string_to_list res → res ≠ "" →
  row_matches (res +:+ String colon act) r = true ↔ covers (pr_Permission r) res act.
Proof.
  intros Hc Hne. unfold row_matches, covers.
  assert (Hres : resource_of (res +:+ String colon act) = res).
  { unfold resource_of. rewrite index_byte_app by done. destruct res as [|d res]; [done|].
    change (String.length (String d res)) with (S (String.length res)).
    exact (take_s_app (String d res) _). }
  case_decide as E; [by split; [left|]|]. rewrite Hres.
  destruct (HasSuffix _ _) eqn:Es.
  - apply HasSuffix_spec in Es as [a Ha]. rewrite bool_decide_eq_true, Ha, length_s_app.
    replace (_ + _ - 2)%nat with (String.length a) by (simpl; lia). rewrite take_s_app. split.
    + intros ->. by right.
    + intros [Hl|Hr]; [congruence|]. by apply append_inj_r in Hr.
  - split; [done|]. intros [?|Hr]; [done|].
    enough (HasSuffix (pr_Permission r) ":*" = true) by congruence. apply HasSuffix_spec. eauto.
Qed.

Lemma matchPermissions_elem rows requested rid :
  rid ∈ matchPermissions rows requested ↔
  ∃ r, r ∈ rows ∧ pr_RoleID r = rid ∧ row_matches requested r = true.
Proof.
  unfold matchPermissions.
  assert (Hgen : ∀ out : gset string, rid ∈ fold_left
      (λ out r, if row_matches requested r then {[pr_RoleID r]} ∪ out else out) rows out ↔
    rid ∈ out ∨ ∃ r, r ∈ rows ∧ pr_RoleID r = rid ∧ row_matches requested r = true).
  { induction rows as [|r rows IH]; intros out; simpl; [set_solver|]. rewrite IH.
    setoid_rewrite elem_of_cons. destruct (row_matches requested r) eqn:E.
    - rewrite elem_of_union, elem_of_singleton. naive_solver.
    - naive_solver congruence. }
  rewrite Hgen, elem_of_empty. naive_solver.
Qed.

Lemma request_resource_nonempty requested res act :
  validatePermissionRequest requested = Ok tt → requested = res +:+ String colon act →
  colon ∉ string_to_list res → res ≠ "".
Proof.
  intros Hv -> Hc ->. unfold validatePermissionRequest in Hv. case_decide; [done|].
  by rewrite index_byte_app in Hv.
Qed.

(** The roles a request matches are the roles that hold a permission covering
    it. *)
Theorem matchPermissions_spec rows requested res act rid :
  validatePermissionRequest requested = Ok tt → requested = res +:+ String colon act →
  colon ∉ string_to_list res →
  rid ∈ matchPermissions rows requested ↔
  ∃ r, r ∈ rows ∧ pr_RoleID r = rid ∧ covers (pr_Permission r) res act.
Proof.
  intros Hv -> Hc. rewrite matchPermissions_elem.
  assert (Hne : res ≠ "") by by eapply request_resource_nonempty.
  split; intros (r & Hr & Hid & Hm); exists r; (split_and!; [done..|]); by apply row_matches_spec.
Qed.

Lemma matchPermissions_spec_witness :
  "idr" ∈ matchPermissions [mkPermissionRow "idr" "orders:*"; mkPermissionRow "ids" "stock:read"] "orders:read".
Proof.
  apply (matchPermissions_spec _ "orders:read" "orders" "read" "idr").
  - vm_compute. reflexivity.
  - reflexivity.
  - vm_compute. intros H. repeat (inversion H as [|? ? ? H']; subst; clear H; rename H' into H).
  - exists (mkPermissionRow "idr" "orders:*"). split_and!; [by left|done|]. by right.
Defined.

(** ** The access service *)

Section AccessFacts.
Context `{Runtime}.

Definition user_exists (u : string) (d : DB) : Prop := ∃ r, sel_one (IdentityRepo.where_id u) (db_users d) = Some r.
Definition app_exists (a : string) (d : DB) : Prop := ∃ r, sel_one (AppRepo.where_id a) (db_apps d) = Some r.

(** The user holds, through an assignment in the application, an active role
    with a permission that covers [res:act]. *)
Definition holds_permission (d : DB) (u a res act rid : string) : Prop :=
  ∃ ra r rp, ra ∈ db_role_assignments d ∧ r ∈ db_roles d ∧ rp ∈ db_role_permissions d ∧
    rt_collate (Access.r_UserID ra) u = true ∧ rt_collate (Access.r_AppID ra) a = true ∧
    rt_collate (Role.r_ID r) (Access.r_RoleID ra) = true ∧ Role.r_Status r = RoleStatusActive ∧
    rt_collate (rp_RoleID rp) (Role.r_ID r) = true ∧
    covers (rp_Permission rp) res act ∧ Role.r_ID r = rid.

Lemma active_permissions_elem u a d p :
  p ∈ active_permissions u a activeRoleStatus d ↔
  ∃ ra r rp, ra ∈ db_role_assignments d ∧ r ∈ db_roles d ∧ rp ∈ db_role_permissions d ∧
    rt_collate (Access.r_UserID ra) u = true ∧ rt_collate (Access.r_AppID ra) a = true ∧
    rt_collate (Role.r_ID r) (Access.r_RoleID ra) = true ∧ Role.r_Status r = activeRoleStatus ∧
    rt_collate (rp_RoleID rp) (Role.r_ID r) = true ∧ p = mkPermissionRow (Role.r_ID r) (rp_Permission rp).
Proof.
  unfold active_permissions. rewrite list_elem_of_bind. setoid_rewrite list_elem_of_bind.
  setoid_rewrite list_elem_of_bind. setoid_rewrite elem_of_sel.
  setoid_rewrite andb_true_iff. setoid_rewrite bool_decide_eq_true.
  setoid_rewrite list_elem_of_singleton. split.
  - intros (ra & (r & (rp & -> & ? & ?) & ? & ? & ?) & ? & ? & ?). by exists ra, r, rp.
  - intros (ra & r & rp & ? & ? & ? & ? & ? & ? & ? & ? & ->).
    exists ra. split; [|done]. exists r. split; [|done]. by exists rp.
Qed.

Lemma requireUserExists_calm u w :
  calm w → user_exists u (w_db w) → requireUserExists u w = (w, Ok tt).
Proof.
  intros Hc [r Hr]. unfold requireUserExists, IdentityRepo.GetByID, mcatch; autounfold with queries.
  by rewrite query_one_calm, Hr.
Qed.

Lemma requireAppExists_calm a w :
  calm w → app_exists a (w_db w) → requireAppExists a w = (w, Ok tt).
Proof.
  intros Hc [r Hr]. unfold requireAppExists, AppRepo.GetByID, mcatch; autounfold with queries.
  by rewrite query_one_calm, Hr.
Qed.

Lemma parseCheckInput_one u a p :
  rt_uuid_valid u = true → rt_uuid_valid a = true → validatePermissionRequest p = Ok tt →
  parseCheckInput u a [p] = Ok (u, a, [p]).
Proof.
  intros Hu Ha Hp. unfold parseCheckInput. rewrite decide_False by done.
  rewrite decide_False by (vm_compute; lia).
  unfold Access.ParseUserID, Access.ParseAppID. by rewrite Hu, Ha; simpl; rewrite Hp.
Qed.

(** The roles matched among the active permissions of a user. *)
Lemma matched_elem u a d p res act rid :
  validatePermissionRequest p = Ok tt → p = res +:+ String colon act → colon ∉ string_to_list res →
  rid ∈ elements (matchPermissions (active_permissions u a activeRoleStatus d) p) ↔ holds_permission d u a res act rid.
Proof.
  intros Hp Hsplit Hcol. rewrite elem_of_elements, matchPermissions_elem.
  assert (Hne : res ≠ "") by by eapply request_resource_nonempty.
  setoid_rewrite active_permissions_elem. unfold holds_permission. split.
  - intros (pr & (ra & r & rp & ? & ? & ? & ? & ? & ? & ? & ? & ->) & <- & Hrow).
    exists ra, r, rp. rewrite Hsplit in Hrow. apply row_matches_spec in Hrow; [|done..]. by split_and!.
  - intros (ra & r & rp & ? & ? & ? & ? & ? & ? & ? & ? & Hcov & <-).
    exists (mkPermissionRow (Role.r_ID r) (rp_Permission rp)). split; [by exists ra, r, rp|].
    split; [done|]. rewrite Hsplit. by apply row_matches_spec.
Qed.

Lemma nonempty_elem {A} (l : list A) : (0 < length l)%nat ↔ ∃ x, x ∈ l.
Proof.
  destruct l as [|x l]; simpl.
  - split; [lia|]. by intros [x Hx%elem_of_nil].
  - split; [|lia]. intros _. exists x. by left.
Qed.


(** ** Bulk grants *)

(** The assignment is in the table, granted now or before. *)
Definition granted (a : RoleAssignment) (d : DB) : Prop :=
  existsb (Access.clash (Access.toCreateParams a)) (db_role_assignments d) = true.

Lemma existsb_app_l {R} (f : R → bool) l l' : existsb f l = true → existsb f (l ++ l') = true.
Proof. rewrite existsb_app. by intros ->. Qed.

Context {laws : RuntimeLaws}.

Lemma create_granted a w w' r :
  w_env w = [] → Queries_CreateRoleAssignment (Access.toCreateParams a) w = (w', r) →
  w_env w' = [] ∧ (∀ b, granted b (w_db w) → granted b (w_db w')) ∧
  (r = Ok tt ∨ r = Err dup_error → granted a (w_db w')).
Proof using laws.
  intros Henv E. unfold Queries_CreateRoleAssignment, sql_insert, exec, interfere in E. rewrite Henv in E.
  assert (Hself : Access.clash (Access.toCreateParams a) (Access.toCreateParams a) = true).
  { unfold Access.clash. by rewrite !rt_collate_refl. }
  assert (Hnew : ∀ t, granted a (set_role_assignments (t ++ [Access.toCreateParams a]) (w_db w))).
  { intros t. unfold granted. simpl. rewrite existsb_app. simpl. by rewrite Hself, orb_true_r. }
  assert (Hold : ∀ b, granted b (w_db w) →
    granted b (set_role_assignments (db_role_assignments (w_db w) ++ [Access.toCreateParams a]) (w_db w))).
  { intros b. unfold granted. simpl. apply existsb_app_l. }
  unfold ins in E. destruct (next_fault w); simpl in E.
  - destruct (existsb _ _) eqn:Ex; [|destruct (fk_user_role _ _ _)]; injection E as <- <-; simpl;
      (split; [done|]); (split; [auto|]); intros [?|?]; done.
  - injection E as <- <-. split; [done|]. split; [done|]. by intros [?|?].
  - destruct (existsb _ _) eqn:Ex; [|destruct (fk_user_role _ _ _)]; injection E as <- <-; simpl;
      (split; [done|]); (split; [auto|]); intros [?|?]; done.
Qed.

Lemma bulk_insert_ok l w w' mask :
  w_env w = [] → bulk_insert l w = (w', Ok mask) →
  (∀ b, granted b (w_db w) → granted b (w_db w')) ∧
  Forall (λ a, granted a (w_db w')) l ∧ length mask = length l.
Proof using laws.
  revert w mask. induction l as [|a l IH]; simpl; intros w mask Henv E.
  - apply ret_ok in E as [-> ->]. by split_and!.
  - apply gobind_ok in E as (w1 & created & Hc & E).
    assert (Hcr : w_env w1 = [] ∧ (∀ b, granted b (w_db w) → granted b (w_db w1)) ∧ granted a (w_db w1)).
    { apply mcatch_ok in Hc as [(w2 & [] & Hc & Hr)|(w2 & e & Hc & Hr)].
      - apply ret_ok in Hr as [-> _]. destruct (create_granted _ _ _ _ Henv Hc) as (? & ? & ?). auto.
      - destruct (IsDuplicateEntry e) eqn:Ed; [|done]. apply ret_ok in Hr as [-> _].
        destruct (create_granted _ _ _ _ Henv Hc) as (? & ? & Hg). split_and!; auto.
        apply Hg. right. f_equal. clear -Hc Ed Henv.
        unfold Queries_CreateRoleAssignment, sql_insert, exec in Hc.
        destruct (next_fault w); simpl in Hc; repeat case_match; simplify_eq; done. }
    destruct Hcr as (Henv1 & Hkeep & Hga).
    apply gobind_ok in E as (w2 & mask' & Hm & E). apply ret_ok in E as [-> ->].
    destruct (IH w1 mask' Henv1 Hm) as (Hkeep' & Hall & Hlen). split_and!; [by auto| |simpl; lia].
    constructor; [by auto|done].
Qed.

(** C22. A bulk grant takes effect as a whole: when it succeeds every requested
    assignment is in the table, and when it fails either nothing changed or,
    if only the answer of the commit was lost, every assignment is in the
    table as well. *)
Theorem BulkCreate_all_or_nothing l w w' r :
  w_env w = [] → BulkCreate l w = (w', r) →
  match r with
  | Ok mask => length mask = length l ∧ Forall (λ a, granted a (w_db w')) l
  | Err _ => w_db w' = w_db w ∨ Forall (λ a, granted a (w_db w')) l
  end.
Proof using laws.
  intros Henv E. unfold BulkCreate in E. destruct r as [mask|e].
  - apply InTx_ok in E as (w0 & w1 & Hw0 & Henv0 & Hm & ->); [|done].
    by apply bulk_insert_ok in Hm as (_ & ? & ?).
  - apply InTx_err in E as [?|(w0 & w1 & mask & Hw0 & Henv0 & Hm & ->)]; [by left| |done].
    right. by apply bulk_insert_ok in Hm as (_ & ? & _).
Qed.

End AccessFacts.

(** ** Reading the audit log *)

Section AuditGate.
Context `{Runtime} {authz : AuditAuthorizer} `{JsonCodec AuditService.pageToken}.

(** Whichever authorizer is installed, it was asked. *)
Lemma audit_read_asked ctx w :
  (∀ w' id a, GetAuditEvent ctx id w = (w', Ok a) → ∃ w1, CanReadAudit ctx w = (w1, Ok true)) ∧
  (∀ w' n tok f out, ListAuditEvents ctx n tok f w = (w', Ok out) →
     ∃ w1, CanReadAudit ctx w = (w1, Ok true)).
Proof.
  assert (Hreq : ∀ w1 u, requireAuditRead ctx w = (w1, Ok u) → CanReadAudit ctx w = (w1, Ok true)).
  { intros w1 u E. unfold requireAuditRead in E. apply gobind_ok in E as (w2 & ok & Hc & E).
    destruct ok; [|done]. by apply ret_ok in E as [-> _]. }
  split.
  - intros w' id a E. unfold GetAuditEvent in E. apply gobind_ok in E as (w1 & u & Hr & _). eauto.
  - intros w' n tok f out E. unfold ListAuditEvents in E. apply gobind_ok in E as (w1 & u & Hr & _). eauto.
Qed.

End AuditGate.

Section AccessBacked.
Context `{Runtime} `{JsonCodec AuditService.pageToken}.

Lemma access_backed_grants ctx w w' :
  calm w → CanReadAudit_access ctx w = (w', Ok true) →
  ∃ act a rid, From_ctx ctx = Some act ∧ a_Kind act = KindUser ∧
    (w_admin_app w = Some a ∨
     ∃ r, r ∈ db_apps (w_db w) ∧ rt_collate (App.r_Slug r) adminAppSlug = true ∧ App.r_ID r = a) ∧
    holds_permission (w_db w) (a_ID act) a "audit" "read" rid.
Proof.
  intros Hc E. unfold CanReadAudit_access in E. destruct (From_ctx ctx) as [act|]; [|done].
  destruct (IsUser act) eqn:Eu; [|done]. simpl in E. apply bool_decide_eq_true in Eu.
  apply mcatch_ok in E as [(w1 & a & Ha & E)|(w1 & e & _ & E)].
  2: { destruct (errors_is_no_rows e); [by apply ret_ok in E as [_ ?]|done]. }
  assert (Hadmin : w_db w1 = w_db w ∧ calm w1 ∧ (w_admin_app w = Some a ∨
     ∃ r, r ∈ db_apps (w_db w) ∧ rt_collate (App.r_Slug r) adminAppSlug = true ∧ App.r_ID r = a)).
  { unfold resolveAdminAppID in Ha. apply gobind_ok in Ha as (w2 & c & [= <- <-] & Ha).
    destruct (w_admin_app w) as [id|]; [apply ret_ok in Ha as [-> ->]; auto|].
    apply gobind_ok in Ha as (w3 & id & Hq & [= <- <-]). rewrite query_one_calm in Hq by done.
    case_match eqn:Es; simplify_eq. split; [done|]. split; [done|]. right.
    destruct (sel_one _ _) as [r|] eqn:Er; [|done]. apply sel_one_Some in Er as [? ?].
    injection Es as <-. eauto. }
  destruct Hadmin as (Hdb & Hc1 & Hadmin). apply gobind_ok in E as (w2 & out & Hcp & E).
  apply ret_ok in E as [_ Hallowed]. unfold CheckPermission in Hcp.
  apply gobind_ok in Hcp as (w3 & [[u a'] ps] & Hparse & Hcp).
  apply lift_ok in Hparse as [Hparse ->]. apply gobind_ok in Hcp as (w4 & [] & Hu & Hcp).
  apply gobind_ok in Hcp as (w5 & [] & Happ & Hcp). apply gobind_ok in Hcp as (w6 & rows & Hrows & Hcp).
  apply ret_ok in Hcp as [_ ->]. simpl in Hallowed.
  assert (Hp : u = a_ID act ∧ a' = a ∧ ps = [requiredPermission]).
  { clear -Hparse. unfold parseCheckInput in Hparse. rewrite decide_False in Hparse by done.
    rewrite decide_False in Hparse by (vm_compute; lia).
    unfold Access.ParseUserID, Access.ParseAppID in Hparse.
    destruct (rt_uuid_valid (a_ID act)); [|done]. destruct (rt_uuid_valid a); [|done]. by injection Hparse. }
  destruct Hp as (-> & -> & ->).
  assert (w4 = w1) as ->.
  { clear -Hu Hc1. unfold requireUserExists, IdentityRepo.GetByID in Hu. repeat ok_step Hu.
    repeat ok_step Hm. apply query_one_ok in Hm0 as [_ ->]. apply ret_ok in Hu as [-> _].
    by apply calm_after. }
  assert (w5 = w1) as ->.
  { clear -Happ Hc1. unfold requireAppExists, AppRepo.GetByID in Happ. repeat ok_step Happ.
    repeat ok_step Hm. apply query_one_ok in Hm0 as [_ ->]. apply ret_ok in Happ as [-> _].
    by apply calm_after. }
  unfold ListActivePermissions, mcatch in Hrows; autounfold with queries in Hrows. rewrite query_calm in Hrows by done.
  apply ret_ok in Hrows as [_ ->].
  symmetry in Hallowed. apply bool_decide_eq_true, nonempty_elem in Hallowed as [rid Hrid].
  exists act, a, rid. split_and!; [done..|]. rewrite <- Hdb.
  apply (matched_elem _ _ _ requiredPermission); [by vm_compute|done| |exact Hrid].
  vm_compute. set_solver.
Qed.

#[local] Existing Instance AccessBackedAuthorizer.

(** C28. An audit event, or a page of them, leaves the service in production only
    for a user who holds the permission [audit:read] in the administration
    application: the cached one, or the one whose slug is sso-admin. *)
Theorem audit_reads_need_permission ctx w w' id n tok f :
  calm w →
  (∃ a, GetAuditEvent ctx id w = (w', Ok a)) ∨ (∃ out, ListAuditEvents ctx n tok f w = (w', Ok out)) →
  ∃ act a rid, From_ctx ctx = Some act ∧ a_Kind act = KindUser ∧
    (w_admin_app w = Some a ∨
     ∃ r, r ∈ db_apps (w_db w) ∧ rt_collate (App.r_Slug r) adminAppSlug = true ∧ App.r_ID r = a) ∧
    holds_permission (w_db w) (a_ID act) a "audit" "read" rid.
Proof.
  intros Hc E. destruct (audit_read_asked ctx w) as [Hget Hlist].
  assert (Hr : ∃ w1, CanReadAudit ctx w = (w1, Ok true)) by (destruct E as [[a E]|[out E]]; eauto).
  destruct Hr as [w1 Hr]. by eapply access_backed_grants.
Qed.

End AccessBacked.

(** ** Instances *)

Section Witness.
#[local] Existing Instance toy.

(** The scenario with the clerk role granted to the user. *)
Definition clerk_world : World :=
  with_db (set_role_assignments [Access.mkRow "idu" "idr" "idp" "idu" t0] toy_db) toy_world.


Lemma BulkCreate_all_or_nothing_witness :
  let a := NewRoleAssignment "idu" "idr" "idp" "idu" t0 in
  let b := NewRoleAssignment "idu" "nowhere" "idp" "idu" t0 in
  w_db (BulkCreate [a; b] toy_world).1 = toy_db ∨
  Forall (λ c, granted c (w_db (BulkCreate [a; b] toy_world).1)) [a; b].
Proof.
  intros a b.
  pose proof (@BulkCreate_all_or_nothing toy _ [a; b] toy_world (BulkCreate [a; b] toy_world).1
    (Err (EWrap "access repo: bulk_create" (EMySQL 1452))) ltac:(reflexivity)
    ltac:(vm_compute; reflexivity)) as Hr.
  exact Hr.
Defined.

(** The administrator's application with its role, granted to the user. *)
Definition admin_world : World :=
  with_db
    (set_apps [app_row; App.mkRow "idq" "Admin" "sso-admin" "" AppStatusActive "ide" t0 t0]
      (set_roles [role_row; Role.mkRow "ids" "idq" "auditor" None RoleStatusActive "ide" t0 t0]
        (set_role_permissions [mkPermRow "ids" "audit:read"]
          (set_role_assignments [Access.mkRow "idu" "ids" "idq" "idu" t0] toy_db)))) toy_world.

(** An event is in the log of that world, and the administrator reads it. *)
Definition logged_world : World :=
  with_db (set_audit_events [AuditMapper.mkRow "ide" t0 "auth.login" 1 None None None 1 None None 1 None "{}"]
    (w_db admin_world)) admin_world.

#[local] Existing Instance AccessBackedAuthorizer.
#[local] Instance codec T : JsonCodec T := no_codec T.

Lemma audit_reads_need_permission_witness :
  ∃ act a rid, From_ctx toy_ctx = Some act ∧ a_Kind act = KindUser ∧
    (w_admin_app logged_world = Some a ∨
     ∃ r, r ∈ db_apps (w_db logged_world) ∧ rt_collate (App.r_Slug r) adminAppSlug = true ∧ App.r_ID r = a) ∧
    holds_permission (w_db logged_world) (a_ID act) a "audit" "read" rid.
Proof.
  apply (audit_reads_need_permission toy_ctx logged_world (GetAuditEvent toy_ctx "ide" logged_world).1 "ide" 0 ""
    (mkAuditFiltersInput None None [] 0 "" "" 0 "" "" [])); [by split|left].
  eexists. vm_compute. reflexivity.
Defined.

End Witness.
