(* ===== verification/LoginFacts.v ===== *)
(** * LoginFacts: what a successful sign-in gives, and how sign-ins fail. *)
From stdpp Require Import gmap.
From S2P Require Import Prelude Errors Sql Monad Runtime Listing Kernel AuditDomain World WorldFacts.
From S2P Require Import Identity IdentityRepo App AppRepo Session SessionRepo AuditRepo.
From S2P Require Import ServiceAccount ServiceAccountRepo AuthServiceAccount.
From S2P Require Import AuthBase AuthLogin AuditSafety Change Outcome SessionSafety Scenario.
Local Open Scope Z_scope.

Section LoginFacts.
Context `{Runtime} (cfg : AuthConfig).

(** ** Auditing leaves the other tables alone *)

(** [w'] is [w] after some audit events. *)
Definition audited (w w' : World) : Prop :=
  w_env w' = w_env w ∧ w_now w' = w_now w ∧
  set_audit_events (db_audit_events (w_db w)) (w_db w') = w_db w.

Lemma audited_sessions w w' : audited w w' → db_sessions (w_db w') = db_sessions (w_db w).
Proof. intros (_ & _ & E). by rewrite <- E. Qed.

Lemma alone_Emit p n : keeps (alone n) (Emit p) (λ _, True).
Proof. unfold Emit, SyncEmitter_Emit, AuditRepo.Create. keeps_walk. Qed.

Lemma Emit_audited p w w' r : w_env w = [] → Emit p w = (w', r) → audited w w' ∧ w_env w' = [].
Proof.
  intros Henv E. destruct (Emit_frame p w Henv) as [_ Hdb].
  destruct (alone_Emit p (w_now w) w) as [[He Hn] _]; [done|]. rewrite E in *. simpl in *.
  split; [|done]. split; [congruence|done].
Qed.

(** ** Minting a session *)

Lemma tokenGen_ok w w' plain hash :
  tokenGen_Generate w = (w', Ok (plain, hash)) → hash = tokenGen_Hash plain ∧ w' = tick_seed (pop_fault w).
Proof. intros E. unfold tokenGen_Generate in E. repeat ok_step E. apply ret_ok in E as [-> E]. by simplify_eq. Qed.

Lemma Sign_ok sub st sid jti w w' tok :
  Sign cfg sub st sid jti w = (w', Ok tok) →
  rt_jwt_sign (mkTokenClaims (cfg_issuer cfg) sub (NumericDate (w_now w))
    (NumericDate (w_now w + cfg_accessTTL cfg)) jti st sid) = Some tok ∧ w' = w.
Proof. intros E. unfold Sign in E. repeat ok_step E. done. Qed.

(** What minting a session leaves: the new row, keyed by a fresh identifier and
    holding the hash of the refresh token, and an access token for it. *)
Record mints (user : User) (ua ip : string) (now : Time) (w w' : World) (out : AuthTokens) : Prop := {
  mi_alone : w_env w' = [];
  mi_now : w_now w' = w_now w;
  mi_subject : at_SubjectID out = u_id user;
  mi_id : ∃ k, (w_seed w <= k)%nat ∧ at_SessionID out = rt_uuid k;
  mi_row : ∃ t, w_db w' = set_sessions t (w_db w) ∧
    ins Session.clash
      (Session.toCreateParams (minted cfg (at_SessionID out) (u_id user)
        (tokenGen_Hash (at_RefreshToken out)) ua ip now)) (db_sessions (w_db w)) = Some t;
  mi_token : ∃ jti, rt_jwt_sign (mkTokenClaims (cfg_issuer cfg) (u_id user) (NumericDate (w_now w))
    (NumericDate (w_now w + cfg_accessTTL cfg)) jti jwt_SubjectTypeUser (at_SessionID out)) =
    Some (at_AccessToken out) }.

Lemma mint_ok op aud user ua ip now w w' out :
  w_env w = [] → mint_session cfg op aud user ua ip now w = (w', Ok out) → mints user ua ip now w w' out.
Proof.
  intros Henv E. unfold mint_session in E. repeat ok_step E.
  apply tokenGen_ok in Hm as [-> ->]. unfold SessionRepo.Create in Hm0. ok_step Hm0.
  apply insert_ok in Hm as (t & Ht & _ & ->). apply ret_ok in Hm0 as [-> _].
  rewrite quiet_interfere in Ht by done. rewrite quiet_after, quiet_interfere in Hm1 by done.
  apply Sign_ok in Hm1 as [Htok ->]. split; try done.
  - by exists (w_seed w).
  - by exists t.
  - by exists (rt_uuid (S (w_seed w))).
Qed.

(** The row just inserted is the one its identifier finds. *)
Lemma ins_found r t t' :
  ins Session.clash r t = Some t' → rt_collate (Session.r_ID r) (Session.r_ID r) = true →
  (∀ r r', rt_collate r r' = rt_collate r' r) →
  sel_one (SessionRepo.where_id (Session.r_ID r)) t' = Some r.
Proof.
  unfold ins. intros E Hrefl Hsym. case_match eqn:Hcl; [done|]. injection E as <-.
  unfold sel_one. induction t as [|r' t IH]; simpl in *.
  - unfold SessionRepo.where_id at 1. by rewrite Hrefl.
  - apply orb_false_iff in Hcl as [Hr' Ht]. unfold SessionRepo.where_id at 1.
    apply orb_false_iff in Hr' as [Hr' _]. rewrite Hsym in Hr'. rewrite Hr'. by apply IH.
Qed.

(** ** Login *)

Lemma app_get_ok id w w' a :
  w_env w = [] → AppRepo.GetByID id w = (w', Ok a) →
  ∃ r, sel_one (AppRepo.where_id id) (db_apps (w_db w)) = Some r ∧ a = App.dbgenToDomain r ∧ w' = pop_fault w.
Proof.
  intros Henv E. unfold AppRepo.GetByID in E. repeat ok_step E. apply query_one_ok in Hm as [Hm ->].
  rewrite quiet_after, quiet_interfere in * by done. by eexists.
Qed.

(** [u] is the user row a sign-in names, by e-mail or else by user name. *)
Definition find_user (email username : string) (d : DB) : option Identity.Row :=
  sel_one (λ r, if decide (email ≠ "") then rt_collate (Identity.r_Email r) email
                else rt_collate (Identity.r_Username r) username) (db_users d).
Definition named (email username : string) (d : DB) (u : Identity.Row) : Prop :=
  find_user email username d = Some u.

Lemma lookupUser_ok email username w w' u :
  w_env w = [] → lookupUser email username w = (w', Ok u) →
  ∃ r, named email username (w_db w) r ∧ u = Identity.dbgenToDomain r ∧
       w' = pop_fault w.
Proof.
  intros Henv E. unfold lookupUser, named, find_user in *. case_decide; unfold GetByEmail, GetByUsername in E;
    repeat ok_step E; apply query_one_ok in Hm as [Hm ->]; rewrite quiet_after, quiet_interfere in * by done;
    by eexists.
Qed.

Lemma update_users_frame p f w :
  w_env w = [] →
  let w' := (update_users p f w).1 in
  db_sessions (w_db w') = db_sessions (w_db w) ∧ w_env w' = [] ∧ w_now w' = w_now w.
Proof.
  intros Henv. unfold update_users, sql_update, exec, interfere. rewrite Henv.
  destruct (next_fault w); [|done|]; simpl; destruct (upd_uniq _ _ _ _); done.
Qed.

Lemma UpdateLastLoginAt_frame id now w :
  w_env w = [] →
  let w' := (ignore (UpdateLastLoginAt id now) w).1 in
  db_sessions (w_db w') = db_sessions (w_db w) ∧ w_env w' = [] ∧ w_now w' = w_now w.
Proof.
  intros Henv. simpl. rewrite (proj2 (ignore_ok _ _)). unfold UpdateLastLoginAt, mcatch; autounfold with queries.
  pose proof (update_users_frame (IdentityRepo.where_id id) (set_row_LastLoginAt now) w Henv) as Hf.
  destruct (update_users _ _ w) as [w1 [k|e]]; simpl in *; [|done]. by case_decide.
Qed.

(** The premises of a sign-in: an active application, a user who is neither
    deleted nor blocked, the right password. *)
Record may_login (i : LoginInput) (d : DB) (u : Identity.Row) : Prop := {
  ml_app : ∃ r, sel_one (AppRepo.where_id (lg_AppID i)) (db_apps d) = Some r ∧ App.r_Status r = AppStatusActive;
  ml_user : named (lg_Email i) (lg_Username i) d u;
  ml_status : Identity.r_Status u ≠ UserStatusDeleted ∧ Identity.r_Status u ≠ UserStatusBlocked;
  ml_password : ∃ h, Identity.r_PasswordHash u = Some h ∧ h ≠ "" ∧ rt_bcrypt_compare h (lg_Password i) = true }.

Lemma Login_inv i w w' out user :
  w_env w = [] → AuthLogin.Login cfg i w = (w', Ok (out, user)) →
  ∃ u, may_login i (w_db w) u ∧ user = Identity.dbgenToDomain u ∧
       (∃ w1 w2, w_db w1 = w_db w ∧ w_now w1 = w_now w ∧ w_seed w1 = w_seed w ∧
          mints user (lg_UserAgent i) (lg_IpAddress i) (w_now w) w1 w2 out ∧
          db_sessions (w_db w') = db_sessions (w_db w2) ∧ w_now w' = w_now w ∧ w_env w' = []).
Proof.
  intros Henv E. unfold AuthLogin.Login in E. repeat ok_step E.
  unfold ParseAppID in Hm0. destruct (rt_uuid_valid _); [|done]. injection Hm0 as <-.
  apply app_get_ok in Hm1 as (ra & Hra & -> & ->); [|done].
  apply lookupUser_ok in Hm2 as (u & Hu & -> & ->); [|done].
  exists u. apply ret_ok in E as [-> E]. injection E as -> ->.
  apply mint_ok in Hm3; [|done]. split; [|split; [done|]].
  - split; [|exact Hu|done|].
    + exists ra. split; [done|]. by apply dec_stable in Hd.
    + unfold HasPassword in Hb. apply negb_false_iff in Hb, Hb0. simpl in *.
      destruct (Identity.r_PasswordHash u) as [h|]; [|done]. exists h.
      apply bool_decide_eq_true in Hb. split_and!; [done| |done]. intros ->. simpl in Hb. lia.
  - exists (pop_fault (pop_fault w)), w2. do 3 (split; [done|]). split; [exact Hm3|].
    destruct (UpdateLastLoginAt_frame (u_id (Identity.dbgenToDomain u)) (w_now w) w2
      (mi_alone _ _ _ _ _ _ _ Hm3)) as (Hs & Hal & Hn).
    change (w_now (pop_fault (pop_fault w))) with (w_now w) in Hm4. rewrite Hm4 in Hs, Hal, Hn.
    simpl in Hs, Hal, Hn. apply Emit_audited in Hm5 as [Hau Hal']; [|done].
    rewrite (audited_sessions _ _ Hau). destruct Hau as (_ & Hnow & _).
    split_and!; [done| |done]. rewrite Hnow, Hn. by rewrite (mi_now _ _ _ _ _ _ _ Hm3).
Qed.

(** ** Refused sign-ins *)

Lemma Emit_ok p w : (Emit p w).2 = Ok tt.
Proof.
  unfold Emit, SyncEmitter_Emit, ignore, gobind, mcatch, time_now, gets. by repeat case_match; simplify_eq/=.
Qed.

Lemma fail_ran {A} aud r e w :
  w_env w = [] → ∃ w', fail (A := A) aud r e w = (w', Err e) ∧ audited w w'.
Proof.
  intros Henv. unfold fail, Fail, gobind, mcatch.
  destruct (Emit_frame (aud_with_outcome aud OutcomeFailure r) w Henv) as [Hok _].
  destruct (Emit _ w) as [w' [u|e']] eqn:E; [|done]. exists w'. split; [done|].
  by apply Emit_audited in E as [? _].
Qed.
Lemma deny_ran {A} aud r e w :
  w_env w = [] → ∃ w', deny (A := A) aud r e w = (w', Err e) ∧ audited w w'.
Proof.
  intros Henv. unfold deny, Deny, gobind, mcatch.
  destruct (Emit_frame (aud_with_outcome aud OutcomeDenied r) w Henv) as [Hok _].
  destruct (Emit _ w) as [w' [u|e']] eqn:E; [|done]. exists w'. split; [done|].
  by apply Emit_audited in E as [? _].
Qed.

Lemma lookupUser_calm email username w :
  calm w → lookupUser email username w =
    (w, match find_user email username (w_db w) with
        | Some r => Ok (Identity.dbgenToDomain r)
        | None => Err (ESentinel identity_ErrUserNotFound)
        end).
Proof.
  intros Hc. unfold lookupUser, find_user. case_decide as Hd;
    unfold GetByEmail, GetByUsername, mcatch; autounfold with queries; rewrite query_one_calm by done;
    by destruct (sel_one _ _).
Qed.

Lemma app_get_calm id w :
  calm w → AppRepo.GetByID id w =
    (w, match sel_one (AppRepo.where_id id) (db_apps (w_db w)) with
        | Some r => Ok (App.dbgenToDomain r)
        | None => Err (ESentinel app_ErrAppNotFound)
        end).
Proof.
  intros Hc. unfold AppRepo.GetByID, mcatch; autounfold with queries. rewrite query_one_calm by done. by destruct (sel_one _ _).
Qed.

(** The answer to the credentials alone, as a function of the database. *)
Definition login_refusal (i : LoginInput) (d : DB) : option error :=
  match sel_one (AppRepo.where_id (lg_AppID i)) (db_apps d), find_user (lg_Email i) (lg_Username i) d with
  | Some a, Some u =>
      if decide (App.r_Status a ≠ AppStatusActive) then Some ErrInvalidCredentials
      else if decide (Identity.r_Status u = UserStatusDeleted) then Some ErrInvalidCredentials
      else if decide (Identity.r_Status u = UserStatusBlocked) then Some (ESentinel auth_ErrUserBlocked)
      else match Identity.r_PasswordHash u with
           | Some h => if decide (h = "") then Some ErrInvalidCredentials
                       else if rt_bcrypt_compare h (lg_Password i) then None
                       else Some ErrInvalidCredentials
           | None => Some ErrInvalidCredentials
           end
  | _, _ => Some ErrInvalidCredentials
  end.

Lemma mint_err op aud user ua ip now w w' e :
  mint_session cfg op aud user ua ip now w = (w', Err e) → ∃ m e', e = EWrap m e'.
Proof.
  assert (Hf : ∀ A aud r (err e1 : error) m (w1 w2 : World),
    (fail aud r (EWrap m err) : M World A) w1 = (w2, Err e1) → ∃ m e', e1 = EWrap m e').
  { intros A aud' r err e1 m w1 w2. unfold fail, Fail, gobind, mcatch.
    pose proof (Emit_ok (aud_with_outcome aud' OutcomeFailure r) w1) as Hok.
    destruct (Emit _ w1) as [w3 [u|e3]]; [intros [= _ <-]; eauto|done]. }
  unfold mint_session. unfold mcatch at 1.
  destruct (NewV7 _ w) as [w1 [sid|e1]]; [|apply Hf].
  unfold mcatch at 1. destruct (NewV7 _ w1) as [w2 [jti|e2]]; [|apply Hf].
  unfold mcatch at 1. destruct (tokenGen_Generate w2) as [w3 [[pl h]|e3]]; [|apply Hf].
  cbv zeta. unfold mcatch at 1. destruct (SessionRepo.Create _ w3) as [w4 [?|e4]]; [|apply Hf].
  unfold mcatch at 1. destruct (Sign _ _ _ _ _ w4) as [w5 [?|e5]]; [|apply Hf]. done.
Qed.

(** An outcome that is the refusal [o]; without a refusal the only errors left
    are the wrapped, internal ones. *)
Definition answers {A} (w : World) (o : option error) (r : World * res A) : Prop :=
  match o with
  | Some e => ∃ w', r = (w', Err e) ∧ audited w w'
  | None => ∀ e, r.2 = Err e → ∃ m e', e = EWrap m e'
  end.

(** Refusals of well-formed sign-ins: an unknown or inactive application, an
    unknown user, a deleted one, one without a password and a wrong password
    all get the same answer and change nothing but the audit log; only a
    blocked user is told so. A sign-in that passes these checks never gets
    one of these answers. *)
Theorem Login_refusals i w :
  calm w → validateLoginInput i = Ok tt → rt_uuid_valid (lg_AppID i) = true →
  answers w (login_refusal i (w_db w)) (AuthLogin.Login cfg i w).
Proof.
  intros Hc Hi Hid. assert (Henv : w_env w = []) by apply Hc.
  unfold AuthLogin.Login. rewrite (gobind_eq _ _ w w tt) by (unfold lift; by rewrite Hi). cbv zeta.
  rewrite (gobind_eq _ _ w w (lg_AppID i)) by (unfold lift, ParseAppID; by rewrite Hid).
  unfold login_refusal. unfold mcatch at 1. rewrite (app_get_calm _ w Hc).
  destruct (sel_one (AppRepo.where_id _) _) as [a|]; [|by apply fail_ran]. simpl.
  destruct (decide (App.r_Status a ≠ AppStatusActive)) as [Ha|Ha].
  { destruct (find_user _ _ _); by apply deny_ran. }
  unfold mcatch at 1. rewrite (lookupUser_calm _ _ w Hc).
  destruct (find_user _ _ _) as [u|]; [|by apply fail_ran]. simpl.
  repeat (case_decide; [by apply deny_ran|]).
  unfold HasPassword. simpl. destruct (Identity.r_PasswordHash u) as [h|]; [|by apply fail_ran]. simpl.
  destruct (decide (h = "")) as [->|Hh]; [by apply fail_ran|].
  assert (Hl : bool_decide (0 < len h) = true).
  { apply bool_decide_eq_true. pose proof (len_nonneg h). assert (len h ≠ 0) by by rewrite len_zero. lia. }
  rewrite Hl. simpl. unfold passwordhash_Compare.
  destruct (rt_bcrypt_compare _ _); [|by apply fail_ran]. simpl.
  intros e. rewrite (gobind_eq _ _ w w (w_now w)) by done.
  unfold gobind at 1. unfold mcatch at 1. destruct (mint_session _ _ _ _ _ _ _ w) as [w1 [?|e1]] eqn:E.
  - unfold gobind at 1. unfold mcatch at 1. unfold ignore, gobind, mcatch.
    destruct (UpdateLastLoginAt _ _ _) as [w2 [?|?]]; unfold ret at 1;
      (match goal with |- context [Success ?au ?w3] => pose proof (Emit_ok (aud_with_outcome au OutcomeSuccess "") w3) as Hok end);
      unfold Success; destruct (Emit _ _) as [w4 [?|?]]; done.
  - intros [= <-]. by eapply mint_err.
Qed.

Context {laws : RuntimeLaws}.

Lemma NumericDate_bounds t : t - second < NumericDate_Time (NumericDate t) <= t.
Proof using. unfold NumericDate_Time, NumericDate, second. Z.to_euclidean_division_equations. lia. Qed.

(** A token the signer just made is accepted until it expires. *)
Lemma Verify_signed c w :
  rt_jwt_sign c = Some (default "" (rt_jwt_sign c)) → tc_Issuer c = cfg_issuer cfg →
  w_now w < NumericDate_Time (tc_ExpiresAt c) + jwt_leeway →
  Verify cfg (default "" (rt_jwt_sign c)) w = (w, Ok (tokenClaimsToClaims c)).
Proof using laws.
  intros Hs Hi Hn. unfold Verify, gobind, mcatch, time_now, gets. rewrite <- Hi.
  by rewrite (rt_jwt_roundtrip c).
Qed.

Lemma Validate_signed c w r :
  calm w → rt_jwt_sign c = Some (default "" (rt_jwt_sign c)) → default "" (rt_jwt_sign c) ≠ "" →
  tc_Issuer c = cfg_issuer cfg → tc_SubjectType c = jwt_SubjectTypeUser →
  w_now w < NumericDate_Time (tc_ExpiresAt c) + jwt_leeway → rt_uuid_valid (tc_SessionID c) = true →
  sel_one (SessionRepo.where_id (tc_SessionID c)) (db_sessions (w_db w)) = Some r →
  Session.IsActive (w_now w) (Session.dbgenToDomain r) = true →
  AuthLogin.Validate cfg (default "" (rt_jwt_sign c)) w =
    (w, Ok (mkValidateOutput (tc_Subject c) (tc_SubjectType c) (tc_SessionID c) ""
              (NumericDate_Time (tc_ExpiresAt c)))).
Proof using laws.
  intros Hc Hs Hne Hi Hst Hn Hv Hr Ha. unfold AuthLogin.Validate. rewrite decide_False by done.
  rewrite (mcatch_eq _ _ _ w w (tokenClaimsToClaims c)) by by apply Verify_signed.
  rewrite (gobind_eq _ _ w w tt); [done|]. simpl. rewrite decide_True by done.
  unfold ParseSessionID. rewrite Hv. rewrite (mcatch_eq _ _ _ w w (tc_SessionID c)) by done.
  rewrite (mcatch_eq _ _ _ w w (Session.dbgenToDomain r)).
  - unfold gobind, mcatch, time_now, gets. by rewrite Ha.
  - unfold SessionRepo.GetByID, mcatch; autounfold with queries. by rewrite query_one_calm, Hr.
Qed.

(** C7. A successful sign-in had an active application and the right password of a
    user who is neither deleted nor blocked; it leaves a live session row that
    holds only the hash of the refresh token, with the sliding deadline capped,
    and its access token validates at once to that user and session. *)
Theorem Login_issues_valid_tokens i w w' out user :
  0 < cfg_accessTTL cfg → 0 < cfg_refreshTTL cfg → 0 < cfg_refreshRotationTTL cfg →
  (∀ c, rt_jwt_sign c ≠ Some "") →
  w_env w = [] → AuthLogin.Login cfg i w = (w', Ok (out, user)) →
  ∃ u r, may_login i (w_db w) u ∧ user = Identity.dbgenToDomain u ∧
    sel_one (SessionRepo.where_id (at_SessionID out)) (db_sessions (w_db w')) = Some r ∧
    Session.r_UserID r = Identity.r_ID u ∧
    Session.r_RefreshTokenHash r = rt_sha256 (at_RefreshToken out) ∧
    Session.r_ExpiresAt r = w_now w + cfg_refreshTTL cfg ∧
    Session.r_RefreshTokenExpiresAt r = Z.min (w_now w + cfg_refreshRotationTTL cfg) (Session.r_ExpiresAt r) ∧
    Session.IsActive (w_now w') (Session.dbgenToDomain r) = true ∧
    ∃ v, (AuthLogin.Validate cfg (at_AccessToken out) (load [] [] w')).2 = Ok v ∧
      vo_SubjectID v = Identity.r_ID u ∧ vo_SessionID v = at_SessionID out.
Proof using laws.
  intros H1 H2 H3 Hjwt Henv E.
  apply Login_inv in E as (u & Hml & -> & w1 & w2 & Hdb & Hn1 & _ & Hm & Hs & Hn' & Henv'); [|done].
  destruct (mi_row _ _ _ _ _ _ _ Hm) as (t & Ht & Hins). destruct (mi_token _ _ _ _ _ _ _ Hm) as [jti Htok].
  destruct (mi_id _ _ _ _ _ _ _ Hm) as (k & _ & Hid).
  exists u, (Session.toCreateParams (minted cfg (at_SessionID out) (Identity.r_ID u)
        (tokenGen_Hash (at_RefreshToken out)) (lg_UserAgent i) (lg_IpAddress i) (w_now w))).
  assert (Hsel : sel_one (SessionRepo.where_id (at_SessionID out)) (db_sessions (w_db w')) =
    Some (Session.toCreateParams (minted cfg (at_SessionID out) (Identity.r_ID u)
        (tokenGen_Hash (at_RefreshToken out)) (lg_UserAgent i) (lg_IpAddress i) (w_now w)))).
  { rewrite Hs, Ht. simpl. exact (ins_found _ _ _ Hins (rt_collate_refl _) rt_collate_sym). }
  assert (Hcap : sliding_deadline cfg (w_now w) (w_now w + cfg_refreshTTL cfg) =
    Z.min (w_now w + cfg_refreshRotationTTL cfg) (w_now w + cfg_refreshTTL cfg)).
  { unfold sliding_deadline, After. case_bool_decide; lia. }
  assert (Hact : Session.IsActive (w_now w') (minted cfg (at_SessionID out) (Identity.r_ID u)
        (tokenGen_Hash (at_RefreshToken out)) (lg_UserAgent i) (lg_IpAddress i) (w_now w)) = true).
  { rewrite Session.IsActive_spec, Hn'. simpl. rewrite Hcap. lia. }
  rewrite <- (Session.row_roundtrip (minted _ _ _ _ _ _ _)) in Hact.
  split_and!; [exact Hml|done|exact Hsel|done..|exact Hcap|exact Hact|].
  set (c := mkTokenClaims _ _ _ _ _ _ _) in Htok.
  assert (Hd : at_AccessToken out = default "" (rt_jwt_sign c)) by by rewrite Htok.
  eexists. split; [|split].
  { rewrite Hd. erewrite (Validate_signed c (load [] [] w')); [reflexivity|split; done|..|exact Hsel|exact Hact];
      try done.
    - by rewrite Htok.
    - rewrite Htok. intros Hne. apply (Hjwt c). by rewrite Htok, <- Hne.
    - simpl. rewrite Hn', Hn1. pose proof (NumericDate_bounds (w_now w + cfg_accessTTL cfg)).
      unfold jwt_leeway, second in *. lia.
    - simpl. rewrite Hid. apply rt_uuid_valid_uuid. }
  all: reflexivity.
Qed.

(** ** Service accounts *)

(** The premises of the client-credentials grant. *)
Record may_authenticate (i : AuthenticateServiceAccountInput) (d : DB) (v : ServiceAccount.Row) : Prop := {
  ma_app : ∃ a, sel_one (AppRepo.where_id (as_AppID i)) (db_apps d) = Some a ∧
    App.r_Status a ≠ AppStatusDisabled ∧ App.r_Status a ≠ AppStatusMaintenance;
  ma_account : sel_one (ServiceAccountRepo.where_id (as_ServiceAccountID i)) (db_service_accounts d) = Some v;
  ma_status : ServiceAccount.r_Status v ≠ ServiceAccountDisabled;
  ma_secret : rt_bcrypt_compare (ServiceAccount.r_ClientSecretHash v) (as_ClientSecret i) = true }.

Lemma sa_get_ok id w w' v :
  w_env w = [] → ServiceAccountRepo.GetByID id w = (w', Ok v) →
  ∃ r, sel_one (ServiceAccountRepo.where_id id) (db_service_accounts (w_db w)) = Some r ∧
       v = ServiceAccount.dbgenToDomain r ∧ w' = pop_fault w.
Proof using.
  intros Henv E. unfold ServiceAccountRepo.GetByID in E. repeat ok_step E. apply query_one_ok in Hm as [Hm ->].
  rewrite quiet_after, quiet_interfere in * by done. by eexists.
Qed.

Lemma Validate_signed_account c w :
  rt_jwt_sign c = Some (default "" (rt_jwt_sign c)) → default "" (rt_jwt_sign c) ≠ "" →
  tc_Issuer c = cfg_issuer cfg → tc_SubjectType c = jwt_SubjectTypeServiceAccount →
  w_now w < NumericDate_Time (tc_ExpiresAt c) + jwt_leeway →
  AuthLogin.Validate cfg (default "" (rt_jwt_sign c)) w =
    (w, Ok (mkValidateOutput (tc_Subject c) (tc_SubjectType c) (tc_SessionID c) ""
              (NumericDate_Time (tc_ExpiresAt c)))).
Proof using laws.
  intros Hs Hne Hi Hst Hn. unfold AuthLogin.Validate. rewrite decide_False by done.
  rewrite (mcatch_eq _ _ _ w w (tokenClaimsToClaims c)) by by apply Verify_signed.
  rewrite (gobind_eq _ _ w w tt); [done|]. simpl. by rewrite Hst.
Qed.

(** C26. A service account that authenticates is enabled, presented the right
    secret and named an application that is neither disabled nor in
    maintenance; no session is created; its access token validates at once to
    that account, without a session. *)
Theorem AuthenticateServiceAccount_issues i w w' out :
  0 < cfg_accessTTL cfg → (∀ c, rt_jwt_sign c ≠ Some "") → w_env w = [] →
  AuthenticateServiceAccount cfg i w = (w', Ok out) →
  ∃ v, may_authenticate i (w_db w) v ∧ ao_SubjectID out = ServiceAccount.r_ID v ∧
    db_sessions (w_db w') = db_sessions (w_db w) ∧
    ∃ vo, (AuthLogin.Validate cfg (ao_AccessToken out) w').2 = Ok vo ∧
      vo_SubjectID vo = ServiceAccount.r_ID v ∧ vo_SubjectType vo = jwt_SubjectTypeServiceAccount ∧
      vo_SessionID vo = "".
Proof using laws.
  intros Httl Hjwt Henv E. unfold AuthenticateServiceAccount in E. repeat ok_step E.
  unfold ParseAppID in Hm0. destruct (rt_uuid_valid (as_AppID i)); [|done]. injection Hm0 as <-.
  apply app_get_ok in Hm1 as (ra & Ha & -> & ->); [|done].
  unfold ParseServiceAccountID in Hm2. destruct (rt_uuid_valid (as_ServiceAccountID i)); [|done]. injection Hm2 as <-.
  apply sa_get_ok in Hm3 as (v & Hv & -> & ->); [|done].
  apply Sign_ok in Hm4 as [Htok ->].
  apply Emit_audited in Hm5 as [Hau Henv']; [|done].
  exists v. split; [|split; [done|split]].
  - split; [|done|done|].
    + exists ra. done.
    + apply negb_false_iff in Hb. exact Hb.
  - by rewrite (audited_sessions _ _ Hau).
  - set (c := mkTokenClaims _ _ _ _ _ _ _) in Htok.
    assert (Htok' : a4 = default "" (rt_jwt_sign c)) by by rewrite Htok.
    eexists. split; [|split; [|split]].
    { simpl. rewrite Htok', Validate_signed_account; [reflexivity|..]; try done.
      - by rewrite Htok.
      - rewrite Htok. intros Hne. apply (Hjwt c). by rewrite Htok, <- Hne.
      - destruct Hau as (_ & -> & _). simpl.
        pose proof (NumericDate_bounds (w_now w + cfg_accessTTL cfg)). unfold jwt_leeway, second in *. lia. }
    all: reflexivity.
Qed.

End LoginFacts.

(** ** Instances *)

Section Witness.
#[local] Existing Instance toy.

Definition sign_in (password : string) : LoginInput := mkLoginInput "idp" "a@b.c" "" password "" "".

Lemma Login_issues_valid_tokens_witness :
  ∃ r, sel_one (SessionRepo.where_id "id") (db_sessions (w_db (AuthLogin.Login toy_cfg (sign_in "secret") toy_world).1)) = Some r ∧
    Session.r_UserID r = "idu".
Proof.
  destruct (AuthLogin.Login toy_cfg (sign_in "secret") toy_world) as [w' [[out user]|e]] eqn:E;
    [|vm_compute in E; discriminate E].
  destruct (Login_issues_valid_tokens toy_cfg (sign_in "secret") toy_world w' out user ltac:(reflexivity)
    ltac:(reflexivity) ltac:(reflexivity) ltac:(intros c [= Hc]; exact (Toy.pos_bits_nonempty _ Hc))
    ltac:(reflexivity) E) as (u & r & _ & Hu & Hr & Hru & _).
  exists r. vm_compute in E. injection E as <- <- <-. split; [exact Hr|].
  rewrite Hru. by injection Hu as <-.
Defined.

Definition account_world : World :=
  with_db (set_service_accounts [ServiceAccount.mkRow "idv" "cron" "" "bc:key" ServiceAccountActive "ide" t0 t0 None]
    toy_db) toy_world.

Lemma AuthenticateServiceAccount_issues_witness :
  ∃ v, sel_one (ServiceAccountRepo.where_id "idv") (db_service_accounts (w_db account_world)) = Some v ∧
    ServiceAccount.r_Status v ≠ ServiceAccountDisabled.
Proof.
  set (i := mkAuthenticateServiceAccountInput "idv" "key" "idp" "" "" "").
  destruct (AuthenticateServiceAccount toy_cfg i account_world) as [w' [out|e]] eqn:E;
    [|vm_compute in E; discriminate E].
  destruct (AuthenticateServiceAccount_issues toy_cfg i account_world w' out ltac:(reflexivity)
    ltac:(intros c [= Hc]; exact (Toy.pos_bits_nonempty _ Hc)) ltac:(reflexivity) E) as (v & Hv & _).
  exists v. split; [exact (ma_account _ _ _ Hv)|exact (ma_status _ _ _ Hv)].
Defined.

End Witness.
