(* ===== verification/PasswordFacts.v ===== *)
(** * PasswordFacts: replacing a password.

    What ChangePassword and ResetPasswordWithRecoveryCode leave behind, and the
    recovery codes they are given. *)
From S2P Require Import Prelude Errors Sql Monad Runtime Listing Kernel AuditDomain World WorldFacts.
From S2P Require Import Identity IdentityRepo App AppRepo Session SessionRepo RecoveryCode RecoveryCodeRepo AuditRepo.
From S2P Require Import AuthBase AuthPassword AuditSafety Change Outcome SessionSafety CodeSafety LoginFacts.
From S2P Require Import Scenario.
Local Open Scope Z_scope.

Section PasswordFacts.
Context `{Runtime} {laws : RuntimeLaws} (cfg : AuthConfig).

(** The row of an UPDATE that a key finds again. *)
Lemma sel_one_upd {R} (q p : R → bool) (f : R → R) t r :
  (∀ x, q (f x) = q x) → sel_one q t = Some r → sel_one q (upd p f t) = Some (if p r then f r else r).
Proof using.
  unfold sel_one, upd. intros Hq. induction t as [|x t IH]; simpl; [done|].
  assert (E : q (if p x then f x else x) = q x) by (destruct (p x); [apply Hq|done]).
  rewrite E. destruct (q x); [by intros [= ->]|done].
Qed.

Lemma never_Discriminate e (c : M World Z) e1 e2 : never_ok (Discriminate e c e1 e2).
Proof using. unfold Discriminate. never. Qed.

(** No session row carries the zero instant as its revocation. *)
Definition stamped (d : DB) : Prop := ∀ s, s ∈ db_sessions d → Session.r_RevokedAt s ≠ Some 0.

Lemma user_get_ok id w w' u :
  w_env w = [] → IdentityRepo.GetByID id w = (w', Ok u) →
  ∃ r, sel_one (IdentityRepo.where_id id) (db_users (w_db w)) = Some r ∧
       u = Identity.dbgenToDomain r ∧ w' = pop_fault w.
Proof using.
  intros Henv E. unfold IdentityRepo.GetByID in E. repeat ok_step E. apply query_one_ok in Hm as [Hm ->].
  rewrite quiet_after, quiet_interfere in * by done. by eexists.
Qed.

(** ** Storing the new password and revoking the sessions *)

Lemma UpdatePassword_ok u e w w' x :
  w_env w = [] → UpdatePassword u e w = (w', Ok x) →
  ∃ t, upd_uniq Identity.clash (IdentityRepo.where_id_etag (u_id u) e) (toUpdatePasswordParams u)
         (db_users (w_db w)) = Some t ∧
       w' = with_db (set_users t (w_db w)) (pop_fault w).
Proof using.
  intros Henv E. unfold UpdatePassword in E. ok_step E. ok_step E.
  apply update_ok in Hm as (t & Ht & -> & ->). rewrite quiet_after, quiet_interfere in * by done.
  case_decide; [|by apply never_Discriminate in E]. ok_step E. by exists t.
Qed.

Lemma RevokeAllForUser_ok user now w w' x :
  w_env w = [] → RevokeAllForUser user now w = (w', Ok x) →
  ∃ t, upd_uniq Session.clash (SessionRepo.where_user_active user) (toRevokeParams now) (db_sessions (w_db w)) = Some t ∧
       w' = with_db (set_sessions t (w_db w)) (pop_fault w).
Proof using.
  intros Henv E. unfold RevokeAllForUser in E. ok_step E.
  apply update_ok in Hm as (t & Ht & -> & ->). rewrite quiet_after, quiet_interfere in * by done.
  ok_step E. by exists t.
Qed.

(** The state after the password of [user] was replaced at [now]. *)
Record replaced (user : Identity.Row) (pw : string) (now : Time) (w w' : World) : Prop := {
  rp_env : w_env w' = [];
  rp_now : w_now w' = w_now w;
  rp_user : ∃ h k, rt_bcrypt_hash k pw (cfg_bcryptCost cfg) = Some h ∧ h ≠ "" ∧
    upd_uniq Identity.clash (IdentityRepo.where_id_etag (Identity.r_ID user) (Identity.r_Etag user))
      (toUpdatePasswordParams (Identity.bumpVersion (rt_uuid k) now
         (Identity.set_passwordHash h (Identity.dbgenToDomain user)))) (db_users (w_db w)) =
      Some (db_users (w_db w'));
  rp_sessions : upd_uniq Session.clash (SessionRepo.where_user_active (Identity.r_ID user)) (toRevokeParams now)
      (db_sessions (w_db w)) = Some (db_sessions (w_db w'));
  rp_codes : db_codes (w_db w') = db_codes (w_db w) }.

Lemma replace_password_ok op aud user pw now w w' x :
  w_env w = [] → replace_password cfg op aud (Identity.dbgenToDomain user) pw now w = (w', Ok x) →
  replaced user pw now w w'.
Proof using.
  intros Henv E. unfold replace_password in E. repeat ok_step E.
  unfold passwordhash_Hash in Hm. repeat ok_step Hm.
  unfold SetPassword in Hm0. repeat case_decide; [done..|]. injection Hm0 as <-.
  apply UpdatePassword_ok in Hm1 as (t & Ht & ->); [|done].
  apply RevokeAllForUser_ok in Hm2 as (t' & Ht' & ->); [|done].
  split; try done. eexists _, (w_seed w). split; [exact Hb|]. split; [by intros ->|done].
Qed.

(** ** After the change *)

(** The new password is the only one the user row accepts, every session the
    user had is revoked, and the session the caller gets is live. *)
Record taken_over (q : Identity.Row → bool) (user : Identity.Row) (pw : string) (w' : World)
    (out : AuthTokens) : Prop := {
  to_password : ∃ r h, sel_one q (db_users (w_db w')) = Some r ∧ Identity.r_ID r = Identity.r_ID user ∧
    Identity.r_PasswordHash r = Some h ∧ rt_bcrypt_compare h pw = true;
  to_revoked : ∀ s, s ∈ db_sessions (w_db w') → SessionRepo.where_user (Identity.r_ID user) s = true →
    Session.IsRevoked (Session.dbgenToDomain s) = true ∨ Session.r_ID s = at_SessionID out;
  to_live : ∃ s, sel_one (SessionRepo.where_id (at_SessionID out)) (db_sessions (w_db w')) = Some s ∧
    Session.r_UserID s = Identity.r_ID user ∧ Session.IsActive (w_now w') (Session.dbgenToDomain s) = true }.

Lemma revoked_sessions user now t t' s :
  0 < now → (∀ s, s ∈ t → Session.r_RevokedAt s ≠ Some 0) →
  upd_uniq Session.clash (SessionRepo.where_user_active user) (toRevokeParams now) t = Some t' →
  s ∈ t' → SessionRepo.where_user user s = true → Session.IsRevoked (Session.dbgenToDomain s) = true.
Proof using.
  unfold upd_uniq. intros Hnow Hst E Hs Hu. case_match; [|done]. injection E as <-.
  apply elem_of_upd in Hs as (r & Hr & ->). apply not_false_iff_true. rewrite Session.IsRevoked_row.
  destruct (SessionRepo.where_user_active user r) eqn:Ea; simpl.
  - unfold Session.revokedAtToDB, TimeToNullTime, IsZero. case_bool_decide; [lia|]. intros [?|[= ->]]; done.
  - unfold SessionRepo.where_user_active in Ea. unfold SessionRepo.where_user in Hu. rewrite Hu in Ea.
    apply bool_decide_eq_false in Ea. intros [?|E]; [done|]. by apply (Hst r).
Qed.

Lemma take_over q user pw op aud ua ip w w1 w2 w' out x u :
  (∀ u r, q (toUpdatePasswordParams u r) = q r) →
  0 < w_now w → 0 < cfg_refreshTTL cfg → 0 < cfg_refreshRotationTTL cfg →
  stamped (w_db w) → w_env w = [] → sel_one q (db_users (w_db w)) = Some user →
  replace_password cfg op aud (Identity.dbgenToDomain user) pw (w_now w) w = (w1, Ok x) →
  mint_session cfg op aud (Identity.dbgenToDomain user) ua ip (w_now w) w1 = (w2, Ok out) →
  Success aud w2 = (w', Ok u) →
  taken_over q user pw w' out ∧ db_codes (w_db w') = db_codes (w_db w).
Proof using laws.
  intros Hq Hnow Ht1 Ht2 Hst Henv Hsel Hr Hm Hs.
  apply replace_password_ok in Hr; [|done]. destruct Hr as [He Hn (h & k & Hh & Hne & Hu) Hss Hc].
  apply mint_ok in Hm; [|done]. destruct Hm as [He2 Hn2 _ _ (t & Ht & Hins) _].
  apply Emit_audited in Hs as [Hau _]; [|done].
  assert (Hus : db_users (w_db w') = db_users (w_db w1)).
  { destruct Hau as (_ & _ & Hd). rewrite Ht in Hd. by apply (f_equal db_users) in Hd. }
  assert (Hcs : db_codes (w_db w') = db_codes (w_db w)).
  { destruct Hau as (_ & _ & Hd). rewrite Ht in Hd. apply (f_equal db_codes) in Hd. by rewrite <- Hc. }
  assert (Hses : db_sessions (w_db w') = t) by by rewrite (audited_sessions _ _ Hau), Ht.
  split; [|exact Hcs]. split.
  - unfold upd_uniq in Hu. case_match; [|done]. injection Hu as Hu. rewrite Hus, <- Hu.
    eexists _, h. split; [by apply (sel_one_upd q)|].
    unfold IdentityRepo.where_id_etag. rewrite !rt_collate_refl. simpl.
    destruct (rt_bcrypt_ok _ _ _ _ Hh) as [_ ?]. split; [done|]. split; [|done].
    unfold BytesToNullString. rewrite decide_False; [done|]. by rewrite len_zero.
  - intros s Hin Hus'. rewrite Hses in Hin. apply (elem_of_ins _ _ _ _ _ Hins) in Hin as [Hin| ->]; [left|by right].
    exact (revoked_sessions _ _ _ _ _ Hnow Hst Hss Hin Hus').
  - eexists. split; [rewrite Hses; exact (ins_found _ _ _ Hins (rt_collate_refl _) rt_collate_sym)|].
    split; [done|]. rewrite Session.row_roundtrip, Session.IsActive_spec.
    destruct Hau as (_ & -> & _). rewrite Hn2, Hn. simpl. unfold sliding_deadline, After.
    case_bool_decide; lia.
Qed.

(** ** ChangePassword *)

(** C9. A password change that succeeds was asked with the current password of a
    user who is neither deleted nor blocked. Afterwards the new password is
    the user's, every session the user had is revoked, and the session of the
    returned token pair is live. *)
Theorem ChangePassword_takes_over ctx i w w' out :
  0 < w_now w → 0 < cfg_refreshTTL cfg → 0 < cfg_refreshRotationTTL cfg →
  stamped (w_db w) → w_env w = [] → ChangePassword cfg ctx i w = (w', Ok out) →
  ∃ user h, sel_one (IdentityRepo.where_id (cw_UserID i)) (db_users (w_db w)) = Some user ∧
    Identity.r_Status user ≠ UserStatusDeleted ∧ Identity.r_Status user ≠ UserStatusBlocked ∧
    Identity.r_PasswordHash user = Some h ∧ rt_bcrypt_compare h (cw_OldPassword i) = true ∧
    cw_NewPassword i ≠ cw_OldPassword i ∧
    taken_over (IdentityRepo.where_id (cw_UserID i)) user (cw_NewPassword i) w' out.
Proof using laws.
  intros Hnow Ht1 Ht2 Hst Henv E. unfold ChangePassword in E. repeat ok_step E.
  unfold ParseUserID in Hm1. destruct (rt_uuid_valid (cw_UserID i)); [|done]. injection Hm1 as <-.
  apply user_get_ok in Hm2 as (user & Hsel & -> & ->); [|done].
  apply negb_false_iff in Hb, Hb0. unfold HasPassword in Hb. simpl in Hb, Hb0.
  destruct (Identity.r_PasswordHash user) as [h|] eqn:Eh; [|done].
  exists user, h. split_and!; try done.
  - intros Heq. unfold validateChangePasswordInput in Hm0. repeat case_decide; done.
  - destruct (take_over (IdentityRepo.where_id (cw_UserID i)) user (cw_NewPassword i) "change password" _ _ _
      (pop_fault w) _ _ _ _ _ _ ltac:(done) Hnow Ht1 Ht2 Hst Henv Hsel Hm3 Hm4 Hm5) as [Hto _]. exact Hto.
Qed.

(** ** ResetPasswordWithRecoveryCode *)

Lemma active_batch_ok user w w' b :
  w_env w = [] → GetActiveBatchByUser user w = (w', Ok b) →
  ∃ r, sel_one (RecoveryCodeRepo.where_user_active user) (db_batches (w_db w)) = Some r ∧
       b_id b = rb_ID r ∧ w' = pop_fault (pop_fault w).
Proof using.
  intros Henv E. unfold GetActiveBatchByUser in E. repeat ok_step E.
  apply query_one_ok in Hm as [Hm ->]. apply query_ok in Hm0 as [_ ->].
  rewrite quiet_interfere in Hm by done. rewrite !quiet_after by (try rewrite !quiet_after; done).
  by eexists.
Qed.

(** C8. A reset that succeeds named an active application and a user who is
    neither deleted nor blocked, with an unused code of the user's active
    batch. Afterwards the code is used, the new password is the user's, every
    session the user had is revoked and the returned session is live. *)
Theorem ResetPassword_takes_over i w w' out :
  0 < w_now w → 0 < cfg_refreshTTL cfg → 0 < cfg_refreshRotationTTL cfg →
  stamped (w_db w) → w_env w = [] → ResetPasswordWithRecoveryCode cfg i w = (w', Ok out) →
  ∃ a user batch c,
    sel_one (AppRepo.where_id (rs_AppID i)) (db_apps (w_db w)) = Some a ∧ App.r_Status a = AppStatusActive ∧
    find_user (rs_Email i) (rs_Username i) (w_db w) = Some user ∧
    Identity.r_Status user ≠ UserStatusDeleted ∧ Identity.r_Status user ≠ UserStatusBlocked ∧
    sel_one (RecoveryCodeRepo.where_user_active (Identity.r_ID user)) (db_batches (w_db w)) = Some batch ∧
    c ∈ db_codes (w_db w) ∧ where_unused (rb_ID batch) (RecoveryCode.Hash (rs_RecoveryCode i)) c = true ∧
    used (rb_ID batch) (RecoveryCode.Hash (rs_RecoveryCode i)) (w_db w') ∧
    taken_over (λ r, if decide (rs_Email i ≠ "") then rt_collate (Identity.r_Email r) (rs_Email i)
                     else rt_collate (Identity.r_Username r) (rs_Username i)) user (rs_NewPassword i) w' out.
Proof using laws.
  intros Hnow Ht1 Ht2 Hst Henv E. unfold ResetPasswordWithRecoveryCode in E. repeat ok_step E.
  unfold resolveApp in Hm0. repeat ok_step Hm0.
  unfold ParseAppID in Hm7. destruct (rt_uuid_valid (rs_AppID i)); [|done]. injection Hm7 as <-.
  apply app_get_ok in Hm0 as (ra & Ha & -> & ->); [|done].
  apply lookupUser_ok in Hm1 as (user & Hsel & -> & ->); [|done].
  apply active_batch_ok in Hm2 as (batch & Hb & Hid & ->); [|done].
  apply ConsumeCode_ok in Hm3 as (t & Ht & (c & Hc & Hun) & ->). rewrite Hid in *.
  rewrite quiet_after, quiet_interfere in * by done.
  set (w1 := pop_fault (pop_fault (pop_fault (pop_fault w)))) in *.
  destruct (take_over (λ r, if decide (rs_Email i ≠ "") then rt_collate (Identity.r_Email r) (rs_Email i)
      else rt_collate (Identity.r_Username r) (rs_Username i)) user _ _ _ _ _
    (with_db (set_codes t (w_db w1)) (pop_fault w1)) _ _ _ _ _ _ ltac:(intros; reflexivity) Hnow Ht1 Ht2 Hst Henv Hsel Hm4 Hm5 Hm6) as [Hto Hcs].
  apply dec_stable in Hd. exists ra, user, batch, c. split_and!; try done.
  pose proof (consumed_used _ _ _ _ _ Hnow Ht) as Hused. unfold used. rewrite Hcs. exact Hused.
Qed.

End PasswordFacts.

(** ** Instances *)

Section Witness.
#[local] Existing Instance toy.

Lemma toy_stamped : stamped (w_db toy_world).
Proof.
  assert (HF : Forall (λ s, Session.r_RevokedAt s ≠ Some 0) (db_sessions (w_db toy_world))).
  { repeat constructor; discriminate. }
  rewrite Forall_forall in HF. exact HF.
Qed.

Definition change_input : ChangePasswordInput := mkChangePasswordInput "idu" "secret" "s3cret" "" "".

Lemma ChangePassword_takes_over_witness :
  let w' := (ChangePassword toy_cfg toy_ctx change_input toy_world).1 in
  (∃ r h, sel_one (IdentityRepo.where_id "idu") (db_users (w_db w')) = Some r ∧
     Identity.r_PasswordHash r = Some h ∧ rt_bcrypt_compare h "s3cret" = true) ∧
  length (db_sessions (w_db w')) = 3%nat.
Proof.
  intros w'. destruct (ChangePassword toy_cfg toy_ctx change_input toy_world) as [w1 [out|e]] eqn:E;
    [|vm_compute in E; discriminate E].
  destruct (ChangePassword_takes_over toy_cfg toy_ctx change_input toy_world w1 out ltac:(reflexivity)
    ltac:(reflexivity) ltac:(reflexivity) toy_stamped ltac:(reflexivity) E)
    as (user & h & _ & _ & _ & _ & _ & _ & [(r & h' & Hr & _ & Hh & Hc) _ _]).
  split.
  - exists r, h'. split; [exact Hr|]. split; [exact Hh|exact Hc].
  - subst w'. vm_compute in E |- *. by injection E as <- _.
Defined.

Definition reset_input : ResetInput :=
  mkResetInput "" "ann" "idp" "" "aaaa-bbbb-cccc" "s3cret" "" "".

Lemma ResetPassword_takes_over_witness :
  let w' := (ResetPasswordWithRecoveryCode toy_cfg reset_input toy_world).1 in
  used "idb" (Toy.sha256 "AAAABBBBCCCC") (w_db w').
Proof.
  intros w'. destruct (ResetPasswordWithRecoveryCode toy_cfg reset_input toy_world) as [w1 [out|e]] eqn:E;
    [|vm_compute in E; discriminate E].
  destruct (ResetPassword_takes_over toy_cfg reset_input toy_world w1 out ltac:(reflexivity)
    ltac:(reflexivity) ltac:(reflexivity) toy_stamped ltac:(reflexivity) E)
    as (a & user & b & c & _ & _ & Hu & _ & _ & Hb & _ & _ & Hused & _).
  vm_compute in Hu. injection Hu as <-. vm_compute in Hb. injection Hb as <-. exact Hused.
Defined.

End Witness.
