(* ===== verification/CodeFacts.v ===== *)
(** * CodeFacts: generating recovery codes.

    The format of a code, what may be typed for it, the loop that draws
    distinct codes, and the batch GenerateRecoveryCodes stores. *)
From stdpp Require Import gmap.
From S2P Require Import Prelude Errors Sql Monad Runtime Listing Kernel AuditDomain World WorldFacts.
From S2P Require Import Identity IdentityRepo Session RecoveryCode RecoveryCodeRepo AuditRepo.
From S2P Require Import AuthBase AuthPassword AuditSafety Change Outcome CodeSafety LoginFacts PasswordFacts.
From S2P Require Import Scenario.
Local Open Scope Z_scope.

(** ** The format of a code *)

Definition in_alphabet (c : Ascii.ascii) : bool := bool_decide (c ∈ string_to_list alphabet).

Lemma alphabet_at_in n : 0 <= n < 32 → in_alphabet (alphabet_at n) = true.
Proof.
  intros Hn. unfold in_alphabet, alphabet_at. apply bool_decide_eq_true.
  destruct (lookup_lt_is_Some_2 (string_to_list alphabet) (Z.to_nat n)) as [c Hc].
  { change (length (string_to_list alphabet)) with 32%nat. lia. }
  rewrite Hc. simpl. by eapply list_elem_of_lookup_2.
Qed.

Lemma code_char_in b : in_alphabet (code_char b) = true.
Proof.
  apply alphabet_at_in. change 31 with (Z.ones 5). rewrite Z.land_ones by lia.
  apply Z.mod_pos_bound. lia.
Qed.

(** Two typed characters that stand for the same letter. *)
Definition upper_char (c : Ascii.ascii) : Ascii.ascii := shift_letter 97 122 (-32) c.

Lemma alphabet_chars c :
  in_alphabet c = true → c ≠ hyphen ∧ byte_of c < 128 ∧ upper_char c = c.
Proof.
  intros Hc%bool_decide_eq_true.
  assert (HF : Forall (λ c, c ≠ hyphen ∧ byte_of c < 128 ∧ upper_char c = c) (string_to_list alphabet)).
  { unfold alphabet. simpl. repeat (constructor; [by vm_compute|]). constructor. }
  rewrite Forall_forall in HF. by apply HF.
Qed.

Lemma upper_char_ascii c : byte_of (upper_char c) < 128 → byte_of c < 128.
Proof.
  unfold upper_char, shift_letter. case_decide; [lia|done].
Qed.

Lemma group_chars_app l :
  group_chars l = take 4 l ++ hyphen :: take 4 (drop 4 l) ++ hyphen :: take 4 (drop 8 l).
Proof. unfold group_chars. simpl. by rewrite app_nil_r. Qed.

Lemma keep_chars l :
  Forall (λ c, in_alphabet c = true) l → List.filter (λ c, negb (bool_decide (c = hyphen))) l = l.
Proof.
  induction 1 as [|c l Hc _ IH]; simpl; [done|].
  apply alphabet_chars in Hc as [Hc _]. rewrite bool_decide_eq_false_2 by done. simpl. by rewrite IH.
Qed.

Lemma strip_groups l :
  Forall (λ c, in_alphabet c = true) l → length l = 12%nat →
  List.filter (λ c, negb (bool_decide (c = hyphen))) (group_chars l) = l.
Proof.
  intros Hl Hlen. rewrite group_chars_app, List.filter_app. simpl. rewrite List.filter_app. simpl.
  rewrite !keep_chars by auto using Forall_take, Forall_drop.
  rewrite (take_ge (drop 8 l)) by (rewrite length_drop; lia).
  transitivity (take 4 l ++ drop 4 l); [|apply take_drop]. f_equal.
  rewrite <- (take_drop 4 (drop 4 l)) at 2. by rewrite drop_drop.
Qed.

Lemma random_chars buf :
  len buf = 12 →
  let l := code_char <$> string_to_list buf in
  Forall (λ c, in_alphabet c = true) l ∧ length l = 12%nat ∧ strip_hyphens (randomCode buf) = string_of_list l.
Proof.
  intros Hb l. rewrite len_list in Hb.
  assert (Hl : Forall (λ c, in_alphabet c = true) l).
  { apply Forall_fmap, Forall_forall. intros c _. apply code_char_in. }
  assert (Hn : length l = 12%nat) by (unfold l; rewrite length_fmap; lia).
  split_and!; [done..|]. unfold strip_hyphens, randomCode. autorewrite with sso_simpl. by rewrite strip_groups.
Qed.

Lemma size_codes (codes : list string) : (size (list_to_set (C := gset string) codes) <= length codes)%nat.
Proof.
  induction codes as [|c codes IH]; [by vm_compute; lia|].
  rewrite list_to_set_cons, size_union_alt, size_singleton.
  assert (size (list_to_set (C := gset string) codes ∖ {[c]}) <= size (list_to_set (C := gset string) codes))%nat.
  { apply subseteq_size. set_solver. }
  rewrite length_cons. lia.
Qed.

Section CodeFacts.
Context `{Runtime}.

Lemma ToUpper_chars l l' :
  Forall2 (λ c d, upper_char c = d ∧ in_alphabet d = true) l l' →
  ToUpper (string_of_list l) = string_of_list l'.
Proof.
  intros Hl. unfold ToUpper. replace (is_ascii _) with true.
  - unfold ascii_upper. f_equal. autorewrite with sso_simpl.
    induction Hl as [|c d l l' [Hc _] _ IH]; [done|].
    rewrite fmap_cons. by f_equal.
  - symmetry. unfold is_ascii. autorewrite with sso_simpl.
    induction Hl as [|c d l l' [Hc Hd] _ IH]; [done|]. simpl. rewrite IH, andb_true_r.
    apply bool_decide_eq_true, upper_char_ascii. rewrite Hc. by apply alphabet_chars.
Qed.

(** [s] is [code] as a user may type it: the same characters up to letter
    case, with hyphens anywhere. *)
Definition typed_as (s code : string) : Prop :=
  Forall2 (λ c d, upper_char c = d) (string_to_list (strip_hyphens s)) (string_to_list (strip_hyphens code)).

(** Codes are three groups of four characters of the alphabet, joined by
    hyphens, and a code hashes the same however its letters are cased and its
    hyphens placed. *)
Theorem randomCode_format buf :
  len buf = Z.of_nat codeLength →
  (∃ g1 g2 g3, string_to_list (randomCode buf) = g1 ++ hyphen :: g2 ++ hyphen :: g3 ∧
     length g1 = groupSize ∧ length g2 = groupSize ∧ length g3 = groupSize ∧
     Forall (λ c, c ∈ string_to_list alphabet) (g1 ++ g2 ++ g3)) ∧
  ∀ s, typed_as s (randomCode buf) → RecoveryCode.Hash s = RecoveryCode.Hash (randomCode buf).
Proof.
  intros Hb. destruct (random_chars buf Hb) as (Hl & Hn & Hs). split.
  - set (l := code_char <$> string_to_list buf) in *.
    exists (take 4 l), (take 4 (drop 4 l)), (take 4 (drop 8 l)). split_and!.
    + unfold randomCode. autorewrite with sso_simpl. apply group_chars_app.
    + rewrite length_take, Hn. done.
    + rewrite length_take, length_drop, Hn. done.
    + rewrite length_take, length_drop, Hn. done.
    + assert (Hd : Forall (λ c, c ∈ string_to_list alphabet) l).
      { eapply Forall_impl; [exact Hl|]. intros c Hc. by apply bool_decide_eq_true in Hc. }
      rewrite !Forall_app. split_and!; auto using Forall_take, Forall_drop.
  - intros s Ht. unfold typed_as in Ht. rewrite Hs in Ht. autorewrite with sso_simpl in Ht.
    unfold RecoveryCode.Hash, hashNormalised. f_equal. rewrite Hs.
    rewrite <- (string_of_to_list (strip_hyphens s)). rewrite !(ToUpper_chars _ (code_char <$> string_to_list buf)); [done| |].
    + clear -Hl. induction Hl as [|c l Hc _ IH]; constructor; [|done]. split; [by apply alphabet_chars|done].
    + clear -Hl Ht. revert Hl. induction Ht as [|c d l l' Hc _ IH]; constructor; apply Forall_cons in Hl as [? ?]; auto.
Qed.

(** ** Drawing the codes *)

(** Distinct codes with their hashes, none too many. *)
Definition drawn (codes : list string) (hashes : list bytes) : Prop :=
  NoDup codes ∧ hashes = RecoveryCode.Hash <$> codes ∧ (length codes <= codesInBatch)%nat ∧
  Forall (λ c, ∃ buf, len buf = Z.of_nat codeLength ∧ c = randomCode buf) codes.

Context {laws : RuntimeLaws}.

Lemma drawn_snoc codes hashes k :
  drawn codes hashes → randomCode (rt_rand k codeLength) ∉ codes → (length codes < codesInBatch)%nat →
  drawn (codes ++ [randomCode (rt_rand k codeLength)]) (hashes ++ [hashNormalised (randomCode (rt_rand k codeLength))]).
Proof using laws.
  intros (Hn & -> & _ & Hf) Hin Hlen. split_and!.
  - apply NoDup_app. split_and!; [done| |apply NoDup_singleton].
    intros c Hc ->%list_elem_of_singleton. done.
  - by rewrite fmap_app.
  - rewrite length_app. simpl. lia.
  - apply Forall_app. split; [done|]. apply Forall_singleton. eexists. split; [|done]. apply rt_rand_len.
Qed.

Lemma generate_loop_ok fuel codes hashes w w' cs hs :
  drawn codes hashes → generate_loop fuel codes hashes w = (w', Ok (Some (cs, hs))) →
  drawn cs hs ∧ length cs = codesInBatch ∧ w_db w' = w_db w ∧ w_env w' = w_env w.
Proof using laws.
  revert codes hashes w. induction fuel as [|fuel IH]; simpl; intros codes hashes w Hd E; case_decide as Hl.
  - apply ret_ok in E as [-> [= -> ->]]. split_and!; [done| |done..]. destruct Hd as (_ & _ & ? & _). lia.
  - by apply ret_ok in E as [_ [=]].
  - apply ret_ok in E as [-> [= -> ->]]. split_and!; [done| |done..]. destruct Hd as (_ & _ & ? & _). lia.
  - ok_step E. case_decide as Hin.
    + by apply IH in E.
    + apply IH in E; [done|]. apply drawn_snoc; [done..|lia].
Qed.

(** The codes of the next [n] draws. *)
Definition draws (k n : nat) : list string := (λ i, randomCode (rt_rand i codeLength)) <$> seq k n.

(** The loop stops as soon as the draws hold enough distinct codes. *)
Lemma generate_loop_total fuel codes hashes w :
  calm w → (codesInBatch <= size (list_to_set (C := gset string) (codes ++ draws (w_seed w) fuel)))%nat →
  ∃ w' cs hs, generate_loop fuel codes hashes w = (w', Ok (Some (cs, hs))).
Proof using laws.
  revert codes hashes w. induction fuel as [|fuel IH]; simpl; intros codes hashes w Hc Hs.
  - rewrite decide_True; [by repeat eexists|]. rewrite app_nil_r in Hs. pose proof (size_codes codes). lia.
  - case_decide; [by repeat eexists|].
    rewrite (mcatch_eq _ _ _ _ _ _ (rand_calm codeLength w Hc)). cbv zeta. case_decide as Hin.
    + apply IH; [done|]. eapply Nat.le_trans; [exact Hs|]. apply subseteq_size.
      unfold draws. simpl. rewrite !list_to_set_app_L. simpl. clear IH Hs. set_solver.
    + apply IH; [done|]. eapply Nat.le_trans; [exact Hs|]. apply subseteq_size.
      unfold draws. simpl. rewrite !list_to_set_app_L. simpl. set_solver.
Qed.

(** The generator ends with ten distinct codes and their hashes as soon as the
    source of randomness has produced ten distinct codes, and it never
    touches the database. *)
Theorem generate_loop_complete fuel w :
  calm w → (codesInBatch <= size (list_to_set (C := gset string) (draws (w_seed w) fuel)))%nat →
  ∃ w' cs, generate_loop fuel [] [] w = (w', Ok (Some (cs, RecoveryCode.Hash <$> cs))) ∧
    length cs = codesInBatch ∧ NoDup cs ∧ w_db w' = w_db w.
Proof using laws.
  intros Hc Hs. destruct (generate_loop_total fuel [] [] w Hc Hs) as (w' & cs & hs & E).
  assert (Hd : drawn [] []) by (split_and!; [constructor|done|simpl; lia|constructor]).
  destruct (generate_loop_ok _ _ _ _ _ _ _ Hd E) as ((Hn & -> & _ & _) & Hl & Hdb & _).
  by exists w', cs.
Qed.

(** ** Storing the batch *)

Lemma ins_app {R} (clash : R → R → bool) r t t' : ins clash r t = Some t' → t' = t ++ [r].
Proof using. unfold ins. case_match; [done|]. by intros [= <-]. Qed.

Lemma sel_one_last {R} (p : R → bool) t r :
  (∀ x, x ∈ t → p x = false) → p r = true → sel_one p (t ++ [r]) = Some r.
Proof using.
  unfold sel_one. intros Ht Hr. induction t as [|x t IH]; simpl; [by rewrite Hr|].
  rewrite Ht by by left. apply IH. intros. apply Ht. by right.
Qed.

Lemma create_codes_ok b cs w w' u :
  w_env w = [] →
  mfor cs (λ c, _ <- sql_insert db_codes set_codes code_clash (fk_batch b) (toCreateCodeParams b c)
                catch err => throw (EWrap "recovery code repo: create code" err) ;; ret tt) w = (w', Ok u) →
  db_codes (w_db w') = db_codes (w_db w) ++ (toCreateCodeParams b <$> cs) ∧ db_batches (w_db w') = db_batches (w_db w).
Proof using.
  revert w. induction cs as [|c cs IH]; simpl; intros w Henv E.
  - apply ret_ok in E as [-> _]. by rewrite app_nil_r.
  - ok_step E. ok_step Hm. apply insert_ok in Hm0 as (t & Ht%ins_app & _ & ->).
    rewrite quiet_after, quiet_interfere in * by done. ok_step Hm.
    apply IH in E as [E1 E2]; [|done]. rewrite E1, E2, Ht. simpl. by rewrite <- app_assoc.
Qed.

Lemma CreateBatch_alone b w : w_env w = [] → w_env (CreateBatch b w).1 = [].
Proof using.
  intros Henv. assert (Hk : keeps (alone (w_now w)) (CreateBatch b) (λ _, True)).
  { apply alone_InTx. keeps_walk. }
  destruct (Hk w) as [[? _] _]; [by split|done].
Qed.

Lemma CreateBatch_ok b w w' u :
  w_env w = [] → CreateBatch b w = (w', Ok u) →
  w_env w' = [] ∧
  db_batches (w_db w') = db_batches (w_db w) ++ [toCreateBatchParams b] ∧
  db_codes (w_db w') = db_codes (w_db w) ++ (toCreateCodeParams (b_id b) <$> b_codes b).
Proof using.
  intros Henv E. split; [pose proof (CreateBatch_alone b w Henv) as Ha; by rewrite E in Ha|]. unfold CreateBatch in E.
  apply InTx_ok in E as (w0 & w1 & Hw0 & Henv0 & Hm & ->); [|done]. ok_step Hm.
  apply insert_ok in Hm0 as (t & Ht%ins_app & _ & ->).
  rewrite quiet_after, quiet_interfere in * by done.
  apply create_codes_ok in Hm as [E1 E2]; [|done]. rewrite E1, E2, Ht. simpl. by rewrite Hw0.
Qed.

Lemma RevokeActive_ok user now w w' u :
  w_env w = [] → RevokeActiveBatchesForUser user now w = (w', Ok u) →
  ∃ t, upd_uniq batch_clash (RecoveryCodeRepo.where_user_active user) (set_revoked now) (db_batches (w_db w)) = Some t ∧
       w' = with_db (set_batches t (w_db w)) (pop_fault w).
Proof using.
  intros Henv E. unfold RevokeActiveBatchesForUser in E. ok_step E.
  apply update_ok in Hm as (t & Ht & -> & ->). rewrite quiet_after, quiet_interfere in * by done.
  ok_step E. by exists t.
Qed.

Lemma revoked_batches user now t t' r :
  0 < now → upd_uniq batch_clash (RecoveryCodeRepo.where_user_active user) (set_revoked now) t = Some t' →
  r ∈ t' → rt_collate (rb_UserID r) user = true → rb_RevokedAt r ≠ None.
Proof using.
  unfold upd_uniq. intros Hnow E Hr Hu. case_match; [|done]. injection E as <-.
  apply elem_of_upd in Hr as (r0 & Hr0 & ->).
  destruct (RecoveryCodeRepo.where_user_active user r0) eqn:Ea; [by apply positive_not_null|].
  unfold RecoveryCodeRepo.where_user_active in Ea. rewrite Hu in Ea. by apply bool_decide_eq_false in Ea.
Qed.

Lemma Emit_tables p w w' u :
  w_env w = [] → Emit p w = (w', Ok u) →
  db_batches (w_db w') = db_batches (w_db w) ∧ db_codes (w_db w') = db_codes (w_db w).
Proof using.
  intros Henv E. apply Emit_audited in E as [(_ & _ & Hd) _]; [|done]. by rewrite <- Hd.
Qed.


End CodeFacts.

(** ** Instances *)

Section Witness.
#[local] Existing Instance toy.

Lemma randomCode_format_witness :
  RecoveryCode.Hash "2345-6789-abcd" = RecoveryCode.Hash (randomCode (Toy.rand 0 12)).
Proof.
  refine (proj2 (randomCode_format (Toy.rand 0 12) ltac:(reflexivity)) "2345-6789-abcd" _).
  unfold typed_as. apply (bool_decide_eq_true_1 _). vm_compute. reflexivity.
Defined.

Lemma generate_loop_complete_witness :
  ∃ w' cs, generate_loop 10 [] [] toy_world = (w', Ok (Some (cs, RecoveryCode.Hash <$> cs))) ∧ length cs = 10%nat.
Proof.
  destruct (generate_loop_complete 10 toy_world ltac:(by split) ltac:(vm_compute; lia))
    as (w' & cs & E & Hl & _). exists w', cs. split; [exact E|exact Hl].
Defined.


End Witness.
