(* ===== verification/RefreshFacts.v ===== *)
(** * RefreshFacts: rotation of refresh tokens, and its race.

    A refresh swaps the token hash in the session row, so that the old token is
    dead; a refresh that loses the race against another one of the same token
    is answered as a replay and revokes every session of the user. *)
From S2P Require Import Prelude Errors Sql Monad Runtime Listing Kernel AuditDomain World WorldFacts.
From S2P Require Import Identity IdentityRepo Session SessionRepo AuditRepo.
From S2P Require Import AuthBase AuthRefresh AuditSafety Change Outcome SessionSafety LoginFacts PasswordFacts.
From S2P Require Import Scenario.
Local Open Scope Z_scope.

(** In a table with a unique key, a row is the one its key finds. *)
Lemma uniq_sel_one {R} (clash : R → R → bool) (p : R → bool) t r :
  (∀ x y, clash x y = clash y x) → uniq clash t = true → r ∈ t → p r = true →
  (∀ x, p x = true → clash r x = true) → sel_one p t = Some r.
Proof.
  intros Hsym Hu Hr Hp Hc. destruct (sel_one p t) as [x|] eqn:E.
  - apply sel_one_Some in E as [Hx Hpx]. f_equal. symmetry. eapply uniq_elem; eauto.
  - rewrite sel_one_None in E. by rewrite E in Hp.
Qed.

(** An UPDATE that leaves the keys alone violates none. *)
Lemma upd_uniq_keys {R} (clash : R → R → bool) (p : R → bool) (f : R → R) t :
  (∀ x y, clash (if p x then f x else x) (if p y then f y else y) = clash x y) →
  uniq clash t = true → upd_uniq clash p f t = Some (upd p f t).
Proof.
  intros Hc Hu. unfold upd_uniq. replace (uniq clash (upd p f t)) with true; [done|].
  symmetry. unfold upd. induction t as [|x t IH]; simpl in *; [done|].
  apply andb_true_iff in Hu as [Hx Hu]. rewrite IH by done. rewrite andb_true_r.
  clear IH Hu. induction t as [|y t IH]; simpl in *; [done|].
  apply andb_true_iff in Hx as [Hy Ht]. by rewrite Hc, Hy, IH.
Qed.

Section RefreshFacts.
Context `{Runtime} {laws : RuntimeLaws} (cfg : AuthConfig).

Lemma Rotate_ok s h w w' x :
  w_env w = [] → Rotate s h w = (w', Ok x) →
  ∃ t, upd_uniq Session.clash (where_id_hash (s_id s) h) (toRotateParams s) (db_sessions (w_db w)) = Some t ∧
       w' = with_db (set_sessions t (w_db w)) (pop_fault w).
Proof using.
  intros Henv E. unfold Rotate in E. ok_step E.
  apply update_ok in Hm as (t & Ht & -> & ->). rewrite quiet_after, quiet_interfere in * by done.
  ok_step E. ok_step E. by exists t.
Qed.

(** The premises of a refresh. *)
Record may_refresh (tok : string) (now : Time) (d : DB) (r : Session.Row) : Prop := {
  mr_row : sel_one (where_refresh_hash (tokenGen_Hash tok)) (db_sessions d) = Some r;
  mr_active : Session.IsActive now (Session.dbgenToDomain r) = true;
  mr_user : ∃ u, sel_one (IdentityRepo.where_id (Session.r_UserID r)) (db_users d) = Some u ∧
    Identity.r_Status u ≠ UserStatusDeleted ∧ Identity.r_Status u ≠ UserStatusBlocked }.

(** The session after rotation at [now]. *)
Definition rotated (newtok : string) (now : Time) (r : Session.Row) : Session.Row :=
  Session.mkRow (Session.r_ID r) (Session.r_UserID r) (tokenGen_Hash newtok) (Session.r_UserAgent r)
    (Session.r_IpAddress r) (Session.r_IssuedAt r) (Session.r_ExpiresAt r)
    (Z.min (now + cfg_refreshRotationTTL cfg) (Session.r_ExpiresAt r)) now (Session.r_RevokedAt r).

Lemma sliding_deadline_min now cap :
  sliding_deadline cfg now cap = Z.min (now + cfg_refreshRotationTTL cfg) cap.
Proof using. unfold sliding_deadline, After. case_bool_decide; lia. Qed.

Lemma Refresh_inv tok w w' out :
  w_env w = [] → AuthRefresh.Refresh cfg tok w = (w', Ok out) →
  ∃ r t, may_refresh tok (w_now w) (w_db w) r ∧ at_SessionID out = Session.r_ID r ∧
    upd_uniq Session.clash (where_id_hash (Session.r_ID r) (tokenGen_Hash tok))
      (λ r', toRotateParams (Session.dbgenToDomain (rotated (at_RefreshToken out) (w_now w) r)) r')
      (db_sessions (w_db w)) = Some t ∧ db_sessions (w_db w') = t.
Proof using.
  intros Henv E. unfold AuthRefresh.Refresh in E. repeat ok_step E.
  apply session_by_hash_ok in Hm as (r & Hr & -> & ->). rewrite quiet_after, quiet_interfere in * by done.
  unfold ParseUserID in Hm0. simpl in Hm0. destruct (rt_uuid_valid (Session.r_UserID r)); [|done].
  injection Hm0 as <-. apply user_get_ok in Hm1 as (u & Hu & -> & ->); [|done].
  apply tokenGen_ok in Hm2 as [-> ->]. apply RotateRefresh_ok in Hm3 as [Hrev ->].
  apply Rotate_ok in Hm4 as (t & Ht & ->); [|done]. apply Sign_ok in Hm5 as [_ ->].
  apply Emit_audited in Hm6 as [Hau _]; [|done].
  exists r, t. split; [|split; [done|split]].
  - split; [exact Hr| |by exists u]. unfold Session.IsActive.
    apply orb_false_iff in Hb as [[-> ->]%orb_false_iff ->]. done.
  - rewrite <- Ht. f_equal. unfold toRotateParams. simpl. by rewrite sliding_deadline_min.
  - by rewrite (audited_sessions _ _ Hau).
Qed.



(** ** The race of two refreshes *)

(** A statement that does not fail, after what ran concurrently. *)
Lemma exec_run {A} (f : DB → res (A * DB)) w :
  w_faults w = [] →
  exec f w = match f (w_db (interfere w)) with
             | Err e => (interfere w, Err e)
             | Ok (a, d) => (with_db d (interfere w), Ok a)
             end.
Proof using.
  intros Hf. unfold exec, next_fault. rewrite Hf. simpl.
  assert (Hp : pop_fault (interfere w) = interfere w).
  { unfold pop_fault, interfere. destruct w as [d fs env ? ? ?]. simpl in Hf. subst fs. by destruct env. }
  rewrite Hp. by destruct (f _) as [[]|].
Qed.

Lemma query_one_run {A} (f : DB → option A) w :
  w_faults w = [] →
  query_one f w = (interfere w, match f (w_db (interfere w)) with Some a => Ok a | None => Err ENoRows end).
Proof using.
  intros Hf. unfold query_one. rewrite exec_run by done. destruct (f _); [|done]. by rewrite with_same_db.
Qed.

Lemma GetByRefreshHash_run h w r :
  w_faults w = [] → sel_one (where_refresh_hash h) (db_sessions (w_db (interfere w))) = Some r →
  GetByRefreshHash h w = (interfere w, Ok (Session.dbgenToDomain r)).
Proof using. intros Hf Hr. unfold GetByRefreshHash, mcatch; autounfold with queries. by rewrite query_one_run, Hr. Qed.

Lemma user_get_run id w u :
  w_faults w = [] → sel_one (IdentityRepo.where_id id) (db_users (w_db (interfere w))) = Some u →
  IdentityRepo.GetByID id w = (interfere w, Ok (Identity.dbgenToDomain u)).
Proof using. intros Hf Hr. unfold IdentityRepo.GetByID, mcatch; autounfold with queries. by rewrite query_one_run, Hr. Qed.

Lemma generate_run w :
  w_faults w = [] → ∃ pl, tokenGen_Generate w = (tick_seed w, Ok (pl, tokenGen_Hash pl)).
Proof using.
  intros Hf. unfold tokenGen_Generate, mcatch, rand_Read, next_fault, pop_fault. rewrite Hf. simpl.
  eexists. unfold ret, tick_seed. simpl. by rewrite Hf.
Qed.

(** The row a rotation is conditioned on is gone. *)
Lemma Rotate_lost s h w :
  w_faults w = [] → uniq Session.clash (db_sessions (w_db (interfere w))) = true →
  (∀ x, x ∈ db_sessions (w_db (interfere w)) → where_id_hash (s_id s) h x = false) →
  Rotate s h w = (interfere w, Err (ESentinel session_ErrRefreshTokenReused)).
Proof using.
  intros Hf Hu Hx. apply count_zero in Hx. unfold Rotate, mcatch; autounfold with queries; unfold update_sessions, sql_update.
  rewrite exec_run by done. unfold upd_uniq. rewrite (upd_none _ _ _ Hx), Hu.
  assert (Ha : affected rt_found_rows (where_id_hash (s_id s) h) (toRotateParams s)
    (db_sessions (w_db (interfere w))) = 0).
  { pose proof (changed_le_matched (where_id_hash (s_id s) h) (toRotateParams s) (db_sessions (w_db (interfere w)))) as Hle.
    pose proof (count_nonneg (λ r, where_id_hash (s_id s) h r && bool_decide (toRotateParams s r ≠ r))
      (db_sessions (w_db (interfere w)))). unfold affected, matched in *. rewrite Hx in *.
    unfold changed in *. case_match; lia. }
  assert (Hsame : ∀ d, set_sessions (db_sessions d) d = d) by by intros [].
  by rewrite Ha, Hsame, with_same_db.
Qed.

Lemma IsActive_parts now s :
  Session.IsActive now s = true →
  Session.IsRevoked s = false ∧ IsAbsoluteExpired now s = false ∧ IsRefreshExpired now s = false.
Proof using. unfold Session.IsActive. rewrite !andb_true_iff, !negb_true_iff. tauto. Qed.

Lemma revoke_keys x y p now :
  Session.clash (if (p x : bool) then toRevokeParams now x else x) (if p y then toRevokeParams now y else y) =
  Session.clash x y.
Proof using. by destruct (p x), (p y). Qed.

(** C11. Two requests present the same refresh token, and the other one rotates it
    after this one has read the session and the user: this one is answered
    [ErrRefreshTokenReused], and every session of the user is revoked. *)
Theorem Refresh_lost_race tok e1 e2 e3 w r u :
  let d1 := e1 (w_db w) in let d2 := e2 d1 in let d3 := e3 d2 in
  tok ≠ "" → 0 < w_now w → rt_uuid_valid (Session.r_UserID r) = true →
  sel_one (where_refresh_hash (tokenGen_Hash tok)) (db_sessions d1) = Some r →
  Session.IsActive (w_now w) (Session.dbgenToDomain r) = true →
  sel_one (IdentityRepo.where_id (Session.r_UserID r)) (db_users d2) = Some u →
  Identity.r_Status u ≠ UserStatusDeleted → Identity.r_Status u ≠ UserStatusBlocked →
  uniq Session.clash (db_sessions d3) = true → stamped d3 →
  (∀ x, x ∈ db_sessions d3 → where_id_hash (Session.r_ID r) (tokenGen_Hash tok) x = false) →
  ∃ w', AuthRefresh.Refresh cfg tok (load [] [e1; e2; e3] w) = (w', Err (ESentinel auth_ErrRefreshTokenReused)) ∧
    ∀ s, s ∈ db_sessions (w_db w') → SessionRepo.where_user (Session.r_UserID r) s = true →
    Session.IsRevoked (Session.dbgenToDomain s) = true.
Proof using laws.
  intros d1 d2 d3 Htok Hnow Hv Hr Ha Hu Hdel Hbl Hun Hst Hgone.
  set (w0 := load [] [e1; e2; e3] w). unfold AuthRefresh.Refresh. rewrite decide_False by done.
  rewrite (gobind_eq _ _ w0 w0 (w_now w)) by done. cbv zeta.
  rewrite (mcatch_eq _ _ _ _ _ _ (GetByRefreshHash_run (tokenGen_Hash tok) w0 r ltac:(done) Hr)).
  apply IsActive_parts in Ha as (Hrev & Hab & Hrf). rewrite Hrev, Hab, Hrf. cbv zeta beta iota delta [orb].
  change (s_userID (Session.dbgenToDomain r)) with (Session.r_UserID r). unfold ParseUserID. rewrite Hv.
  rewrite (mcatch_eq _ _ _ _ (interfere w0) (Session.r_UserID r)) by done.
  rewrite (mcatch_eq _ _ _ _ _ _ (user_get_run (Session.r_UserID r) (interfere w0) u ltac:(done) Hu)).
  change (u_status (Identity.dbgenToDomain u)) with (Identity.r_Status u). rewrite !decide_False by done.
  destruct (generate_run (interfere (interfere w0)) ltac:(done)) as [pl Hg].
  rewrite (mcatch_eq _ _ _ _ _ _ Hg). cbv zeta iota.
  set (w3 := tick_seed (interfere (interfere w0))).
  set (dl := sliding_deadline _ _ _). set (s' := Session.dbgenToDomain (Session.mkRow (Session.r_ID r) (Session.r_UserID r) (tokenGen_Hash pl)
    (Session.r_UserAgent r) (Session.r_IpAddress r) (Session.r_IssuedAt r) (Session.r_ExpiresAt r) dl (w_now w)
    (Session.r_RevokedAt r))).
  assert (HR : lift (RotateRefresh (tokenGen_Hash pl) (w_now w) dl (Session.dbgenToDomain r)) w3 = (w3, Ok s')).
  { unfold lift, RotateRefresh. by rewrite Hrev. }
  rewrite (mcatch_eq _ _ _ _ _ _ HR).
  rewrite (mcatch_err _ _ _ _ _ _ (Rotate_lost s' (tokenGen_Hash tok) w3 ltac:(done) Hun Hgone)).
  replace (errors_is _ _) with true by by vm_compute. cbv iota.
  assert (HV : ignore (RevokeAllForUser (s_userID s') (w_now w)) (interfere w3) =
    (with_db (set_sessions (upd (SessionRepo.where_user_active (Session.r_UserID r)) (toRevokeParams (w_now w))
       (db_sessions d3)) d3) (interfere w3), Ok tt)).
  { unfold ignore, RevokeAllForUser, mcatch; autounfold with queries; unfold update_sessions. rewrite update_calm by by split.
    by rewrite (upd_uniq_keys Session.clash _ _ _ (λ x y, revoke_keys x y _ _) Hun). }
  rewrite (gobind_eq _ _ _ _ _ HV).
  destruct (fail_ran (A := AuthTokens) (aud_subject (aud_base 104 ActorTypeAnonymous "" "") SubjectTypeSession
    (s_id (Session.dbgenToDomain r))) ReasonRefreshTokenReused (ESentinel auth_ErrRefreshTokenReused)
    (with_db (set_sessions (upd (SessionRepo.where_user_active (Session.r_UserID r)) (toRevokeParams (w_now w))
       (db_sessions d3)) d3) (interfere w3)) ltac:(done)) as (w' & Hw' & Hau).
  exists w'. split; [exact Hw'|]. rewrite (audited_sessions _ _ Hau). intros s Hs Hus.
  apply (revoked_sessions (Session.r_UserID r) (w_now w) (db_sessions d3) _ s Hnow Hst
    (upd_uniq_keys Session.clash _ _ _ (λ x y, revoke_keys x y _ _) Hun) Hs Hus).
Qed.

End RefreshFacts.

(** ** Instances *)

Section Witness.
#[local] Existing Instance toy.


(** The other request, as interference. *)
Definition other_refresh (d : DB) : DB :=
  w_db (AuthRefresh.Refresh toy_cfg "ry" (with_db d toy_world)).1.

Lemma Refresh_lost_race_witness :
  ∃ w', AuthRefresh.Refresh toy_cfg "ry" (load [] [λ d, d; λ d, d; other_refresh] toy_world) =
    (w', Err (ESentinel auth_ErrRefreshTokenReused)) ∧
    ∀ s, s ∈ db_sessions (w_db w') → SessionRepo.where_user "idu" s = true →
    Session.IsRevoked (Session.dbgenToDomain s) = true.
Proof.
  assert (HF : Forall (λ x, Session.r_RevokedAt x ≠ Some 0 ∧ where_id_hash "idy" (tokenGen_Hash "ry") x = false)
    (db_sessions (other_refresh toy_db))).
  { vm_compute. repeat constructor; discriminate. }
  rewrite Forall_forall in HF.
  exact (Refresh_lost_race (H := toy) toy_cfg "ry" (λ d, d) (λ d, d) other_refresh toy_world (session_row "idy" "ry" None) user_row
    ltac:(discriminate) ltac:(reflexivity) ltac:(vm_compute; reflexivity) ltac:(vm_compute; reflexivity)
    ltac:(vm_compute; reflexivity) ltac:(vm_compute; reflexivity)
    ltac:(discriminate) ltac:(discriminate) ltac:(vm_compute; reflexivity) (λ s Hs, proj1 (HF s Hs)) (λ s Hs, proj2 (HF s Hs))).
Defined.

End Witness.
