(* ===== verification/ListingFacts.v ===== *)
(** * ListingFacts: following page cursors lists every matching row once.

    Each List repository method, over a client that passes the cursor of a page
    to fetch the next one, over a table at rest and over one that changes between
    the calls. *)
From S2P Require Import Prelude Errors Sql Monad Runtime Listing Kernel AuditDomain World Outcome.
From S2P Require Import Identity IdentityRepo App AppRepo Role RoleRepo ServiceAccount ServiceAccountRepo.
From S2P Require Import Access AccessRepo AuditMapper AuditRepo Scenario.
Local Open Scope Z_scope.

(** ** Clients *)

(** The pages a client sees; a failed call ends the listing. *)
Definition pages {R C A} (fuel : nat) (call : option C → res A) (items : A → list R) (next : A → option C) : list R :=
  follow fuel (λ after, match call after with Ok r => (items r, next r) | Err _ => ([], None) end) None.

Lemma follow_ext {R C} fuel (f g : option C → list R * option C) a :
  (∀ a, f a = g a) → follow fuel f a = follow fuel g a.
Proof.
  intros E. revert a. induction fuel as [|fuel IH]; intros a; simpl; [done|]. rewrite E.
  destruct (g a) as [rows [c|]]; [by rewrite IH|done].
Qed.

Lemma follow_map {R R' C} (h : R → R') fuel (f : option C → list R * option C) a :
  follow fuel (λ a, (h <$> (f a).1, (f a).2)) a = h <$> follow fuel f a.
Proof.
  revert a. induction fuel as [|fuel IH]; intros a; simpl; [done|].
  destruct (f a) as [rows [c|]]; simpl; rewrite fmap_app; [by rewrite IH|done].
Qed.

Lemma uniq_weaken {R} (c c' : R → R → bool) t :
  (∀ r r', c' r r' = true → c r r' = true) → uniq c t = true → uniq c' t = true.
Proof.
  intros Hc. induction t as [|r t IH]; simpl; [done|]. intros [Hf Hu]%andb_true_iff.
  rewrite IH by done. rewrite andb_true_r. rewrite forallb_forall in *. intros x Hx.
  specialize (Hf x Hx). rewrite negb_true_iff in *. destruct (c' r x) eqn:E; [|done].
  apply Hc in E. congruence.
Qed.

(** A client whose calls are answered at successive instants; also tells whether
    it reached the last page. *)
Definition pages_over {R C A} (calls : list (option C → res A)) (items : A → list R) (next : A → option C) :
    list R * bool :=
  browse ((λ call after, match call after with Ok r => (items r, next r) | Err _ => ([], None) end) <$> calls) None.

Lemma browse_map {R R' C} (h : R → R') (fs : list (option C → list R' * option C)) gs a :
  Forall2 (λ f g, ∀ a, f a = (h <$> (g a).1, (g a).2)) fs gs →
  browse fs a = (h <$> (browse gs a).1, (browse gs a).2).
Proof.
  intros Hf. revert a. induction Hf as [|f g fs gs E Hf IH]; intros a; simpl; [done|]. rewrite E.
  destruct (g a) as [rows [c|]]; simpl; [|done]. rewrite IH. destruct (browse gs (Some c)); simpl. by rewrite fmap_app.
Qed.

Section ListingFacts.
Context `{Runtime} {laws : RuntimeLaws}.

(** The generic statement: a page is fetched and trimmed as in [fetch_page],
    and shown through [h]. *)
Lemma pages_all {R R' C A} n base (before : R → R → bool) (key : R → C) keyset (t : list R)
    (call : option C → res A) (items : A → list R') next (h : R → R') fuel :
  0 < n → strict_on before t → (∀ x r, x ∈ t → r ∈ t → keyset (key x) r = before x r) →
  (∀ after, ∃ a, call after = Ok a ∧
     items a = h <$> (fetch_page n base before key keyset t after).1 ∧
     next a = (fetch_page n base before key keyset t after).2) →
  (length t < fuel)%nat →
  pages fuel call items next = h <$> order_by before (sel base t).
Proof using laws.
  intros Hn Hs Hk Hl Hf. unfold pages.
  rewrite <- (follow_all n base before key keyset t Hn Hs Hk fuel Hf), <- follow_map.
  apply follow_ext. intros a. destruct (Hl a) as (x & -> & -> & ->). done.
Qed.

End ListingFacts.

(** Solves the order facts of a List method, order by order. *)
Ltac order_facts :=
  intros; repeat case_decide; try done;
  eauto using time_id_lt_irrefl, name_id_lt_irrefl, collate_lt_irrefl,
    time_id_lt_trans, name_id_lt_trans, rt_collate_lt_trans.

Ltac order_total :=
  intros ? ?; repeat case_decide; try done;
  match goal with
  | |- context [time_id_lt ?t1 ?i1 ?t2 ?i2] =>
      destruct (time_id_lt_total t1 i1 t2 i2) as [?|[?|?]]
  | |- context [name_id_lt ?t1 ?i1 ?t2 ?i2] =>
      destruct (name_id_lt_total t1 i1 t2 i2) as [?|[?|?]]
  | |- context [rt_collate_lt ?i1 ?i2] => destruct (collate_lt_total i1 i2) as [?|[?|?]]
  end; first [tauto | rewrite rt_collate_sym; tauto].

(** A listing call on a quiet server returns the trimmed page. *)
Ltac page_call Hc :=
  rewrite (mcatch_eq _ _ _ _ _ _ (query_calm _ _ Hc));
  rewrite (surjective_pairing (trim_page _ _ _));
  eexists; split; [reflexivity|split; reflexivity].

Section Instances.
Context `{Runtime} {laws : RuntimeLaws}.

(** ** The orders are strict on tables whose ids are distinct *)

Lemma users_strict o t :
  uniq Identity.clash t = true → strict_on (IdentityRepo.orderClauseFor o) t.
Proof using laws.
  intros Hu. apply (strict_on_key _ Identity.r_ID); unfold IdentityRepo.orderClauseFor; [order_facts..|order_total|].
  eapply uniq_weaken; [|exact Hu]. unfold Identity.clash. by intros ? ? ->.
Qed.
Lemma apps_strict o t :
  uniq App.clash t = true → strict_on (AppRepo.orderClauseFor o) t.
Proof using laws.
  intros Hu. apply (strict_on_key _ App.r_ID); unfold AppRepo.orderClauseFor; [order_facts..|order_total|].
  eapply uniq_weaken; [|exact Hu]. unfold App.clash. by intros ? ? ->.
Qed.
Lemma roles_strict o t :
  uniq Role.clash t = true → strict_on (RoleRepo.orderClauseFor o) t.
Proof using laws.
  intros Hu. apply (strict_on_key _ Role.r_ID); unfold RoleRepo.orderClauseFor; [order_facts..|order_total|].
  eapply uniq_weaken; [|exact Hu]. unfold Role.clash. by intros ? ? ->.
Qed.
Lemma audits_strict t :
  uniq AuditMapper.clash t = true → strict_on AuditRepo.orderClause t.
Proof using laws.
  intros Hu. apply (strict_on_key _ AuditMapper.r_ID); unfold AuditRepo.orderClause; [order_facts..|order_total|].
  eapply uniq_weaken; [|exact Hu]. unfold AuditMapper.clash. by intros ? ? ->.
Qed.

Lemma accounts_strict o t :
  o ≠ OrderByLastAuthenticatedAtDesc → o ≠ OrderByLastAuthenticatedAtAsc →
  uniq ServiceAccount.clash t = true → strict_on (ServiceAccountRepo.orderClauseFor o) t.
Proof using laws.
  intros H1 H2 Hu. apply (strict_on_key _ ServiceAccount.r_ID); unfold ServiceAccountRepo.orderClauseFor;
    [order_facts..|order_total|].
  eapply uniq_weaken; [|exact Hu]. unfold ServiceAccount.clash. by intros ? ? ->.
Qed.

(** ** The pages of each listing *)

(** The query of a client that asks for the page after [after]. *)
Definition users_after (q : IdentityRepo.ListQuery) after : IdentityRepo.ListQuery :=
  IdentityRepo.mkListQuery (IdentityRepo.q_PageSize q) after (IdentityRepo.q_Search q) (IdentityRepo.q_Emails q)
    (IdentityRepo.q_Usernames q) (IdentityRepo.q_DisplayNames q) (IdentityRepo.q_Statuses q) (IdentityRepo.q_OrderBy q).

(** Following the cursors of ListUsers from the first page on, in any of the
    orders and with any filters, lists the users that pass the filters, each
    exactly once and in the order asked for. *)
Theorem ListUsers_pages q w fuel :
  calm w → uniq Identity.clash (db_users (w_db w)) = true → 0 < IdentityRepo.q_PageSize q →
  (length (db_users (w_db w)) < fuel)%nat →
  pages fuel (λ after, (IdentityRepo.List (users_after q after) w).2) IdentityRepo.lr_Users IdentityRepo.lr_NextCursor =
  (λ r, Identity.dbgenToDomain (scan_row r)) <$>
    order_by (IdentityRepo.orderClauseFor (IdentityRepo.q_OrderBy q)) (sel (IdentityRepo.filters q) (db_users (w_db w))).
Proof using laws.
  intros Hc Hu Hn Hf. eapply pages_all; [exact Hn|by apply users_strict| | |exact Hf].
  - intros x r _ _. exact (eq_refl (IdentityRepo.keysetClause (IdentityRepo.q_OrderBy q) (IdentityRepo.cursor_of x) r)).
  - intros after. unfold IdentityRepo.List. simpl. rewrite decide_False by lia. page_call Hc.
Qed.

Definition apps_after (q : AppRepo.ListQuery) after : AppRepo.ListQuery :=
  AppRepo.mkListQuery (AppRepo.q_PageSize q) after (AppRepo.q_Search q) (AppRepo.q_Statuses q) (AppRepo.q_OrderBy q).

(** The same for ListApps. *)
Lemma ListApps_pages q w fuel :
  calm w → uniq App.clash (db_apps (w_db w)) = true → 0 < AppRepo.q_PageSize q →
  (length (db_apps (w_db w)) < fuel)%nat →
  pages fuel (λ after, (AppRepo.List (apps_after q after) w).2) AppRepo.lr_Apps AppRepo.lr_NextCursor =
  App.dbgenToDomain <$>
    order_by (AppRepo.orderClauseFor (AppRepo.q_OrderBy q)) (sel (AppRepo.filters q) (db_apps (w_db w))).
Proof using laws.
  intros Hc Hu Hn Hf. eapply pages_all; [exact Hn|by apply apps_strict| | |exact Hf].
  - intros x r _ _. exact (eq_refl (AppRepo.keysetClause (AppRepo.q_OrderBy q) (AppRepo.cursor_of x) r)).
  - intros after. unfold AppRepo.List. simpl. rewrite decide_False by lia. page_call Hc.
Qed.

Definition accounts_after (q : ServiceAccountRepo.ListQuery) after : ServiceAccountRepo.ListQuery :=
  ServiceAccountRepo.mkListQuery (ServiceAccountRepo.q_PageSize q) after (ServiceAccountRepo.q_Search q)
    (ServiceAccountRepo.q_Statuses q) (ServiceAccountRepo.q_OrderBy q).

(** The same for ListServiceAccounts, except in the two orders by last
    authentication. *)
Lemma ListServiceAccounts_pages q w fuel :
  calm w → uniq ServiceAccount.clash (db_service_accounts (w_db w)) = true → 0 < ServiceAccountRepo.q_PageSize q →
  ServiceAccountRepo.q_OrderBy q ≠ OrderByLastAuthenticatedAtDesc →
  ServiceAccountRepo.q_OrderBy q ≠ OrderByLastAuthenticatedAtAsc →
  (length (db_service_accounts (w_db w)) < fuel)%nat →
  pages fuel (λ after, (ServiceAccountRepo.List (accounts_after q after) w).2)
    ServiceAccountRepo.lr_ServiceAccounts ServiceAccountRepo.lr_NextCursor =
  ServiceAccount.dbgenToDomain <$>
    order_by (ServiceAccountRepo.orderClauseFor (ServiceAccountRepo.q_OrderBy q))
      (sel (ServiceAccountRepo.filters q) (db_service_accounts (w_db w))).
Proof using laws.
  intros Hc Hu Hn H1 H2 Hf.
  eapply (pages_all _ _ _ ServiceAccountRepo.cursor_of
    (ServiceAccountRepo.keysetClause (ServiceAccountRepo.q_OrderBy q))); [exact Hn|by apply accounts_strict| | |exact Hf].
  - intros x r _ _. unfold ServiceAccountRepo.keysetClause, ServiceAccountRepo.orderClauseFor. by repeat case_decide.
  - intros after. unfold ServiceAccountRepo.List. simpl. rewrite decide_False by lia. page_call Hc.
Qed.

Definition audits_after (q : AuditRepo.ListQuery) after : AuditRepo.ListQuery :=
  AuditRepo.mkListQuery (AuditRepo.q_PageSize q) after (AuditRepo.q_Filters q).

Lemma hydrate_ok (ev : AuditMapper.Row → Audit) rows :
  (∀ r, r ∈ rows → AuditMapper.dbgenToDomain r = Ok (ev r)) → hydrate rows = Ok (ev <$> rows).
Proof using.
  induction rows as [|r rows IH]; intros Hr; simpl; [done|].
  rewrite Hr by by left. fold (hydrate rows). rewrite IH; [done|]. intros; apply Hr; by right.
Qed.

Lemma elem_take {R} n (t : list R) r : r ∈ take n t → r ∈ t.
Proof using. intros (i & Hi & _)%elem_of_take. by eapply list_elem_of_lookup_2. Qed.

Lemma page_rows {R C} n wh before (key : R → C) t r :
  r ∈ (trim_page n key (fetch_rows n wh before t)).1 → r ∈ t.
Proof using.
  assert (Hf : r ∈ fetch_rows n wh before t → r ∈ t).
  { intros Hr%elem_take. rewrite order_by_perm in Hr. by apply elem_of_sel in Hr as [? _]. }
  unfold trim_page. case_decide; simpl; [|done]. intros Hr%elem_take. by apply Hf.
Qed.

Abbreviation audits_page q := (fetch_page (AuditRepo.q_PageSize q) (AuditRepo.filters (AuditRepo.q_Filters q))
  AuditRepo.orderClause AuditRepo.cursor_of AuditRepo.keysetClause).

(** A page of events that all read back. *)
Lemma audits_call (ev : AuditMapper.Row → Audit) q w after :
  calm w → 0 < AuditRepo.q_PageSize q →
  (∀ r, r ∈ db_audit_events (w_db w) → AuditMapper.dbgenToDomain r = Ok (ev r)) →
  ∃ a, (AuditRepo.List (audits_after q after) w).2 = Ok a ∧
    AuditRepo.lr_Audits a = ev <$> (audits_page q (db_audit_events (w_db w)) after).1 ∧
    AuditRepo.lr_NextCursor a = (audits_page q (db_audit_events (w_db w)) after).2.
Proof using laws.
  intros Hc Hn Hev. unfold AuditRepo.List. simpl. rewrite decide_False by lia.
  rewrite (mcatch_eq _ _ _ _ _ _ (query_calm _ _ Hc)).
  pose proof (page_rows (AuditRepo.q_PageSize q) (AuditRepo.buildWhere (audits_after q after)) AuditRepo.orderClause
    AuditRepo.cursor_of (db_audit_events (w_db w))) as Hsub.
  rewrite (surjective_pairing (trim_page _ _ _)).
  rewrite (gobind_eq _ _ w w (ev <$> (trim_page (AuditRepo.q_PageSize q) AuditRepo.cursor_of
    (fetch_rows (AuditRepo.q_PageSize q) (AuditRepo.buildWhere (audits_after q after)) AuditRepo.orderClause
       (db_audit_events (w_db w)))).1)).
  - eexists. split; [reflexivity|split; reflexivity].
  - unfold lift. f_equal. apply hydrate_ok. intros r Hr. by apply Hev, Hsub.
Qed.

(** ListAuditEvents: newest first, every event that passes the filters once,
    on a log whose rows all read back. *)
Theorem ListAudits_pages (ev : AuditMapper.Row → Audit) q w fuel :
  calm w → uniq AuditMapper.clash (db_audit_events (w_db w)) = true → 0 < AuditRepo.q_PageSize q →
  (∀ r, r ∈ db_audit_events (w_db w) → AuditMapper.dbgenToDomain r = Ok (ev r)) →
  (length (db_audit_events (w_db w)) < fuel)%nat →
  pages fuel (λ after, (AuditRepo.List (audits_after q after) w).2) AuditRepo.lr_Audits AuditRepo.lr_NextCursor =
  ev <$> order_by AuditRepo.orderClause (sel (AuditRepo.filters (AuditRepo.q_Filters q)) (db_audit_events (w_db w))).
Proof using laws.
  intros Hc Hu Hn Hev Hf.
  eapply (pages_all _ _ _ AuditRepo.cursor_of AuditRepo.keysetClause); [exact Hn|by apply audits_strict|done| |exact Hf].
  intros after. by apply audits_call.
Qed.

(** Paging through the audit log while the server records events and purges
    delete some, so that every page is read from the log of its instant, shows
    no event twice and all of them newest first, each from the log at one of
    these instants; and once the client is told that there is no further page
    it has seen every event that passes the filters and was there all the
    time. [log] is every event ever recorded. *)
Theorem audit_pages_while_recording (ev : AuditMapper.Row → Audit) log q ws :
  uniq AuditMapper.clash log = true → 0 < AuditRepo.q_PageSize q →
  (∀ r, r ∈ log → AuditMapper.dbgenToDomain r = Ok (ev r)) →
  Forall (λ w, calm w ∧ db_audit_events (w_db w) `sublist_of` log) ws →
  ∃ rows complete,
    pages_over ((λ w after, (AuditRepo.List (audits_after q after) w).2) <$> ws)
      AuditRepo.lr_Audits AuditRepo.lr_NextCursor = (ev <$> rows, complete) ∧
    sorted AuditRepo.orderClause rows ∧ NoDup rows ∧
    (∀ r, r ∈ rows → AuditRepo.filters (AuditRepo.q_Filters q) r = true ∧
       ∃ w, w ∈ ws ∧ r ∈ db_audit_events (w_db w)) ∧
    (complete = true → ∀ r, AuditRepo.filters (AuditRepo.q_Filters q) r = true →
       (∀ w, w ∈ ws → r ∈ db_audit_events (w_db w)) → r ∈ rows).
Proof using laws.
  intros Hu Hn Hev Hws. set (ts := (λ w, db_audit_events (w_db w)) <$> ws).
  destruct (browse (audits_page q <$> ts) None) as [rows complete] eqn:Eb. exists rows, complete.
  assert (Hstrict := audits_strict log Hu).
  destruct (browse_moving (AuditRepo.q_PageSize q) (AuditRepo.filters (AuditRepo.q_Filters q)) AuditRepo.orderClause
    AuditRepo.cursor_of AuditRepo.keysetClause (λ r, r) AuditRepo.orderClause (λ r, r ∈ log) Hn (so_irrefl _ _ Hstrict)
    (so_trans _ _ Hstrict) (so_total _ _ Hstrict) ltac:(done) ltac:(done) ts rows complete)
    as (Hs & Hnd & Hin & Hc); [|exact Eb|].
  { apply Forall_fmap. eapply Forall_impl; [exact Hws|]. intros w [_ Hw]. split.
    - rewrite list_fmap_id. eapply sublist_NoDup; [apply Hstrict|exact Hw].
    - intros r Hr. by eapply sublist_subseteq. }
  rewrite list_fmap_id in Hnd.
  split_and!; [|done..| |].
  - unfold pages_over. rewrite (browse_map ev _ (audits_page q <$> ts)); [by rewrite Eb|].
    subst ts. clear -Hws Hn Hev laws. induction Hws as [|w ws [Hc Hsub] _ IH]; constructor; [|exact IH].
    intros a. destruct (audits_call ev q w a) as (x & -> & -> & ->); [done..| |done].
    intros r Hr. apply Hev. by eapply sublist_subseteq.
  - intros r (Hb & t & (w & -> & Hw)%list_elem_of_fmap & Hr)%Hin. eauto.
  - intros Hd r Hb Hr. destruct (Hc Hd r) as (r' & Hr' & <-); [|done].
    intros t (w & -> & Hw)%list_elem_of_fmap. exists r. by split_and!; [apply Hr|..].
Qed.

(** ** Listings of rows that are updated meanwhile *)

(** A row's creation time and identifier never change, and no identifier is
    given twice. *)
Definition steady {R} (place : R → Time * string) (ts : list (list R)) : Prop :=
  (∀ t, t ∈ ts → NoDup (place <$> t)) ∧
  ∀ t t' r r', t ∈ ts → t' ∈ ts → r ∈ t → r' ∈ t' →
    rt_collate (place r).2 (place r').2 = true → place r = place r'.

(** [rows] are what was shown while the table went through [ts]: in the order
    of the listing, no place twice, each as it was at one of these instants,
    and after the last page every place that held a matching row all the time. *)
Record shown_over {R} (place : R → Time * string) (base : R → bool) (before : R → R → bool)
    (ts : list (list R)) (rows : list R) (complete : bool) : Prop := {
  so_sorted : sorted before rows;
  so_once : NoDup (place <$> rows);
  so_seen : ∀ r, r ∈ rows → base r = true ∧ ∃ t, t ∈ ts ∧ r ∈ t;
  so_complete : complete = true → ∀ k, (∀ t, t ∈ ts → ∃ r, r ∈ t ∧ place r = k ∧ base r = true) →
    ∃ r, r ∈ rows ∧ place r = k }.

(** An order that looks at the place only ([row_at] makes a row of one). *)
Record placed {R} (place : R → Time * string) (row_at : Time * string → R) (before : R → R → bool) : Prop := {
  pl_at : ∀ k, place (row_at k) = k;
  pl_only : ∀ r r', before r r' = before (row_at (place r)) (row_at (place r'));
  pl_irrefl : ∀ r, before r r = false;
  pl_trans : ∀ r1 r2 r3, before r1 r2 = true → before r2 r3 = true → before r1 r3 = true;
  pl_total : ∀ r r', rt_collate (place r).2 (place r').2 = true ∨ before r r' = true ∨ before r' r = true }.

Lemma pages_moving {R R' C A} n base (before : R → R → bool) (key : R → C) keyset place row_at (h : R → R')
    (calls : list (option C → res A)) items next ts :
  0 < n → placed place row_at before → (∀ x r, keyset (key x) r = before x r) → steady place ts →
  Forall2 (λ call t, ∀ after, ∃ a, call after = Ok a ∧
     items a = h <$> (fetch_page n base before key keyset t after).1 ∧
     next a = (fetch_page n base before key keyset t after).2) calls ts →
  ∃ rows complete, pages_over calls items next = (h <$> rows, complete) ∧
    shown_over place base before ts rows complete.
Proof using.
  intros Hn Hp Hk [Hnd Hst] Hcalls.
  destruct (browse (fetch_page n base before key keyset <$> ts) None) as [rows complete] eqn:Eb.
  exists rows, complete. split.
  - unfold pages_over. rewrite (browse_map h _ (fetch_page n base before key keyset <$> ts)); [by rewrite Eb|].
    apply Forall2_fmap. eapply Forall2_impl; [exact Hcalls|]. intros call t Hc a. by destruct (Hc a) as (x & -> & -> & ->).
  - destruct (browse_moving n base before key keyset place (λ k k', before (row_at k) (row_at k'))
      (λ k, ∃ t r, t ∈ ts ∧ r ∈ t ∧ place r = k) Hn) with (ts := ts) (shown := rows) (complete := complete)
      as (Hs & Ho & Hin & Hc); [|..|by split; [| | |exact Hc]].
    + intros k _. apply (pl_irrefl _ _ _ Hp).
    + intros *. apply (pl_trans _ _ _ Hp).
    + intros k k' (t & r & Ht & Hr & <-) (t' & r' & Ht' & Hr' & <-). rewrite <- !(pl_only _ _ _ Hp).
      destruct (pl_total _ _ _ Hp r r') as [Hc|?]; [left|by right]. by apply (Hst t t').
    + apply (pl_only _ _ _ Hp).
    + intros x r _ _. apply Hk.
    + apply Forall_forall. intros t Ht. split; [by apply Hnd|]. intros r Hr. eauto.
    + exact Eb.
Qed.

Definition user_place (r : Identity.Row) : Time * string := (Identity.r_CreatedAt r, Identity.r_ID r).
Definition user_at (k : Time * string) : Identity.Row :=
  Identity.mkRow k.2 "" "" None "" None "" "" 0 "" k.1 k.1 None 0 None.
Definition app_place (r : App.Row) : Time * string := (App.r_CreatedAt r, App.r_ID r).
Definition app_at (k : Time * string) : App.Row := App.mkRow k.2 "" "" "" 0 "" k.1 k.1.
Definition account_place (r : ServiceAccount.Row) : Time * string := (ServiceAccount.r_CreatedAt r, ServiceAccount.r_ID r).
Definition account_at (k : Time * string) : ServiceAccount.Row := ServiceAccount.mkRow k.2 "" "" "" 0 "" k.1 k.1 None.

Lemma users_placed o : o ≠ IdentityRepo.OrderByUsernameDesc → o ≠ IdentityRepo.OrderByUsernameAsc →
  placed user_place user_at (IdentityRepo.orderClauseFor o).
Proof using laws.
  intros H1 H2. split; [by intros []|..]; unfold IdentityRepo.orderClauseFor; [by intros; repeat case_decide|order_facts..|order_total].
Qed.
Lemma apps_placed o : o ≠ AppRepo.OrderByNameDesc → o ≠ AppRepo.OrderByNameAsc →
  placed app_place app_at (AppRepo.orderClauseFor o).
Proof using laws.
  intros H1 H2. split; [by intros []|..]; unfold AppRepo.orderClauseFor; [by intros; repeat case_decide|order_facts..|order_total].
Qed.
Lemma accounts_placed o :
  o ≠ ServiceAccountRepo.OrderByNameDesc → o ≠ ServiceAccountRepo.OrderByNameAsc →
  o ≠ OrderByLastAuthenticatedAtDesc → o ≠ OrderByLastAuthenticatedAtAsc →
  placed account_place account_at (ServiceAccountRepo.orderClauseFor o).
Proof using laws.
  intros H1 H2 H3 H4. split; [by intros []|..]; unfold ServiceAccountRepo.orderClauseFor;
    [by intros; repeat case_decide|order_facts..|order_total].
Qed.

(** The tables a listing went through. *)
Abbreviation over f ws := ((λ w : World, f (w_db w)) <$> ws).

Lemma calls_at {R R' C A} n base (before : R → R → bool) (key : R → C) keyset (h : R → R') (get : DB → list R)
    (call : World → option C → res A) items next ws :
  Forall calm ws →
  (∀ w after, calm w → ∃ a, call w after = Ok a ∧
     items a = h <$> (fetch_page n base before key keyset (get (w_db w)) after).1 ∧
     next a = (fetch_page n base before key keyset (get (w_db w)) after).2) →
  Forall2 (λ call t, ∀ after, ∃ a, call after = Ok a ∧
     items a = h <$> (fetch_page n base before key keyset t after).1 ∧
     next a = (fetch_page n base before key keyset t after).2) (call <$> ws) (over get ws).
Proof using.
  intros Hws Hc. induction Hws as [|w ws Hw Hws IH]; constructor; [|exact IH]. intros after. by apply Hc.
Qed.

Lemma ListUsers_moving q ws :
  Forall calm ws → 0 < IdentityRepo.q_PageSize q → steady user_place (over db_users ws) →
  IdentityRepo.q_OrderBy q ≠ IdentityRepo.OrderByUsernameDesc → IdentityRepo.q_OrderBy q ≠ IdentityRepo.OrderByUsernameAsc →
  ∃ rows complete,
    pages_over ((λ w after, (IdentityRepo.List (users_after q after) w).2) <$> ws)
      IdentityRepo.lr_Users IdentityRepo.lr_NextCursor = ((λ r, Identity.dbgenToDomain (scan_row r)) <$> rows, complete) ∧
    shown_over user_place (IdentityRepo.filters q) (IdentityRepo.orderClauseFor (IdentityRepo.q_OrderBy q))
      (over db_users ws) rows complete.
Proof using laws.
  intros Hws Hn Hst H1 H2.
  eapply (pages_moving _ _ _ IdentityRepo.cursor_of (IdentityRepo.keysetClause (IdentityRepo.q_OrderBy q)));
    [exact Hn|by apply users_placed|done|exact Hst|]. apply calls_at; [done|].
  intros w after Hc. unfold IdentityRepo.List. simpl. rewrite decide_False by lia. page_call Hc.
Qed.

Lemma ListApps_moving q ws :
  Forall calm ws → 0 < AppRepo.q_PageSize q → steady app_place (over db_apps ws) →
  AppRepo.q_OrderBy q ≠ AppRepo.OrderByNameDesc → AppRepo.q_OrderBy q ≠ AppRepo.OrderByNameAsc →
  ∃ rows complete,
    pages_over ((λ w after, (AppRepo.List (apps_after q after) w).2) <$> ws)
      AppRepo.lr_Apps AppRepo.lr_NextCursor = (App.dbgenToDomain <$> rows, complete) ∧
    shown_over app_place (AppRepo.filters q) (AppRepo.orderClauseFor (AppRepo.q_OrderBy q))
      (over db_apps ws) rows complete.
Proof using laws.
  intros Hws Hn Hst H1 H2.
  eapply (pages_moving _ _ _ AppRepo.cursor_of (AppRepo.keysetClause (AppRepo.q_OrderBy q)));
    [exact Hn|by apply apps_placed|done|exact Hst|]. apply calls_at; [done|].
  intros w after Hc. unfold AppRepo.List. simpl. rewrite decide_False by lia. page_call Hc.
Qed.

Lemma ListServiceAccounts_moving q ws :
  Forall calm ws → 0 < ServiceAccountRepo.q_PageSize q → steady account_place (over db_service_accounts ws) →
  ServiceAccountRepo.q_OrderBy q ≠ ServiceAccountRepo.OrderByNameDesc →
  ServiceAccountRepo.q_OrderBy q ≠ ServiceAccountRepo.OrderByNameAsc →
  ServiceAccountRepo.q_OrderBy q ≠ OrderByLastAuthenticatedAtDesc →
  ServiceAccountRepo.q_OrderBy q ≠ OrderByLastAuthenticatedAtAsc →
  ∃ rows complete,
    pages_over ((λ w after, (ServiceAccountRepo.List (accounts_after q after) w).2) <$> ws)
      ServiceAccountRepo.lr_ServiceAccounts ServiceAccountRepo.lr_NextCursor =
      (ServiceAccount.dbgenToDomain <$> rows, complete) ∧
    shown_over account_place (ServiceAccountRepo.filters q)
      (ServiceAccountRepo.orderClauseFor (ServiceAccountRepo.q_OrderBy q)) (over db_service_accounts ws) rows complete.
Proof using laws.
  intros Hws Hn Hst H1 H2 H3 H4.
  eapply (pages_moving _ _ _ ServiceAccountRepo.cursor_of (ServiceAccountRepo.keysetClause (ServiceAccountRepo.q_OrderBy q)));
    [exact Hn|by apply accounts_placed| |exact Hst|].
  - intros x r. unfold ServiceAccountRepo.keysetClause, ServiceAccountRepo.orderClauseFor. by repeat case_decide.
  - apply calls_at; [done|]. intros w after Hc. unfold ServiceAccountRepo.List. simpl.
    rewrite decide_False by lia. page_call Hc.
Qed.

(** C29. Listings read page by page while other requests change the table. The audit
    log, while the server records events and purges delete some ([log] is every
    event ever recorded): no event is shown twice, all of them newest first,
    each from the log at one of these instants, and once the client is told that
    there is no further page it has seen every event that passes the filters and
    was there all the time. Users, applications and service accounts, in the
    orders by creation and by identifier, while rows are created, updated and
    deleted: the same, by identifier, each row as it was when its page was read;
    complete for the rows that passed the filters at every instant. *)
Theorem listings_while_changing ws :
  Forall calm ws →
  (∀ (ev : AuditMapper.Row → Audit) log q,
     uniq AuditMapper.clash log = true → 0 < AuditRepo.q_PageSize q →
     (∀ r, r ∈ log → AuditMapper.dbgenToDomain r = Ok (ev r)) →
     Forall (λ w, db_audit_events (w_db w) `sublist_of` log) ws →
     ∃ rows complete,
       pages_over ((λ w after, (AuditRepo.List (audits_after q after) w).2) <$> ws)
         AuditRepo.lr_Audits AuditRepo.lr_NextCursor = (ev <$> rows, complete) ∧
       sorted AuditRepo.orderClause rows ∧ NoDup rows ∧
       (∀ r, r ∈ rows → AuditRepo.filters (AuditRepo.q_Filters q) r = true ∧
          ∃ w, w ∈ ws ∧ r ∈ db_audit_events (w_db w)) ∧
       (complete = true → ∀ r, AuditRepo.filters (AuditRepo.q_Filters q) r = true →
          (∀ w, w ∈ ws → r ∈ db_audit_events (w_db w)) → r ∈ rows)) ∧
  (∀ q, 0 < IdentityRepo.q_PageSize q → steady user_place (over db_users ws) →
     IdentityRepo.q_OrderBy q ≠ IdentityRepo.OrderByUsernameDesc →
     IdentityRepo.q_OrderBy q ≠ IdentityRepo.OrderByUsernameAsc →
     ∃ rows complete,
       pages_over ((λ w after, (IdentityRepo.List (users_after q after) w).2) <$> ws)
         IdentityRepo.lr_Users IdentityRepo.lr_NextCursor = ((λ r, Identity.dbgenToDomain (scan_row r)) <$> rows, complete) ∧
       shown_over user_place (IdentityRepo.filters q) (IdentityRepo.orderClauseFor (IdentityRepo.q_OrderBy q))
         (over db_users ws) rows complete) ∧
  (∀ q, 0 < AppRepo.q_PageSize q → steady app_place (over db_apps ws) →
     AppRepo.q_OrderBy q ≠ AppRepo.OrderByNameDesc → AppRepo.q_OrderBy q ≠ AppRepo.OrderByNameAsc →
     ∃ rows complete,
       pages_over ((λ w after, (AppRepo.List (apps_after q after) w).2) <$> ws)
         AppRepo.lr_Apps AppRepo.lr_NextCursor = (App.dbgenToDomain <$> rows, complete) ∧
       shown_over app_place (AppRepo.filters q) (AppRepo.orderClauseFor (AppRepo.q_OrderBy q))
         (over db_apps ws) rows complete) ∧
  (∀ q, 0 < ServiceAccountRepo.q_PageSize q → steady account_place (over db_service_accounts ws) →
     ServiceAccountRepo.q_OrderBy q ≠ ServiceAccountRepo.OrderByNameDesc →
     ServiceAccountRepo.q_OrderBy q ≠ ServiceAccountRepo.OrderByNameAsc →
     ServiceAccountRepo.q_OrderBy q ≠ OrderByLastAuthenticatedAtDesc →
     ServiceAccountRepo.q_OrderBy q ≠ OrderByLastAuthenticatedAtAsc →
     ∃ rows complete,
       pages_over ((λ w after, (ServiceAccountRepo.List (accounts_after q after) w).2) <$> ws)
         ServiceAccountRepo.lr_ServiceAccounts ServiceAccountRepo.lr_NextCursor =
         (ServiceAccount.dbgenToDomain <$> rows, complete) ∧
       shown_over account_place (ServiceAccountRepo.filters q)
         (ServiceAccountRepo.orderClauseFor (ServiceAccountRepo.q_OrderBy q)) (over db_service_accounts ws) rows complete).
Proof using laws.
  intros Hws. split_and!; intros.
  - apply (audit_pages_while_recording ev log q); [done..|]. by apply Forall_and.
  - by apply ListUsers_moving.
  - by apply ListApps_moving.
  - by apply ListServiceAccounts_moving.
Qed.

(** ** Roles of a user *)

Lemma sel_sel {R} (p q : R → bool) t : sel (λ r, p r && q r) t = sel (λ r, p r && q r) (sel p t).
Proof using.
  unfold sel. induction t as [|r t IH]; simpl; [done|].
  destruct (p r) eqn:E; simpl; [|done]. rewrite E. simpl. by destruct (q r); rewrite IH.
Qed.

Lemma sel_idem {R} (p : R → bool) t : sel p (sel p t) = sel p t.
Proof using. unfold sel. induction t as [|r t IH]; simpl; [done|]. destruct (p r) eqn:E; simpl; [|done]. by rewrite E, IH. Qed.

Lemma assignments_strict o u a t :
  uniq Access.clash t = true → strict_on (AccessRepo.orderClauseFor o) (sel (where_user_app u a) t).
Proof using laws.
  intros Hu. apply (strict_on_key _ Access.r_RoleID); unfold AccessRepo.orderClauseFor; [order_facts..|order_total|].
  assert (Hs : uniq Access.clash (sel (where_user_app u a) t) = true) by by apply uniq_filter.
  assert (Hall : ∀ r, r ∈ sel (where_user_app u a) t → rt_collate (Access.r_UserID r) u = true).
  { intros r [_ Hr]%elem_of_sel. unfold where_user_app in Hr. by apply andb_true_iff in Hr as [? _]. }
  clear Hu. induction (sel _ t) as [|r l IH]; simpl in *; [done|].
  apply andb_true_iff in Hs as [Hf Hs]. rewrite IH; [|done|by intros; apply Hall; right].
  rewrite andb_true_r. rewrite forallb_forall in *. intros x Hx. specialize (Hf x Hx).
  rewrite negb_true_iff in *. unfold Access.clash in Hf.
  assert (Hux : rt_collate (Access.r_UserID r) (Access.r_UserID x) = true).
  { eapply rt_collate_trans; [apply Hall; by left|]. rewrite rt_collate_sym. apply Hall. right. by apply list_elem_of_In. }
  by rewrite Hux in Hf.
Qed.

Definition user_roles_after (q : ListUserRolesQuery) after : ListUserRolesQuery :=
  mkListUserRolesQuery (AccessRepo.q_UserID q) (AccessRepo.q_AppID q) (AccessRepo.q_PageSize q) after (AccessRepo.q_OrderBy q).

(** ListUserRoles: every role granted to the user in the application, once. *)
Lemma ListUserRoles_pages q w fuel :
  calm w → uniq Access.clash (db_role_assignments (w_db w)) = true → 0 < AccessRepo.q_PageSize q →
  AccessRepo.q_UserID q ≠ "" → AccessRepo.q_AppID q ≠ "" → (length (db_role_assignments (w_db w)) < fuel)%nat →
  pages fuel (λ after, (AccessRepo.ListUserRoles (user_roles_after q after) w).2) AccessRepo.lr_Rows AccessRepo.lr_NextCursor =
  (λ r, mkListUserRolesRow (Access.r_RoleID r) (Access.r_GrantedAt r)) <$>
    order_by (AccessRepo.orderClauseFor (AccessRepo.q_OrderBy q))
      (sel (where_user_app (AccessRepo.q_UserID q) (AccessRepo.q_AppID q)) (db_role_assignments (w_db w))).
Proof using laws.
  intros Hc Hu Hn Hu1 Ha1 Hf. rewrite <- sel_idem.
  eapply (pages_all _ _ _ AccessRepo.cursor_of (AccessRepo.keysetClause (AccessRepo.q_OrderBy q)));
    [exact Hn|by apply assignments_strict|done| |].
  - intros after. unfold AccessRepo.ListUserRoles. simpl. rewrite decide_False by lia. rewrite decide_False by tauto.
    unfold fetch_page, fetch_rows. rewrite <- (sel_sel _ (after_clause _ after)). page_call Hc.
  - eapply Nat.le_lt_trans; [apply List.filter_length_le|exact Hf].
Qed.

(** ** Roles with their permissions *)

Definition perm_before (p q : PermRow) : bool :=
  name_id_lt (rp_RoleID p) (rp_Permission p) (rp_RoleID q) (rp_Permission q).

Lemma perms_strict t : uniq Role.perm_clash t = true → strict_on perm_before t.
Proof using laws.
  intros Hu. assert (Hsym : ∀ x y, Role.perm_clash x y = Role.perm_clash y x).
  { intros x y. unfold Role.perm_clash. by rewrite (rt_collate_sym (rp_RoleID x)), (rt_collate_sym (rp_Permission x)). }
  split.
  - clear Hsym. induction t as [|r t IH]; simpl in Hu; [constructor|].
    apply andb_true_iff in Hu as [Hf Hu]. constructor; [|auto]. intros Hr.
    rewrite forallb_forall in Hf. specialize (Hf r ltac:(by apply list_elem_of_In)).
    unfold Role.perm_clash in Hf. by rewrite !rt_collate_refl in Hf.
  - intros. apply name_id_lt_irrefl.
  - intros *. apply name_id_lt_trans.
  - intros x y Hx Hy. unfold perm_before, name_id_lt. rewrite (rt_collate_sym (rp_RoleID y)).
    destruct (rt_collate (rp_RoleID x) (rp_RoleID y)) eqn:Er; rewrite ?orb_true_iff, ?andb_true_iff.
    + destruct (rt_collate_lt_total (rp_Permission x) (rp_Permission y)) as [Ep|[?|?]]; [|tauto..].
      left. eapply (uniq_elem Role.perm_clash); [exact Hsym|exact Hu|done|done|].
      unfold Role.perm_clash. by rewrite Er, Ep.
    + destruct (rt_collate_lt_total (rp_RoleID x) (rp_RoleID y)) as [?|[?|?]]; [congruence|tauto..].
Qed.

(** The permissions of a role, in the order of the listing. *)
Definition perms_listed (d : DB) (r : Role.Row) : list string :=
  rp_Permission <$> List.filter (λ p, bool_decide (rp_RoleID p = Role.r_ID r)) (order_by perm_before (db_role_permissions d)).

Lemma perms_of_page d page r :
  uniq Role.perm_clash (db_role_permissions d) = true → r ∈ page →
  permsByRoleID ((λ p, (rp_RoleID p, rp_Permission p)) <$>
    order_by perm_before (sel (λ p, existsb (λ r, rt_collate (rp_RoleID p) (Role.r_ID r)) page) (db_role_permissions d)))
    (Role.r_ID r) = perms_listed d r.
Proof using laws.
  intros Hu Hr. unfold permsByRoleID, perms_listed, sel.
  rewrite order_by_filter by by apply perms_strict.
  induction (order_by _ _) as [|p l IH]; simpl; [done|].
  destruct (existsb _ _) eqn:Ee; simpl; case_bool_decide as Hp; simpl; [by f_equal|exact IH| |exact IH].
  assert (He : existsb (λ r, rt_collate (rp_RoleID p) (Role.r_ID r)) page = true); [|congruence].
  apply existsb_exists. exists r. split; [by apply list_elem_of_In|]. rewrite Hp. apply rt_collate_refl.
Qed.

Definition roles_after (q : RoleRepo.ListQuery) after : RoleRepo.ListQuery :=
  RoleRepo.mkListQuery (RoleRepo.q_AppID q) (RoleRepo.q_PageSize q) after (RoleRepo.q_Search q)
    (RoleRepo.q_Statuses q) (RoleRepo.q_OrderBy q).

(** ListRoles: every role of the application that passes the filters, once,
    in the order asked for, each with all its permissions. *)
Theorem ListRoles_pages q w fuel :
  calm w → uniq Role.clash (db_roles (w_db w)) = true →
  uniq Role.perm_clash (db_role_permissions (w_db w)) = true → 0 < RoleRepo.q_PageSize q → RoleRepo.q_AppID q ≠ "" →
  (length (db_roles (w_db w)) < fuel)%nat →
  pages fuel (λ after, (RoleRepo.List (roles_after q after) w).2) RoleRepo.lr_Roles RoleRepo.lr_NextCursor =
  (λ r, Role.dbgenToDomain r (perms_listed (w_db w) r)) <$>
    order_by (RoleRepo.orderClauseFor (RoleRepo.q_OrderBy q)) (sel (RoleRepo.filters q) (db_roles (w_db w))).
Proof using laws.
  intros Hc Hu Hp Hn Ha Hf.
  eapply (pages_all _ _ _ RoleRepo.cursor_of (RoleRepo.keysetClause (RoleRepo.q_OrderBy q)));
    [exact Hn|by apply roles_strict|done| |exact Hf].
  intros after. unfold RoleRepo.List. simpl. rewrite decide_False by lia. rewrite decide_False by done.
  rewrite (mcatch_eq _ _ _ _ _ _ (query_calm _ _ Hc)).
  rewrite (surjective_pairing (trim_page _ _ _)).
  set (page := (trim_page _ _ _).1).
  assert (Hl : ∃ perms, loadPermissionsForPage page w = (w, Ok perms) ∧
    ∀ r, r ∈ page → permsByRoleID perms (Role.r_ID r) = perms_listed (w_db w) r).
  { unfold loadPermissionsForPage. case_decide as Hpage.
    - exists []. split; [done|]. rewrite Hpage. by intros r ?%elem_of_nil.
    - rewrite (mcatch_eq _ _ _ _ _ _ (query_calm _ _ Hc)). eexists. split; [done|].
      intros r Hr. by apply (perms_of_page (w_db w) page). }
  destruct Hl as (perms & Hl & Hperms). rewrite (gobind_eq _ _ _ _ _ Hl).
  eexists. split; [reflexivity|]. split; [|reflexivity]. simpl.
  apply list_fmap_ext. intros i r Hr. by rewrite (Hperms r) by by eapply list_elem_of_lookup_2.
Qed.


End Instances.

(** ** Service accounts by last authentication *)

Section Skip.
#[local] Existing Instance toy.

Definition account_row (id : string) (created : Time) (auth : option Time) : ServiceAccount.Row :=
  ServiceAccount.mkRow id id "" "bc:key" ServiceAccountActive "ide" created created auth.

(** Three accounts that have authenticated, in another order than they were created. *)
Definition accounts_db : DB :=
  set_service_accounts [account_row "ida" t0 (Some (t0 + 30)); account_row "idb" (t0 + 10) (Some (t0 + 40));
    account_row "idc" (t0 + 20) (Some (t0 + 50))] toy_db.
Definition accounts_world : World := with_db accounts_db toy_world.

(** In the order by last authentication the cursor carries the creation time,
    which the next page compares with the time of the last authentication: the
    pages of one account each end after the first one, and two accounts are
    never listed. *)
Theorem accounts_by_last_auth_are_skipped :
  calm accounts_world ∧ uniq ServiceAccount.clash (db_service_accounts accounts_db) = true ∧
  ∀ fuel, (v_id <$> pages (2 + fuel) (λ after, (ServiceAccountRepo.List (accounts_after
      (ServiceAccountRepo.mkListQuery 1 None "" [] OrderByLastAuthenticatedAtDesc) after) accounts_world).2)
    ServiceAccountRepo.lr_ServiceAccounts ServiceAccountRepo.lr_NextCursor) = ["idc"].
Proof. split_and!; [by split|by vm_compute|]. intros fuel. vm_compute. reflexivity. Qed.

(** The users of the toy server, one per page. *)
Definition users_query : IdentityRepo.ListQuery := IdentityRepo.mkListQuery 1 None "" [] [] [] [] OrderByUsernameAsc.
Lemma ListUsers_pages_witness :
  u_id <$> pages 2 (λ after, (IdentityRepo.List (users_after users_query after) toy_world).2)
    IdentityRepo.lr_Users IdentityRepo.lr_NextCursor = ["idu"].
Proof.
  rewrite (ListUsers_pages (H := toy) users_query toy_world 2 ltac:(by split) ltac:(vm_compute; reflexivity) ltac:(reflexivity)
    ltac:(vm_compute; lia)).
  vm_compute. reflexivity.
Defined.

Definition roles_query : RoleRepo.ListQuery := RoleRepo.mkListQuery "idp" 1 None "" [] RoleRepo.OrderByNameAsc.
Lemma ListRoles_pages_witness :
  o_permissions <$> pages 2 (λ after, (RoleRepo.List (roles_after roles_query after) toy_world).2)
    RoleRepo.lr_Roles RoleRepo.lr_NextCursor = [["orders:*"; "stock:read"]].
Proof.
  rewrite (ListRoles_pages (H := toy) roles_query toy_world 2 ltac:(by split) ltac:(vm_compute; reflexivity)
    ltac:(vm_compute; reflexivity) ltac:(reflexivity) ltac:(discriminate) ltac:(vm_compute; lia)).
  vm_compute. reflexivity.
Defined.

Definition all_audits : AuditRepo.AuditFilters := AuditRepo.mkAuditFilters None None [] 0 "" "" 0 "" "" [].
Definition audit_row (id : string) (t : Time) : AuditMapper.Row :=
  AuditMapper.mkRow id t (EventType_String 102) ActorTypeAnonymous None None None SubjectTypeUnknown None None
    OutcomeSuccess None "".
Definition audits_world : World :=
  with_db (set_audit_events [audit_row "id1" t0; audit_row "id3" (t0 + 2); audit_row "id2" (t0 + 2)] toy_db) toy_world.
Definition event_of (r : AuditMapper.Row) : Audit :=
  match AuditMapper.dbgenToDomain r with
  | Ok a => a
  | Err _ => mkAudit "" 0 0 "" 0 "" "" 0 "" None "" ∅ 0
  end.

Lemma ListAudits_pages_witness :
  au_id <$> pages 4 (λ after, (AuditRepo.List (audits_after (AuditRepo.mkListQuery 2 None all_audits) after) audits_world).2)
    AuditRepo.lr_Audits AuditRepo.lr_NextCursor = ["id3"; "id2"; "id1"].
Proof.
  assert (HF : Forall (λ r, AuditMapper.dbgenToDomain r = Ok (event_of r)) (db_audit_events (w_db audits_world))).
  { repeat (constructor; [vm_compute; reflexivity|]). constructor. }
  rewrite Forall_forall in HF.
  rewrite (ListAudits_pages (H := toy) event_of (AuditRepo.mkListQuery 2 None all_audits) audits_world 4
    ltac:(by split) ltac:(vm_compute; reflexivity) ltac:(reflexivity) HF ltac:(vm_compute; lia)).
  vm_compute. reflexivity.
Defined.

(** Between two pages the oldest event is purged and a new one recorded. *)
Definition later_world : World :=
  with_db (set_audit_events [audit_row "id3" (t0 + 2); audit_row "id2" (t0 + 2); audit_row "id4" (t0 + 5)] toy_db) toy_world.
Definition audits_log : list AuditMapper.Row :=
  [audit_row "id1" t0; audit_row "id3" (t0 + 2); audit_row "id2" (t0 + 2); audit_row "id4" (t0 + 5)].

Lemma audit_pages_while_recording_witness :
  let shown := pages_over ((λ w after, (AuditRepo.List (audits_after (AuditRepo.mkListQuery 1 None all_audits) after) w).2)
    <$> [audits_world; later_world]) AuditRepo.lr_Audits AuditRepo.lr_NextCursor in
  (au_id <$> shown.1, shown.2) = (["id3"; "id2"], true) ∧
  ∃ rows, shown.1 = event_of <$> rows ∧ NoDup rows.
Proof.
  split; [vm_compute; reflexivity|].
  assert (HF : Forall (λ r, AuditMapper.dbgenToDomain r = Ok (event_of r)) audits_log).
  { repeat (constructor; [vm_compute; reflexivity|]). constructor. }
  rewrite Forall_forall in HF.
  destruct (audit_pages_while_recording (H := toy) event_of audits_log (AuditRepo.mkListQuery 1 None all_audits)
    [audits_world; later_world] ltac:(vm_compute; reflexivity) ltac:(reflexivity) HF) as (rows & complete & E & _ & Hn & _).
  - repeat constructor.
  - exists rows. split; [by rewrite E|exact Hn].
Defined.

(** Two users, one per page, newest first; the one shown first is renamed and
    blocked before the second page is read. *)
Definition second_user (name : string) (st : Z) : Identity.Row :=
  Identity.mkRow "idv" "v@b.c" name None "Bob" None "en" "UTC" st "idf" (t0 + 5) (t0 + 5) None 0 None.
Definition users_world (r : Identity.Row) : World := with_db (set_users [user_row; r] toy_db) toy_world.
Definition renaming : list World :=
  [users_world (second_user "bob" UserStatusActive); users_world (second_user "aaa" UserStatusBlocked)].
Definition by_creation : IdentityRepo.ListQuery :=
  IdentityRepo.mkListQuery 1 None "" [] [] [] [] IdentityRepo.OrderByCreatedAtDesc.

Lemma listings_while_changing_witness :
  let shown := pages_over ((λ w after, (IdentityRepo.List (users_after by_creation after) w).2) <$> renaming)
    IdentityRepo.lr_Users IdentityRepo.lr_NextCursor in
  (u_id <$> shown.1, shown.2) = (["idv"; "idu"], true) ∧
  ∃ rows, shown.1 = (λ r, Identity.dbgenToDomain (scan_row r)) <$> rows ∧ NoDup (user_place <$> rows).
Proof.
  split; [vm_compute; reflexivity|].
  destruct (proj1 (proj2 (listings_while_changing (H := toy) renaming ltac:(by repeat constructor)))
    by_creation ltac:(reflexivity)) as (rows & complete & E & Hs).
  - split.
    + refine (proj1 (Forall_forall (λ t, NoDup (user_place <$> t)) _) _).
      repeat constructor; vm_compute; set_solver.
    + assert (Hall : ∀ t, t ∈ (λ w, db_users (w_db w)) <$> renaming →
        Forall (λ r, user_place r = (t0, "idu") ∨ user_place r = (t0 + 5, "idv")) t).
      { apply (proj1 (Forall_forall _ _)). repeat constructor; first [by left|by right]. }
      setoid_rewrite Forall_forall in Hall.
      intros t t' r r' Ht Ht' Hr Hr'.
      destruct (Hall t Ht r Hr) as [-> | ->], (Hall t' Ht' r' Hr') as [-> | ->]; vm_compute; congruence.
  - discriminate.
  - discriminate.
  - exists rows. split; [by rewrite E|]. by destruct Hs.
Defined.

(** By username, which may change, the client reaches the last page without
    having seen the renamed user, who was there all the time. *)
Definition by_username : IdentityRepo.ListQuery :=
  IdentityRepo.mkListQuery 1 None "" [] [] [] [] IdentityRepo.OrderByUsernameAsc.
Example renamed_user_is_missed :
  let shown := pages_over ((λ w after, (IdentityRepo.List (users_after by_username after) w).2) <$> renaming)
    IdentityRepo.lr_Users IdentityRepo.lr_NextCursor in
  (u_id <$> shown.1, shown.2) = (["idu"], true).
Proof. vm_compute. reflexivity. Qed.


End Skip.
