(* ===== verification/SessionListing.v ===== *)
(** * SessionListing: the pages of ListSessions.

    ListSessions pages through the live sessions of a user in memory, with an
    opaque string token between the calls. *)
From stdpp Require Import sorting countable.
From S2P Require Import Prelude Errors Sql Monad Runtime Listing Kernel AuditDomain World Outcome ListingFacts.
From S2P Require Import Identity Session SessionRepo AuthBase AuthSessions Scenario.
Local Open Scope Z_scope.

(** A client that calls with each page token it gets, until none comes back. *)
Fixpoint follow_tokens {R} (fuel : nat) (call : string → res (list R * string)) (token : string) : list R :=
  match fuel with
  | O => []
  | S fuel' =>
      match call token with
      | Err _ => []
      | Ok (rows, next) => rows ++ (if decide (next = "") then [] else follow_tokens fuel' call next)
      end
  end.

(** The order of the sessions of a page, newest first. *)
Definition listed_before (x y : Session) : Prop := cursorBefore y (token_of x) = true.

Lemma listed_spec x y :
  listed_before x y ↔
  s_issuedAt y < s_issuedAt x ∨ s_issuedAt y = s_issuedAt x ∧ str_lt (s_id y) (s_id x) = true.
Proof.
  unfold listed_before, cursorBefore, Before. simpl. case_bool_decide; [tauto|].
  case_bool_decide; simpl; [|naive_solver lia]. destruct (str_lt _ _); naive_solver lia.
Qed.

Lemma not_listed x y : listed_before y x ∨ x = y → cursorBefore y (token_of x) = false.
Proof.
  intros Hl. apply not_true_iff_false. fold (listed_before x y). rewrite listed_spec.
  destruct Hl as [Hl%listed_spec| ->].
  - intros [?|[? H1]]; destruct Hl as [?|[? H2]]; try lia.
    pose proof (str_lt_trans _ _ _ H1 H2) as H3. by rewrite str_lt_irrefl in H3.
  - rewrite str_lt_irrefl. intros [?|[? ?]]; [lia|done].
Qed.

(** The in-memory search for the cursor finds the rest of the list. *)
Lemma skip_rest l1 x l2 :
  StronglySorted listed_before (l1 ++ x :: l2) → skip_to_cursor (l1 ++ x :: l2) (token_of x) = l2.
Proof.
  induction l1 as [|y l1 IH]; simpl; intros Hs; inversion Hs as [|? ? Hs' Hall]; subst.
  - rewrite not_listed by by right. destruct l2 as [|z l2]; [done|].
    apply Forall_cons in Hall as [Hz _]. simpl. by rewrite Hz.
  - rewrite not_listed; [by apply IH|]. left. rewrite Forall_forall in Hall. apply Hall.
    apply elem_of_app. right. by left.
Qed.

Lemma sorted_filter {A} (R : A → A → Prop) (p : A → bool) l :
  StronglySorted R l → StronglySorted R (List.filter p l).
Proof.
  induction 1 as [|x l Hs IH Hall]; simpl; [constructor|]. destruct (p x); [|done].
  constructor; [done|]. rewrite Forall_forall in *. intros y Hy. apply Hall.
  apply list_elem_of_In in Hy. apply List.filter_In in Hy as [Hy _]. by apply list_elem_of_In.
Qed.

Lemma sorted_fmap {A B} (R : A → A → Prop) (S : B → B → Prop) (f : A → B) l :
  (∀ x y, x ∈ l → y ∈ l → R x y → S (f x) (f y)) → StronglySorted R l → StronglySorted S (f <$> l).
Proof.
  intros Hf Hs. induction Hs as [|x l Hs IH Hall]; [constructor|]. rewrite fmap_cons. constructor.
  - apply IH. intros; apply Hf; [by right..|done].
  - apply Forall_fmap, Forall_forall. intros y Hy. rewrite Forall_forall in Hall.
    apply Hf; [by left|by right|by apply Hall].
Qed.

Section SessionListing.
Context `{Runtime} {laws : RuntimeLaws} `{JsonLaws sessionsPageToken}.

(** The live sessions of a user, newest first. *)
Definition live_sessions (user : string) (w : World) : list Session :=
  List.filter (Session.IsActive (w_now w))
    (Session.dbgenToDomain <$> order_by newer (sel (where_user user) (db_sessions (w_db w)))).

(** What the service relies on for session identifiers: they are UUIDs whose
    order under the collation is their byte order (lower-case, canonical). *)
Definition canonical_ids (d : DB) : Prop :=
  (∀ r, r ∈ db_sessions d → rt_uuid_valid (Session.r_ID r) = true) ∧
  ∀ r r', r ∈ db_sessions d → r' ∈ db_sessions d →
    rt_collate_lt (Session.r_ID r) (Session.r_ID r') = true → str_lt (Session.r_ID r) (Session.r_ID r') = true.

Lemma sessions_strict t : uniq Session.clash t = true → strict_on newer t.
Proof using laws.
  intros Hu. apply (strict_on_key _ Session.r_ID); unfold newer.
  - intros. apply time_id_lt_irrefl.
  - intros * ? ?. by eapply time_id_lt_trans.
  - intros r r'. rewrite (rt_collate_sym (Session.r_ID r)). apply time_id_lt_total.
  - revert Hu. apply uniq_weaken. unfold Session.clash. by intros ? ? ->.
Qed.

Lemma live_sorted user w :
  uniq Session.clash (db_sessions (w_db w)) = true → canonical_ids (w_db w) →
  StronglySorted listed_before (live_sessions user w).
Proof using laws.
  intros Hu [_ Hid]. apply sorted_filter.
  assert (Hs : strict_on newer (sel (where_user user) (db_sessions (w_db w)))).
  { apply sessions_strict. by apply uniq_filter. }
  eapply sorted_fmap; [|by apply order_by_sorted]. simpl.
  intros x y Hx Hy Hn. rewrite order_by_perm in Hx, Hy.
  apply elem_of_sel in Hx as [Hx _], Hy as [Hy _]. apply listed_spec. simpl.
  unfold newer, time_id_lt in Hn. apply orb_true_iff in Hn as [Hn|Hn].
  - left. by apply bool_decide_eq_true in Hn.
  - right. apply andb_true_iff in Hn as [Ht Hc]. apply bool_decide_eq_true in Ht. split; [done|]. by apply Hid.
Qed.

(** [rest] is what the listing from [tok] on still has to show. *)
Definition resumes (live : list Session) (tok : string) (rest : list Session) : Prop :=
  tok = "" ∧ rest = live ∨
  ∃ l1 x, cursor_Encode (Some (token_of x)) = Ok tok ∧ live = l1 ++ x :: rest.

(** One call of the client. *)
Definition list_call user raw w (tok : string) : res (list Session * string) :=
  match (ListSessions user raw tok w).2 with
  | Ok o => Ok (ls_Sessions o, ls_NextPageToken o)
  | Err e => Err e
  end.

Lemma page_size_pos raw n : sessions_page_size raw = Ok n → 0 < n <= maxListSessionsPageSize.
Proof using. unfold sessions_page_size, defaultListSessionsPageSize, maxListSessionsPageSize. repeat case_decide; naive_solver lia. Qed.

Lemma ListSessions_calm user raw w n tok after :
  calm w → rt_uuid_valid user = true → sessions_page_size raw = Ok n → decodeSessionsCursor tok = Ok after →
  (ListSessions user raw tok w).2 =
    match encodeSessionsCursor (selectSessionsPage (live_sessions user w) after n).2 with
    | Ok next => Ok (mkListSessionsOutput (selectSessionsPage (live_sessions user w) after n).1 next
                       (Z.of_nat (length (live_sessions user w))))
    | Err e => Err (EWrap "list sessions: encode cursor" e)
    end.
Proof using.
  intros Hc Hv Hn Ht. unfold ListSessions, ParseUserID. rewrite Hv.
  rewrite (gobind_eq _ _ w w user) by done.
  rewrite (gobind_eq _ _ w w n) by (unfold lift; by rewrite Hn).
  rewrite (gobind_eq _ _ w w after) by (unfold lift; by rewrite Ht).
  rewrite (mcatch_eq _ _ _ w w (Session.dbgenToDomain <$> order_by newer (sel (where_user user) (db_sessions (w_db w))))).
  - rewrite (gobind_eq _ _ w w (w_now w)) by done. cbv zeta. fold (live_sessions user w).
    destruct (selectSessionsPage _ _ _) as [page next]. unfold mcatch, lift. simpl. by destruct (encodeSessionsCursor next).
  - unfold ListByUser, mcatch; autounfold with queries. by rewrite query_calm.
Qed.

(** The first call and every later one show the next page of what remains. *)
Lemma call_resumes user raw w n tok rest :
  calm w → uniq Session.clash (db_sessions (w_db w)) = true → canonical_ids (w_db w) →
  rt_uuid_valid user = true → sessions_page_size raw = Ok n → (∀ c : sessionsPageToken, json_marshal c ≠ None) →
  resumes (live_sessions user w) tok rest →
  ∃ next, encodeSessionsCursor (trim_page n token_of rest).2 = Ok next ∧
    list_call user raw w tok = Ok ((trim_page n token_of rest).1, next).
Proof using laws H1.
  intros Hc Hu Hid Hv Hn Hj Hr.
  assert (Ha : ∃ after, decodeSessionsCursor tok = Ok after ∧
    selectSessionsPage (live_sessions user w) after n = trim_page n token_of rest).
  { destruct Hr as [[-> ->]|(l1 & x & Ht & Hl)]; [by exists None|].
    exists (Some (token_of x)). split.
    - unfold decodeSessionsCursor. rewrite (proj1 (cursor_decode_encode _ _ Ht)). unfold ParseSessionID.
      assert (Hx : x ∈ live_sessions user w) by (rewrite Hl; apply elem_of_app; right; by left).
      apply list_elem_of_In, List.filter_In in Hx as [Hx _]. apply list_elem_of_In in Hx.
      apply list_elem_of_fmap in Hx as (r & -> & Hr). rewrite order_by_perm in Hr.
      apply elem_of_sel in Hr as [Hr _]. simpl. by rewrite (proj1 Hid r Hr).
    - unfold selectSessionsPage. rewrite Hl, skip_rest; [done|]. rewrite <- Hl. by apply live_sorted. }
  destruct Ha as (after & Hd & Hs).
  assert (He : ∃ next, encodeSessionsCursor (trim_page n token_of rest).2 = Ok next).
  { unfold encodeSessionsCursor, cursor_Encode. destruct (trim_page _ _ _).2 as [c|]; [|by eexists].
    specialize (Hj c). destruct (json_marshal c); [by eexists|done]. }
  destruct He as [next He]. exists next. split; [done|].
  unfold list_call. rewrite (ListSessions_calm user raw w n tok after) by done. by rewrite Hs, He.
Qed.

Lemma trim_done {A B} n (key : A → B) l : Z.of_nat (length l) <= n → trim_page n key l = (l, None).
Proof using. intros Hl. unfold trim_page. by rewrite decide_False by lia. Qed.

Lemma trim_more {A B} n (key : A → B) l :
  0 < n < Z.of_nat (length l) → ∃ l1 x, trim_page n key l = (l1 ++ [x], Some (key x)) ∧
    l = l1 ++ x :: drop (Z.to_nat n) l.
Proof using.
  intros Hl. unfold trim_page. rewrite decide_True by lia.
  destruct (last (take (Z.to_nat n) l)) as [x|] eqn:E.
  - apply last_Some in E as [l1 E]. exists l1, x. rewrite E. split; [done|].
    rewrite <- (take_drop (Z.to_nat n) l) at 1. by rewrite E, <- app_assoc.
  - apply last_None in E. apply (f_equal length) in E. rewrite length_take in E. simpl in E. lia.
Qed.


End SessionListing.

(** ** Instances *)

Section Witness.
#[local] Existing Instance toy.

(** Page tokens as the bits of their code. *)
#[local] Instance token_codec : JsonCodec sessionsPageToken := {|
  json_marshal c := Some (Toy.pos_bits (encode (st_IssuedAt c, st_SessionID c)));
  json_unmarshal s := p ← Toy.bits_pos s; '(t, id) ← decode (A := Z * string) p; Some (mkSessionsPageToken t id) |}.
#[local] Instance token_laws : JsonLaws sessionsPageToken.
Proof.
  split; [|done]. intros c s. simpl. intros [= <-]. rewrite Toy.bits_pos_bits. simpl. rewrite decode_encode.
  by destruct c.
Qed.

(** Three live sessions. *)
Definition three_sessions : World :=
  with_db (set_sessions [session_row "idy" "ry" None; session_row "idx" "rx" None; session_row "idz" "rz" None] toy_db) toy_world.

Lemma three_canonical : canonical_ids (w_db three_sessions).
Proof.
  split; [|done]. assert (HF : Forall (λ r, rt_uuid_valid (Session.r_ID r) = true) (db_sessions (w_db three_sessions)))
    by by repeat constructor.
  by rewrite Forall_forall in HF.
Qed.


End Witness.
