(* ===== verification/LifecycleFacts.v ===== *)
(** * LifecycleFacts: versions, status changes and their races.

    Conditional writes on etags, the status machines of users and
    applications, the permission set of a role, and what unconditional writes
    lose. *)
From stdpp Require Import sorting.
From S2P Require Import Prelude Errors Sql Monad Runtime Listing Kernel AuditDomain World Outcome.
From S2P Require Import Identity IdentityRepo App AppRepo Role RoleRepo ServiceAccount ServiceAccountRepo.
From S2P Require Import AuditRepo IdentityService AppService AuthBase AuthPassword.
From S2P Require Import AuditSafety Change SessionSafety LoginFacts PasswordFacts RefreshFacts Scenario.
Local Open Scope Z_scope.

(** ** Conditional writes, for any table with an id and an etag *)

Section Versioned.
Context `{Runtime} {laws : RuntimeLaws} {R : Type} `{EqDecision R}.
Context (get : DB → list R) (set : list R → DB → DB) (clash : R → R → bool) (id etag : R → string).
Context (clash_sym : ∀ r r', clash r r' = clash r' r).
Context (clash_id : ∀ r r', rt_collate (id r) (id r') = true → clash r r' = true).

Definition keyed (i : string) (r : R) : bool := rt_collate (id r) i.
Definition keyed_at (i : string) (e : Etag) (r : R) : bool := rt_collate (id r) i && rt_collate (etag r) e.

(** Two rows with the same key are one row. *)
Lemma keyed_unique t i r x :
  uniq clash t = true → sel_one (keyed i) t = Some r → x ∈ t → keyed i x = true → x = r.
Proof using laws clash_sym clash_id.
  intros Hu [Hr Hi]%sel_one_Some Hx Hix. unfold keyed in *.
  eapply (uniq_elem clash); [exact clash_sym|exact Hu|done|done|]. apply clash_id.
  rewrite rt_collate_sym in Hi. by eapply rt_collate_trans.
Qed.

Lemma stale_none t i e r :
  uniq clash t = true → sel_one (keyed i) t = Some r → rt_collate (etag r) e = false →
  count (keyed_at i e) t = 0.
Proof using laws clash_sym clash_id.
  intros Hu Hr He. apply count_zero. intros x Hx. destruct (keyed_at i e x) eqn:E; [|done].
  unfold keyed_at in E. apply andb_true_iff in E as [Hi Hex].
  rewrite (keyed_unique t i r x) in Hex; [congruence|done..].
Qed.

Lemma absent_none t i e : sel_one (keyed i) t = None → count (keyed_at i e) t = 0.
Proof using.
  intros Hn. apply count_zero. intros x Hx. unfold keyed_at.
  pose proof (proj1 (sel_one_None _ _) Hn x Hx) as Hf. unfold keyed in Hf. by rewrite Hf.
Qed.

Lemma count_pos t i r : sel_one (keyed i) t = Some r → count (keyed i) t ≠ 0.
Proof using. intros Hr Hz. apply count_sel_one in Hz. congruence. Qed.

(** A conditional UPDATE or DELETE that matches no row changes nothing. *)
Lemma update_none p f w :
  calm w → uniq clash (get (w_db w)) = true → (∀ d, set (get d) d = d) → count p (get (w_db w)) = 0 →
  sql_update get set clash p f w = (w, Ok 0).
Proof using.
  intros Hc Hu Hset Hz. rewrite update_calm by done. unfold upd_uniq. rewrite (upd_none _ _ _ Hz), Hu, Hset, with_same_db.
  assert (Ha : affected rt_found_rows p f (get (w_db w)) = 0); [|by rewrite Ha].
  pose proof (changed_le_matched p f (get (w_db w))) as Hle.
  pose proof (count_nonneg (λ r, p r && bool_decide (f r ≠ r)) (get (w_db w))).
  unfold affected, matched, changed in *. case_match; lia.
Qed.

(** The row with the key and the etag is the only one touched. *)
Lemma count_keyed_at t i e r :
  uniq clash t = true → sel_one (keyed i) t = Some r → rt_collate (etag r) e = true → count (keyed_at i e) t = 1.
Proof using laws clash_sym clash_id.
  intros Hu Hr He. unfold count. assert (Hk : ∀ x, x ∈ t → keyed_at i e x = true → x = r).
  { intros x Hx [Hix _]%andb_true_iff. by eapply keyed_unique. }
  apply sel_one_Some in Hr as [Hin Hi]. assert (Hnd : NoDup t).
  { clear -Hu clash_id laws. induction t as [|x t IH]; simpl in Hu; [constructor|].
    apply andb_true_iff in Hu as [Hf Hu]. constructor; [|auto]. intros Hx.
    rewrite forallb_forall in Hf. specialize (Hf x ltac:(by apply list_elem_of_In)).
    by rewrite (clash_id x x (rt_collate_refl _)) in Hf. }
  clear Hu. induction Hnd as [|x t Hx Hnd IH]; [by apply elem_of_nil in Hin|]. simpl.
  destruct (keyed_at i e x) eqn:Ex; simpl.
  - assert (x = r) as -> by (apply Hk; [by left|done]).
    assert (Hz : count (keyed_at i e) t = 0).
    { apply count_zero. intros y Hy. destruct (keyed_at i e y) eqn:Ey; [|done].
      rewrite (Hk y) in Hy; [done|by right|done]. }
    unfold count in Hz. lia.
  - apply elem_of_cons in Hin as [<-|Hin].
    + unfold keyed_at, keyed in *. by rewrite Hi, He in Ex.
    + apply IH; [done|]. intros y Hy. apply Hk. by right.
Qed.

End Versioned.

(** ** Etags guard the writes of every aggregate *)

Section Etags.
Context `{Runtime} {laws : RuntimeLaws}.

Lemma identity_clash_sym r r' : Identity.clash r r' = Identity.clash r' r.
Proof using laws. unfold Identity.clash. by rewrite (rt_collate_sym (Identity.r_ID r)), (rt_collate_sym (Identity.r_Email r)), (rt_collate_sym (Identity.r_Username r)). Qed.
Lemma identity_clash_id r r' : rt_collate (Identity.r_ID r) (Identity.r_ID r') = true → Identity.clash r r' = true.
Proof using. unfold Identity.clash. by intros ->. Qed.
Lemma app_clash_sym r r' : App.clash r r' = App.clash r' r.
Proof using laws. unfold App.clash. by rewrite (rt_collate_sym (App.r_ID r)), (rt_collate_sym (App.r_Name r)), (rt_collate_sym (App.r_Slug r)). Qed.
Lemma app_clash_id r r' : rt_collate (App.r_ID r) (App.r_ID r') = true → App.clash r r' = true.
Proof using. unfold App.clash. by intros ->. Qed.
Lemma account_clash_sym r r' : ServiceAccount.clash r r' = ServiceAccount.clash r' r.
Proof using laws. unfold ServiceAccount.clash. by rewrite (rt_collate_sym (ServiceAccount.r_ID r)), (rt_collate_sym (ServiceAccount.r_Name r)). Qed.
Lemma account_clash_id r r' : rt_collate (ServiceAccount.r_ID r) (ServiceAccount.r_ID r') = true → ServiceAccount.clash r r' = true.
Proof using. unfold ServiceAccount.clash. by intros ->. Qed.
Lemma role_clash_sym r r' : Role.clash r r' = Role.clash r' r.
Proof using laws. unfold Role.clash. by rewrite (rt_collate_sym (Role.r_ID r)), (rt_collate_sym (Role.r_AppID r)), (rt_collate_sym (Role.r_Name r)). Qed.
Lemma role_clash_id r r' : rt_collate (Role.r_ID r) (Role.r_ID r') = true → Role.clash r r' = true.
Proof using. unfold Role.clash. by intros ->. Qed.

Lemma Discriminate_found e (f : DB → Z) e1 e2 w :
  calm w → e ≠ "" → f (w_db w) ≠ 0 → Discriminate e (query f) e1 e2 w = (w, Err e2).
Proof using.
  intros Hc He Hf. unfold Discriminate. rewrite decide_False by done.
  rewrite (mcatch_eq _ _ _ _ _ _ (query_calm f w Hc)). by rewrite decide_False by done.
Qed.

Lemma del_none {R} (p : R → bool) t : count p t = 0 → del p t = t ∧ sel p t = [].
Proof using.
  intros Hz. pose proof (proj1 (count_zero p t) Hz) as Hf. clear Hz. unfold del, sel. induction t as [|r t IH]; simpl; [done|].
  rewrite Hf by by left. simpl. destruct IH as [-> ->]; [|done]. intros; apply Hf; by right.
Qed.

Lemma del_false {R} (p : R → bool) t : (∀ r, p r = false) → del p t = t.
Proof using. intros Hp. apply del_none, count_zero. intros; apply Hp. Qed.

Lemma existsb_false {R} (f : R → bool) t : (∀ r, f r = false) → existsb f t = false.
Proof using. intros Hf. induction t as [|r t IH]; simpl; [done|]. by rewrite Hf, IH. Qed.

Lemma delete_none {R} get set (p : R → bool) cascade w :
  calm w → (∀ d, set (get d) d = d) → (∀ d, cascade [] d = d) → count p (get (w_db w)) = 0 →
  sql_delete get set p cascade w = (w, Ok 0).
Proof using.
  intros Hc Hset Hcas Hz. unfold sql_delete. rewrite exec_calm by done.
  destruct (del_none p _ Hz) as [-> ->]. by rewrite Hset, Hcas, with_same_db, Hz.
Qed.

Ltac cascade_nil := simpl; repeat rewrite del_false by (intros; first [done|by apply existsb_false]).

Lemma cascade_user_nil d : cascade_user [] d = d.
Proof using. unfold cascade_user. cascade_nil. by destruct d. Qed.
Lemma cascade_app_nil d : cascade_app [] d = d.
Proof using. unfold cascade_app. cascade_nil. by destruct d. Qed.
Lemma cascade_role_nil d : cascade_role [] d = d.
Proof using. unfold cascade_role. cascade_nil. by destruct d. Qed.

Lemma set_users_same d : set_users (db_users d) d = d. Proof using. by destruct d. Qed.
Lemma set_apps_same d : set_apps (db_apps d) d = d. Proof using. by destruct d. Qed.
Lemma set_accounts_same d : set_service_accounts (db_service_accounts d) d = d. Proof using. by destruct d. Qed.
Lemma set_roles_same d : set_roles (db_roles d) d = d. Proof using. by destruct d. Qed.

(** The writes of a user row under a stale etag. *)
Lemma user_stale u e r w :
  calm w → e ≠ "" → uniq Identity.clash (db_users (w_db w)) = true →
  sel_one (IdentityRepo.where_id (u_id u)) (db_users (w_db w)) = Some r → rt_collate (Identity.r_Etag r) e = false →
  IdentityRepo.Update u e w = (w, Err (ESentinel identity_ErrEtagMismatch)) ∧
  UpdatePassword u e w = (w, Err (ESentinel identity_ErrEtagMismatch)) ∧
  IdentityRepo.Delete (u_id u) e w = (w, Err (ESentinel identity_ErrEtagMismatch)).
Proof using laws.
  intros Hc He Hu Hr Hs.
  pose proof (stale_none _ Identity.r_ID Identity.r_Etag identity_clash_sym identity_clash_id _ _ _ _ Hu Hr Hs) as Hz.
  pose proof (count_pos Identity.r_ID _ _ _ Hr) as Hp.
  assert (Hup : ∀ f, update_users (IdentityRepo.where_id_etag (u_id u) e) f w = (w, Ok 0)).
  { intros f. by apply (update_none _ _ _ _ _ w Hc Hu set_users_same). }
  assert (Hdel : delete_users (IdentityRepo.where_id_etag (u_id u) e) w = (w, Ok 0)).
  { by apply (delete_none _ _ _ _ w Hc set_users_same cascade_user_nil). }
  split_and!.
  - unfold IdentityRepo.Update; autounfold with queries. rewrite !(decide_False (P := e = "")) by done.
    rewrite (mcatch_eq _ _ _ _ _ _ (Hup _)). by apply Discriminate_found.
  - unfold UpdatePassword; autounfold with queries. rewrite decide_False by done.
    rewrite (mcatch_eq _ _ _ _ _ _ (Hup _)). by apply Discriminate_found.
  - unfold IdentityRepo.Delete; autounfold with queries. rewrite !(decide_False (P := e = "")) by done.
    rewrite (mcatch_eq _ _ _ _ _ _ Hdel). by apply Discriminate_found.
Qed.

Lemma app_stale a e r w :
  calm w → e ≠ "" → uniq App.clash (db_apps (w_db w)) = true →
  sel_one (AppRepo.where_id (a_id a)) (db_apps (w_db w)) = Some r → rt_collate (App.r_Etag r) e = false →
  AppRepo.Update a e w = (w, Err (ESentinel app_ErrEtagMismatch)) ∧
  AppRepo.Delete (a_id a) e w = (w, Err (ESentinel app_ErrEtagMismatch)).
Proof using laws.
  intros Hc He Hu Hr Hs.
  pose proof (stale_none _ App.r_ID App.r_Etag app_clash_sym app_clash_id _ _ _ _ Hu Hr Hs) as Hz.
  pose proof (count_pos App.r_ID _ _ _ Hr) as Hp.
  assert (Hup : ∀ f, update_apps (AppRepo.where_id_etag (a_id a) e) f w = (w, Ok 0)).
  { intros f. by apply (update_none _ _ _ _ _ w Hc Hu set_apps_same). }
  assert (Hdel : delete_apps (AppRepo.where_id_etag (a_id a) e) w = (w, Ok 0)).
  { by apply (delete_none _ _ _ _ w Hc set_apps_same cascade_app_nil). }
  split.
  - unfold AppRepo.Update; autounfold with queries. rewrite !(decide_False (P := e = "")) by done.
    rewrite (mcatch_eq _ _ _ _ _ _ (Hup _)). by apply Discriminate_found.
  - unfold AppRepo.Delete; autounfold with queries. rewrite !(decide_False (P := e = "")) by done.
    rewrite (mcatch_eq _ _ _ _ _ _ Hdel). by apply Discriminate_found.
Qed.

Lemma account_stale v e r w :
  calm w → e ≠ "" → uniq ServiceAccount.clash (db_service_accounts (w_db w)) = true →
  sel_one (ServiceAccountRepo.where_id (v_id v)) (db_service_accounts (w_db w)) = Some r →
  rt_collate (ServiceAccount.r_Etag r) e = false →
  ServiceAccountRepo.Update v e w = (w, Err (ESentinel sa_ErrEtagMismatch)) ∧
  ServiceAccountRepo.Delete (v_id v) e w = (w, Err (ESentinel sa_ErrEtagMismatch)).
Proof using laws.
  intros Hc He Hu Hr Hs.
  pose proof (stale_none _ ServiceAccount.r_ID ServiceAccount.r_Etag account_clash_sym account_clash_id _ _ _ _ Hu Hr Hs) as Hz.
  pose proof (count_pos ServiceAccount.r_ID _ _ _ Hr) as Hp.
  assert (Hup : ∀ f, update_service_accounts (ServiceAccountRepo.where_id_etag (v_id v) e) f w = (w, Ok 0)).
  { intros f. by apply (update_none _ _ _ _ _ w Hc Hu set_accounts_same). }
  assert (Hdel : delete_service_accounts (ServiceAccountRepo.where_id_etag (v_id v) e) w = (w, Ok 0)).
  { by apply (delete_none _ _ _ (λ _ d, d) w Hc set_accounts_same (λ d, eq_refl)). }
  split.
  - unfold ServiceAccountRepo.Update; autounfold with queries. rewrite !(decide_False (P := e = "")) by done.
    rewrite (mcatch_eq _ _ _ _ _ _ (Hup _)). by apply Discriminate_found.
  - unfold ServiceAccountRepo.Delete; autounfold with queries. rewrite !(decide_False (P := e = "")) by done.
    rewrite (mcatch_eq _ _ _ _ _ _ Hdel). by apply Discriminate_found.
Qed.

Lemma role_stale o e r w :
  calm w → e ≠ "" → uniq Role.clash (db_roles (w_db w)) = true →
  sel_one (RoleRepo.where_id (o_id o)) (db_roles (w_db w)) = Some r → rt_collate (Role.r_Etag r) e = false →
  RoleRepo.Update o e w = (w, Err (ESentinel role_ErrEtagMismatch)) ∧
  RoleRepo.Delete (o_id o) e w = (w, Err (ESentinel role_ErrEtagMismatch)).
Proof using laws.
  intros Hc He Hu Hr Hs.
  pose proof (stale_none _ Role.r_ID Role.r_Etag role_clash_sym role_clash_id _ _ _ _ Hu Hr Hs) as Hz.
  pose proof (count_pos Role.r_ID _ _ _ Hr) as Hp.
  assert (Hup : ∀ f, update_roles (RoleRepo.where_id_etag (o_id o) e) f w = (w, Ok 0)).
  { intros f. by apply (update_none _ _ _ _ _ w Hc Hu set_roles_same). }
  assert (Hdel : delete_roles (RoleRepo.where_id_etag (o_id o) e) w = (w, Ok 0)).
  { by apply (delete_none _ _ _ _ w Hc set_roles_same cascade_role_nil). }
  split.
  - unfold RoleRepo.Update; autounfold with queries. apply InTx_refused; [done|]. rewrite !(decide_False (P := e = "")) by done.
    rewrite (mcatch_eq _ _ _ _ _ _ (Hup _)). rewrite decide_True by done.
    by apply Discriminate_found.
  - unfold RoleRepo.Delete; autounfold with queries. rewrite !(decide_False (P := e = "")) by done.
    rewrite (mcatch_eq _ _ _ _ _ _ Hdel). by apply Discriminate_found.
Qed.

(** Optimistic locking: on every aggregate, a write conditioned on an etag
    other than the stored one is answered with that aggregate's etag mismatch
    and changes nothing. *)
Theorem stale_etags_refused e w :
  calm w → e ≠ "" →
  (∀ u r, uniq Identity.clash (db_users (w_db w)) = true →
    sel_one (IdentityRepo.where_id (u_id u)) (db_users (w_db w)) = Some r → rt_collate (Identity.r_Etag r) e = false →
    IdentityRepo.Update u e w = (w, Err (ESentinel identity_ErrEtagMismatch)) ∧
    UpdatePassword u e w = (w, Err (ESentinel identity_ErrEtagMismatch)) ∧
    IdentityRepo.Delete (u_id u) e w = (w, Err (ESentinel identity_ErrEtagMismatch))) ∧
  (∀ a r, uniq App.clash (db_apps (w_db w)) = true →
    sel_one (AppRepo.where_id (a_id a)) (db_apps (w_db w)) = Some r → rt_collate (App.r_Etag r) e = false →
    AppRepo.Update a e w = (w, Err (ESentinel app_ErrEtagMismatch)) ∧
    AppRepo.Delete (a_id a) e w = (w, Err (ESentinel app_ErrEtagMismatch))) ∧
  (∀ v r, uniq ServiceAccount.clash (db_service_accounts (w_db w)) = true →
    sel_one (ServiceAccountRepo.where_id (v_id v)) (db_service_accounts (w_db w)) = Some r →
    rt_collate (ServiceAccount.r_Etag r) e = false →
    ServiceAccountRepo.Update v e w = (w, Err (ESentinel sa_ErrEtagMismatch)) ∧
    ServiceAccountRepo.Delete (v_id v) e w = (w, Err (ESentinel sa_ErrEtagMismatch))) ∧
  (∀ o r, uniq Role.clash (db_roles (w_db w)) = true →
    sel_one (RoleRepo.where_id (o_id o)) (db_roles (w_db w)) = Some r → rt_collate (Role.r_Etag r) e = false →
    RoleRepo.Update o e w = (w, Err (ESentinel role_ErrEtagMismatch)) ∧
    RoleRepo.Delete (o_id o) e w = (w, Err (ESentinel role_ErrEtagMismatch))).
Proof using laws.
  intros Hc He. split_and!; intros * Hu Hr Hs.
  - by eapply user_stale.
  - by eapply app_stale.
  - by eapply account_stale.
  - by eapply role_stale.
Qed.

Lemma affected_row {R} `{EqDecision R} found (p : R → bool) f t : affected found p f t = 1 → ∃ r, r ∈ t ∧ p r = true.
Proof using.
  intros Ha. destruct (sel_one p t) as [r|] eqn:E; [exists r; by apply sel_one_Some|].
  apply count_sel_one in E. exfalso. pose proof (changed_le_matched p f t). unfold affected, matched in *.
  case_match; lia.
Qed.

Lemma update_saw {R} `{EqDecision R} get set clash p (f : R → R) w w' :
  sql_update get set clash p f w = (w', Ok 1) → ∃ r, r ∈ get (w_db (interfere w)) ∧ p r = true.
Proof using. intros (t & _ & Ha & _)%update_ok. by eapply affected_row. Qed.

(** The success branch of [if rows = 1 then ret tt else Discriminate ...]. *)
Lemma rows_one (rows : Z) e (c : M World Z) e1 e2 w w' u :
  (if decide (rows = 1) then ret tt else Discriminate e c e1 e2) w = (w', Ok u) → rows = 1.
Proof using. case_decide; [done|]. intros Hd. by apply never_Discriminate in Hd. Qed.

(** C23. A conditional write that succeeds saw the expected etag in the row at the
    moment it wrote, whatever the concurrent requests had done since the
    caller read it and whatever else failed: no update is lost. *)
Theorem conditional_writes_saw_their_etag e w w' :
  e ≠ "" →
  (∀ u, IdentityRepo.Update u e w = (w', Ok tt) ∨ UpdatePassword u e w = (w', Ok tt) →
     ∃ r, r ∈ db_users (w_db (interfere w)) ∧ IdentityRepo.where_id_etag (u_id u) e r = true) ∧
  (∀ a, AppRepo.Update a e w = (w', Ok tt) →
     ∃ r, r ∈ db_apps (w_db (interfere w)) ∧ AppRepo.where_id_etag (a_id a) e r = true) ∧
  (∀ v, ServiceAccountRepo.Update v e w = (w', Ok tt) →
     ∃ r, r ∈ db_service_accounts (w_db (interfere w)) ∧ ServiceAccountRepo.where_id_etag (v_id v) e r = true) ∧
  (∀ o, RoleRepo.Update o e w = (w', Ok tt) →
     ∃ r, r ∈ db_roles (w_db (interfere w)) ∧ RoleRepo.where_id_etag (o_id o) e r = true).
Proof using.
  intros He. split_and!.
  - intros u [E|E]; [unfold IdentityRepo.Update in E|unfold UpdatePassword in E];
      rewrite ?(decide_False (P := e = "")) in E by done;
      (apply mcatch_ok_never in E as (w1 & k & Hm & ->%rows_one); [by eapply update_saw|never]).
  - intros a E. unfold AppRepo.Update in E; autounfold with queries in E. rewrite ?(decide_False (P := e = "")) in E by done.
    apply mcatch_ok_never in E as (w1 & k & Hm & ->%rows_one); [by eapply update_saw|never].
  - intros v E. unfold ServiceAccountRepo.Update in E; autounfold with queries in E. rewrite ?(decide_False (P := e = "")) in E by done.
    apply mcatch_ok_never in E as (w1 & k & Hm & ->%rows_one); [by eapply update_saw|never].
  - intros o E. unfold RoleRepo.Update in E; autounfold with queries in E. apply InTx_ok_at in E as (w0 & w1 & <- & Henv & E & _).
    rewrite ?(decide_False (P := e = "")) in E by done.
    apply mcatch_ok_never in E as (w2 & k & Hm & E); [|never].
    case_decide as Hk; [by apply never_Discriminate in E|].
    subst k. apply update_saw in Hm. by rewrite quiet_interfere in Hm.
Qed.

(** ** Status changes that change nothing *)

(** A row written back from its own aggregate. *)
Definition written_back (r : Identity.Row) : Prop := Identity.toUpdateParams (Identity.dbgenToDomain r) r = r.

Lemma write_back_unchanged w r :
  calm w → rt_found_rows = false → uniq Identity.clash (db_users (w_db w)) = true →
  sel_one (IdentityRepo.where_id (Identity.r_ID r)) (db_users (w_db w)) = Some r → written_back r →
  IdentityRepo.Update (Identity.dbgenToDomain r) "" w = (w, Err (ESentinel identity_ErrUserNotFound)).
Proof using laws.
  intros Hc Hfr Hu Hr Hb. unfold IdentityRepo.Update; autounfold with queries. rewrite !decide_True by done.
  assert (Hch : changed (IdentityRepo.where_id (Identity.r_ID r)) (Identity.toUpdateParams (Identity.dbgenToDomain r))
    (db_users (w_db w)) = 0).
  { apply changed_zero. intros x Hx Hpx.
    by rewrite (keyed_unique _ Identity.r_ID identity_clash_sym identity_clash_id _ _ r x Hu Hr Hx Hpx). }
  rewrite (mcatch_eq _ _ _ w w 0).
  - done.
  - unfold update_users. rewrite update_calm by done. unfold upd_uniq.
    change (u_id (Identity.dbgenToDomain r)) with (Identity.r_ID r).
    rewrite (upd_unchanged _ _ _ Hch), Hu, set_users_same, with_same_db. unfold affected. by rewrite Hfr, Hch.
Qed.

Lemma audit_error_ran {A} c aud e w :
  w_env w = [] → ∃ w', audit_error (A := A) c aud e w = (w', Err e) ∧ audited w w'.
Proof using.
  intros Henv. unfold audit_error, gobind, mcatch.
  destruct (Emit_frame (WithOutcome aud (c e).1 (c e).2) w Henv) as [Hok _].
  destruct (Emit _ w) as [w' [u|e']] eqn:E; [|done]. exists w'. split; [done|].
  by apply Emit_audited in E as [? _].
Qed.

(** The status changes of a user are meant to be idempotent. On a connection
    that counts changed rows, the default, disabling a blocked user or
    enabling an active one is answered [ErrUserNotFound]: the statement
    changes no row, which the repository takes for a missing one. *)
Theorem repeated_status_change_not_found ctx a r w :
  calm w → rt_found_rows = false → uniq Identity.clash (db_users (w_db w)) = true →
  Require_actor ctx = Ok a → rt_uuid_valid (Identity.r_ID r) = true →
  sel_one (IdentityRepo.where_id (Identity.r_ID r)) (db_users (w_db w)) = Some r → written_back r →
  (Identity.r_Status r = UserStatusBlocked →
     (DisableUser ctx (Identity.r_ID r) false w).2 = Err (ESentinel identity_ErrUserNotFound)) ∧
  (Identity.r_Status r = UserStatusActive →
     (EnableUser ctx (Identity.r_ID r) false w).2 = Err (ESentinel identity_ErrUserNotFound)).
Proof using laws.
  intros Hc Hfr Hu Ha Hv Hr Hb.
  assert (Hl : ∀ ev mutate, (∀ e n, mutate e n (Identity.dbgenToDomain r) = Ok (Identity.dbgenToDomain r)) →
    (IdentityService.lifecycleEmit ctx (Identity.r_ID r) false ev mutate w).2 = Err (ESentinel identity_ErrUserNotFound)).
  { intros ev mutate Hm. unfold IdentityService.lifecycleEmit.
    rewrite (gobind_eq _ _ w w a) by (unfold lift; by rewrite Ha).
    rewrite (gobind_eq _ _ w w (Identity.r_ID r)) by (unfold lift, ParseUserID; by rewrite Hv). cbv zeta.
    rewrite (mcatch_eq _ _ _ w w (Identity.dbgenToDomain r))
      by (unfold IdentityRepo.GetByID, mcatch; autounfold with queries; by rewrite query_one_calm, Hr).
    rewrite (gobind_eq _ _ w w (w_now w)) by done.
    rewrite (gobind_eq _ _ w (tick_seed w) (rt_uuid (w_seed w))) by done.
    rewrite (mcatch_eq _ _ _ (tick_seed w) (tick_seed w) (Identity.dbgenToDomain r)) by (unfold lift; by rewrite Hm).
    rewrite (mcatch_err _ _ _ _ _ _ (write_back_unchanged (tick_seed w) r Hc Hfr Hu Hr Hb)).
    match goal with |- context [audit_error ?c ?aud ?e ?w] =>
      destruct (audit_error_ran (A := unit) c aud e w) as (w' & -> & _); [apply Hc|done] end. }
  split; intros Hst; apply Hl; intros e n; unfold Identity.Disable, Identity.Enable; simpl; by rewrite Hst.
Qed.

End Etags.

(** ** The status machines *)

Inductive AppEvent := EvDisable | EvEnable | EvEnterMaintenance | EvExitMaintenance.

Definition app_apply (ev : AppEvent) (fresh : Etag) (now : Time) (a : App) : res App :=
  match ev with
  | EvDisable => Ok (App.Disable fresh now a)
  | EvEnable => App.Enable fresh now a
  | EvEnterMaintenance => EnterMaintenance fresh now a
  | EvExitMaintenance => ExitMaintenance fresh now a
  end.

(** The transition table documented above the mutators of app.go. *)
Inductive app_step : Z → AppEvent → Z → Prop :=
  | step_disable s : app_step s EvDisable AppStatusDisabled
  | step_enable : app_step AppStatusDisabled EvEnable AppStatusActive
  | step_enabled : app_step AppStatusActive EvEnable AppStatusActive
  | step_enter : app_step AppStatusActive EvEnterMaintenance AppStatusMaintenance
  | step_entered : app_step AppStatusMaintenance EvEnterMaintenance AppStatusMaintenance
  | step_exit : app_step AppStatusMaintenance EvExitMaintenance AppStatusActive
  | step_exited : app_step AppStatusActive EvExitMaintenance AppStatusActive.

(** Runs of an application through successful events. *)
Inductive app_run : App → list AppEvent → App → Prop :=
  | run_nil a : app_run a [] a
  | run_cons a ev fresh now a' evs a'' :
      app_apply ev fresh now a = Ok a' → app_run a' evs a'' → app_run a (ev :: evs) a''.

Lemma app_apply_step ev fresh now a :
  AppStatus_Valid (a_status a) = true →
  (∀ a', app_apply ev fresh now a = Ok a' →
     app_step (a_status a) ev (a_status a') ∧ AppStatus_Valid (a_status a') = true ∧
     (a' = a ∨ a' = App.bumpVersion fresh now (App.set_status (a_status a') a))) ∧
  ((∃ s', app_step (a_status a) ev s') → ∃ a', app_apply ev fresh now a = Ok a').
Proof.
  intros Hv%bool_decide_eq_true. destruct a as [i sl st et c u n l]. simpl in *.
  unfold App.Disable, App.Enable, EnterMaintenance, ExitMaintenance, AppStatus_Valid.
  destruct Hv as [->|[->| ->]]; destruct ev; simpl; unfold App.Disable, App.Enable, EnterMaintenance, ExitMaintenance; simpl.
  all: split; [intros a' E; first [done|injection E as <-; simpl; split_and!; [once constructor|done|first [by left|by right]]]|intros [s' Hs]; first [by eexists|by inversion Hs]].
Qed.


(** Mutations of a user aggregate, with the arguments of the use-cases. *)
Definition user_mutations (fresh : Etag) (now : Time) (patch : UserPatch) (hash : bytes) (u : User) : list (res User) :=
  [Identity.Disable fresh now u; Identity.Enable fresh now u; Ok (SoftDelete fresh now u);
   Identity.ApplyPatch fresh patch now u; SetPassword fresh hash now u; ClearPassword fresh now u].

Lemma patch_field_same p cur : (patch_field p cur).2 = false → (patch_field p cur).1 = cur.
Proof. unfold patch_field. destruct p; [|done]. by case_decide. Qed.

Lemma ApplyPatch_ok fresh patch now u u' :
  Identity.ApplyPatch fresh patch now u = Ok u' →
  u_id u' = u_id u ∧ u_createdAt u' = u_createdAt u ∧ (u' = u ∨ u_etag u' = fresh ∧ u_updatedAt u' = now).
Proof.
  unfold Identity.ApplyPatch. case_decide; [done|].
  pose proof (patch_field_same (p_Email patch) (u_Email u)). pose proof (patch_field_same (p_Username patch) (u_Username u)).
  pose proof (patch_field_same (p_DisplayName patch) (u_DisplayName u)). pose proof (patch_field_same (p_AvatarURL patch) (u_AvatarURL u)).
  pose proof (patch_field_same (p_Locale patch) (u_Locale u)). pose proof (patch_field_same (p_Timezone patch) (u_Timezone u)).
  repeat match goal with |- context [patch_field ?p ?c] => destruct (patch_field p c) as [? []]; simpl in * end;
    intros [= <-]; simpl; split_and!; auto.
  repeat match goal with H : _ = _ → _ = _ |- _ => specialize (H eq_refl) end.
  left. destruct u; simpl in *. congruence.
Qed.

(** Deletion is final: no mutation brings a deleted user back or changes it. A
    mutation of another user keeps its identity and creation time, and bumps
    the version if anything changes. *)
Theorem user_mutations_spec fresh now patch hash u :
  (u_status u = UserStatusDeleted →
     ∀ r u', r ∈ user_mutations fresh now patch hash u → r = Ok u' → u' = u) ∧
  (∀ r u', r ∈ user_mutations fresh now patch hash u → r = Ok u' →
     u_id u' = u_id u ∧ u_createdAt u' = u_createdAt u ∧
     (u' = u ∨ u_etag u' = fresh ∧ u_updatedAt u' = now)).
Proof.
  unfold user_mutations. split.
  - unfold Identity.Disable, Identity.Enable, SoftDelete, Identity.ApplyPatch, SetPassword, ClearPassword.
    intros ->. rewrite !decide_True by done. intros r u' Hr ->.
    repeat (apply elem_of_cons in Hr as [Hr|Hr]; [by try injection Hr as ->|]). by apply elem_of_nil in Hr.
  - intros r u' Hr ->. do 3 (apply elem_of_cons in Hr as [Hr|Hr];
      [unfold Identity.Disable, Identity.Enable, SoftDelete in Hr; repeat case_decide; simplify_eq; simpl; by auto 6|]).
    apply elem_of_cons in Hr as [Hr|Hr]; [symmetry in Hr; by eapply ApplyPatch_ok|].
    do 2 (apply elem_of_cons in Hr as [Hr|Hr];
      [unfold SetPassword, ClearPassword in Hr; repeat (case_decide || case_match); simplify_eq; simpl; by auto 6|]).
    by apply elem_of_nil in Hr.
Qed.

(** ** The permission set of a role *)

Definition byte_le (x y : string) : Prop := str_lt y x = false.

Lemma byte_le_trans x y z : byte_le x y → byte_le y z → byte_le x z.
Proof.
  unfold byte_le. intros Hxy Hyz. destruct (str_lt z x) eqn:E; [|done].
  destruct (str_lt_total y z) as [->|[H|H]]; [congruence| |congruence].
  by rewrite (str_lt_trans _ _ _ H E) in Hxy.
Qed.

Lemma byte_le_antisym x y : byte_le x y → byte_le y x → x = y.
Proof. unfold byte_le. intros H1 H2. destruct (str_lt_total x y) as [?|[?|?]]; congruence. Qed.

Lemma sort_insert_perm x l : sort_insert x l ≡ₚ x :: l.
Proof. induction l as [|y l IH]; simpl; [done|]. case_match; [|done]. rewrite IH. constructor. Qed.

Lemma sort_strings_perm l : sort_strings l ≡ₚ l.
Proof. induction l as [|x l IH]; simpl; [done|]. by rewrite sort_insert_perm, IH. Qed.

Lemma sort_insert_sorted x l : StronglySorted byte_le l → StronglySorted byte_le (sort_insert x l).
Proof.
  induction 1 as [|y l Hs IH Hall]; simpl; [by repeat constructor|].
  destruct (str_lt y x) eqn:E.
  - constructor; [done|]. rewrite sort_insert_perm. constructor; [|done].
    unfold byte_le. destruct (str_lt x y) eqn:E'; [|done].
    by rewrite <- (str_lt_irrefl y), (str_lt_trans _ _ _ E E').
  - constructor; [by constructor|]. constructor; [done|].
    eapply Forall_impl; [exact Hall|]. intros z Hz. by eapply byte_le_trans.
Qed.

Lemma sort_strings_sorted l : StronglySorted byte_le (sort_strings l).
Proof. induction l as [|x l IH]; simpl; [constructor|]. by apply sort_insert_sorted. Qed.

(** The canonical form of a permission list depends only on the permissions in
    it, not on their order, so that the comparison of a role patch with the
    stored permissions compares sets; it keeps every permission and sorts them
    byte by byte. *)
Theorem canonicalPerms_spec l l' :
  canonicalPerms l ≡ₚ l ∧ StronglySorted byte_le (canonicalPerms l) ∧
  (canonicalPerms l = canonicalPerms l' ↔ l ≡ₚ l').
Proof.
  unfold canonicalPerms. split; [apply sort_strings_perm|]. split; [apply sort_strings_sorted|]. split.
  - intros E. by rewrite <- (sort_strings_perm l), E, sort_strings_perm.
  - intros Hp. apply (StronglySorted_unique_strong byte_le); [|apply sort_strings_sorted..|].
    + intros. by apply byte_le_antisym.
    + by rewrite !sort_strings_perm.
Qed.

(** ** Unconditional writes *)

Section Race.
#[local] Existing Instance toy.

(** What a concurrent request of the user does: a successful password change. *)
Definition concurrent_change (d : DB) : DB :=
  w_db (ChangePassword toy_cfg toy_ctx (mkChangePasswordInput "idu" "secret" "s3cret" "" "") (with_db d toy_world)).1.

(** DisableUser writes the whole row it read, without a condition on the etag:
    a password change that commits between the read and the write succeeds,
    and is undone. *)
Theorem DisableUser_undoes_password_change :
  Identity.r_PasswordHash <$> db_users (concurrent_change toy_db) = [Some "bc:s3cret"] ∧
  let '(w', r) := DisableUser toy_ctx "idu" false (load [] [λ d, d; concurrent_change] toy_world) in
  r = Ok tt ∧ Identity.r_PasswordHash <$> db_users (w_db w') = [Some "bc:secret"].
Proof. split; vm_compute; done. Qed.

End Race.

(** ** Instances *)

Section Witness.
#[local] Existing Instance toy.

Lemma stale_etags_refused_witness :
  IdentityRepo.Update (Identity.dbgenToDomain user_row) "old" toy_world =
    (toy_world, Err (ESentinel identity_ErrEtagMismatch)).
Proof.
  exact (proj1 (proj1 (stale_etags_refused (H := toy) "old" toy_world ltac:(by split) ltac:(discriminate))
    (Identity.dbgenToDomain user_row) user_row ltac:(vm_compute; reflexivity) ltac:(vm_compute; reflexivity)
    ltac:(vm_compute; reflexivity))).
Defined.

Lemma conditional_writes_saw_their_etag_witness :
  ∃ r, r ∈ db_apps toy_db ∧ App.r_Etag r = "ide".
Proof.
  set (a := App.bumpVersion "id9" 7 (App.dbgenToDomain app_row)).
  destruct (proj1 (proj2 (conditional_writes_saw_their_etag (H := toy) "ide" toy_world (AppRepo.Update a "ide" toy_world).1
    ltac:(discriminate))) a ltac:(vm_compute; reflexivity)) as (r & Hr & Hk).
  exists r. split; [exact Hr|]. apply andb_true_iff in Hk as [_ Hk]. by apply bool_decide_eq_true in Hk.
Defined.

Lemma repeated_status_change_not_found_witness :
  (EnableUser toy_ctx "idu" false toy_world).2 = Err (ESentinel identity_ErrUserNotFound).
Proof.
  exact (proj2 (repeated_status_change_not_found (H := toy) toy_ctx (mkActor "idu" KindUser "idy" "" "") user_row toy_world
    ltac:(by split) ltac:(reflexivity) ltac:(vm_compute; reflexivity) ltac:(reflexivity) ltac:(reflexivity)
    ltac:(vm_compute; reflexivity) ltac:(reflexivity)) ltac:(reflexivity)).
Defined.


End Witness.

(** ** What is printed of a status *)

Definition uint8s : list Z := Z.of_nat <$> seq 0 256.

Lemma distinct_on_uint8 (f : Z → string) :
  bool_decide (NoDup (f <$> uint8s)) = true → ∀ s s', 0 <= s < 256 → 0 <= s' < 256 → f s = f s' → s = s'.
Proof.
  intros Hnd%bool_decide_eq_true s s' Hs Hs' E.
  assert (Hat : ∀ n, 0 <= n < 256 → (f <$> uint8s) !! Z.to_nat n = Some (f n)).
  { intros n Hn. unfold uint8s. rewrite !list_lookup_fmap, lookup_seq_lt by lia. simpl. by rewrite Z2Nat.id by lia. }
  assert (Z.to_nat s = Z.to_nat s'); [|lia].
  eapply NoDup_lookup; [exact Hnd|by apply Hat|]. rewrite E. by apply Hat.
Qed.

(** No two values of a status column are printed alike, valid or not. *)
Lemma statuses_printed_apart s s' : 0 <= s < 256 → 0 <= s' < 256 → s ≠ s' →
  UserStatus_String s ≠ UserStatus_String s' ∧ AppStatus_String s ≠ AppStatus_String s' ∧
  RoleStatus_String s ≠ RoleStatus_String s' ∧ ServiceAccountStatus_String s ≠ ServiceAccountStatus_String s'.
Proof.
  intros Hs Hs' Hne. split_and!; intros E; apply Hne; revert E; apply distinct_on_uint8; by vm_compute.
Qed.
