(* ===== verification/GrpcBase.v ===== *)
(** * GrpcBase: what the gRPC adapters share.

    platform/grpc/errors: the statuses the service answers with and the table
    that maps errors to them. A handler is a computation on [World] that ends
    in a reply or in a status. *)
From S2P Require Import Prelude Errors Monad Kernel World.
Local Open Scope Z_scope.

(** ** Statuses *)

(** google.golang.org/grpc/codes. *)
Inductive Code :=
  | OK | Canceled | Unknown | InvalidArgument | DeadlineExceeded | NotFound | AlreadyExists
  | PermissionDenied | ResourceExhausted | FailedPrecondition | Aborted | OutOfRange
  | Unimplemented | Internal | Unavailable | DataLoss | Unauthenticated.
#[export] Instance Code_eq_dec : EqDecision Code.
Proof. solve_decision. Defined.

(** The constants of ssocommonv1.ErrorReason the source names. *)
Inductive ErrorReason :=
  | ERROR_REASON_UNSPECIFIED | ERROR_REASON_VALIDATION_FAILED | ERROR_REASON_RATE_LIMITED
  | ERROR_REASON_PERMISSION_DENIED | ERROR_REASON_ETAG_MISMATCH
  | ERROR_REASON_INVALID_CREDENTIALS | ERROR_REASON_INVALID_TOKEN | ERROR_REASON_PASSWORD_MISMATCH
  | ERROR_REASON_RECOVERY_CODE_INVALID | ERROR_REASON_INVALID_CLIENT_CREDENTIALS
  | ERROR_REASON_USER_NOT_FOUND | ERROR_REASON_USER_ALREADY_EXISTS | ERROR_REASON_USER_BLOCKED
  | ERROR_REASON_USER_DELETED | ERROR_REASON_SESSION_NOT_FOUND | ERROR_REASON_SESSION_NOT_OWNED
  | ERROR_REASON_APP_NOT_FOUND | ERROR_REASON_APP_ALREADY_EXISTS | ERROR_REASON_APP_DISABLED
  | ERROR_REASON_APP_IN_MAINTENANCE | ERROR_REASON_ROLE_NOT_FOUND | ERROR_REASON_ROLE_ALREADY_EXISTS
  | ERROR_REASON_ROLE_DISABLED | ERROR_REASON_ROLE_NOT_IN_APP
  | ERROR_REASON_SERVICE_ACCOUNT_NOT_FOUND | ERROR_REASON_SERVICE_ACCOUNT_ALREADY_EXISTS
  | ERROR_REASON_SERVICE_ACCOUNT_DISABLED.
#[export] Instance ErrorReason_eq_dec : EqDecision ErrorReason.
Proof. solve_decision. Defined.

(** The details the source attaches (google.rpc error details). *)
Inductive Detail :=
  | ErrorInfo (reason : ErrorReason) (domain : string) (metadata : list (string * string))
  | BadRequest (violations : list (string * string))
  | RetryInfo (delay : Z).
#[export] Instance Detail_eq_dec : EqDecision Detail.
Proof. solve_decision. Defined.

Record Status := mkStatus { st_Code : Code; st_Message : string; st_Details : list Detail }.
#[export] Instance Status_eq_dec : EqDecision Status.
Proof. solve_decision. Defined.

(** grpc-go and protobuf: [WithDetails] refuses when a detail cannot be
    attached; a Timestamp holds an instant. *)
Class Grpc := {
  st_WithDetails : Status → list Detail → option Status;
  Timestamp : Type;
  timestamppb_New : Time → Timestamp;
  ts_IsValid : Timestamp → bool;
  ts_AsTime : Timestamp → Time }.

Class GrpcLaws `{Grpc} : Prop := {
  (* details attach to every status that is not OK *)
  st_WithDetails_ok : ∀ c m ds, c ≠ OK → st_WithDetails (mkStatus c m []) ds = Some (mkStatus c m ds);
  ts_roundtrip : ∀ t, ts_IsValid (timestamppb_New t) = true → ts_AsTime (timestamppb_New t) = t }.

Definition ErrorDomain : string := "sso.nergous.ru".

(** A table from sentinels to statuses; the iteration order of a Go map is
    not fixed (see [MapError_order]). *)
Record ErrorMapping := mkErrorMapping { em_Code : Code; em_Reason : ErrorReason; em_Message : string }.

Section GrpcErrors.
Context `{Grpc}.

Definition StatusWithReason (code : Code) (reason : ErrorReason) (msg : string) : Status :=
  let st := mkStatus code msg [] in
  default st (st_WithDetails st [ErrorInfo reason ErrorDomain []]).

Definition StatusWithValidation (field reason : string) : Status :=
  let st := mkStatus InvalidArgument "validation failed" [] in
  default st (st_WithDetails st
    [ErrorInfo ERROR_REASON_VALIDATION_FAILED ErrorDomain []; BadRequest [(field, reason)]]).

Definition internal_error : Status := mkStatus Internal "internal error" [].

Fixpoint map_entries (err : error) (m : list (sentinel * ErrorMapping)) : Status :=
  match m with
  | [] => internal_error
  | (s, em) :: m' =>
      if errors_is err s then
        if decide (em_Reason em = ERROR_REASON_UNSPECIFIED) then mkStatus (em_Code em) (em_Message em) []
        else StatusWithReason (em_Code em) (em_Reason em) (em_Message em)
      else map_entries err m'
  end.

Definition MapError (err : error) (m : list (sentinel * ErrorMapping)) : Status :=
  match errors_as_validation err with
  | Some (field, reason) => StatusWithValidation field reason
  | None => map_entries err m
  end.

End GrpcErrors.

(** ** Handlers *)

Inductive reply (A : Type) :=
  | Reply (a : A)
  | Refused (s : Status).
Arguments Reply {A} a.
Arguments Refused {A} s.

Definition Handler (A : Type) : Type := World → World * reply A.

Definition hret {A} (a : A) : Handler A := λ w, (w, Reply a).
Definition refuse {A} (s : Status) : Handler A := λ w, (w, Refused s).

(** [out, err := m; if err != nil { return nil, toGRPCError(err) }; return render(out), nil]. *)
Definition answer {A B} (toGRPCError : error → Status) (m : M World A) (render : A → B) : Handler B :=
  λ w, let (w', r) := m w in
       (w', match r with Ok a => Reply (render a) | Err e => Refused (toGRPCError e) end).

(** The same guard on pure code, before the rest of the handler. *)
Definition check {A B} (toGRPCError : error → Status) (r : res A) (k : A → Handler B) : Handler B :=
  match r with Ok a => k a | Err e => refuse (toGRPCError e) end.

(** One handler after another: an interceptor and what it wraps. *)
Definition hbind {A B} (m : Handler A) (k : A → Handler B) : Handler B :=
  λ w, match m w with
       | (w', Reply a) => k a w'
       | (w', Refused s) => (w', Refused s)
       end.
Definition hmap {A B} (f : A → B) (m : Handler A) : Handler B := hbind m (λ a, hret (f a)).

(** emptypb.Empty. *)
Abbreviation Empty := unit (only parsing).
Definition empty_reply {A} (_ : A) : Empty := tt.

(** The loop of [protoStatusesToDomain], the same in every adapter: a value
    the enum of the domain does not have is refused. *)
Fixpoint convert_statuses {P} (statusFromProto : P → option Z) (l : list P) : res (list Z) :=
  match l with
  | [] => Ok []
  | s :: l' =>
      match statusFromProto s with
      | None => Err (EValidation "filters.statuses" "unknown status value")
      | Some dom => out <-? convert_statuses statusFromProto l' ;; Ok (dom :: out)
      end
  end.

(** A list reply: the page and the token of the next one; the services leave
    [TotalSize] out. *)
Record ListReply (A : Type) := mkListReply { lp_Items : list A; lp_NextPageToken : string }.
Arguments mkListReply {A} _ _.
Arguments lp_Items {A} _.
Arguments lp_NextPageToken {A} _.
Definition list_reply {A B} (toProto : A → B) (out : list A * string) : ListReply B :=
  mkListReply (map toProto (fst out)) (snd out).
