(* ===== verification/Interceptor.v ===== *)
(** * Interceptor: the authentication of private RPCs.

    platform/grpc/auth: interceptor.go (the bearer token, its verification,
    the session check, the actor put in the context) and meta.go (peer
    address, user agent); the public methods of modules/auth/public_rpcs.go
    and bootstrap.go. *)
From stdpp Require Import list.
From S2P Require Import Prelude Errors Monad Runtime Kernel World Session SessionRepo AuthBase GoStd GrpcBase.
Local Open Scope Z_scope.

(** ** meta.go *)

(** [md.Get] with a lower-case key; the transport hands over lower-case keys. *)
Fixpoint md_Get (md : list (string * list string)) (key : string) : list string :=
  match md with
  | [] => []
  | (k, vs) :: md' => if decide (k = key) then vs else md_Get md' key
  end.

Definition PeerIP (ctx : Ctx) : string :=
  match ctx_peer ctx with
  | None => ""
  | Some addr => match SplitHostPort addr with Some (host, _) => host | None => addr end
  end.

Definition UserAgentFromCtx (ctx : Ctx) : string :=
  match ctx_metadata ctx with
  | None => ""
  | Some md => match md_Get md "user-agent" with v :: _ => v | [] => "" end
  end.

(** ** interceptor.go *)

Definition errUnauthenticated : Status := mkStatus Unauthenticated "unauthenticated" [].
Definition errMissingMD : Status := mkStatus Unauthenticated "missing metadata" [].
Definition errMissingAuthHeader : Status := mkStatus Unauthenticated "missing authorization header" [].
Definition errBadAuthScheme : Status := mkStatus Unauthenticated "authorization scheme must be Bearer" [].
Definition errEmptyToken : Status := mkStatus Unauthenticated "empty bearer token" [].

Definition bearer_prefix : string := "Bearer ".

Definition bearerFromCtx (ctx : Ctx) : reply string :=
  match ctx_metadata ctx with
  | None => Refused errMissingMD
  | Some md =>
      match md_Get md "authorization" with
      | [] => Refused errMissingAuthHeader
      | value :: _ =>
          let raw := TrimSpace value in
          if negb (HasPrefix raw bearer_prefix) then Refused errBadAuthScheme
          else
            let tok := TrimSpace (drop_s (String.length bearer_prefix) raw) in
            if decide (tok = "") then Refused errEmptyToken else Reply tok
      end
  end.

(** modules/auth/public_rpcs.go and the transport-level methods bootstrap adds. *)
Definition auth_PublicRPCs : list string := [
  "/sso.auth.v1.AuthService/Register";
  "/sso.auth.v1.AuthService/Login";
  "/sso.auth.v1.AuthService/Refresh";
  "/sso.auth.v1.AuthService/ValidateToken";
  "/sso.auth.v1.AuthService/ResetPasswordWithRecoveryCode";
  "/sso.auth.v1.AuthService/AuthenticateServiceAccount"].
Definition publicRPCs : list string := auth_PublicRPCs ++ [
  "/grpc.health.v1.Health/Check";
  "/grpc.health.v1.Health/Watch";
  "/grpc.reflection.v1.ServerReflection/ServerReflectionInfo";
  "/grpc.reflection.v1alpha.ServerReflection/ServerReflectionInfo"].

Section Interceptor.
Context `{Runtime} (cfg : AuthConfig).

(** The subject type of a verified token. *)
Definition kind_of (subjectType : string) : option Kind :=
  if decide (subjectType = jwt_SubjectTypeUser) then Some KindUser
  else if decide (subjectType = jwt_SubjectTypeServiceAccount) then Some KindServiceAccount
  else None.

(** [sess, err := GetByID(..); if err != nil || !sess.IsActive(now) { return errUnauthenticated }],
    for users only. *)
Definition session_admits (kind : Kind) (sessionID : string) : M World bool :=
  if decide (kind = KindUser) then
    sess <- SessionRepo.GetByID sessionID catch err => ret false ;;
    now <- time_now ;;
    ret (Session.IsActive now sess)
  else ret true.

(** The actor a request is served as, or none when it is refused. *)
Definition authenticate (ctx : Ctx) (token : string) : M World (option Actor) :=
  claims <- Verify cfg token catch err => ret None ;;
  match kind_of (cl_SubjectType claims) with
  | None => ret None
  | Some kind =>
      admitted <- session_admits kind (cl_SessionID claims) ;;
      if negb admitted then ret None
      else ret (Some (mkActor (cl_Subject claims) kind (cl_SessionID claims) (PeerIP ctx)
                        (UserAgentFromCtx ctx)))
  end.

(** What Unary decides before it calls the handler: the context the handler
    gets, or the refusal. *)
Definition pass_or_refuse (public : list string) (FullMethod : string) (ctx : Ctx) : Handler Ctx :=
  if decide (FullMethod ∈ public) then hret ctx
  else match bearerFromCtx ctx with
  | Refused _ => refuse errUnauthenticated
  | Reply token => λ w,
      match authenticate ctx token w with
      | (w', Ok (Some a)) => (w', Reply (Inject ctx a))
      | (w', _) => (w', Refused errUnauthenticated)
      end
  end.

Definition Unary {A} (public : list string) (FullMethod : string) (ctx : Ctx)
    (handler : Ctx → Handler A) : Handler A :=
  hbind (pass_or_refuse public FullMethod ctx) handler.

End Interceptor.
