(* ===== verification/IdentityGrpc.v ===== *)
(** * IdentityGrpc: the gRPC adapter of the identity directory.

    modules/identity/internal/grpc/{errors,mapper,handler}.go. The messages
    hold the fields the adapter reads and writes; an absent sub-message is
    [None], and the getters then yield zero values. *)
From stdpp Require Import list.
From S2P Require Import Prelude Errors Monad Runtime Kernel World GrpcBase.
From S2P Require Import Identity IdentityRepo IdentityService.
Local Open Scope Z_scope.

(** ** errors.go *)

Definition errorMap : list (sentinel * ErrorMapping) := [
  (identity_ErrUserNotFound, mkErrorMapping NotFound ERROR_REASON_USER_NOT_FOUND "user not found");
  (identity_ErrUserAlreadyExists,
     mkErrorMapping AlreadyExists ERROR_REASON_USER_ALREADY_EXISTS "registration failed");
  (identity_ErrEtagMismatch, mkErrorMapping Aborted ERROR_REASON_ETAG_MISMATCH "etag mismatch");
  (identity_ErrUserDeleted, mkErrorMapping FailedPrecondition ERROR_REASON_USER_DELETED "user is deleted");
  (identity_ErrUserNotDeleted,
     mkErrorMapping FailedPrecondition ERROR_REASON_USER_DELETED "user is not in deleted state")].

(** ** mapper.go *)

Inductive PbUserStatus :=
  | USER_STATUS_UNSPECIFIED | USER_STATUS_ACTIVE | USER_STATUS_BLOCKED | USER_STATUS_DELETED
  | USER_STATUS_OTHER (n : Z).
Inductive PbListUsersOrderBy :=
  | LIST_USERS_ORDER_BY_UNSPECIFIED
  | LIST_USERS_ORDER_BY_CREATED_AT_DESC | LIST_USERS_ORDER_BY_CREATED_AT_ASC
  | LIST_USERS_ORDER_BY_USER_ID_DESC | LIST_USERS_ORDER_BY_USER_ID_ASC
  | LIST_USERS_ORDER_BY_USERNAME_DESC | LIST_USERS_ORDER_BY_USERNAME_ASC
  | LIST_USERS_ORDER_BY_OTHER (n : Z).

Definition statusToProto (s : Z) : PbUserStatus :=
  if decide (s = UserStatusActive) then USER_STATUS_ACTIVE
  else if decide (s = UserStatusBlocked) then USER_STATUS_BLOCKED
  else if decide (s = UserStatusDeleted) then USER_STATUS_DELETED
  else USER_STATUS_UNSPECIFIED.

Definition statusFromProto (s : PbUserStatus) : option Z :=
  match s with
  | USER_STATUS_ACTIVE => Some UserStatusActive
  | USER_STATUS_BLOCKED => Some UserStatusBlocked
  | USER_STATUS_DELETED => Some UserStatusDeleted
  | _ => None
  end.

Definition orderByFromProto (o : PbListUsersOrderBy) : Z :=
  match o with
  | LIST_USERS_ORDER_BY_CREATED_AT_DESC => OrderByCreatedAtDesc
  | LIST_USERS_ORDER_BY_CREATED_AT_ASC => OrderByCreatedAtAsc
  | LIST_USERS_ORDER_BY_USER_ID_DESC => OrderByUserIDDesc
  | LIST_USERS_ORDER_BY_USER_ID_ASC => OrderByUserIDAsc
  | LIST_USERS_ORDER_BY_USERNAME_DESC => OrderByUsernameDesc
  | LIST_USERS_ORDER_BY_USERNAME_ASC => OrderByUsernameAsc
  | _ => OrderByUnspecified
  end.

Definition protoStatusesToDomain : list PbUserStatus → res (list Z) := convert_statuses statusFromProto.

Section IdentityGrpc.
Context `{Runtime} `{Grpc} `{JsonCodec IdentityService.pageToken}.

Definition toGRPCError (err : error) : Status := MapError err errorMap.

Record PbUser := mkPbUser {
  ub_UserId : string; ub_Email : string; ub_Username : string; ub_DisplayName : string;
  ub_AvatarUrl : option string; ub_Status : PbUserStatus; ub_Etag : string;
  ub_CreatedAt : option Timestamp; ub_UpdatedAt : option Timestamp;
  ub_LastLoginAt : option Timestamp; ub_Locale : string; ub_Timezone : string }.

Definition UserToProto (u : User) : PbUser :=
  mkPbUser (u_id u) (u_Email u) (u_Username u) (u_DisplayName u)
    (if decide (u_AvatarURL u ≠ "") then Some (u_AvatarURL u) else None)
    (statusToProto (u_status u)) (u_etag u)
    (Some (timestamppb_New (u_createdAt u))) (Some (timestamppb_New (u_updatedAt u)))
    (if IsZero (u_LastLoginAt u) then None else Some (timestamppb_New (u_LastLoginAt u)))
    (u_Locale u) (u_Timezone u).

(** The zero message, behind the getters on a nil pointer. *)
Definition PbUser_zero : PbUser :=
  mkPbUser "" "" "" "" None USER_STATUS_UNSPECIFIED "" None None None "" "".
Definition GetAvatarUrl (u : PbUser) : string := default "" (ub_AvatarUrl u).

(** ** handler.go *)

Definition CreateUser (ctx : Ctx) (user : option PbUser) : Handler PbUser :=
  let u := default PbUser_zero user in
  answer toGRPCError
    (IdentityService.CreateUser ctx
       (mkCreateUserInput (ub_Email u) (ub_Username u) (ub_DisplayName u) (GetAvatarUrl u)
          (ub_Locale u) (ub_Timezone u))) UserToProto.

Definition GetUser (user_id : string) : Handler PbUser :=
  answer toGRPCError (IdentityService.GetUser user_id) UserToProto.

Record ListUsersRequest := mkListUsersRequest {
  lur_PageSize : Z; lur_PageToken : string; lur_Search : string; lur_Emails : list string;
  lur_Usernames : list string; lur_DisplayNames : list string; lur_Statuses : list PbUserStatus;
  lur_OrderBy : PbListUsersOrderBy }.

Definition ListUsers (req : ListUsersRequest) : Handler (ListReply PbUser) :=
  check toGRPCError (protoStatusesToDomain (lur_Statuses req)) (λ statuses,
    answer toGRPCError
      (IdentityService.ListUsers
         (mkListUsersInput (lur_PageSize req) (lur_PageToken req) (lur_Search req) (lur_Emails req)
            (lur_Usernames req) (lur_DisplayNames req) statuses (orderByFromProto (lur_OrderBy req))))
      (list_reply UserToProto)).

Record UpdateUserRequest := mkUpdateUserRequest {
  uur_UserId : string; uur_User : option PbUser; uur_Paths : list string; uur_Etag : string }.

Definition UpdateUser (ctx : Ctx) (req : UpdateUserRequest) : Handler PbUser :=
  let u := default PbUser_zero (uur_User req) in
  answer toGRPCError
    (IdentityService.UpdateUser ctx
       (mkUpdateUserInput (uur_UserId req) (uur_Paths req) (uur_Etag req) (ub_Email u)
          (ub_Username u) (ub_DisplayName u) (GetAvatarUrl u) (ub_Locale u) (ub_Timezone u)))
    UserToProto.

Definition DisableUser (ctx : Ctx) (user_id : string) (allow_missing : bool) : Handler Empty :=
  answer toGRPCError (IdentityService.DisableUser ctx user_id allow_missing) empty_reply.
Definition EnableUser (ctx : Ctx) (user_id : string) (allow_missing : bool) : Handler Empty :=
  answer toGRPCError (IdentityService.EnableUser ctx user_id allow_missing) empty_reply.
Definition SoftDeleteUser (ctx : Ctx) (user_id : string) (allow_missing : bool) : Handler Empty :=
  answer toGRPCError (IdentityService.SoftDeleteUser ctx user_id allow_missing) empty_reply.
Definition PermanentlyDeleteUser (ctx : Ctx) (user_id etag : string) : Handler Empty :=
  answer toGRPCError (IdentityService.PermanentlyDeleteUser ctx user_id etag) empty_reply.

End IdentityGrpc.
