(* ===== verification/AppGrpc.v ===== *)
(** * AppGrpc: the gRPC adapter of the applications.

    modules/app/internal/grpc/{errors,mapper,handler}.go. *)
From stdpp Require Import list.
From S2P Require Import Prelude Errors Monad Runtime Kernel World GrpcBase.
From S2P Require Import App AppRepo AppService.
Local Open Scope Z_scope.

(** ** errors.go *)

Definition errorMap : list (sentinel * ErrorMapping) := [
  (app_ErrAppNotFound, mkErrorMapping NotFound ERROR_REASON_APP_NOT_FOUND "app not found");
  (app_ErrAppAlreadyExists, mkErrorMapping AlreadyExists ERROR_REASON_APP_ALREADY_EXISTS "app already exists");
  (app_ErrEtagMismatch, mkErrorMapping Aborted ERROR_REASON_ETAG_MISMATCH "etag mismatch");
  (app_ErrAppDisabled, mkErrorMapping FailedPrecondition ERROR_REASON_APP_DISABLED "app is disabled");
  (app_ErrAppInMaintenance,
     mkErrorMapping FailedPrecondition ERROR_REASON_APP_IN_MAINTENANCE "app is in maintenance")].

(** ** mapper.go *)

Inductive PbAppStatus :=
  | APP_STATUS_UNSPECIFIED | APP_STATUS_ACTIVE | APP_STATUS_DISABLED | APP_STATUS_MAINTENANCE
  | APP_STATUS_OTHER (n : Z).
Inductive PbListAppsOrderBy :=
  | LIST_APPS_ORDER_BY_UNSPECIFIED
  | LIST_APPS_ORDER_BY_CREATED_AT_DESC | LIST_APPS_ORDER_BY_CREATED_AT_ASC
  | LIST_APPS_ORDER_BY_APP_ID_DESC | LIST_APPS_ORDER_BY_APP_ID_ASC
  | LIST_APPS_ORDER_BY_NAME_DESC | LIST_APPS_ORDER_BY_NAME_ASC
  | LIST_APPS_ORDER_BY_OTHER (n : Z).

Definition statusToProto (s : Z) : PbAppStatus :=
  if decide (s = AppStatusActive) then APP_STATUS_ACTIVE
  else if decide (s = AppStatusDisabled) then APP_STATUS_DISABLED
  else if decide (s = AppStatusMaintenance) then APP_STATUS_MAINTENANCE
  else APP_STATUS_UNSPECIFIED.

Definition statusFromProto (s : PbAppStatus) : option Z :=
  match s with
  | APP_STATUS_ACTIVE => Some AppStatusActive
  | APP_STATUS_DISABLED => Some AppStatusDisabled
  | APP_STATUS_MAINTENANCE => Some AppStatusMaintenance
  | _ => None
  end.

Definition orderByFromProto (o : PbListAppsOrderBy) : Z :=
  match o with
  | LIST_APPS_ORDER_BY_CREATED_AT_DESC => OrderByCreatedAtDesc
  | LIST_APPS_ORDER_BY_CREATED_AT_ASC => OrderByCreatedAtAsc
  | LIST_APPS_ORDER_BY_APP_ID_DESC => OrderByAppIDDesc
  | LIST_APPS_ORDER_BY_APP_ID_ASC => OrderByAppIDAsc
  | LIST_APPS_ORDER_BY_NAME_DESC => OrderByNameDesc
  | LIST_APPS_ORDER_BY_NAME_ASC => OrderByNameAsc
  | _ => OrderByUnspecified
  end.

Definition protoStatusesToDomain : list PbAppStatus → res (list Z) := convert_statuses statusFromProto.

Section AppGrpc.
Context `{Runtime} `{Grpc} `{JsonCodec AppService.pageToken}.

Definition toGRPCError (err : error) : Status := MapError err errorMap.

Record PbApp := mkPbApp {
  pa_AppId : string; pa_Name : string; pa_Slug : string; pa_Link : string; pa_Status : PbAppStatus;
  pa_Etag : string; pa_CreatedAt : option Timestamp; pa_UpdatedAt : option Timestamp }.
Definition PbApp_zero : PbApp := mkPbApp "" "" "" "" APP_STATUS_UNSPECIFIED "" None None.

Definition appToProto (a : App) : PbApp :=
  mkPbApp (a_id a) (a_Name a) (a_slug a) (a_Link a) (statusToProto (a_status a)) (a_etag a)
    (Some (timestamppb_New (a_createdAt a))) (Some (timestamppb_New (a_updatedAt a))).

(** ** handler.go *)

Definition CreateApp (ctx : Ctx) (app : option PbApp) : Handler PbApp :=
  let a := default PbApp_zero app in
  answer toGRPCError (AppService.CreateApp ctx (pa_Name a) (pa_Slug a) (pa_Link a)) appToProto.

Definition GetApp (app_id : string) : Handler PbApp :=
  answer toGRPCError (AppService.GetApp app_id) appToProto.

Record ListAppsRequest := mkListAppsRequest {
  lar_PageSize : Z; lar_PageToken : string; lar_Search : string; lar_Statuses : list PbAppStatus;
  lar_OrderBy : PbListAppsOrderBy }.

Definition ListApps (req : ListAppsRequest) : Handler (ListReply PbApp) :=
  check toGRPCError (protoStatusesToDomain (lar_Statuses req)) (λ statuses,
    answer toGRPCError
      (AppService.ListApps (mkListAppsInput (lar_PageSize req) (lar_PageToken req) (lar_Search req)
         statuses (orderByFromProto (lar_OrderBy req))))
      (list_reply appToProto)).

Record UpdateAppRequest := mkUpdateAppRequest {
  uar_AppId : string; uar_App : option PbApp; uar_Paths : list string; uar_Etag : string }.

Definition UpdateApp (ctx : Ctx) (req : UpdateAppRequest) : Handler PbApp :=
  let a := default PbApp_zero (uar_App req) in
  answer toGRPCError
    (AppService.UpdateApp ctx
       (mkUpdateAppInput (uar_AppId req) (uar_Paths req) (uar_Etag req) (pa_Name a) (pa_Link a)))
    appToProto.

Definition DisableApp (ctx : Ctx) (app_id : string) (allow_missing : bool) : Handler Empty :=
  answer toGRPCError (AppService.DisableApp ctx app_id allow_missing) empty_reply.
Definition EnableApp (ctx : Ctx) (app_id : string) (allow_missing : bool) : Handler Empty :=
  answer toGRPCError (AppService.EnableApp ctx app_id allow_missing) empty_reply.
Definition EnterMaintenanceMode (ctx : Ctx) (app_id : string) (allow_missing : bool) : Handler Empty :=
  answer toGRPCError (AppService.EnterMaintenanceMode ctx app_id allow_missing) empty_reply.
Definition ExitMaintenanceMode (ctx : Ctx) (app_id : string) (allow_missing : bool) : Handler Empty :=
  answer toGRPCError (AppService.ExitMaintenanceMode ctx app_id allow_missing) empty_reply.
Definition PermanentlyDeleteApp (ctx : Ctx) (app_id etag : string) : Handler Empty :=
  answer toGRPCError (AppService.PermanentlyDeleteApp ctx app_id etag) empty_reply.

End AppGrpc.
