(* ===== verification/RoleGrpc.v ===== *)
(** * RoleGrpc: the gRPC adapter of the roles.

    modules/role/internal/grpc/{errors,mapper,handler}.go. *)
From stdpp Require Import list.
From S2P Require Import Prelude Errors Monad Runtime Kernel World GrpcBase.
From S2P Require Import Role RoleRepo RoleService.
Local Open Scope Z_scope.

(** ** errors.go *)

Definition errorMap : list (sentinel * ErrorMapping) := [
  (role_ErrRoleNotFound, mkErrorMapping NotFound ERROR_REASON_ROLE_NOT_FOUND "role not found");
  (role_ErrRoleAlreadyExists,
     mkErrorMapping AlreadyExists ERROR_REASON_ROLE_ALREADY_EXISTS "role already exists");
  (role_ErrEtagMismatch, mkErrorMapping Aborted ERROR_REASON_ETAG_MISMATCH "etag mismatch");
  (role_ErrRoleDisabled, mkErrorMapping FailedPrecondition ERROR_REASON_ROLE_DISABLED "role is disabled");
  (role_ErrRoleNotInApp, mkErrorMapping FailedPrecondition ERROR_REASON_ROLE_NOT_IN_APP "role is not in app");
  (role_ErrRoleHasAssignments,
     mkErrorMapping FailedPrecondition ERROR_REASON_UNSPECIFIED "role has assignments")].

(** ** mapper.go *)

Inductive PbRoleStatus :=
  | ROLE_STATUS_UNSPECIFIED | ROLE_STATUS_ACTIVE | ROLE_STATUS_DISABLED | ROLE_STATUS_OTHER (n : Z).
Inductive PbListRolesOrderBy :=
  | LIST_ROLES_ORDER_BY_UNSPECIFIED
  | LIST_ROLES_ORDER_BY_CREATED_AT_DESC | LIST_ROLES_ORDER_BY_CREATED_AT_ASC
  | LIST_ROLES_ORDER_BY_ROLE_ID_DESC | LIST_ROLES_ORDER_BY_ROLE_ID_ASC
  | LIST_ROLES_ORDER_BY_NAME_DESC | LIST_ROLES_ORDER_BY_NAME_ASC
  | LIST_ROLES_ORDER_BY_OTHER (n : Z).

Definition statusToProto (s : Z) : PbRoleStatus :=
  if decide (s = RoleStatusActive) then ROLE_STATUS_ACTIVE
  else if decide (s = RoleStatusDisabled) then ROLE_STATUS_DISABLED
  else ROLE_STATUS_UNSPECIFIED.

Definition statusFromProto (s : PbRoleStatus) : option Z :=
  match s with
  | ROLE_STATUS_ACTIVE => Some RoleStatusActive
  | ROLE_STATUS_DISABLED => Some RoleStatusDisabled
  | _ => None
  end.

Definition orderByFromProto (o : PbListRolesOrderBy) : Z :=
  match o with
  | LIST_ROLES_ORDER_BY_CREATED_AT_DESC => OrderByCreatedAtDesc
  | LIST_ROLES_ORDER_BY_CREATED_AT_ASC => OrderByCreatedAtAsc
  | LIST_ROLES_ORDER_BY_ROLE_ID_DESC => OrderByRoleIDDesc
  | LIST_ROLES_ORDER_BY_ROLE_ID_ASC => OrderByRoleIDAsc
  | LIST_ROLES_ORDER_BY_NAME_DESC => OrderByNameDesc
  | LIST_ROLES_ORDER_BY_NAME_ASC => OrderByNameAsc
  | _ => OrderByUnspecified
  end.

Definition protoStatusesToDomain : list PbRoleStatus → res (list Z) := convert_statuses statusFromProto.

Section RoleGrpc.
Context `{Runtime} `{Grpc} `{JsonCodec RoleService.pageToken}.

Definition toGRPCError (err : error) : Status := MapError err errorMap.

Record PbRole := mkPbRole {
  pr_RoleId : string; pr_AppId : string; pr_Name : string; pr_Description : string;
  pr_Permissions : list string; pr_Status : PbRoleStatus; pr_Etag : string;
  pr_CreatedAt : option Timestamp; pr_UpdatedAt : option Timestamp }.
Definition PbRole_zero : PbRole := mkPbRole "" "" "" "" [] ROLE_STATUS_UNSPECIFIED "" None None.

Definition RoleToProto (r : Role) : PbRole :=
  mkPbRole (o_id r) (o_appID r) (o_Name r) (o_Description r) (o_permissions r)
    (statusToProto (o_status r)) (o_etag r)
    (Some (timestamppb_New (o_createdAt r))) (Some (timestamppb_New (o_updatedAt r))).

(** ** handler.go *)

Definition CreateRole (ctx : Ctx) (parent_app_id : string) (role : option PbRole) : Handler PbRole :=
  let r := default PbRole_zero role in
  answer toGRPCError
    (RoleService.CreateRole ctx parent_app_id (pr_Name r) (pr_Description r) (pr_Permissions r)) RoleToProto.

Definition GetRole (role_id : string) : Handler PbRole :=
  answer toGRPCError (RoleService.GetRole role_id) RoleToProto.

Record ListRolesRequest := mkListRolesRequest {
  lrr_AppId : string; lrr_PageSize : Z; lrr_PageToken : string; lrr_Search : string;
  lrr_Statuses : list PbRoleStatus; lrr_OrderBy : PbListRolesOrderBy }.

Definition ListRoles (req : ListRolesRequest) : Handler (ListReply PbRole) :=
  check toGRPCError (protoStatusesToDomain (lrr_Statuses req)) (λ statuses,
    answer toGRPCError
      (RoleService.ListRoles (mkListRolesInput (lrr_AppId req) (lrr_PageSize req) (lrr_PageToken req)
         (lrr_Search req) statuses (orderByFromProto (lrr_OrderBy req))))
      (list_reply RoleToProto)).

Record UpdateRoleRequest := mkUpdateRoleRequest {
  urr_RoleId : string; urr_Role : option PbRole; urr_Paths : list string; urr_Etag : string }.

Definition UpdateRole (ctx : Ctx) (req : UpdateRoleRequest) : Handler PbRole :=
  let r := default PbRole_zero (urr_Role req) in
  answer toGRPCError
    (RoleService.UpdateRole ctx
       (mkUpdateRoleInput (urr_RoleId req) (urr_Paths req) (urr_Etag req) (pr_Name r)
          (pr_Description r) (pr_Permissions r)))
    RoleToProto.

Definition DisableRole (ctx : Ctx) (role_id : string) (allow_missing : bool) : Handler Empty :=
  answer toGRPCError (RoleService.DisableRole ctx role_id allow_missing) empty_reply.
Definition EnableRole (ctx : Ctx) (role_id : string) (allow_missing : bool) : Handler Empty :=
  answer toGRPCError (RoleService.EnableRole ctx role_id allow_missing) empty_reply.
Definition PermanentlyDeleteRole (ctx : Ctx) (role_id etag : string) : Handler Empty :=
  answer toGRPCError (RoleService.PermanentlyDeleteRole ctx role_id etag) empty_reply.

End RoleGrpc.
