(* ===== verification/ServiceAccountGrpc.v ===== *)
(** * ServiceAccountGrpc: the gRPC adapter of the service accounts.

    modules/serviceaccount/internal/grpc/{errors,mapper,handler}.go. *)
From stdpp Require Import list.
From S2P Require Import Prelude Errors Monad Runtime Kernel World GrpcBase.
From S2P Require Import ServiceAccount ServiceAccountRepo ServiceAccountService.
Local Open Scope Z_scope.

(** ** errors.go *)

Definition errorMap : list (sentinel * ErrorMapping) := [
  (sa_ErrServiceAccountNotFound,
     mkErrorMapping NotFound ERROR_REASON_SERVICE_ACCOUNT_NOT_FOUND "service account not found");
  (sa_ErrServiceAccountAlreadyExists,
     mkErrorMapping AlreadyExists ERROR_REASON_SERVICE_ACCOUNT_ALREADY_EXISTS "service account already exists");
  (sa_ErrServiceAccountDisabled,
     mkErrorMapping FailedPrecondition ERROR_REASON_SERVICE_ACCOUNT_DISABLED "service account is disabled");
  (sa_ErrEtagMismatch, mkErrorMapping Aborted ERROR_REASON_ETAG_MISMATCH "etag mismatch")].

(** ** mapper.go *)

Inductive PbServiceAccountStatus :=
  | SERVICE_ACCOUNT_STATUS_UNSPECIFIED | SERVICE_ACCOUNT_STATUS_ACTIVE
  | SERVICE_ACCOUNT_STATUS_DISABLED | SERVICE_ACCOUNT_STATUS_OTHER (n : Z).
Inductive PbListServiceAccountsOrderBy :=
  | LIST_SERVICE_ACCOUNTS_ORDER_BY_UNSPECIFIED
  | LIST_SERVICE_ACCOUNTS_ORDER_BY_CREATED_AT_DESC | LIST_SERVICE_ACCOUNTS_ORDER_BY_CREATED_AT_ASC
  | LIST_SERVICE_ACCOUNTS_ORDER_BY_SERVICE_ACCOUNT_ID_DESC
  | LIST_SERVICE_ACCOUNTS_ORDER_BY_SERVICE_ACCOUNT_ID_ASC
  | LIST_SERVICE_ACCOUNTS_ORDER_BY_NAME_DESC | LIST_SERVICE_ACCOUNTS_ORDER_BY_NAME_ASC
  | LIST_SERVICE_ACCOUNTS_ORDER_BY_LAST_AUTHENTICATED_AT_DESC
  | LIST_SERVICE_ACCOUNTS_ORDER_BY_LAST_AUTHENTICATED_AT_ASC
  | LIST_SERVICE_ACCOUNTS_ORDER_BY_OTHER (n : Z).

Definition statusToProto (s : Z) : PbServiceAccountStatus :=
  if decide (s = ServiceAccountActive) then SERVICE_ACCOUNT_STATUS_ACTIVE
  else if decide (s = ServiceAccountDisabled) then SERVICE_ACCOUNT_STATUS_DISABLED
  else SERVICE_ACCOUNT_STATUS_UNSPECIFIED.

Definition statusFromProto (s : PbServiceAccountStatus) : option Z :=
  match s with
  | SERVICE_ACCOUNT_STATUS_ACTIVE => Some ServiceAccountActive
  | SERVICE_ACCOUNT_STATUS_DISABLED => Some ServiceAccountDisabled
  | _ => None
  end.

Definition orderByFromProto (o : PbListServiceAccountsOrderBy) : Z :=
  match o with
  | LIST_SERVICE_ACCOUNTS_ORDER_BY_CREATED_AT_DESC => OrderByCreatedAtDesc
  | LIST_SERVICE_ACCOUNTS_ORDER_BY_CREATED_AT_ASC => OrderByCreatedAtAsc
  | LIST_SERVICE_ACCOUNTS_ORDER_BY_SERVICE_ACCOUNT_ID_DESC => OrderByServiceAccountIDDesc
  | LIST_SERVICE_ACCOUNTS_ORDER_BY_SERVICE_ACCOUNT_ID_ASC => OrderByServiceAccountIDAsc
  | LIST_SERVICE_ACCOUNTS_ORDER_BY_NAME_DESC => OrderByNameDesc
  | LIST_SERVICE_ACCOUNTS_ORDER_BY_NAME_ASC => OrderByNameAsc
  | LIST_SERVICE_ACCOUNTS_ORDER_BY_LAST_AUTHENTICATED_AT_DESC => OrderByLastAuthenticatedAtDesc
  | LIST_SERVICE_ACCOUNTS_ORDER_BY_LAST_AUTHENTICATED_AT_ASC => OrderByLastAuthenticatedAtAsc
  | _ => OrderByUnspecified
  end.

Definition protoStatusesToDomain : list PbServiceAccountStatus → res (list Z) :=
  convert_statuses statusFromProto.

Section ServiceAccountGrpc.
Context `{Runtime} `{Grpc} `{JsonCodec ServiceAccountService.pageToken}.

Definition toGRPCError (err : error) : Status := MapError err errorMap.

Record PbServiceAccount := mkPbServiceAccount {
  pv_ServiceAccountId : string; pv_Name : string; pv_Description : string;
  pv_Status : PbServiceAccountStatus; pv_Etag : string; pv_CreatedAt : option Timestamp;
  pv_UpdatedAt : option Timestamp; pv_LastAuthenticatedAt : option Timestamp }.
Definition PbServiceAccount_zero : PbServiceAccount :=
  mkPbServiceAccount "" "" "" SERVICE_ACCOUNT_STATUS_UNSPECIFIED "" None None None.

Definition saToProto (s : ServiceAccount) : PbServiceAccount :=
  mkPbServiceAccount (v_id s) (v_Name s) (v_Description s) (statusToProto (v_status s)) (v_etag s)
    (Some (timestamppb_New (v_createdAt s))) (Some (timestamppb_New (v_updatedAt s)))
    (if IsZero (v_LastAuthenticatedAt s) then None else Some (timestamppb_New (v_LastAuthenticatedAt s))).

Record PbCredentials := mkPbCredentials {
  pc_Account : PbServiceAccount; pc_ClientSecret : string; pc_IssuedAt : option Timestamp }.

(** [issuedAt] is in Unix seconds. *)
Definition credsToProto (account : ServiceAccount) (plaintext : string) (issuedAt : Z) : PbCredentials :=
  mkPbCredentials (saToProto account) plaintext
    (if decide (issuedAt ≠ 0) then Some (timestamppb_New (v_updatedAt account)) else None).

(** ** handler.go *)

Definition creds_reply (out : CredentialsOutput) : PbCredentials :=
  credsToProto (co_Account out) (co_ClientSecret out) (NumericDate (co_IssuedAt out)).

Definition CreateServiceAccount (ctx : Ctx) (account : option PbServiceAccount) : Handler PbCredentials :=
  let a := default PbServiceAccount_zero account in
  answer toGRPCError (ServiceAccountService.CreateServiceAccount ctx (pv_Name a) (pv_Description a)) creds_reply.

Definition GetServiceAccount (service_account_id : string) : Handler PbServiceAccount :=
  answer toGRPCError (ServiceAccountService.GetServiceAccount service_account_id) saToProto.

Record ListServiceAccountsRequest := mkListServiceAccountsRequest {
  lsr_PageSize : Z; lsr_PageToken : string; lsr_Search : string;
  lsr_Statuses : list PbServiceAccountStatus; lsr_OrderBy : PbListServiceAccountsOrderBy }.

Definition ListServiceAccounts (req : ListServiceAccountsRequest) : Handler (ListReply PbServiceAccount) :=
  check toGRPCError (protoStatusesToDomain (lsr_Statuses req)) (λ statuses,
    answer toGRPCError
      (ServiceAccountService.ListServiceAccounts
         (mkListServiceAccountsInput (lsr_PageSize req) (lsr_PageToken req) (lsr_Search req) statuses
            (orderByFromProto (lsr_OrderBy req))))
      (list_reply saToProto)).

Record UpdateServiceAccountRequest := mkUpdateServiceAccountRequest {
  usr_ServiceAccountId : string; usr_ServiceAccount : option PbServiceAccount;
  usr_Paths : list string; usr_Etag : string }.

Definition UpdateServiceAccount (ctx : Ctx) (req : UpdateServiceAccountRequest) : Handler PbServiceAccount :=
  let a := default PbServiceAccount_zero (usr_ServiceAccount req) in
  answer toGRPCError
    (ServiceAccountService.UpdateServiceAccount ctx
       (mkUpdateServiceAccountInput (usr_ServiceAccountId req) (usr_Paths req) (usr_Etag req) (pv_Name a)
          (pv_Description a)))
    saToProto.

Definition RotateCredentials (ctx : Ctx) (service_account_id etag : string) : Handler PbCredentials :=
  answer toGRPCError (ServiceAccountService.RotateCredentials ctx service_account_id etag) creds_reply.

Definition DisableServiceAccount (ctx : Ctx) (id : string) (allow_missing : bool) : Handler Empty :=
  answer toGRPCError (ServiceAccountService.DisableServiceAccount ctx id allow_missing) empty_reply.
Definition EnableServiceAccount (ctx : Ctx) (id : string) (allow_missing : bool) : Handler Empty :=
  answer toGRPCError (ServiceAccountService.EnableServiceAccount ctx id allow_missing) empty_reply.
Definition PermanentlyDeleteServiceAccount (ctx : Ctx) (id etag : string) : Handler Empty :=
  answer toGRPCError (ServiceAccountService.PermanentlyDeleteServiceAccount ctx id etag) empty_reply.

End ServiceAccountGrpc.
