(* ===== verification/AccessGrpc.v ===== *)
(** * AccessGrpc: the gRPC adapter of role assignments and permission checks.

    modules/access/internal/grpc/{errors,mapper,handler}.go. *)
From stdpp Require Import list.
From S2P Require Import Prelude Errors Monad Runtime Kernel World GrpcBase RoleGrpc.
From S2P Require Import Access AccessRepo AccessService.
Local Open Scope Z_scope.

(** ** errors.go *)

Definition errorMap : list (sentinel * ErrorMapping) := [
  (access_ErrUserNotFound, mkErrorMapping NotFound ERROR_REASON_USER_NOT_FOUND "user not found");
  (access_ErrRoleNotFound, mkErrorMapping NotFound ERROR_REASON_ROLE_NOT_FOUND "role not found");
  (access_ErrAppNotFound, mkErrorMapping NotFound ERROR_REASON_APP_NOT_FOUND "app not found");
  (access_ErrRoleDisabled, mkErrorMapping FailedPrecondition ERROR_REASON_ROLE_DISABLED "role is disabled");
  (access_ErrRoleNotInApp,
     mkErrorMapping FailedPrecondition ERROR_REASON_ROLE_NOT_IN_APP "role does not belong to app");
  (access_ErrUserNotEligible,
     mkErrorMapping FailedPrecondition ERROR_REASON_USER_BLOCKED "user is not eligible for assignments")].

(** ** mapper.go *)

Inductive PbListUserRolesOrderBy :=
  | LIST_USER_ROLES_ORDER_BY_UNSPECIFIED
  | LIST_USER_ROLES_ORDER_BY_GRANTED_AT_DESC | LIST_USER_ROLES_ORDER_BY_GRANTED_AT_ASC
  | LIST_USER_ROLES_ORDER_BY_ROLE_ID_DESC | LIST_USER_ROLES_ORDER_BY_ROLE_ID_ASC
  | LIST_USER_ROLES_ORDER_BY_OTHER (n : Z).

Definition orderByFromProto (o : PbListUserRolesOrderBy) : Z :=
  match o with
  | LIST_USER_ROLES_ORDER_BY_GRANTED_AT_DESC => OrderByGrantedAtDesc
  | LIST_USER_ROLES_ORDER_BY_GRANTED_AT_ASC => OrderByGrantedAtAsc
  | LIST_USER_ROLES_ORDER_BY_ROLE_ID_DESC => OrderByRoleIDDesc
  | LIST_USER_ROLES_ORDER_BY_ROLE_ID_ASC => OrderByRoleIDAsc
  | _ => OrderByUnspecified
  end.

(** ** handler.go *)

(** The caller's subject id, empty for an anonymous request. *)
Definition actorID (ctx : Ctx) : string :=
  match From_ctx ctx with Some a => a_ID a | None => "" end.

Section AccessGrpc.
Context `{Runtime} `{Grpc} `{JsonCodec AccessService.pageToken}.

Definition toGRPCError (err : error) : Status := MapError err errorMap.

Record PbRoleAssignment := mkPbRoleAssignment {
  pg_UserId : string; pg_RoleId : string; pg_AppId : string; pg_GrantedByUserId : string;
  pg_GrantedAt : Timestamp }.

Definition assignmentToProto (a : RoleAssignment) : PbRoleAssignment :=
  mkPbRoleAssignment (ra_UserID a) (ra_RoleID a) (ra_AppID a) (ra_GrantedByUserID a)
    (timestamppb_New (ra_GrantedAt a)).

Definition HasRoleInApp (user_id role_id : string) : Handler bool :=
  answer toGRPCError (AccessService.HasRoleInApp user_id role_id) (λ has, has).

Record ListUserRolesRequest := mkListUserRolesRequest {
  lul_UserId : string; lul_AppId : string; lul_PageSize : Z; lul_PageToken : string;
  lul_OrderBy : PbListUserRolesOrderBy }.

Definition ListUserRoles (req : ListUserRolesRequest) : Handler (ListReply PbRole) :=
  answer toGRPCError
    (AccessService.ListUserRoles (mkListUserRolesInput (lul_UserId req) (lul_AppId req)
       (lul_PageSize req) (lul_PageToken req) (orderByFromProto (lul_OrderBy req))))
    (list_reply RoleToProto).

Definition GrantRoleToUser (ctx : Ctx) (user_id role_id : string) : Handler PbRoleAssignment :=
  answer toGRPCError (AccessService.GrantRoleToUser ctx user_id role_id (actorID ctx))
    (λ out, assignmentToProto (fst out)).

Definition RemoveRoleFromUser (ctx : Ctx) (user_id role_id : string) : Handler Empty :=
  answer toGRPCError (AccessService.RemoveRoleFromUser ctx user_id role_id) empty_reply.

Definition BulkGrantRoles (ctx : Ctx) (user_id app_id : string) (role_ids : list string) :
    Handler (list PbRoleAssignment * list bool) :=
  answer toGRPCError (AccessService.BulkGrantRoles ctx user_id app_id role_ids (actorID ctx))
    (λ out, (assignmentToProto <$> fst out, snd out)).

Definition BulkRemoveRoles (ctx : Ctx) (user_id app_id : string) (role_ids : list string) : Handler Empty :=
  answer toGRPCError (AccessService.BulkRemoveRoles ctx user_id app_id role_ids) empty_reply.

Record PbCheckPermissionResponse := mkPbCheckPermissionResponse {
  cpr_Allowed : bool; cpr_MatchedRoleIds : list string }.

Definition CheckPermission (user_id app_id permission : string) : Handler PbCheckPermissionResponse :=
  answer toGRPCError (AccessService.CheckPermission user_id app_id permission)
    (λ out, mkPbCheckPermissionResponse (cp_Allowed out) (cp_MatchedRoleIDs out)).

Definition BatchCheckPermission (user_id app_id : string) (permissions : list string) : Handler (list bool) :=
  answer toGRPCError (AccessService.BatchCheckPermission user_id app_id permissions) (λ allowed, allowed).

End AccessGrpc.
