(* ===== verification/AuthGrpc.v ===== *)
(** * AuthGrpc: the gRPC adapter of authentication.

    modules/auth/internal/grpc/{errors,mapper,handler}.go. *)
From stdpp Require Import list.
From S2P Require Import Prelude Errors Monad Runtime Kernel World GrpcBase Interceptor IdentityGrpc.
From S2P Require Import Identity Session AuthBase AuthLogin AuthRefresh AuthPassword AuthSessions AuthServiceAccount.
Local Open Scope Z_scope.

Section AuthGrpc.
Context `{Runtime} (cfg : AuthConfig) `{Grpc} `{JsonCodec sessionsPageToken}.

(** ** errors.go *)

Definition toGRPCError (err : error) : Status :=
  match errors_as_validation err with
  | Some (field, reason) => StatusWithValidation field reason
  | None =>
      let has := errors_is err in
      if has auth_ErrInvalidCredentials then
        StatusWithReason Unauthenticated ERROR_REASON_INVALID_CREDENTIALS "invalid credentials"
      else if has auth_ErrInvalidToken || has auth_ErrRefreshTokenReused then
        StatusWithReason Unauthenticated ERROR_REASON_INVALID_TOKEN "invalid token"
      else if has auth_ErrUserBlocked then
        StatusWithReason FailedPrecondition ERROR_REASON_USER_BLOCKED "user is blocked"
      else if has auth_ErrUserDeleted then
        StatusWithReason FailedPrecondition ERROR_REASON_USER_DELETED "user is deleted"
      else if has recoverycode_ErrRecoveryCodeInvalid then
        StatusWithReason Unauthenticated ERROR_REASON_RECOVERY_CODE_INVALID "recovery code invalid"
      else if has auth_ErrPasswordMismatch then
        StatusWithReason Unauthenticated ERROR_REASON_PASSWORD_MISMATCH "password mismatch"
      else if has identity_ErrUserAlreadyExists then
        StatusWithReason AlreadyExists ERROR_REASON_USER_ALREADY_EXISTS "user already exists"
      else if has identity_ErrUserNotFound then
        StatusWithReason NotFound ERROR_REASON_USER_NOT_FOUND "user not found"
      else if has identity_ErrUserDeleted then
        StatusWithReason FailedPrecondition ERROR_REASON_USER_DELETED "user is deleted"
      else if has session_ErrSessionNotFound then
        StatusWithReason NotFound ERROR_REASON_SESSION_NOT_FOUND "session not found"
      else if has session_ErrSessionNotOwned then
        StatusWithReason PermissionDenied ERROR_REASON_SESSION_NOT_OWNED "session not owned by caller"
      else if has app_ErrAppNotFound then
        StatusWithReason NotFound ERROR_REASON_APP_NOT_FOUND "app not found"
      else if has app_ErrAppDisabled then
        StatusWithReason FailedPrecondition ERROR_REASON_APP_DISABLED "app is disabled"
      else if has app_ErrAppInMaintenance then
        StatusWithReason FailedPrecondition ERROR_REASON_APP_IN_MAINTENANCE "app is in maintenance"
      else if has sa_ErrServiceAccountNotFound || has sa_ErrServiceAccountInvalidCredentials then
        StatusWithReason Unauthenticated ERROR_REASON_INVALID_CLIENT_CREDENTIALS "invalid client credentials"
      else if has sa_ErrServiceAccountDisabled then
        StatusWithReason FailedPrecondition ERROR_REASON_SERVICE_ACCOUNT_DISABLED "service account is disabled"
      else internal_error
  end.

(** ** mapper.go *)

(** The two oneofs: the getter of the branch that is not set yields "". *)
Inductive app_target := AppTarget_AppId (id : string) | AppTarget_AppSlug (slug : string) | AppTarget_None.
Definition GetAppId (t : app_target) : string := match t with AppTarget_AppId id => id | _ => "" end.
Definition GetAppSlug (t : app_target) : string := match t with AppTarget_AppSlug s => s | _ => "" end.
Record appTarget := mkAppTarget { ap_AppID : string; ap_AppSlug : string }.
Definition appTargetFromProto (t : app_target) : appTarget := mkAppTarget (GetAppId t) (GetAppSlug t).

Inductive identifier_oneof := Identifier_Email (e : string) | Identifier_Username (u : string) | Identifier_None.
Definition GetEmail (i : identifier_oneof) : string := match i with Identifier_Email e => e | _ => "" end.
Definition GetUsername (i : identifier_oneof) : string := match i with Identifier_Username u => u | _ => "" end.
Record identifier := mkIdentifier { id_Email : string; id_Username : string }.
Definition identifierFromProto (i : identifier_oneof) : identifier := mkIdentifier (GetEmail i) (GetUsername i).

Record DeviceInfo := mkDeviceInfo { dv_UserAgent : string; dv_DeviceName : string; dv_IpAddress : string }.
Definition deviceFromProto (d : option DeviceInfo) : string * string :=
  match d with None => ("", "") | Some d => (dv_UserAgent d, dv_DeviceName d) end.

Record PbAuthTokens := mkPbAuthTokens {
  tk_AccessToken : string; tk_RefreshToken : string; tk_SubjectId : string; tk_SessionId : string;
  tk_AccessTokenExpiresAt : option Timestamp; tk_RefreshTokenExpiresAt : option Timestamp }.
Definition authTokensToProto (accessToken refreshToken subjectID sessionID : string)
    (accessExpiresAt refreshExpiresAt : Time) : PbAuthTokens :=
  mkPbAuthTokens accessToken refreshToken subjectID sessionID
    (Some (timestamppb_New accessExpiresAt)) (Some (timestamppb_New refreshExpiresAt)).
Definition tokens_reply (out : AuthTokens) : PbAuthTokens :=
  authTokensToProto (at_AccessToken out) (at_RefreshToken out) (at_SubjectID out) (at_SessionID out)
    (at_AccessExpiresAt out) (at_RefreshExpiresAt out).

Record PbSessionInfo := mkPbSessionInfo {
  si_SessionId : string; si_CreatedAt : Timestamp; si_LastSeenAt : Timestamp; si_ExpiresAt : Timestamp;
  si_Device : DeviceInfo; si_IsCurrent : bool }.
Definition sessionInfoToProto (callerSessionID : string) (s : Session) : PbSessionInfo :=
  mkPbSessionInfo (s_id s) (timestamppb_New (s_issuedAt s)) (timestamppb_New (s_lastSeenAt s))
    (timestamppb_New (s_expiresAt s)) (mkDeviceInfo (s_UserAgent s) "" (s_IpAddress s))
    (bool_decide (s_id s = callerSessionID)).

Inductive PbTokenSubjectType :=
  | TOKEN_SUBJECT_TYPE_UNSPECIFIED | TOKEN_SUBJECT_TYPE_USER | TOKEN_SUBJECT_TYPE_SERVICE_ACCOUNT.
Definition tokenSubjectTypeToProto (t : string) : PbTokenSubjectType :=
  if decide (t = jwt_SubjectTypeUser) then TOKEN_SUBJECT_TYPE_USER
  else if decide (t = jwt_SubjectTypeServiceAccount) then TOKEN_SUBJECT_TYPE_SERVICE_ACCOUNT
  else TOKEN_SUBJECT_TYPE_UNSPECIFIED.

Record PbRecoveryCodes := mkPbRecoveryCodes { rc_Codes : list string; rc_GeneratedAt : Timestamp }.
Definition recoveryCodesToProto (codes : list string) (generatedAt : Time) : PbRecoveryCodes :=
  mkPbRecoveryCodes codes (timestamppb_New generatedAt).

(** ** handler.go: public RPCs *)

Record RegisterRequest := mkRegisterRequest {
  rq_Email : string; rq_Username : string; rq_DisplayName : string; rq_Password : string }.
Definition Register (ctx : Ctx) (req : RegisterRequest) : Handler PbUser :=
  answer toGRPCError
    (AuthLogin.Register cfg (mkRegisterInput (rq_Email req) (rq_Username req) (rq_DisplayName req) "" "" ""
       (rq_Password req) (PeerIP ctx) (UserAgentFromCtx ctx)))
    UserToProto.

Record LoginRequest := mkLoginRequest {
  lq_AppTarget : app_target; lq_Identifier : identifier_oneof; lq_Password : string;
  lq_Device : option DeviceInfo }.
Definition Login (ctx : Ctx) (req : LoginRequest) : Handler PbAuthTokens :=
  let app := appTargetFromProto (lq_AppTarget req) in
  let id := identifierFromProto (lq_Identifier req) in
  let '(userAgent, deviceName) := deviceFromProto (lq_Device req) in
  answer toGRPCError
    (AuthLogin.Login cfg (mkLoginInput (ap_AppID app) (id_Email id) (id_Username id) (lq_Password req)
       userAgent (PeerIP ctx)))
    (λ out : AuthTokens * User,
      authTokensToProto (at_AccessToken (fst out)) (at_RefreshToken (fst out)) (u_id (snd out))
        (at_SessionID (fst out)) (at_AccessExpiresAt (fst out)) (at_RefreshExpiresAt (fst out))).

Definition Refresh (refresh_token : string) : Handler PbAuthTokens :=
  answer toGRPCError (AuthRefresh.Refresh cfg refresh_token) tokens_reply.

Record ResetRequest := mkResetRequest {
  rr_AppTarget : app_target; rr_Identifier : identifier_oneof; rr_RecoveryCode : string;
  rr_NewPassword : string }.
Definition ResetPasswordWithRecoveryCode (ctx : Ctx) (req : ResetRequest) : Handler PbAuthTokens :=
  let app := appTargetFromProto (rr_AppTarget req) in
  let id := identifierFromProto (rr_Identifier req) in
  answer toGRPCError
    (AuthPassword.ResetPasswordWithRecoveryCode cfg
       (mkResetInput (id_Email id) (id_Username id) (ap_AppID app) (ap_AppSlug app) (rr_RecoveryCode req)
          (rr_NewPassword req) "" (PeerIP ctx)))
    tokens_reply.

Record PbValidateTokenResponse := mkPbValidateTokenResponse {
  vt_SubjectId : string; vt_SubjectType : PbTokenSubjectType; vt_SessionId : string;
  vt_ExpiresAt : Timestamp; vt_AppId : string }.
Definition ValidateToken (access_token : string) : Handler PbValidateTokenResponse :=
  answer toGRPCError (AuthLogin.Validate cfg access_token)
    (λ out, mkPbValidateTokenResponse (vo_SubjectID out) (tokenSubjectTypeToProto (vo_SubjectType out))
       (vo_SessionID out) (timestamppb_New (vo_ExpiresAt out)) (vo_AppID out)).

Record ServiceAccountAuthRequest := mkServiceAccountAuthRequest {
  sr_ServiceAccountId : string; sr_ClientSecret : string; sr_AppTarget : app_target }.
Definition AuthenticateServiceAccount (req : ServiceAccountAuthRequest) : Handler PbAuthTokens :=
  let app := appTargetFromProto (sr_AppTarget req) in
  answer toGRPCError
    (AuthServiceAccount.AuthenticateServiceAccount cfg
       (mkAuthenticateServiceAccountInput (sr_ServiceAccountId req) (sr_ClientSecret req) (ap_AppID app)
          (ap_AppSlug app) "" ""))
    (λ out, mkPbAuthTokens (ao_AccessToken out) "" (ao_SubjectID out) ""
       (Some (timestamppb_New (ao_AccessExpiresAt out))) None).

(** ** handler.go: private RPCs *)

Definition unauthenticated : Status := mkStatus Unauthenticated "unauthenticated" [].

(** [a, ok := actor.From(ctx); if !ok || !a.IsUser() { return Unauthenticated }]. *)
Definition as_user {A} (ctx : Ctx) (k : Actor → Handler A) : Handler A :=
  match From_ctx ctx with
  | Some a => if IsUser a then k a else refuse unauthenticated
  | None => refuse unauthenticated
  end.

Definition Logout (ctx : Ctx) : Handler Empty :=
  match From_ctx ctx with
  | Some a =>
      if decide (a_SessionID a = "") then refuse unauthenticated
      else answer toGRPCError (AuthLogin.Logout ctx (a_SessionID a)) empty_reply
  | None => refuse unauthenticated
  end.

Definition ChangePassword (ctx : Ctx) (old_password new_password : string) : Handler PbAuthTokens :=
  as_user ctx (λ a,
    answer toGRPCError
      (AuthPassword.ChangePassword cfg ctx
         (mkChangePasswordInput (a_ID a) old_password new_password "" (PeerIP ctx)))
      tokens_reply).

Record PbListSessionsResponse := mkPbListSessionsResponse {
  lsp_Sessions : list PbSessionInfo; lsp_NextPageToken : string; lsp_TotalSize : Z }.

(** [int32(n)]. *)
Definition to_int32 (n : Z) : Z := (n + 2147483648) mod 4294967296 - 2147483648.

Definition ListSessions (ctx : Ctx) (page_size : Z) (page_token : string) : Handler PbListSessionsResponse :=
  as_user ctx (λ a,
    answer toGRPCError (AuthSessions.ListSessions (a_ID a) page_size page_token)
      (λ out, mkPbListSessionsResponse (sessionInfoToProto (a_SessionID a) <$> ls_Sessions out)
         (ls_NextPageToken out) (to_int32 (ls_TotalSize out)))).

Definition RevokeSession (ctx : Ctx) (session_id : string) : Handler Empty :=
  as_user ctx (λ a,
    answer toGRPCError (AuthSessions.RevokeSession ctx (a_ID a) session_id) empty_reply).

Definition RevokeToken (ctx : Ctx) (refresh_token : string) : Handler Empty :=
  as_user ctx (λ a,
    answer toGRPCError (AuthSessions.RevokeToken ctx (a_ID a) refresh_token) empty_reply).

Definition RevokeAllSessions (ctx : Ctx) (except_current : bool) : Handler Empty :=
  as_user ctx (λ a,
    answer toGRPCError (AuthSessions.RevokeAllSessions ctx (a_ID a) (a_SessionID a) except_current) empty_reply).

(** [fuel] bounds the draws of the code generator (CodeFacts). *)
Definition GenerateRecoveryCodes (fuel : nat) (ctx : Ctx) : Handler (option PbRecoveryCodes) :=
  as_user ctx (λ a,
    answer toGRPCError (AuthPassword.GenerateRecoveryCodes fuel ctx (a_ID a))
      (fmap (λ out : list string * Time, recoveryCodesToProto (fst out) (snd out)))).

End AuthGrpc.
