(* ===== verification/AuditGrpc.v ===== *)
(** * AuditGrpc: the gRPC adapter of the audit log.

    modules/audit/internal/grpc/{errors,mapper,handler}.go. The wire enums are
    32-bit integers, the domain's are bytes: the conversions [uint8(...)] of
    the source keep the low byte. *)
From stdpp Require Import list gmap.
From S2P Require Import Prelude Errors Monad Runtime Kernel World GrpcBase.
From S2P Require Import AuditDomain AuditRepo AuditService.
Local Open Scope Z_scope.

(** ** errors.go *)

Definition errorMap : list (sentinel * ErrorMapping) := [
  (audit_ErrAuditNotFound, mkErrorMapping NotFound ERROR_REASON_UNSPECIFIED "audit event not found");
  (audit_ErrPermissionDenied,
     mkErrorMapping PermissionDenied ERROR_REASON_PERMISSION_DENIED "caller lacks AUDIT_READ")].

(** ** mapper.go *)

(** Go's [uint8(n)]. *)
Definition uint8 (n : Z) : Z := n mod 256.

Section AuditGrpc.
Context `{Runtime} `{Grpc} `{JsonCodec AuditService.pageToken} `{AuditAuthorizer}.

Definition toGRPCError (err : error) : Status := MapError err errorMap.

Record PbActor := mkPbActor { ac_Type : Z; ac_Id : string; ac_IpAddress : string; ac_UserAgent : string }.
Record PbSubject := mkPbSubject { sb_Type : Z; sb_Id : string; sb_AppId : string }.
Record PbAuditEvent := mkPbAuditEvent {
  ev_EventId : string; ev_OccurredAt : Timestamp; ev_EventType : string; ev_Actor : PbActor;
  ev_Subject : PbSubject; ev_Outcome : Z; ev_Reason : string; ev_Metadata : gmap string string }.

Definition actorToProto (a : Audit) : PbActor :=
  mkPbActor (uint8 (au_actorType a)) (au_actorID a) (default "" (au_ipAddress a)) (au_userAgent a).
Definition subjectToProto (a : Audit) : PbSubject :=
  mkPbSubject (uint8 (au_subjectType a)) (au_subjectID a) (au_appID a).
Definition outcomeToProto (o : Z) : Z := uint8 o.

Definition auditToProto (a : Audit) : PbAuditEvent :=
  mkPbAuditEvent (au_id a) (timestamppb_New (au_occurredAt a)) (EventType_String (au_eventType a))
    (actorToProto a) (subjectToProto a) (outcomeToProto (au_outcome a)) (au_reason a) (au_metadata a).

Record PbAuditFilters := mkPbAuditFilters {
  pf_FromTime : option Timestamp; pf_ToTime : option Timestamp; pf_EventTypes : list string;
  pf_ActorType : Z; pf_ActorId : string; pf_ActorIp : string; pf_SubjectType : Z;
  pf_SubjectId : string; pf_AppId : string; pf_Outcomes : list Z }.

Definition valid_time (ts : option Timestamp) : option Time :=
  match ts with
  | Some ts => if ts_IsValid ts then Some (ts_AsTime ts) else None
  | None => None
  end.

Definition filtersFromProto (f : option PbAuditFilters) : AuditFiltersInput :=
  match f with
  | None => mkAuditFiltersInput None None [] 0 "" "" 0 "" "" []
  | Some f =>
      mkAuditFiltersInput (valid_time (pf_FromTime f)) (valid_time (pf_ToTime f)) (pf_EventTypes f)
        (uint8 (pf_ActorType f)) (pf_ActorId f) (pf_ActorIp f) (uint8 (pf_SubjectType f))
        (pf_SubjectId f) (pf_AppId f) (uint8 <$> pf_Outcomes f)
  end.

(** ** handler.go *)

Definition GetAuditEvent (ctx : Ctx) (event_id : string) : Handler PbAuditEvent :=
  answer toGRPCError (AuditService.GetAuditEvent ctx event_id) auditToProto.

Definition ListAuditEvents (ctx : Ctx) (page_size : Z) (page_token : string)
    (filters : option PbAuditFilters) : Handler (ListReply PbAuditEvent) :=
  answer toGRPCError (AuditService.ListAuditEvents ctx page_size page_token (filtersFromProto filters))
    (list_reply auditToProto).

End AuditGrpc.
