(* ===== verification/GrpcFacts.v ===== *)
(** * GrpcFacts: what the gRPC adapters make of errors and enums.

    The error tables are read in any order with the same result, and only
    texts of the tables and of validation errors reach a client; the switch of
    the auth module is such a table. The enums of the wire and of the domain
    translate back and forth. *)
From stdpp Require Import list.
From S2P Require Import Prelude Errors Monad Runtime Kernel World GrpcBase.
From S2P Require Import Identity App Role ServiceAccount.
From S2P Require IdentityGrpc AppGrpc RoleGrpc ServiceAccountGrpc AccessGrpc AuthGrpc AuditGrpc.
Local Open Scope Z_scope.

(** A transport at which the witnesses evaluate. *)
Module ToyGrpc.
#[export] Instance grpc : Grpc := {|
  st_WithDetails s ds :=
    if decide (st_Code s = OK) then None else Some (mkStatus (st_Code s) (st_Message s) (st_Details s ++ ds));
  Timestamp := Z; timestamppb_New t := t; ts_IsValid _ := true; ts_AsTime t := t |}.
#[export] Instance laws : @GrpcLaws grpc.
Proof. split; [|done]. intros c m ds Hc. simpl. by rewrite decide_False. Qed.
End ToyGrpc.

Section MapError.
Context `{Grpc}.
Implicit Types (m : list (sentinel * ErrorMapping)) (err : error).

(** The status of one entry. *)
Definition entry_status (em : ErrorMapping) : Status :=
  if decide (em_Reason em = ERROR_REASON_UNSPECIFIED) then mkStatus (em_Code em) (em_Message em) []
  else StatusWithReason (em_Code em) (em_Reason em) (em_Message em).

Lemma map_entries_cons err s em m :
  map_entries err ((s, em) :: m) = if errors_is err s then entry_status em else map_entries err m.
Proof. done. Qed.

Lemma map_entries_hit err s em m :
  NoDup m.*1 → (s, em) ∈ m → errors_is err s = true → map_entries err m = entry_status em.
Proof.
  intros Hnd Hin Hs. induction m as [|[s' em'] m IH]; [by apply elem_of_nil in Hin|].
  rewrite map_entries_cons. apply NoDup_cons in Hnd as [Hs' Hnd].
  apply elem_of_cons in Hin as [[= <- <-]|Hin]; [by rewrite Hs|].
  destruct (errors_is err s') eqn:E; [|by apply IH].
  rewrite (errors_is_unique err s' s) in Hs' by done. destruct Hs'. apply list_elem_of_fmap. by exists (s, em).
Qed.

Lemma map_entries_miss err m :
  (∀ s em, (s, em) ∈ m → errors_is err s = false) → map_entries err m = internal_error.
Proof.
  induction m as [|[s em] m IH]; intros Hm; [done|]. rewrite map_entries_cons.
  rewrite (Hm s em) by set_solver. apply IH. set_solver.
Qed.

Lemma map_entries_cases err m :
  (∃ s em, (s, em) ∈ m ∧ errors_is err s = true) ∨ (∀ s em, (s, em) ∈ m → errors_is err s = false).
Proof.
  induction m as [|[s em] m IH]; [right; set_solver|].
  destruct (errors_is err s) eqn:E; [left; set_solver|].
  destruct IH as [(s' & em' & ? & ?)|IH]; [left; set_solver|right].
  intros s' em' [[= -> ->]|?]%elem_of_cons; eauto.
Qed.

(** The order in which a Go map is ranged over does not matter. *)
Lemma MapError_order err m m' : NoDup m.*1 → m ≡ₚ m' → MapError err m = MapError err m'.
Proof.
  intros Hnd Hp. unfold MapError. destruct (errors_as_validation err) as [[f r]|]; [done|].
  assert (Hnd' : NoDup m'.*1) by by rewrite <- Hp.
  destruct (map_entries_cases err m) as [(s & em & Hin & Hs)|Hm].
  - rewrite (map_entries_hit err s em m), (map_entries_hit err s em m') by (rewrite <- ?Hp; done). done.
  - rewrite (map_entries_miss err m), (map_entries_miss err m'); [done| |done].
    intros s em. rewrite <- Hp. apply Hm.
Qed.

(** C36. A validation error becomes InvalidArgument with its field; an error
    that is one of the table's sentinels, under any wrapping, becomes the
    entry's status; every other error becomes the one internal error, which
    tells nothing. The order in which the Go map is ranged over does not
    matter. *)
Theorem MapError_spec err m m' : NoDup m.*1 → m ≡ₚ m' →
  MapError err m' = MapError err m ∧
  (∀ f r, errors_as_validation err = Some (f, r) → MapError err m' = StatusWithValidation f r) ∧
  (∀ s em, (s, em) ∈ m → errors_is err s = true → MapError err m' = entry_status em) ∧
  (errors_as_validation err = None → (∀ s em, (s, em) ∈ m → errors_is err s = false) →
   MapError err m' = internal_error).
Proof.
  intros Hnd Hp. rewrite <- (MapError_order err m m' Hnd Hp). unfold MapError. split_and!; [done|..].
  - by intros f r ->.
  - intros s em Hin Hs. destruct (errors_as_validation err) as [p|] eqn:E; [|by eapply map_entries_hit].
    by rewrite (validation_not_sentinel err s p E) in Hs.
  - intros -> Hm. by apply map_entries_miss.
Qed.

(** The tables of the modules. *)
Definition error_maps : list (list (sentinel * ErrorMapping)) := [
  IdentityGrpc.errorMap; AppGrpc.errorMap; RoleGrpc.errorMap; ServiceAccountGrpc.errorMap;
  AccessGrpc.errorMap; AuditGrpc.errorMap].

Lemma error_maps_nodup : Forall (λ m : list (sentinel * ErrorMapping), NoDup m.*1) error_maps.
Proof. repeat constructor; apply (bool_decide_unpack _); by vm_compute. Qed.

(** The switch of modules/auth/internal/grpc/errors.go as a table. *)
Definition auth_errorMap : list (sentinel * ErrorMapping) := [
  (auth_ErrInvalidCredentials,
     mkErrorMapping Unauthenticated ERROR_REASON_INVALID_CREDENTIALS "invalid credentials");
  (auth_ErrInvalidToken, mkErrorMapping Unauthenticated ERROR_REASON_INVALID_TOKEN "invalid token");
  (auth_ErrRefreshTokenReused, mkErrorMapping Unauthenticated ERROR_REASON_INVALID_TOKEN "invalid token");
  (auth_ErrUserBlocked, mkErrorMapping FailedPrecondition ERROR_REASON_USER_BLOCKED "user is blocked");
  (auth_ErrUserDeleted, mkErrorMapping FailedPrecondition ERROR_REASON_USER_DELETED "user is deleted");
  (recoverycode_ErrRecoveryCodeInvalid,
     mkErrorMapping Unauthenticated ERROR_REASON_RECOVERY_CODE_INVALID "recovery code invalid");
  (auth_ErrPasswordMismatch,
     mkErrorMapping Unauthenticated ERROR_REASON_PASSWORD_MISMATCH "password mismatch");
  (identity_ErrUserAlreadyExists,
     mkErrorMapping AlreadyExists ERROR_REASON_USER_ALREADY_EXISTS "user already exists");
  (identity_ErrUserNotFound, mkErrorMapping NotFound ERROR_REASON_USER_NOT_FOUND "user not found");
  (identity_ErrUserDeleted, mkErrorMapping FailedPrecondition ERROR_REASON_USER_DELETED "user is deleted");
  (session_ErrSessionNotFound, mkErrorMapping NotFound ERROR_REASON_SESSION_NOT_FOUND "session not found");
  (session_ErrSessionNotOwned,
     mkErrorMapping PermissionDenied ERROR_REASON_SESSION_NOT_OWNED "session not owned by caller");
  (app_ErrAppNotFound, mkErrorMapping NotFound ERROR_REASON_APP_NOT_FOUND "app not found");
  (app_ErrAppDisabled, mkErrorMapping FailedPrecondition ERROR_REASON_APP_DISABLED "app is disabled");
  (app_ErrAppInMaintenance,
     mkErrorMapping FailedPrecondition ERROR_REASON_APP_IN_MAINTENANCE "app is in maintenance");
  (sa_ErrServiceAccountNotFound,
     mkErrorMapping Unauthenticated ERROR_REASON_INVALID_CLIENT_CREDENTIALS "invalid client credentials");
  (sa_ErrServiceAccountInvalidCredentials,
     mkErrorMapping Unauthenticated ERROR_REASON_INVALID_CLIENT_CREDENTIALS "invalid client credentials");
  (sa_ErrServiceAccountDisabled,
     mkErrorMapping FailedPrecondition ERROR_REASON_SERVICE_ACCOUNT_DISABLED "service account is disabled")].

Lemma auth_errorMap_nodup : NoDup auth_errorMap.*1.
Proof. apply (bool_decide_unpack _). by vm_compute. Qed.

(** The switch of the auth module is the table-driven mapping of the other
    modules, at a table with one entry per sentinel: the order of its cases
    does not matter, and only the texts of the table reach a client. *)
Theorem auth_switch_is_table err : AuthGrpc.toGRPCError err = MapError err auth_errorMap.
Proof.
  unfold AuthGrpc.toGRPCError, MapError. destruct (errors_as_validation err) as [[f r]|]; [done|].
  cbv zeta. unfold auth_errorMap. rewrite !map_entries_cons. unfold entry_status. simpl.
  repeat (destruct (errors_is err _); [done|]; simpl). done.
Qed.

End MapError.

(** ** The enums of the wire *)

Section Enums.
Context {P : Type} (to : Z → P) (from : P → option Z) (valid : Z → Prop).
Context (Hto : ∀ s, valid s → from (to s) = Some s) (Hfrom : ∀ p s, from p = Some s → p = to s ∧ valid s).

Lemma convert_statuses_iff l out :
  convert_statuses from l = Ok out ↔ l = to <$> out ∧ Forall valid out.
Proof using Hto Hfrom.
  split.
  - revert out. induction l as [|p l IH]; intros out; simpl; [intros [= <-]; by split|].
    destruct (from p) as [s|] eqn:E; [|done]. destruct (convert_statuses from l) as [out'|]; [|done].
    intros [= <-]. destruct (IH out' eq_refl) as [-> ?]. destruct (Hfrom p s E) as [-> ?].
    split; [done|by constructor].
  - intros [-> Hall]. induction Hall as [|s out Hs _ IH]; [done|].
    rewrite fmap_cons. cbn [convert_statuses]. rewrite Hto by done. by rewrite IH.
Qed.

Lemma convert_statuses_refused l :
  (∃ out, convert_statuses from l = Ok out) ∨
  convert_statuses from l = Err (EValidation "filters.statuses" "unknown status value").
Proof using.
  induction l as [|p l IH]; simpl; [left; eauto|]. destruct (from p); [|by right].
  destruct IH as [[out ->]| ->]; [left; eauto|by right].
Qed.
End Enums.

(** One status enum of the service: [to] and [from] translate the valid values
    back and forth. *)
Ltac status_enum to :=
  apply convert_statuses_iff;
    [intros s Hs; apply bool_decide_eq_true in Hs; unfold to; repeat case_decide; simpl; naive_solver
    |intros [] s; simpl; intros E; try discriminate E; injection E as <-; by split].

(** A status filter of a list request is accepted exactly when each of its
    values is the wire form of a valid status, and it then selects these
    statuses: unspecified and unknown values are refused, and no status is
    confused with another, in all four directories. *)
Theorem status_filters_roundtrip :
  (∀ l out, IdentityGrpc.protoStatusesToDomain l = Ok out ↔
     l = IdentityGrpc.statusToProto <$> out ∧ Forall (λ s, UserStatus_Valid s = true) out) ∧
  (∀ l out, AppGrpc.protoStatusesToDomain l = Ok out ↔
     l = AppGrpc.statusToProto <$> out ∧ Forall (λ s, AppStatus_Valid s = true) out) ∧
  (∀ l out, RoleGrpc.protoStatusesToDomain l = Ok out ↔
     l = RoleGrpc.statusToProto <$> out ∧ Forall (λ s, RoleStatus_Valid s = true) out) ∧
  (∀ l out, ServiceAccountGrpc.protoStatusesToDomain l = Ok out ↔
     l = ServiceAccountGrpc.statusToProto <$> out ∧ Forall (λ s, ServiceAccountStatus_Valid s = true) out).
Proof.
  split_and!; intros l out.
  - status_enum IdentityGrpc.statusToProto.
  - status_enum AppGrpc.statusToProto.
  - status_enum RoleGrpc.statusToProto.
  - status_enum ServiceAccountGrpc.statusToProto.
Qed.

(** ** Instances *)

Section Witness.
#[local] Existing Instance ToyGrpc.grpc.

Lemma MapError_spec_witness :
  MapError (EWrap "get app" (ESentinel app_ErrAppNotFound)) (reverse AppGrpc.errorMap) =
    mkStatus NotFound "app not found" [ErrorInfo ERROR_REASON_APP_NOT_FOUND ErrorDomain []].
Proof.
  destruct (MapError_spec (EWrap "get app" (ESentinel app_ErrAppNotFound)) AppGrpc.errorMap (reverse AppGrpc.errorMap)
    ltac:(apply (bool_decide_unpack _); by vm_compute) ltac:(by rewrite reverse_Permutation)) as (_ & _ & Hs & _).
  rewrite (Hs app_ErrAppNotFound (mkErrorMapping NotFound ERROR_REASON_APP_NOT_FOUND "app not found")
    ltac:(unfold AppGrpc.errorMap; set_solver) ltac:(reflexivity)). reflexivity.
Defined.

End Witness.
