(* ===== verification/RateLimit.v ===== *)
(** * RateLimit: the in-memory rate limiter.

    platform/ratelimit/{policy,keyed,interceptor}.go, and buildRateLimiter
    with its extractors (bootstrap.go). The token bucket is golang.org/x/time/rate,
    an argument of the model ([RateLib]); [RateLaws] states what its
    documentation promises. Every method that reads the clock gets the
    readings, in the order in which it makes them. *)
From Stdlib Require Import SpecFloat.
From stdpp Require Import gmap list.
From S2P Require Import Prelude Errors Monad Runtime Kernel World GoStd GrpcBase Interceptor.
Local Open Scope Z_scope.

(** ** float64 (IEEE 754 binary64) *)

Abbreviation float64 := spec_float (only parsing).
Definition float_of_int (n : Z) : float64 := binary_normalize 53 1024 n 0 false.
Definition float_mul : float64 → float64 → float64 := SFmul 53 1024.
Definition float_div : float64 → float64 → float64 := SFdiv 53 1024.

(** The integer a finite value is truncated to. *)
Definition float_trunc (f : float64) : option Z :=
  match f with
  | S754_zero _ => Some 0
  | S754_finite s m e =>
      let a := if decide (0 <= e) then Zpos m * 2 ^ e else Zpos m / 2 ^ (- e) in
      Some (if s then - a else a)
  | _ => None
  end.

(** ** policy.go *)

Record Policy := mkPolicy {
  po_Name : string;
  po_RPS : float64;
  po_Burst : Z;
  po_IdleEvict : Z }.

Definition LoginPerIP : string := "login_per_ip".
Definition LoginPerUsername : string := "login_per_username".
Definition ResetPerIP : string := "reset_per_ip".
Definition ResetPerEmail : string := "reset_per_email".
Definition ServiceAuthPerClient : string := "service_auth_per_client".
Definition ChangePasswordPerUser : string := "change_password_per_user".

(** ** golang.org/x/time/rate *)

Class RateLib := {
  Limiter : Type;
  Reservation : Type;
  NewLimiter : float64 → Z → Limiter;                      (* rate.NewLimiter(rate.Limit(rps), burst) *)
  Reserve : Time → Limiter → Limiter * Reservation;        (* l.Reserve() at an instant *)
  Delay : Time → Reservation → Z;                          (* r.Delay() *)
  Cancel : Time → Reservation → Limiter → Limiter;         (* r.Cancel() *)
  float_overflow : float64 → Z }.                          (* int64(f) beyond the range: left open by Go *)

Definition float_to_int64 `{RateLib} (f : float64) : Z :=
  match float_trunc f with
  | Some n => if decide (- 2 ^ 63 <= n < 2 ^ 63) then n else float_overflow f
  | None => float_overflow f
  end.

(** A positive rate [rps] is [m * 2^e] tokens per second: a bucket gains
    [refill_of rps] per nanosecond when a token counts [unit_of rps]. *)
Definition unit_of (rps : float64) : Z :=
  match rps with S754_finite _ _ e => 10 ^ 9 * 2 ^ Z.max 0 (- e) | _ => 10 ^ 9 end.
Definition refill_of (rps : float64) : Z :=
  match rps with S754_finite false m e => Zpos m * 2 ^ Z.max 0 e | _ => 0 end.

(** "A Limiter implements a token bucket of size b, initially full and
    refilled at rate r tokens per second"; a reservation takes a token, maybe
    on credit; its delay is zero once the bucket is out of debt; cancelling
    reverses its effect unless it could already act. [tokens l t] is what the
    bucket holds at [t], in units, and [made rps b l] that [l] was created
    with this rate and size. *)
Class RateLaws `{RateLib} := {
  made : float64 → Z → Limiter → Prop;
  tokens : Limiter → Time → Z;
  rate_new : ∀ rps b, made rps b (NewLimiter rps b) ∧ ∀ t, tokens (NewLimiter rps b) t = b * unit_of rps;
  rate_refill : ∀ rps b l t t', made rps b l → t <= t' →
    tokens l t' = Z.min (b * unit_of rps) (tokens l t + refill_of rps * (t' - t));
  rate_reserve : ∀ rps b l t, made rps b l →
    made rps b (Reserve t l).1 ∧ tokens (Reserve t l).1 t = tokens l t - unit_of rps;
  rate_delay : ∀ rps b l t t', made rps b l → t <= t' →
    0 <= Delay t' (Reserve t l).2 ∧
    (Delay t' (Reserve t l).2 = 0 ↔ 0 <= tokens (Reserve t l).1 t');
  rate_cancel : ∀ rps b l t t' s, made rps b l → t <= t' → t' <= s →
    made rps b (Cancel t' (Reserve t l).2 (Reserve t l).1) ∧
    tokens (Cancel t' (Reserve t l).2 (Reserve t l).1) s =
      (if decide (Delay t' (Reserve t l).2 = 0) then tokens (Reserve t l).1 s else tokens l s) }.

Section RateLimit.
Context `{RateLib}.

(** ** keyed.go *)

Record entry := mkEntry { e_limiter : Limiter; e_lastSeen : Time }.
Record KeyedLimiter := mkKeyedLimiter {
  kl_policy : Policy; kl_cleanupInterval : Z; kl_entries : gmap string entry }.

Definition NewKeyedLimiter (p : Policy) (cleanupInterval : Z) : KeyedLimiter :=
  mkKeyedLimiter p cleanupInterval ∅.

(** The readings of one call of Allow: lastSeen, Reserve, Delay, Cancel. *)
Record Readings := mkReadings { rd_seen : Time; rd_reserve : Time; rd_delay : Time; rd_cancel : Time }.

Definition Allow (c : Readings) (l : KeyedLimiter) (key : string) : KeyedLimiter * (bool * Z) :=
  let limiter :=
    match kl_entries l !! key with
    | Some e => e_limiter e
    | None => NewLimiter (po_RPS (kl_policy l)) (po_Burst (kl_policy l))
    end in
  let put lim := mkKeyedLimiter (kl_policy l) (kl_cleanupInterval l)
                   (<[key := mkEntry lim (rd_seen c)]> (kl_entries l)) in
  let '(limiter, reserve) := Reserve (rd_reserve c) limiter in
  let delay := Delay (rd_delay c) reserve in
  if decide (delay = 0) then (put limiter, (true, 0))
  else (put (Cancel (rd_cancel c) reserve limiter), (false, delay)).

Definition evictIdle (now : Time) (l : KeyedLimiter) : KeyedLimiter :=
  let cutoff := now - po_IdleEvict (kl_policy l) in
  mkKeyedLimiter (kl_policy l) (kl_cleanupInterval l)
    (filter (λ kv : string * entry, ¬ e_lastSeen kv.2 < cutoff) (kl_entries l)).

(** What happens to a limiter: calls of Allow, which the mutex serialises, and
    sweeps of the goroutine of Start; [None] is a sweep's answer. *)
Inductive event :=
  | EvAllow (c : Readings) (key : string)
  | EvSweep (now : Time).

Definition fire (l : KeyedLimiter) (ev : event) : KeyedLimiter * option (bool * Z) :=
  match ev with
  | EvAllow c key => let '(l', r) := Allow c l key in (l', Some r)
  | EvSweep now => (evictIdle now l, None)
  end.

Fixpoint trace (l : KeyedLimiter) (evs : list event) : list (option (bool * Z)) :=
  match evs with
  | [] => []
  | ev :: evs' => let '(l', r) := fire l ev in r :: trace l' evs'
  end.

(** ** interceptor.go *)

Context {Req : Type}.

Record MethodLimit := mkMethodLimit { ml_Policy : string; ml_Extractor : Ctx → Req → option string }.
Record RateInterceptor := mkRateInterceptor {
  ri_limiters : gmap string KeyedLimiter;
  ri_bindings : list (string * list MethodLimit) }.

(** The policies arrive in a Go map: one per name. *)
Definition New (policies : list Policy) (bindings : list (string * list MethodLimit))
    (cleanupInterval : Z) : option RateInterceptor :=
  let limiters := list_to_map ((λ p, (po_Name p, NewKeyedLimiter p cleanupInterval)) <$> policies) in
  if forallb (λ b : string * list MethodLimit,
       forallb (λ ml, bool_decide (is_Some (limiters !! ml_Policy ml))) b.2) bindings
  then Some (mkRateInterceptor limiters bindings) else None.

(** The loop of Unary: the limits in order; [Some retryAfter] when one denies. *)
Fixpoint enforce (now : Time) (ctx : Ctx) (req : Req) (limits : list MethodLimit)
    (lims : gmap string KeyedLimiter) : gmap string KeyedLimiter * option Z :=
  match limits with
  | [] => (lims, None)
  | ml :: rest =>
      match ml_Extractor ml ctx req with
      | None => enforce now ctx req rest lims
      | Some key =>
          match lims !! ml_Policy ml with
          | None => enforce now ctx req rest lims
          | Some limiter =>
              let '(limiter, (allowed, retryAfter)) := Allow (mkReadings now now now now) limiter key in
              let lims := <[ml_Policy ml := limiter]> lims in
              if allowed then enforce now ctx req rest lims else (lims, Some retryAfter)
          end
      end
  end.

Fixpoint limits_of (bindings : list (string * list MethodLimit)) (FullMethod : string) : option (list MethodLimit) :=
  match bindings with
  | [] => None
  | (m, ls) :: bs => if decide (m = FullMethod) then Some ls else limits_of bs FullMethod
  end.

Definition with_limiters (i : RateInterceptor) (lims : gmap string KeyedLimiter) : RateInterceptor :=
  mkRateInterceptor lims (ri_bindings i).

(** The decision of Unary: the interceptor afterwards, and the delay it
    answers a throttled request with. *)
Definition throttle (now : Time) (i : RateInterceptor) (FullMethod : string) (ctx : Ctx) (req : Req) :
    RateInterceptor * option Z :=
  match limits_of (ri_bindings i) FullMethod with
  | None => (i, None)
  | Some limits =>
      let '(lims, denied) := enforce now ctx req limits (ri_limiters i) in (with_limiters i lims, denied)
  end.

End RateLimit.

Section Rejection.
Context `{Grpc}.

(** [retryAfter.Milliseconds()] truncates. *)
Definition rateLimitedError (retryAfter : Z) : Status :=
  let st := mkStatus ResourceExhausted "rate limit exceeded" [] in
  default st (st_WithDetails st
    [ErrorInfo ERROR_REASON_RATE_LIMITED ErrorDomain
       [("retry_after_ms", FormatInt (Z.quot retryAfter 1000000))];
     RetryInfo retryAfter]).

End Rejection.
