(* ===== verification/Server.v ===== *)
(** * Server: the gRPC server bootstrap.go assembles.

    The requests by service, the chain of interceptors of
    platform/grpc/server/{server,validation}.go (authentication, rate limit,
    validation), the routing table and the extractors of the rate limiter, and
    the dispatch to the handlers. Request ids, logging and panic recovery
    wrap this chain in Middleware. *)
From Stdlib Require Import SpecFloat.
From stdpp Require Import gmap list.
From S2P Require Import Prelude Errors Monad Runtime Kernel World AuditDomain GoStd GrpcBase Interceptor RateLimit.
From S2P Require Import IdentityService AppService RoleService ServiceAccountService AccessService AuditService.
From S2P Require Import AuthBase AuthSessions IdentityGrpc AppGrpc RoleGrpc ServiceAccountGrpc AccessGrpc.
From S2P Require Import AuthGrpc AuditGrpc.
Local Open Scope Z_scope.

Section Server.
Context `{Runtime} (cfg : AuthConfig) `{Grpc} `{RateLib}.
Context `{JsonCodec IdentityService.pageToken} `{JsonCodec AppService.pageToken}
  `{JsonCodec RoleService.pageToken} `{JsonCodec ServiceAccountService.pageToken}
  `{JsonCodec AccessService.pageToken} `{JsonCodec AuditService.pageToken}
  `{JsonCodec sessionsPageToken}.

(** ** The requests *)

Inductive Request :=
  (* sso.identity.v1.IdentityService *)
  | ReqCreateUser (user : option PbUser)
  | ReqGetUser (user_id : string)
  | ReqListUsers (r : ListUsersRequest)
  | ReqUpdateUser (r : UpdateUserRequest)
  | ReqDisableUser (user_id : string) (allow_missing : bool)
  | ReqEnableUser (user_id : string) (allow_missing : bool)
  | ReqSoftDeleteUser (user_id : string) (allow_missing : bool)
  | ReqPermanentlyDeleteUser (user_id etag : string)
  (* sso.app.v1.AppService *)
  | ReqCreateApp (app : option PbApp)
  | ReqGetApp (app_id : string)
  | ReqListApps (r : ListAppsRequest)
  | ReqUpdateApp (r : UpdateAppRequest)
  | ReqDisableApp (app_id : string) (allow_missing : bool)
  | ReqEnableApp (app_id : string) (allow_missing : bool)
  | ReqEnterMaintenanceMode (app_id : string) (allow_missing : bool)
  | ReqExitMaintenanceMode (app_id : string) (allow_missing : bool)
  | ReqPermanentlyDeleteApp (app_id etag : string)
  (* sso.roles.v1.RolesService *)
  | ReqCreateRole (parent_app_id : string) (role : option PbRole)
  | ReqGetRole (role_id : string)
  | ReqListRoles (r : ListRolesRequest)
  | ReqUpdateRole (r : UpdateRoleRequest)
  | ReqDisableRole (role_id : string) (allow_missing : bool)
  | ReqEnableRole (role_id : string) (allow_missing : bool)
  | ReqPermanentlyDeleteRole (role_id etag : string)
  (* sso.serviceaccount.v1.ServiceAccountService *)
  | ReqCreateServiceAccount (account : option PbServiceAccount)
  | ReqGetServiceAccount (id : string)
  | ReqListServiceAccounts (r : ListServiceAccountsRequest)
  | ReqUpdateServiceAccount (r : UpdateServiceAccountRequest)
  | ReqRotateCredentials (id etag : string)
  | ReqDisableServiceAccount (id : string) (allow_missing : bool)
  | ReqEnableServiceAccount (id : string) (allow_missing : bool)
  | ReqPermanentlyDeleteServiceAccount (id etag : string)
  (* sso.access.v1.AccessService *)
  | ReqHasRoleInApp (user_id role_id : string)
  | ReqListUserRoles (r : ListUserRolesRequest)
  | ReqGrantRoleToUser (user_id role_id : string)
  | ReqRemoveRoleFromUser (user_id role_id : string)
  | ReqBulkGrantRoles (user_id app_id : string) (role_ids : list string)
  | ReqBulkRemoveRoles (user_id app_id : string) (role_ids : list string)
  | ReqCheckPermission (user_id app_id permission : string)
  | ReqBatchCheckPermission (user_id app_id : string) (permissions : list string)
  (* sso.auth.v1.AuthService *)
  | ReqRegister (r : RegisterRequest)
  | ReqLogin (r : LoginRequest)
  | ReqRefresh (refresh_token : string)
  | ReqLogout
  | ReqChangePassword (old_password new_password : string)
  | ReqListSessions (page_size : Z) (page_token : string)
  | ReqRevokeSession (session_id : string)
  | ReqRevokeToken (refresh_token : string)
  | ReqRevokeAllSessions (except_current : bool)
  | ReqGenerateRecoveryCodes
  | ReqResetPasswordWithRecoveryCode (r : ResetRequest)
  | ReqValidateToken (access_token : string)
  | ReqAuthenticateServiceAccount (r : ServiceAccountAuthRequest)
  (* sso.audit.v1.AuditService *)
  | ReqGetAuditEvent (event_id : string)
  | ReqListAuditEvents (page_size : Z) (page_token : string) (filters : option PbAuditFilters).

Definition FullMethod (r : Request) : string :=
  match r with
  | ReqCreateUser _ => "/sso.identity.v1.IdentityService/CreateUser"
  | ReqGetUser _ => "/sso.identity.v1.IdentityService/GetUser"
  | ReqListUsers _ => "/sso.identity.v1.IdentityService/ListUsers"
  | ReqUpdateUser _ => "/sso.identity.v1.IdentityService/UpdateUser"
  | ReqDisableUser _ _ => "/sso.identity.v1.IdentityService/DisableUser"
  | ReqEnableUser _ _ => "/sso.identity.v1.IdentityService/EnableUser"
  | ReqSoftDeleteUser _ _ => "/sso.identity.v1.IdentityService/SoftDeleteUser"
  | ReqPermanentlyDeleteUser _ _ => "/sso.identity.v1.IdentityService/PermanentlyDeleteUser"
  | ReqCreateApp _ => "/sso.app.v1.AppService/CreateApp"
  | ReqGetApp _ => "/sso.app.v1.AppService/GetApp"
  | ReqListApps _ => "/sso.app.v1.AppService/ListApps"
  | ReqUpdateApp _ => "/sso.app.v1.AppService/UpdateApp"
  | ReqDisableApp _ _ => "/sso.app.v1.AppService/DisableApp"
  | ReqEnableApp _ _ => "/sso.app.v1.AppService/EnableApp"
  | ReqEnterMaintenanceMode _ _ => "/sso.app.v1.AppService/EnterMaintenanceMode"
  | ReqExitMaintenanceMode _ _ => "/sso.app.v1.AppService/ExitMaintenanceMode"
  | ReqPermanentlyDeleteApp _ _ => "/sso.app.v1.AppService/PermanentlyDeleteApp"
  | ReqCreateRole _ _ => "/sso.roles.v1.RolesService/CreateRole"
  | ReqGetRole _ => "/sso.roles.v1.RolesService/GetRole"
  | ReqListRoles _ => "/sso.roles.v1.RolesService/ListRoles"
  | ReqUpdateRole _ => "/sso.roles.v1.RolesService/UpdateRole"
  | ReqDisableRole _ _ => "/sso.roles.v1.RolesService/DisableRole"
  | ReqEnableRole _ _ => "/sso.roles.v1.RolesService/EnableRole"
  | ReqPermanentlyDeleteRole _ _ => "/sso.roles.v1.RolesService/PermanentlyDeleteRole"
  | ReqCreateServiceAccount _ => "/sso.serviceaccount.v1.ServiceAccountService/CreateServiceAccount"
  | ReqGetServiceAccount _ => "/sso.serviceaccount.v1.ServiceAccountService/GetServiceAccount"
  | ReqListServiceAccounts _ => "/sso.serviceaccount.v1.ServiceAccountService/ListServiceAccounts"
  | ReqUpdateServiceAccount _ => "/sso.serviceaccount.v1.ServiceAccountService/UpdateServiceAccount"
  | ReqRotateCredentials _ _ => "/sso.serviceaccount.v1.ServiceAccountService/RotateCredentials"
  | ReqDisableServiceAccount _ _ => "/sso.serviceaccount.v1.ServiceAccountService/DisableServiceAccount"
  | ReqEnableServiceAccount _ _ => "/sso.serviceaccount.v1.ServiceAccountService/EnableServiceAccount"
  | ReqPermanentlyDeleteServiceAccount _ _ =>
      "/sso.serviceaccount.v1.ServiceAccountService/PermanentlyDeleteServiceAccount"
  | ReqHasRoleInApp _ _ => "/sso.access.v1.AccessService/HasRoleInApp"
  | ReqListUserRoles _ => "/sso.access.v1.AccessService/ListUserRoles"
  | ReqGrantRoleToUser _ _ => "/sso.access.v1.AccessService/GrantRoleToUser"
  | ReqRemoveRoleFromUser _ _ => "/sso.access.v1.AccessService/RemoveRoleFromUser"
  | ReqBulkGrantRoles _ _ _ => "/sso.access.v1.AccessService/BulkGrantRoles"
  | ReqBulkRemoveRoles _ _ _ => "/sso.access.v1.AccessService/BulkRemoveRoles"
  | ReqCheckPermission _ _ _ => "/sso.access.v1.AccessService/CheckPermission"
  | ReqBatchCheckPermission _ _ _ => "/sso.access.v1.AccessService/BatchCheckPermission"
  | ReqRegister _ => "/sso.auth.v1.AuthService/Register"
  | ReqLogin _ => "/sso.auth.v1.AuthService/Login"
  | ReqRefresh _ => "/sso.auth.v1.AuthService/Refresh"
  | ReqLogout => "/sso.auth.v1.AuthService/Logout"
  | ReqChangePassword _ _ => "/sso.auth.v1.AuthService/ChangePassword"
  | ReqListSessions _ _ => "/sso.auth.v1.AuthService/ListSessions"
  | ReqRevokeSession _ => "/sso.auth.v1.AuthService/RevokeSession"
  | ReqRevokeToken _ => "/sso.auth.v1.AuthService/RevokeToken"
  | ReqRevokeAllSessions _ => "/sso.auth.v1.AuthService/RevokeAllSessions"
  | ReqGenerateRecoveryCodes => "/sso.auth.v1.AuthService/GenerateRecoveryCodes"
  | ReqResetPasswordWithRecoveryCode _ => "/sso.auth.v1.AuthService/ResetPasswordWithRecoveryCode"
  | ReqValidateToken _ => "/sso.auth.v1.AuthService/ValidateToken"
  | ReqAuthenticateServiceAccount _ => "/sso.auth.v1.AuthService/AuthenticateServiceAccount"
  | ReqGetAuditEvent _ => "/sso.audit.v1.AuditService/GetAuditEvent"
  | ReqListAuditEvents _ _ _ => "/sso.audit.v1.AuditService/ListAuditEvents"
  end.

Inductive Response :=
  | RespEmpty
  | RespUser (u : PbUser) | RespUsers (l : ListReply PbUser)
  | RespApp (a : PbApp) | RespApps (l : ListReply PbApp)
  | RespRole (r : PbRole) | RespRoles (l : ListReply PbRole)
  | RespServiceAccount (a : PbServiceAccount) | RespServiceAccounts (l : ListReply PbServiceAccount)
  | RespCredentials (c : PbCredentials)
  | RespBool (b : bool) | RespBools (l : list bool)
  | RespAssignment (a : PbRoleAssignment) | RespAssignments (l : list PbRoleAssignment) (created : list bool)
  | RespCheck (c : PbCheckPermissionResponse)
  | RespTokens (t : PbAuthTokens)
  | RespSessions (l : PbListSessionsResponse)
  | RespRecoveryCodes (c : option PbRecoveryCodes)
  | RespValidate (v : PbValidateTokenResponse)
  | RespEvent (e : PbAuditEvent) | RespEvents (l : ListReply PbAuditEvent).

(** The authorizer bootstrap.go installs. *)
#[local] Existing Instance AccessBackedAuthorizer.

Definition done_ (_ : Empty) : Response := RespEmpty.

Definition dispatch (fuel : nat) (ctx : Ctx) (r : Request) : Handler Response :=
  match r with
  | ReqCreateUser u => hmap RespUser (IdentityGrpc.CreateUser ctx u)
  | ReqGetUser id => hmap RespUser (IdentityGrpc.GetUser id)
  | ReqListUsers r => hmap RespUsers (IdentityGrpc.ListUsers r)
  | ReqUpdateUser r => hmap RespUser (IdentityGrpc.UpdateUser ctx r)
  | ReqDisableUser id b => hmap done_ (IdentityGrpc.DisableUser ctx id b)
  | ReqEnableUser id b => hmap done_ (IdentityGrpc.EnableUser ctx id b)
  | ReqSoftDeleteUser id b => hmap done_ (IdentityGrpc.SoftDeleteUser ctx id b)
  | ReqPermanentlyDeleteUser id e => hmap done_ (IdentityGrpc.PermanentlyDeleteUser ctx id e)
  | ReqCreateApp a => hmap RespApp (AppGrpc.CreateApp ctx a)
  | ReqGetApp id => hmap RespApp (AppGrpc.GetApp id)
  | ReqListApps r => hmap RespApps (AppGrpc.ListApps r)
  | ReqUpdateApp r => hmap RespApp (AppGrpc.UpdateApp ctx r)
  | ReqDisableApp id b => hmap done_ (AppGrpc.DisableApp ctx id b)
  | ReqEnableApp id b => hmap done_ (AppGrpc.EnableApp ctx id b)
  | ReqEnterMaintenanceMode id b => hmap done_ (AppGrpc.EnterMaintenanceMode ctx id b)
  | ReqExitMaintenanceMode id b => hmap done_ (AppGrpc.ExitMaintenanceMode ctx id b)
  | ReqPermanentlyDeleteApp id e => hmap done_ (AppGrpc.PermanentlyDeleteApp ctx id e)
  | ReqCreateRole a r => hmap RespRole (RoleGrpc.CreateRole ctx a r)
  | ReqGetRole id => hmap RespRole (RoleGrpc.GetRole id)
  | ReqListRoles r => hmap RespRoles (RoleGrpc.ListRoles r)
  | ReqUpdateRole r => hmap RespRole (RoleGrpc.UpdateRole ctx r)
  | ReqDisableRole id b => hmap done_ (RoleGrpc.DisableRole ctx id b)
  | ReqEnableRole id b => hmap done_ (RoleGrpc.EnableRole ctx id b)
  | ReqPermanentlyDeleteRole id e => hmap done_ (RoleGrpc.PermanentlyDeleteRole ctx id e)
  | ReqCreateServiceAccount a => hmap RespCredentials (ServiceAccountGrpc.CreateServiceAccount ctx a)
  | ReqGetServiceAccount id => hmap RespServiceAccount (ServiceAccountGrpc.GetServiceAccount id)
  | ReqListServiceAccounts r => hmap RespServiceAccounts (ServiceAccountGrpc.ListServiceAccounts r)
  | ReqUpdateServiceAccount r => hmap RespServiceAccount (ServiceAccountGrpc.UpdateServiceAccount ctx r)
  | ReqRotateCredentials id e => hmap RespCredentials (ServiceAccountGrpc.RotateCredentials ctx id e)
  | ReqDisableServiceAccount id b => hmap done_ (ServiceAccountGrpc.DisableServiceAccount ctx id b)
  | ReqEnableServiceAccount id b => hmap done_ (ServiceAccountGrpc.EnableServiceAccount ctx id b)
  | ReqPermanentlyDeleteServiceAccount id e =>
      hmap done_ (ServiceAccountGrpc.PermanentlyDeleteServiceAccount ctx id e)
  | ReqHasRoleInApp u r => hmap RespBool (AccessGrpc.HasRoleInApp u r)
  | ReqListUserRoles r => hmap RespRoles (AccessGrpc.ListUserRoles r)
  | ReqGrantRoleToUser u r => hmap RespAssignment (AccessGrpc.GrantRoleToUser ctx u r)
  | ReqRemoveRoleFromUser u r => hmap done_ (AccessGrpc.RemoveRoleFromUser ctx u r)
  | ReqBulkGrantRoles u a rs =>
      hmap (λ out, RespAssignments (fst out) (snd out)) (AccessGrpc.BulkGrantRoles ctx u a rs)
  | ReqBulkRemoveRoles u a rs => hmap done_ (AccessGrpc.BulkRemoveRoles ctx u a rs)
  | ReqCheckPermission u a p => hmap RespCheck (AccessGrpc.CheckPermission u a p)
  | ReqBatchCheckPermission u a ps => hmap RespBools (AccessGrpc.BatchCheckPermission u a ps)
  | ReqRegister r => hmap RespUser (AuthGrpc.Register cfg ctx r)
  | ReqLogin r => hmap RespTokens (AuthGrpc.Login cfg ctx r)
  | ReqRefresh t => hmap RespTokens (AuthGrpc.Refresh cfg t)
  | ReqLogout => hmap done_ (AuthGrpc.Logout ctx)
  | ReqChangePassword o n => hmap RespTokens (AuthGrpc.ChangePassword cfg ctx o n)
  | ReqListSessions n t => hmap RespSessions (AuthGrpc.ListSessions ctx n t)
  | ReqRevokeSession id => hmap done_ (AuthGrpc.RevokeSession ctx id)
  | ReqRevokeToken t => hmap done_ (AuthGrpc.RevokeToken ctx t)
  | ReqRevokeAllSessions b => hmap done_ (AuthGrpc.RevokeAllSessions ctx b)
  | ReqGenerateRecoveryCodes => hmap RespRecoveryCodes (AuthGrpc.GenerateRecoveryCodes fuel ctx)
  | ReqResetPasswordWithRecoveryCode r => hmap RespTokens (AuthGrpc.ResetPasswordWithRecoveryCode cfg ctx r)
  | ReqValidateToken t => hmap RespValidate (AuthGrpc.ValidateToken cfg t)
  | ReqAuthenticateServiceAccount r => hmap RespTokens (AuthGrpc.AuthenticateServiceAccount cfg r)
  | ReqGetAuditEvent id => hmap RespEvent (AuditGrpc.GetAuditEvent ctx id)
  | ReqListAuditEvents n t f => hmap RespEvents (AuditGrpc.ListAuditEvents ctx n t f)
  end.

(** ** bootstrap.go: the rate limiter's policies, bindings and extractors *)

Definition extractPeerIP (ctx : Ctx) (_ : Request) : option string :=
  let ip := PeerIP ctx in if decide (ip = "") then None else Some ip.

Definition normalizedIdentifier (email username : string) : option string :=
  let id := ToLower (TrimSpace email) in
  let id := if decide (id = "") then ToLower (TrimSpace username) else id in
  if decide (id = "") then None else Some id.

Definition extractLoginIdentifier (_ : Ctx) (req : Request) : option string :=
  match req with
  | ReqLogin r => normalizedIdentifier (GetEmail (lq_Identifier r)) (GetUsername (lq_Identifier r))
  | _ => None
  end.

Definition extractResetIdentifier (_ : Ctx) (req : Request) : option string :=
  match req with
  | ReqResetPasswordWithRecoveryCode r =>
      normalizedIdentifier (GetEmail (rr_Identifier r)) (GetUsername (rr_Identifier r))
  | _ => None
  end.

Definition extractServiceAccountID (_ : Ctx) (req : Request) : option string :=
  match req with
  | ReqAuthenticateServiceAccount r =>
      let id := TrimSpace (sr_ServiceAccountId r) in if decide (id = "") then None else Some id
  | _ => None
  end.

Definition extractActorID (ctx : Ctx) (_ : Request) : option string :=
  match From_ctx ctx with
  | Some a => if decide (a_ID a = "") then None else Some (a_ID a)
  | None => None
  end.

Record ConfigPolicy := mkConfigPolicy { cp_Rps : float64; cp_Burst : Z }.
Record RateLimitConfig := mkRateLimitConfig {
  rc_Enabled : bool; rc_CleanupInterval : Z;
  rc_LoginPerIP : ConfigPolicy; rc_LoginPerUsername : ConfigPolicy; rc_ResetPerIP : ConfigPolicy;
  rc_ResetPerEmail : ConfigPolicy; rc_ServiceAuthPerClient : ConfigPolicy;
  rc_ChangePasswordPerUser : ConfigPolicy }.

Definition Minute : Z := 60 * 1000000000.

(** Twice the time to refill the bucket, at least a minute. *)
Definition idle (p : ConfigPolicy) : Z :=
  let d := float_to_int64
    (float_mul (float_div (float_mul (float_of_int 2) (float_of_int (cp_Burst p))) (cp_Rps p))
       (float_of_int 1000000000)) in
  if decide (d < Minute) then Minute else d.

Definition toPolicy (name : string) (p : ConfigPolicy) : Policy :=
  mkPolicy name (cp_Rps p) (cp_Burst p) (idle p).

Definition rate_bindings : list (string * list (MethodLimit (Req := Request))) := [
  ("/sso.auth.v1.AuthService/Login",
     [mkMethodLimit LoginPerIP extractPeerIP; mkMethodLimit LoginPerUsername extractLoginIdentifier]);
  ("/sso.auth.v1.AuthService/ResetPasswordWithRecoveryCode",
     [mkMethodLimit ResetPerIP extractPeerIP; mkMethodLimit ResetPerEmail extractResetIdentifier]);
  ("/sso.auth.v1.AuthService/AuthenticateServiceAccount",
     [mkMethodLimit ServiceAuthPerClient extractServiceAccountID]);
  ("/sso.auth.v1.AuthService/ChangePassword",
     [mkMethodLimit ChangePasswordPerUser extractActorID])].

Definition buildRateLimiter (c : RateLimitConfig) : option (RateInterceptor (Req := Request)) :=
  New [toPolicy LoginPerIP (rc_LoginPerIP c); toPolicy LoginPerUsername (rc_LoginPerUsername c);
       toPolicy ResetPerIP (rc_ResetPerIP c); toPolicy ResetPerEmail (rc_ResetPerEmail c);
       toPolicy ServiceAuthPerClient (rc_ServiceAuthPerClient c);
       toPolicy ChangePasswordPerUser (rc_ChangePasswordPerUser c)] rate_bindings (rc_CleanupInterval c).

(** ** validation.go *)

(** What protovalidate (buf.build/go/protovalidate) says of a message. *)
Inductive Validation :=
  | Valid
  | Violations (l : list (string * string))   (* a *protovalidate.ValidationError *)
  | Malfunction.                              (* any other error *)

Definition validationStatus (v : list (string * string)) : Status :=
  let st := mkStatus InvalidArgument "validation failed" [] in
  let info := ErrorInfo ERROR_REASON_VALIDATION_FAILED ErrorDomain [] in
  match v with
  | [] => default st (st_WithDetails st [info])
  | _ => default st (st_WithDetails st [info; BadRequest v])
  end.

Context (Validate : Request → Validation).

Definition unaryValidation {A} (req : Request) (k : Handler A) : Handler A :=
  match Validate req with
  | Valid => k
  | Violations l => refuse (validationStatus l)
  | Malfunction => refuse (validationStatus [])
  end.

(** ** The chain: authentication, rate limit, validation, handler *)

Record ServerState := mkServerState {
  sv_world : World;
  sv_limiter : option (RateInterceptor (Req := Request)) }.   (* none: disabled in the configuration *)

Definition chain (fuel : nat) (ctx : Ctx) (req : Request) (sv : ServerState) : ServerState * reply Response :=
  match pass_or_refuse cfg publicRPCs (FullMethod req) ctx (sv_world sv) with
  | (w, Refused s) => (mkServerState w (sv_limiter sv), Refused s)
  | (w, Reply ctx) =>
      let rest lim :=
        let (w', r) := unaryValidation req (dispatch fuel ctx req) w in (mkServerState w' lim, r) in
      match sv_limiter sv with
      | None => rest None
      | Some i =>
          match throttle (w_now w) i (FullMethod req) ctx req with
          | (i', Some retryAfter) => (mkServerState w (Some i'), Refused (rateLimitedError retryAfter))
          | (i', None) => rest (Some i')
          end
      end
  end.

End Server.
