(* ===== verification/RateService.v ===== *)
(** * RateService: what the rate limiter guarantees, and the limiter at work
    in the server.

    Against the interface [RateLaws] of the token bucket: in any window of
    time a key is let through at most [burst] times plus what the bucket
    refills meanwhile, and the sweep of idle buckets is never noticed. The
    critical section of Allow takes at most [hold]. Then a concrete token
    bucket that satisfies [RateLaws], the policies of config/config.yaml, and
    the bound on sign-in attempts: however many addresses an attacker uses,
    the sign-ins for one identifier that get past the rate limiter in a window
    are at most [burst] plus what its bucket refills in the window. *)
From Stdlib Require Import SpecFloat.
From stdpp Require Import gmap list.
From S2P Require Import Prelude Errors Monad Runtime Kernel World GrpcBase RateLimit Server AuthGrpc.
From S2P Require Import GrpcFacts AuthBase Scenario.
Local Open Scope Z_scope.


Lemma unit_pos rps : 0 < unit_of rps.
Proof.
  unfold unit_of. destruct rps; lia.
Qed.
Lemma refill_nonneg rps : 0 <= refill_of rps.
Proof.
  unfold refill_of. destruct rps as [| | |[] m e]; lia.
Qed.

Section RateFacts.
Context `{RateLaws} (p : Policy) (hold : Z).
Notation rps := (po_RPS p).
Notation U := (unit_of rps).
Notation R := (refill_of rps).
Notation full := (po_Burst p * U).
Context (Hburst : 1 <= po_Burst p) (Hidle : full <= R * (po_IdleEvict p - hold)).

Definition in_order (c : Readings) : Prop :=
  rd_seen c <= rd_reserve c <= rd_delay c ∧ rd_delay c <= rd_cancel c <= rd_seen c + hold.

(** The readings of a history are in order, from [T] on. A sweep reads the
    clock before it gets the lock. *)
Fixpoint timely (T : Time) (evs : list event) : Prop :=
  match evs with
  | [] => True
  | EvAllow c _ :: rest => T <= rd_seen c ∧ in_order c ∧ timely (rd_cancel c) rest
  | EvSweep now :: rest => timely (Z.max T now) rest
  end.

(** What a key may still spend at [s]. *)
Definition holding (l : KeyedLimiter) (k : string) (s : Time) : Z :=
  match kl_entries l !! k with Some e => tokens (e_limiter e) s | None => full end.

Definition sound (T : Time) (l : KeyedLimiter) : Prop :=
  kl_policy l = p ∧
  ∀ k e, kl_entries l !! k = Some e →
    made rps (po_Burst p) (e_limiter e) ∧
    ∃ t, t <= T ∧ t <= e_lastSeen e + hold ∧ 0 <= tokens (e_limiter e) t.

Definition bucket (l : KeyedLimiter) (k : string) : Limiter :=
  match kl_entries l !! k with Some e => e_limiter e | None => NewLimiter rps (po_Burst p) end.

Lemma bucket_made T l k : sound T l → made rps (po_Burst p) (bucket l k).
Proof.
  intros [_ Hl]. unfold bucket. destruct (kl_entries l !! k) eqn:E; [by apply (Hl k e)|].
  apply rate_new.
Qed.

Lemma bucket_holding l k s : tokens (bucket l k) s = holding l k s.
Proof. unfold bucket, holding. destruct (kl_entries l !! k); [done|]. apply rate_new. Qed.

Lemma full_nonneg : 0 <= full.
Proof using Hburst. pose proof (unit_pos rps). nia. Qed.

Lemma tokens_later l t s :
  made rps (po_Burst p) l → t <= s → 0 <= tokens l t → 0 <= tokens l s ∧ tokens l s <= tokens l t + R * (s - t).
Proof using Hburst.
  intros Hm Hts Ht. rewrite (rate_refill _ _ l t s Hm Hts). pose proof full_nonneg.
  pose proof (refill_nonneg rps). split; [|lia]. apply Z.min_glb; nia.
Qed.

Lemma holding_later T l k t s : sound T l → T <= t → t <= s →
  0 <= holding l k t ∧ holding l k s <= holding l k t + R * (s - t).
Proof using Hburst.
  intros [Hp Hl] HT Hts. unfold holding. pose proof (refill_nonneg rps).
  destruct (kl_entries l !! k) as [e|] eqn:E.
  - destruct (Hl k e E) as (Hm & t0 & Ht1 & Ht2 & Ht3).
    destruct (tokens_later _ t0 t Hm ltac:(lia) Ht3) as [Ht4 _].
    by destruct (tokens_later _ t s Hm ltac:(lia) Ht4).
  - split; [apply full_nonneg|nia].
Qed.

(** ** The sweep *)

Lemma sweep_holding T l now k s : sound T l → T <= s → now <= s →
  holding (evictIdle now l) k s = holding l k s.
Proof using Hburst Hidle.
  intros [Hp Hl] HT Hs. unfold holding, evictIdle. simpl. rewrite map_lookup_filter.
  destruct (kl_entries l !! k) as [e|] eqn:E; [|done]. simpl.
  case_guard as Hg; simpl; [done|]. destruct (decide (e_lastSeen e < now - po_IdleEvict (kl_policy l))) as [Hc|]; [|done].
  destruct (Hl k e E) as (Hm & t0 & Ht1 & Ht2 & Ht3). rewrite Hp in Hc.
  rewrite (rate_refill _ _ _ t0 s Hm ltac:(lia)). pose proof (refill_nonneg rps). symmetry. apply Z.min_l. nia.
Qed.

Lemma sweep_sound T now l : sound T l → sound (Z.max T now) (evictIdle now l).
Proof.
  intros [Hp Hl]. split; [done|]. intros k e. unfold evictIdle. simpl.
  rewrite map_lookup_filter_Some. intros [E _]. destruct (Hl k e E) as (Hm & t0 & Ht1 & Ht2 & Ht3).
  split; [done|]. exists t0. split_ands; lia.
Qed.

(** ** Allow *)

(** The outcome of a call is a function of what the key may spend. *)
Definition grants (c : Readings) (h : Time → Z) : bool :=
  bool_decide (0 <= Z.min full (h (rd_reserve c) - U + R * (rd_delay c - rd_reserve c))).
Definition spent (c : Readings) (h : Time → Z) (s : Time) : Z :=
  Z.min full (h (rd_reserve c) - U + R * (s - rd_reserve c)).

Lemma reserve_tokens T l k c s : sound T l → T <= rd_seen c → in_order c → rd_reserve c <= s →
  tokens (Reserve (rd_reserve c) (bucket l k)).1 s = spent c (holding l k) s.
Proof.
  intros Hs HT Hc Hle. pose proof (bucket_made T l k Hs) as Hm.
  destruct (rate_reserve _ _ _ (rd_reserve c) Hm) as [Hm' Ht].
  rewrite (rate_refill _ _ _ _ _ Hm' Hle), Ht, bucket_holding. done.
Qed.

Lemma Allow_grants T l k c : sound T l → T <= rd_seen c → in_order c →
  (Allow c l k).2.1 = grants c (holding l k).
Proof.
  intros Hs HT Hc. unfold Allow. destruct Hs as [Hp Hl] eqn:EHs. rewrite Hp. fold (bucket l k).
  pose proof (bucket_made T l k Hs) as Hm.
  pose proof (reserve_tokens T l k c (rd_delay c) Hs HT Hc ltac:(unfold in_order in Hc; lia)) as Ht.
  destruct (rate_delay _ _ _ (rd_reserve c) (rd_delay c) Hm ltac:(unfold in_order in Hc; lia)) as [_ Hd].
  destruct (Reserve (rd_reserve c) (bucket l k)) as [lim rsv]. simpl in *.
  unfold grants. fold (spent c (holding l k) (rd_delay c)). rewrite <- Ht.
  case_decide as E; simpl; symmetry; [apply bool_decide_eq_true|apply bool_decide_eq_false]; tauto.
Qed.

Definition after_call (c : Readings) (h : Time → Z) (s : Time) : Z :=
  if grants c h then spent c h s
  else if decide (0 <= spent c h (rd_cancel c)) then spent c h s else h s.

Lemma Allow_holding T l k c s : sound T l → T <= rd_seen c → in_order c → rd_cancel c <= s →
  holding (Allow c l k).1 k s = after_call c (holding l k) s.
Proof.
  intros Hs HT Hc Hle. unfold after_call. rewrite <- (Allow_grants T l k c Hs HT Hc).
  unfold Allow. destruct Hs as [Hp Hl] eqn:EHs. rewrite Hp. fold (bucket l k).
  pose proof (bucket_made T l k Hs) as Hm. unfold in_order in Hc.
  pose proof (reserve_tokens T l k c s Hs HT Hc ltac:(lia)) as Ht.
  pose proof (reserve_tokens T l k c (rd_cancel c) Hs HT Hc ltac:(lia)) as Htc.
  destruct (rate_delay _ _ _ (rd_reserve c) (rd_cancel c) Hm ltac:(lia)) as [_ Hd].
  destruct (rate_cancel _ _ _ (rd_reserve c) (rd_cancel c) s Hm ltac:(lia) Hle) as [_ Hcan].
  destruct (Reserve (rd_reserve c) (bucket l k)) as [lim rsv]. simpl in *.
  destruct (decide (Delay (rd_delay c) rsv = 0)) as [E|E]; unfold holding at 1; simpl;
    rewrite lookup_insert_eq; simpl; [done|].
  rewrite Hcan. rewrite <- Htc. destruct (decide (Delay (rd_cancel c) rsv = 0)) as [Ez|En].
  - rewrite decide_True by tauto. done.
  - rewrite decide_False by tauto. apply bucket_holding.
Qed.

Lemma Allow_other l k k' c s : k ≠ k' → holding (Allow c l k').1 k s = holding l k s.
Proof.
  intros Hk. unfold Allow. destruct (Reserve _ _) as [lim rsv]. case_decide; unfold holding; simpl;
    by rewrite lookup_insert_ne by done.
Qed.

Lemma Allow_sound T l k c : sound T l → T <= rd_seen c → in_order c → sound (rd_cancel c) (Allow c l k).1.
Proof using Hburst.
  intros Hs HT Hc. pose proof (Allow_holding T l k c (rd_cancel c) Hs HT Hc ltac:(lia)) as Hh.
  pose proof (holding_later T l k (rd_reserve c) (rd_cancel c) Hs) as Hlater.
  pose proof (holding_later T l k (rd_cancel c) (rd_cancel c) Hs) as Hlater'.
  assert (Hpos : 0 <= holding (Allow c l k).1 k (rd_cancel c)).
  { unfold in_order in Hc. rewrite Hh. unfold after_call. destruct (grants c _) eqn:Eg.
    - apply bool_decide_eq_true in Eg. unfold spent. pose proof (refill_nonneg rps).
      apply Z.min_glb_iff in Eg as [? ?]. apply Z.min_glb; [done|nia].
    - case_decide; [done|]. apply Hlater'; lia. }
  pose proof (bucket_made T l k Hs) as Hm. unfold in_order in Hc.
  destruct (rate_reserve _ _ _ (rd_reserve c) Hm) as [Hmr _].
  destruct (rate_cancel _ _ _ (rd_reserve c) (rd_cancel c) (rd_cancel c) Hm ltac:(lia) ltac:(lia)) as [Hmc _].
  destruct Hs as [Hp Hl]. revert Hpos. unfold Allow, holding. rewrite Hp. fold (bucket l k).
  destruct (Reserve (rd_reserve c) (bucket l k)) as [lim rsv]. simpl in *.
  case_decide; simpl; rewrite lookup_insert_eq; simpl; intros Hpos; (split; [done|]); simpl.
  all: intros k' e; destruct (decide (k = k')) as [<-|Hne];
    [rewrite lookup_insert_eq; intros [= <-]; simpl; split; [done|exists (rd_cancel c); split_ands; lia]
    |rewrite lookup_insert_ne by done; intros E; destruct (Hl k' e E) as (? & t0 & ? & ? & ?);
     split; [done|exists t0; split_ands; lia]].
Qed.

(** ** Histories *)

Lemma fire_sound T l ev : sound T l → timely T [ev] →
  sound (match ev with EvAllow c _ => rd_cancel c | EvSweep now => Z.max T now end) (fire l ev).1.
Proof using Hburst.
  destruct ev as [c k|now]; intros Hl Ht; [|by apply sweep_sound].
  destruct Ht as (HT & Hc & _). pose proof (Allow_sound T l k c Hl HT Hc) as Ha.
  simpl. by destruct (Allow c l k).
Qed.

(** The calls of [k] that were let through between [t1] and [t2]. *)
Fixpoint passed (k : string) (t1 t2 : Time) (l : KeyedLimiter) (evs : list event) : Z :=
  match evs with
  | [] => 0
  | ev :: evs' =>
      let '(l', r) := fire l ev in
      match ev, r with
      | EvAllow c k', Some (true, _) =>
          if decide (k' = k ∧ t1 <= rd_seen c ∧ rd_delay c <= t2) then 1 else 0
      | _, _ => 0
      end + passed k t1 t2 l' evs'
  end.

Definition now_after (T : Time) (ev : event) : Time :=
  match ev with EvAllow c _ => rd_cancel c | EvSweep now => Z.max T now end.

Lemma timely_cons T ev evs : timely T (ev :: evs) → timely T [ev] ∧ timely (now_after T ev) evs.
Proof. destruct ev; simpl; tauto. Qed.

Lemma now_after_le T ev : timely T [ev] → T <= now_after T ev.
Proof. destruct ev; simpl; unfold in_order; lia. Qed.

Lemma holding_refill T l k t s : sound T l → T <= t → t <= s →
  holding l k s = Z.min full (holding l k t + R * (s - t)).
Proof using Hburst.
  intros [Hp Hl] HT Hts. unfold holding. pose proof (refill_nonneg rps).
  destruct (kl_entries l !! k) as [e|] eqn:E; [|nia].
  destruct (Hl k e E) as (Hm & _). by apply rate_refill.
Qed.

(** A call never leaves a key more than it had. *)
Lemma after_call_le T l k c s : sound T l → T <= rd_seen c → in_order c → rd_cancel c <= s →
  after_call c (holding l k) s <= holding l k s.
Proof using Hburst.
  intros Hl HT Hc Hs. unfold in_order in Hc. pose proof (unit_pos rps).
  assert (spent c (holding l k) s <= holding l k s).
  { unfold spent. rewrite (holding_refill T l k (rd_reserve c) s) by (done || lia). lia. }
  unfold after_call. destruct (grants _ _); [done|]. by case_decide.
Qed.

Lemma passed_one k t1 t2 l c k' : passed k t1 t2 l [EvAllow c k'] =
  if decide ((k' = k ∧ t1 <= rd_seen c ∧ rd_delay c <= t2) ∧ (Allow c l k').2.1 = true) then 1 else 0.
Proof.
  simpl. destruct (Allow c l k') as [l' [[] d]]; simpl; repeat case_decide; try lia; exfalso; naive_solver.
Qed.

Lemma passed_nonneg k t1 t2 l evs : 0 <= passed k t1 t2 l evs.
Proof.
  revert l. induction evs as [|ev evs IH]; intros l; simpl; [done|].
  destruct (fire l ev) as [l' r]. specialize (IH l').
  destruct ev as [c k'|]; [|lia]. destruct r as [[[] d]|]; try case_decide; lia.
Qed.

Lemma passed_cons k t1 t2 l ev evs :
  passed k t1 t2 l (ev :: evs) = passed k t1 t2 l [ev] + passed k t1 t2 (fire l ev).1 evs.
Proof. simpl. destruct (fire l ev) as [l' r]. simpl. lia. Qed.

(** A step that lets [k] through between [t1] and [t2] pays for it; no other
    step gains more than the refill. *)
Lemma step_pays T l ev k t1 t2 : sound T l → timely T [ev] →
  let l' := (fire l ev).1 in
  let m := Z.max T t1 in
  let m' := Z.max (now_after T ev) t1 in
  let n := passed k t1 t2 l [ev] in
  (m <= t2 → n * U + (if decide (m' <= t2) then holding l' k m' + R * (t2 - m') else 0)
             <= holding l k m + R * (t2 - m)) ∧
  (t2 < m → n = 0).
Proof using Hburst Hidle.
  intros Hl Ht l' m m' n. pose proof (refill_nonneg rps) as HR. pose proof (now_after_le T ev Ht) as Hle.
  assert (Hstep : n = 0 → holding l' k m' <= holding l k m' →
    (m <= t2 → n * U + (if decide (m' <= t2) then holding l' k m' + R * (t2 - m') else 0)
               <= holding l k m + R * (t2 - m)) ∧ (t2 < m → n = 0)).
  { intros -> Hk. split; [|done]. intros Hw.
    destruct (holding_later T l k m m' Hl ltac:(lia) ltac:(lia)) as [Hpos Hlater]. case_decide; nia. }
  destruct ev as [c k'|now]; simpl in Hle.
  2:{ apply Hstep; [done|]. subst l' m'. simpl. by rewrite (sweep_holding T) by (done || lia). }
  destruct Ht as (HT & Hc & _). subst n. rewrite passed_one in *.
  assert (Hl' : l' = (Allow c l k').1) by (subst l'; simpl; by destruct (Allow c l k')).
  destruct (decide (k' = k)) as [->|Hk].
  2:{ apply Hstep; [by rewrite decide_False by naive_solver|]. by rewrite Hl', Allow_other by done. }
  destruct (decide _) as [[(_ & Hin1 & Hin2) Hg]|_]; [clear Hstep|].
  2:{ apply Hstep; [done|]. rewrite Hl', (Allow_holding T) by (done || (simpl in *; lia)).
      apply (after_call_le T); [done..|]. simpl in *; lia. }
  rewrite (Allow_grants T) in Hg by done. unfold in_order in Hc. simpl in m'.
  destruct (holding_later T l k m (rd_reserve c) Hl ltac:(lia) ltac:(lia)) as [Hpos Hlater].
  split; [|lia]. intros Hw. case_decide as Ed.
  - rewrite Hl', (Allow_holding T) by (done || (unfold in_order; lia)).
    unfold after_call. rewrite Hg. unfold spent. nia.
  - apply bool_decide_eq_true in Hg. apply Z.min_glb_iff in Hg as [_ Hg]. nia.
Qed.

(** In any window a key is let through at most [burst] times plus the tokens
    the bucket gains in the window. *)
Lemma passed_bound T l evs k t1 t2 : sound T l → timely T evs →
  let m := Z.max T t1 in
  (m <= t2 → passed k t1 t2 l evs * U <= holding l k m + R * (t2 - m)) ∧ (t2 < m → passed k t1 t2 l evs = 0).
Proof using Hburst Hidle.
  revert T l. induction evs as [|ev evs IH]; intros T l Hl Ht m.
  - simpl. pose proof (holding_later T l k m m Hl ltac:(lia) ltac:(lia)). pose proof (refill_nonneg rps).
    split; [nia|done].
  - apply timely_cons in Ht as [Ht Hrest]. pose proof (fire_sound T l ev Hl Ht) as Hl'.
    pose proof (now_after_le T ev Ht) as Hle.
    destruct (step_pays T l ev k t1 t2 Hl Ht) as [Hn Hz].
    destruct (IH (now_after T ev) (fire l ev).1 Hl' Hrest) as [IH1 IH2].
    rewrite passed_cons. split; intros Hw.
    + specialize (Hn Hw). case_decide as Ed.
      * specialize (IH1 Ed). rewrite Z.mul_add_distr_r.
      unfold m. lia.
      * rewrite (IH2 ltac:(lia)), Z.add_0_r. unfold m. lia.
    + rewrite (IH2 ltac:(lia)), (Hz Hw). lia.
Qed.

Lemma fresh_sound T interval : sound T (NewKeyedLimiter p interval).
Proof. split; [done|]. intros k e. unfold NewKeyedLimiter. simpl. by rewrite lookup_empty. Qed.

(** ** The sweep is never noticed *)

(** Two limiters that differ in their tables only. *)
Definition alike (T : Time) (l1 l2 : KeyedLimiter) : Prop :=
  sound T l1 ∧ sound T l2 ∧ ∀ k s, T <= s → holding l1 k s = holding l2 k s.

Lemma after_call_ext T c h1 h2 s : (∀ s, T <= s → h1 s = h2 s) → T <= rd_seen c → in_order c → rd_cancel c <= s →
  grants c h1 = grants c h2 ∧ after_call c h1 s = after_call c h2 s.
Proof.
  intros Hh HT Hc Hs. unfold after_call, grants, spent, in_order in *.
  rewrite !(Hh (rd_reserve c)), !(Hh s) by lia. done.
Qed.

Lemma alike_call T l1 l2 c k : alike T l1 l2 → T <= rd_seen c → in_order c →
  (Allow c l1 k).2.1 = (Allow c l2 k).2.1 ∧ alike (rd_cancel c) (Allow c l1 k).1 (Allow c l2 k).1.
Proof using Hburst.
  intros (Hs1 & Hs2 & Hh) HT Hc.
  rewrite (Allow_grants T l1), (Allow_grants T l2) by done. split.
  { apply (after_call_ext T c _ _ (rd_cancel c)); auto; lia. }
  split_and!; [by eapply Allow_sound..|]. intros k' s Hs.
  destruct (decide (k' = k)) as [->|Hne].
  - rewrite (Allow_holding T l1), (Allow_holding T l2) by done. apply (after_call_ext T); auto.
  - rewrite !Allow_other by done. apply Hh. unfold in_order in Hc. lia.
Qed.

Definition is_call (ev : event) : Prop := match ev with EvAllow _ _ => True | EvSweep _ => False end.
#[export] Instance is_call_dec ev : Decision (is_call ev).
Proof. destruct ev; simpl; apply _. Defined.

(** The verdicts of the calls, in order. *)
Definition verdicts (l : KeyedLimiter) (evs : list event) : list bool :=
  omap (fmap fst) (trace l evs).

Lemma verdicts_call l c k evs :
  verdicts l (EvAllow c k :: evs) = (Allow c l k).2.1 :: verdicts (Allow c l k).1 evs.
Proof. unfold verdicts. simpl. by destruct (Allow c l k). Qed.

Lemma verdicts_alike T l1 l2 evs : alike T l1 l2 → timely T evs →
  verdicts l1 evs = verdicts l2 (filter is_call evs).
Proof using Hburst Hidle.
  revert T l1 l2. induction evs as [|ev evs IH]; intros T l1 l2 Ha Ht; [done|].
  apply timely_cons in Ht as [Ht Hrest]. destruct ev as [c k|now].
  - rewrite filter_cons_True by exact I. destruct Ht as (HT & Hc & _).
    destruct (alike_call T l1 l2 c k Ha HT Hc) as [Hv Ha'].
    rewrite !verdicts_call, Hv. f_equal. by eapply IH.
  - rewrite filter_cons_False by naive_solver. unfold verdicts. simpl. apply (IH (Z.max T now)); [|done].
    destruct Ha as (Hs1 & Hs2 & Hh). split_and!.
    + by apply sweep_sound.
    + destruct Hs2 as [Hp Hl]. split; [done|]. intros k e E. destruct (Hl k e E) as (? & t & ? & ? & ?).
      split; [done|]. exists t. split_ands; lia.
    + intros k s Hs. rewrite (sweep_holding T) by (done || lia). apply Hh. lia.
Qed.

End RateFacts.

(** ** A concrete token bucket *)

Module ToyRate.

(** The instant of the last change and the units held then; a full bucket has none. *)
Record limiter := mkLimiter { l_rps : float64; l_burst : Z; l_state : option (Z * Z) }.
Record reservation := mkReservation { v_before : limiter; v_after : limiter }.

Definition holds (l : limiter) (t : Z) : Z :=
  match l_state l with
  | None => l_burst l * unit_of (l_rps l)
  | Some (last, n) => Z.min (l_burst l * unit_of (l_rps l)) (n + refill_of (l_rps l) * (t - last))
  end.
Definition reserve (t : Z) (l : limiter) : limiter * reservation :=
  let l' := mkLimiter (l_rps l) (l_burst l) (Some (t, holds l t - unit_of (l_rps l))) in
  (l', mkReservation l l').
Definition delay (t : Z) (r : reservation) : Z := Z.max 0 (- holds (v_after r) t).

#[export] Instance lib : RateLib := {|
  Limiter := limiter; Reservation := reservation;
  NewLimiter rps b := mkLimiter rps b None;
  Reserve := reserve; Delay := delay;
  Cancel t r l := if decide (delay t r = 0) then l else v_before r;
  float_overflow _ := 0 |}.

Definition made (rps : float64) (b : Z) (l : limiter) : Prop :=
  l_rps l = rps ∧ l_burst l = b ∧ match l_state l with Some (_, n) => n <= b * unit_of rps | None => True end.

Lemma holds_le l t : holds l t <= l_burst l * unit_of (l_rps l).
Proof. unfold holds. destruct (l_state l) as [[]|]; lia. Qed.

Lemma made_refill rps b l t t' : made rps b l → t <= t' →
  holds l t' = Z.min (b * unit_of rps) (holds l t + refill_of rps * (t' - t)).
Proof.
  intros (<- & <- & Hs) Ht. unfold holds. pose proof (refill_nonneg (l_rps l)).
  destruct (l_state l) as [[last n]|]; nia.
Qed.

#[export] Instance laws : @RateLaws lib.
Proof.
  refine {| RateLimit.made := (made : float64 → Z → @Limiter lib → Prop);
            RateLimit.tokens := (holds : @Limiter lib → Time → Z) |}.
  - intros rps b. by repeat split.
  - apply made_refill.
  - intros rps b l t (<- & <- & Hs). pose proof (holds_le l t). pose proof (unit_pos (l_rps l)).
    split; [repeat split; simpl; lia|]. unfold holds at 1. simpl. lia.
  - intros rps b l t t' Hm Ht. simpl. unfold delay. simpl. lia.
  - intros rps b l t t' s Hm Ht Hs. simpl. destruct (decide _); simpl; [|done].
    split; [|done]. destruct Hm as (<- & <- & _). pose proof (holds_le l t). pose proof (unit_pos (l_rps l)).
    repeat split; simpl; lia.
Defined.

End ToyRate.

(** ** config/config.yaml *)

(** A decimal fraction is read as the nearest float64. *)
Definition milli (n : Z) : float64 := float_div (float_of_int n) (float_of_int 1000).
Definition shipped : RateLimitConfig := mkRateLimitConfig true (5 * Minute)
  (mkConfigPolicy (milli 166) 10) (mkConfigPolicy (milli 83) 5) (mkConfigPolicy (milli 50) 3)
  (mkConfigPolicy (milli 50) 3) (mkConfigPolicy (milli 500) 30) (mkConfigPolicy (milli 83) 5).
Definition shipped_policies : list ConfigPolicy := [
  rc_LoginPerIP shipped; rc_LoginPerUsername shipped; rc_ResetPerIP shipped; rc_ResetPerEmail shipped;
  rc_ServiceAuthPerClient shipped; rc_ChangePasswordPerUser shipped].

Section Service.
Context `{Runtime} `{Grpc} `{RateLaws}.

(** A bucket left alone for [IdleEvict] is full again, with [hold] to spare. *)
Definition refills (hold : Z) (p : Policy) : Prop :=
  1 <= po_Burst p ∧ po_Burst p * unit_of (po_RPS p) <= refill_of (po_RPS p) * (po_IdleEvict p - hold).

(** ** The steps of the interceptor *)

Inductive rate_step :=
  | StRequest (now : Time) (ctx : Ctx) (req : Request)
  | StSweep (name : string) (now : Time).

Definition rate_fire (i : RateInterceptor) (st : rate_step) : RateInterceptor * bool :=
  match st with
  | StRequest now ctx req =>
      let '(i', denied) := throttle now i (FullMethod req) ctx req in (i', bool_decide (denied = None))
  | StSweep name now => (with_limiters i (alter (evictIdle now) name (ri_limiters i)), false)
  end.

Definition login_for (k : string) (t1 t2 : Time) (st : rate_step) : bool :=
  match st with
  | StRequest now ctx req =>
      bool_decide (FullMethod req = "/sso.auth.v1.AuthService/Login" ∧
        extractLoginIdentifier ctx req = Some k ∧ t1 <= now <= t2)
  | StSweep _ _ => false
  end.

(** The sign-ins for [k] between [t1] and [t2] that get past the limiter. *)
Fixpoint attempts (k : string) (t1 t2 : Time) (i : RateInterceptor) (sts : list rate_step) : Z :=
  match sts with
  | [] => 0
  | st :: sts' =>
      let '(i', ok) := rate_fire i st in
      (if ok && login_for k t1 t2 st then 1 else 0) + attempts k t1 t2 i' sts'
  end.

(** The requests are served in the order of their instants. *)
Fixpoint ordered (T : Time) (sts : list rate_step) : Prop :=
  match sts with
  | [] => True
  | StRequest now _ _ :: sts' => T <= now ∧ ordered now sts'
  | StSweep _ now :: sts' => ordered (Z.max T now) sts'
  end.

(** ** What one policy's limiter sees of a request *)

Definition calls (now : Time) (keys : list string) : list event :=
  (λ key, EvAllow (mkReadings now now now now) key) <$> keys.

Definition final (l : KeyedLimiter) (evs : list event) : KeyedLimiter := foldl (λ l ev, (fire l ev).1) l evs.

Lemma passed_app k t1 t2 l evs evs' :
  passed k t1 t2 l (evs ++ evs') = passed k t1 t2 l evs + passed k t1 t2 (final l evs) evs'.
Proof.
  revert l. induction evs as [|ev evs IH]; intros l; [done|]. change ((ev :: evs) ++ evs') with (ev :: evs ++ evs').
  rewrite (passed_cons k t1 t2 l ev (evs ++ evs')), (passed_cons k t1 t2 l ev evs), IH.
  change (final l (ev :: evs)) with (final (fire l ev).1 evs). lia.
Qed.

Lemma enforce_calls pn now ctx req (limits : list (MethodLimit (Req := Request))) lims l k t1 t2 :
  lims !! pn = Some l → t1 <= now <= t2 →
  ∃ keys, (enforce now ctx req limits lims).1 !! pn = Some (final l (calls now keys)) ∧
    ∀ ml, (enforce now ctx req limits lims).2 = None → ml ∈ limits → ml_Policy ml = pn →
      ml_Extractor ml ctx req = Some k → 1 <= passed k t1 t2 l (calls now keys).
Proof.
  revert lims l. induction limits as [|ml rest IH]; intros lims l Hl Hnow; simpl.
  { exists []. split; [done|]. intros ml _ Hin. by apply elem_of_nil in Hin. }
  assert (Hskip : (∀ key, ml_Extractor ml ctx req = Some key → lims !! ml_Policy ml = None) →
    ∃ keys, (enforce now ctx req rest lims).1 !! pn = Some (final l (calls now keys)) ∧
      ∀ ml', (enforce now ctx req rest lims).2 = None → ml' ∈ ml :: rest → ml_Policy ml' = pn →
        ml_Extractor ml' ctx req = Some k → 1 <= passed k t1 t2 l (calls now keys)).
  { intros Hno. destruct (IH lims l Hl Hnow) as (keys & Hk & Hp). exists keys. split; [exact Hk|].
    intros ml' Hd [->|Hin]%elem_of_cons Hpn Hex; [|eauto]. specialize (Hno k Hex). congruence. }
  destruct (ml_Extractor ml ctx req) as [key|] eqn:Hex; [|by apply Hskip].
  destruct (lims !! ml_Policy ml) as [lim|] eqn:Hlim; [|apply Hskip; naive_solver]. clear Hskip.
  destruct (Allow _ lim key) as [lim' [allowed retryAfter]] eqn:Ha.
  destruct (decide (ml_Policy ml = pn)) as [Hpn|Hpn].
  - rewrite Hpn, Hl in Hlim. injection Hlim as <-. destruct allowed.
    + destruct (IH (<[ml_Policy ml:=lim']> lims) lim') as (keys & Hk & Hp);
        [by rewrite Hpn, lookup_insert_eq|done|].
      exists (key :: keys). split.
      { rewrite Hk. unfold final. simpl. by rewrite Ha. }
      change (calls now (key :: keys)) with (EvAllow (mkReadings now now now now) key :: calls now keys).
      rewrite passed_cons.
      pose proof (passed_nonneg k t1 t2 (fire l (EvAllow (mkReadings now now now now) key)).1 (calls now keys)).
      pose proof (passed_nonneg k t1 t2 l [EvAllow (mkReadings now now now now) key]).
      intros ml' Hd [->|Hin]%elem_of_cons Hpn' Hex'.
      * rewrite Hex in Hex'. injection Hex' as ->. rewrite passed_one, Ha, decide_True by done. lia.
      * specialize (Hp ml' Hd Hin Hpn' Hex'). simpl in *. rewrite Ha in *. simpl in *. lia.
    + exists [key]. split; [|done]. simpl. rewrite Hpn, lookup_insert_eq. by rewrite Ha.
  - destruct allowed.
    + destruct (IH (<[ml_Policy ml:=lim']> lims) l) as (keys & Hk & Hp);
        [by rewrite lookup_insert_ne|done|].
      exists keys. split; [done|]. intros ml' Hd [->|Hin]%elem_of_cons Hpn' Hex'; [done|eauto].
    + exists []. split; [|done]. simpl. by rewrite lookup_insert_ne.
Qed.

Lemma timely_mono hold T T' evs : T <= T' → timely hold T' evs → timely hold T evs.
Proof.
  revert T T'. induction evs as [|[c k|now] evs IH]; intros T T' HT; simpl; [done|..].
  - intros (? & ? & ?). split_and!; try done. lia.
  - apply IH. lia.
Qed.

Lemma timely_calls T now keys evs : T <= now → timely 0 now evs → timely 0 T (calls now keys ++ evs).
Proof.
  revert T. induction keys as [|key keys IH]; intros T HT Ht; [by eapply timely_mono|].
  simpl. split_and!; [done|unfold in_order; simpl; lia|]. by apply IH.
Qed.

Definition instant (T : Time) (st : rate_step) : Time :=
  match st with StRequest now _ _ => now | StSweep _ now => Z.max T now end.

(** What the limiter of the sign-in identifiers sees of a step. *)
Lemma step_calls k t1 t2 (i : RateInterceptor (Req := Request)) l st T :
  ri_bindings i = rate_bindings → ri_limiters i !! LoginPerUsername = Some l → ordered T [st] →
  ∃ evs, ri_bindings (rate_fire i st).1 = rate_bindings ∧
    ri_limiters (rate_fire i st).1 !! LoginPerUsername = Some (final l evs) ∧
    (∀ evs', timely 0 (instant T st) evs' → timely 0 T (evs ++ evs')) ∧
    (if (rate_fire i st).2 && login_for k t1 t2 st then 1 else 0) <= passed k t1 t2 l evs.
Proof.
  intros Hb Hl Ho. destruct st as [now ctx req|name now]; simpl in Ho.
  - destruct Ho as [HT _]. simpl. unfold throttle. rewrite Hb.
    destruct (limits_of rate_bindings (FullMethod req)) as [limits|] eqn:Elim; simpl.
    2:{ exists []. split_and!; [done|done|intros; by eapply timely_mono|].
        rewrite bool_decide_eq_false_2; [done|]. intros [Hm _]. by rewrite Hm in Elim. }
    destruct (decide (t1 <= now <= t2)) as [Hw|Hw].
    + destruct (enforce_calls LoginPerUsername now ctx req limits (ri_limiters i) l k t1 t2 Hl Hw) as (keys & Hk & Hp).
      destruct (enforce now ctx req limits (ri_limiters i)) as [lims denied]. simpl in *.
      exists (calls now keys). split_and!; [done|done|intros; by apply timely_calls|].
      destruct denied; simpl; [apply passed_nonneg|].
      case_bool_decide as Hlog; [|apply passed_nonneg]. destruct Hlog as (Hm & Hex & _). rewrite Hm in Elim.
      injection Elim as <-. apply (Hp (mkMethodLimit LoginPerUsername extractLoginIdentifier)); set_solver.
    + destruct (enforce_calls LoginPerUsername now ctx req limits (ri_limiters i) l k now now Hl ltac:(lia)) as (keys & Hk & _).
      destruct (enforce now ctx req limits (ri_limiters i)) as [lims denied]. simpl in *.
      exists (calls now keys). split_and!; [done|done|intros; by apply timely_calls|].
      rewrite (bool_decide_eq_false_2 (FullMethod req = _ ∧ _)) by naive_solver.
      rewrite andb_false_r. apply passed_nonneg.
  - simpl. destruct (decide (name = LoginPerUsername)) as [->|Hne].
    + exists [EvSweep now]. split_and!; [done| |done|apply passed_nonneg]. by rewrite lookup_alter_eq, Hl.
    + exists []. split_and!; [done| |intros; eapply timely_mono; [|done]; simpl; lia|done].
      by rewrite lookup_alter_ne by done.
Qed.

Lemma attempts_passed k t1 t2 sts (i : RateInterceptor (Req := Request)) l T :
  ri_bindings i = rate_bindings → ri_limiters i !! LoginPerUsername = Some l → ordered T sts →
  ∃ evs, timely 0 T evs ∧ attempts k t1 t2 i sts <= passed k t1 t2 l evs.
Proof.
  revert i l T. induction sts as [|st sts IH]; intros i l T Hb Hl Ho; [by exists []|].
  assert (Hst : ordered T [st] ∧ ordered (instant T st) sts) by (destruct st; simpl in *; tauto).
  destruct (step_calls k t1 t2 i l st T Hb Hl (proj1 Hst)) as (evs1 & Hb' & Hl' & Ht & Hn).
  destruct (IH _ _ _ Hb' Hl' (proj2 Hst)) as (evs2 & Ht2 & Hle).
  exists (evs1 ++ evs2). split; [by apply Ht|]. rewrite passed_app. simpl.
  destruct (rate_fire i st) as [i' ok]. simpl in *. lia.
Qed.

(** ** The guarantees *)

(** Between any two instants a key is let through at most [burst] times plus
    the tokens its bucket gains meanwhile, whatever the other keys do and
    whenever the sweep runs. *)
Theorem limiter_bound (p : Policy) hold interval T evs k t1 t2 :
  refills hold p → timely hold T evs → t1 <= t2 →
  passed k t1 t2 (NewKeyedLimiter p interval) evs * unit_of (po_RPS p)
    <= po_Burst p * unit_of (po_RPS p) + refill_of (po_RPS p) * (t2 - t1).
Proof.
  intros [Hb Hi] Ht Hw. pose proof (refill_nonneg (po_RPS p)). pose proof (unit_pos (po_RPS p)).
  destruct (passed_bound p hold Hb Hi T (NewKeyedLimiter p interval) evs k t1 t2) as [Hin Hout];
    [apply fresh_sound|done|]. unfold holding in Hin. simpl in Hin. rewrite lookup_empty in Hin.
  destruct (decide (t2 < Z.max T t1)); [rewrite Hout by done; nia|]. specialize (Hin ltac:(lia)). nia.
Qed.

(** C24. Evicting idle buckets changes no verdict: the limiter answers as one that
    keeps every bucket forever. *)
Theorem eviction_unobservable (p : Policy) hold interval T evs :
  refills hold p → timely hold T evs →
  verdicts (NewKeyedLimiter p interval) evs = verdicts (NewKeyedLimiter p interval) (filter is_call evs).
Proof.
  intros [Hb Hi] Ht. apply (verdicts_alike p hold Hb Hi T); [|done].
  split_and!; [apply fresh_sound..|done].
Qed.

(** C15. The sign-ins for one identifier that get past the rate limiter between two
    instants are at most the burst of its policy plus what its bucket gains,
    from however many addresses they come. *)
Theorem login_attempts_bounded c i k t1 t2 T sts :
  buildRateLimiter c = Some i → refills 0 (toPolicy LoginPerUsername (rc_LoginPerUsername c)) →
  ordered T sts → t1 <= t2 →
  let rps := cp_Rps (rc_LoginPerUsername c) in
  attempts k t1 t2 i sts * unit_of rps
    <= cp_Burst (rc_LoginPerUsername c) * unit_of rps + refill_of rps * (t2 - t1).
Proof.
  intros Hi [Hb Hidle] Ho Hw rps. unfold buildRateLimiter, New in Hi.
  destruct (forallb _ _); [|done]. injection Hi as <-.
  set (p := toPolicy LoginPerUsername (rc_LoginPerUsername c)) in *.
  destruct (attempts_passed k t1 t2 sts
    (mkRateInterceptor (list_to_map ((λ p, (po_Name p, NewKeyedLimiter p (rc_CleanupInterval c))) <$>
       [toPolicy LoginPerIP (rc_LoginPerIP c); p; toPolicy ResetPerIP (rc_ResetPerIP c);
        toPolicy ResetPerEmail (rc_ResetPerEmail c); toPolicy ServiceAuthPerClient (rc_ServiceAuthPerClient c);
        toPolicy ChangePasswordPerUser (rc_ChangePasswordPerUser c)])) rate_bindings)
    (NewKeyedLimiter p (rc_CleanupInterval c)) T) as (evs & Ht & Hle); [done|by simplify_map_eq|done|].
  pose proof (unit_pos rps) as Hu. pose proof (refill_nonneg rps) as Hr.
  destruct (passed_bound p 0 Hb Hidle T (NewKeyedLimiter p (rc_CleanupInterval c)) evs k t1 t2) as [Hin Hout];
    [apply fresh_sound|done|]. unfold holding in Hin. simpl in Hin. rewrite lookup_empty in Hin.
  change (po_RPS p) with rps in *. change (po_Burst p) with (cp_Burst (rc_LoginPerUsername c)) in *.
  fold rps in Hidle, Hin. set (B := cp_Burst (rc_LoginPerUsername c)) in *. set (a := attempts _ _ _ _ _) in *.
  set (n := passed _ _ _ _ _) in *. clearbody a n B rps. clear - Hb Hle Hin Hout Hw Hu Hr.
  destruct (decide (t2 < Z.max T t1)); [rewrite Hout in Hle by done; nia|]. specialize (Hin ltac:(lia)). nia.
Qed.

End Service.

(** ** Instances *)

(** Every policy of the shipped configuration refills its bucket before the
    sweep may drop it, were a call to hold the lock for a second. *)
Lemma shipped_refills :
  Forall (λ p, refills 1000000000 (toPolicy (H1 := ToyRate.lib) "" p)) shipped_policies.
Proof. repeat constructor; apply (bool_decide_unpack _); by vm_compute. Qed.

Section Witness.
#[local] Existing Instance ToyRate.lib.
#[local] Existing Instance ToyRate.laws.
#[local] Existing Instance toy.
#[local] Existing Instance ToyGrpc.grpc.

Definition by_username : Policy := toPolicy LoginPerUsername (rc_LoginPerUsername shipped).

(** Seven sign-ins at once, then one a minute later, after a sweep. *)
Definition burst_of (n : nat) (t : Time) : list event :=
  replicate n (EvAllow (mkReadings t t t t) "ann").
Definition evening : list event := burst_of 7 0 ++ EvSweep Minute :: burst_of 1 Minute.

Lemma evening_timely : timely 0 0 evening.
Proof. simpl. unfold in_order, Minute. simpl. repeat split; lia. Qed.

Lemma by_username_refills : refills 0 by_username.
Proof. unfold refills. split; apply (bool_decide_unpack _); by vm_compute. Qed.

Lemma limiter_bound_witness :
  passed "ann" 0 Minute (NewKeyedLimiter by_username Minute) evening * unit_of (po_RPS by_username)
    <= 5 * unit_of (po_RPS by_username) + refill_of (po_RPS by_username) * Minute.
Proof.
  exact (limiter_bound by_username 0 Minute 0 evening "ann" 0 Minute by_username_refills evening_timely
    ltac:(unfold Minute; lia)).
Defined.

Lemma eviction_unobservable_witness :
  verdicts (NewKeyedLimiter by_username Minute) (filter is_call evening) =
    [true; true; true; true; true; false; false; true].
Proof.
  rewrite <- (eviction_unobservable by_username 0 Minute 0 evening by_username_refills evening_timely).
  vm_compute. reflexivity.
Defined.

Definition attempt (user peer : string) (t : Time) : rate_step :=
  StRequest t (mkCtx None None (Some peer))
    (ReqLogin (mkLoginRequest (AppTarget_AppId "idp") (Identifier_Username user) "guess" None)).
Definition attack : list rate_step :=
  [attempt "Ann" "10.0.0.1:7" 0; attempt "ann " "10.0.0.2:7" 0; attempt "ann" "10.0.0.3:7" 1;
   attempt "ann" "10.0.0.4:7" 1; attempt "ann" "10.0.0.5:7" 2; attempt "ANN" "10.0.0.6:7" 2;
   StSweep LoginPerIP 2; attempt "ann" "10.0.0.7:7" 3].

Lemma login_attempts_bounded_witness :
  match buildRateLimiter shipped with
  | Some i => attempts "ann" 0 1000000000 i attack <= 5
  | None => False
  end.
Proof.
  assert (Hs : match buildRateLimiter shipped with Some _ => true | None => false end = true)
    by (vm_compute; reflexivity).
  destruct (buildRateLimiter shipped) as [i|] eqn:Ei; [clear Hs|discriminate Hs].
  pose proof (login_attempts_bounded shipped i "ann" 0 1000000000 0 attack Ei by_username_refills
    ltac:(unfold attack; simpl; repeat split; lia) ltac:(lia)) as Hb.
  assert (Hu : unit_of (cp_Rps (rc_LoginPerUsername shipped)) = 10 ^ 9 * 2 ^ 56) by by vm_compute.
  assert (Hr : refill_of (cp_Rps (rc_LoginPerUsername shipped)) <= 6 * 10 ^ 15)
    by (apply (bool_decide_unpack _); by vm_compute).
  cbv zeta in Hb. rewrite Hu in Hb. change (cp_Burst (rc_LoginPerUsername shipped)) with 5 in Hb.
  nia.
Defined.

End Witness.
