(* ===== verification/InterceptorFacts.v ===== *)
(** * InterceptorFacts: who a private RPC is served for.

    The authentication interceptor fails closed: whatever the database answers,
    a private method reaches its handler only with the actor of a verified
    token whose session was active, and ValidateToken tells other services the
    same. *)
From S2P Require Import Prelude Errors Sql Monad Runtime Kernel World WorldFacts Session SessionRepo AuthBase.
From S2P Require Import GoStd GrpcBase Interceptor AuthLogin AuthGrpc Outcome SessionSafety GrpcFacts Scenario.
Local Open Scope Z_scope.

Section InterceptorFacts.
Context `{Runtime} (cfg : AuthConfig) (public : list string).

(** The claims a token carries at an instant. *)
Definition claims_at (now : Time) (token : string) : option Claims :=
  tokenClaimsToClaims <$> rt_jwt_parse token (cfg_issuer cfg) jwt_leeway now.

Definition session_active (now : Time) (d : DB) (id : string) : bool :=
  match sel_one (SessionRepo.where_id id) (db_sessions d) with
  | Some r => Session.IsActive now (Session.dbgenToDomain r)
  | None => false
  end.

(** Who a token stands for, as a function of the instant and the database. *)
Definition actor_of (now : Time) (d : DB) (ctx : Ctx) (token : string) : option Actor :=
  match claims_at now token with
  | None => None
  | Some c =>
      match kind_of (cl_SubjectType c) with
      | None => None
      | Some kind =>
          if bool_decide (kind = KindUser) && negb (session_active now d (cl_SessionID c)) then None
          else Some (mkActor (cl_Subject c) kind (cl_SessionID c) (PeerIP ctx) (UserAgentFromCtx ctx))
      end
  end.

Definition caller (now : Time) (d : DB) (ctx : Ctx) : option Actor :=
  match bearerFromCtx ctx with Reply token => actor_of now d ctx token | Refused _ => None end.

Lemma Verify_at token w :
  Verify cfg token w =
    (w, match claims_at (w_now w) token with Some c => Ok c | None => Err (EWrap "jwt" (EMsg "parse")) end).
Proof.
  unfold Verify, claims_at, gobind, mcatch, time_now, gets. by destruct (rt_jwt_parse _ _ _ _).
Qed.

Lemma session_admits_ok kind id w w' b : session_admits kind id w = (w', Ok b) → b = true →
  kind = KindUser → session_active (w_now w) (w_db (interfere w)) id = true.
Proof.
  unfold session_admits, session_active. intros E -> ->. simpl in E.
  destruct (SessionRepo.GetByID id w) as [w1 [s|e]] eqn:Eg; unfold mcatch in E; rewrite Eg in E; [|done].
  apply session_get_ok in Eg as (r & -> & -> & ->). unfold gobind, mcatch, time_now, gets in E.
  rewrite now_after_stmt in E. by injection E.
Qed.

(** The database, the clock and the schedule a request is handed on with. *)
Lemma session_admits_world kind id w : (session_admits kind id w).1 = w ∨ (session_admits kind id w).1 = after_stmt w.
Proof.
  unfold session_admits. case_decide; [|by left]. right. unfold mcatch at 1.
  destruct (SessionRepo.GetByID id w) as [w1 [s|e]] eqn:E.
  - apply session_get_ok in E as (r & _ & _ & ->). done.
  - unfold SessionRepo.GetByID, mcatch in E; autounfold with queries in E. destruct (query_one _ w) as [w2 [r|e2]] eqn:Eq; [done|].
    apply query_one_err in Eq as [-> _]. simpl. destruct (errors_is_no_rows e2); by injection E.
Qed.

Lemma authenticate_cases ctx token w :
  ((authenticate cfg ctx token w).1 = w ∨ (authenticate cfg ctx token w).1 = after_stmt w) ∧
  (∀ a, (authenticate cfg ctx token w).2 = Ok (Some a) →
     actor_of (w_now w) (w_db (interfere w)) ctx token = Some a).
Proof.
  unfold authenticate, actor_of. unfold mcatch. rewrite Verify_at.
  destruct (claims_at (w_now w) token) as [c|]; [|by split; [left|]].
  destruct (kind_of (cl_SubjectType c)) as [kind|]; [|by split; [left|]].
  pose proof (session_admits_world kind (cl_SessionID c) w) as Hw.
  pose proof (session_admits_ok kind (cl_SessionID c) w) as Hs. unfold gobind, mcatch.
  destruct (session_admits kind (cl_SessionID c) w) as [w1 [[]|e]]; simpl in *; [|by split..].
  split; [done|]. intros a [= <-]. destruct (decide (kind = KindUser)) as [Hk|Hk].
  - by rewrite (Hs w1 true), andb_false_r.
  - by rewrite bool_decide_eq_false_2.
Qed.

Lemma authenticate_calm ctx token w : calm w →
  authenticate cfg ctx token w = (w, Ok (actor_of (w_now w) (w_db w) ctx token)).
Proof.
  intros Hc. unfold authenticate, actor_of, session_active. unfold mcatch at 1. rewrite Verify_at.
  destruct (claims_at (w_now w) token) as [c|]; [|done].
  destruct (kind_of (cl_SubjectType c)) as [kind|]; [|done].
  unfold session_admits. case_decide as Hk; [|by rewrite bool_decide_eq_false_2].
  rewrite bool_decide_eq_true_2 by done. unfold gobind, mcatch, SessionRepo.GetByID, mcatch; autounfold with queries.
  rewrite query_one_calm by done. destruct (sel_one _ _) as [r|]; [|done]. simpl.
  unfold time_now, gets. by destruct (Session.IsActive _ _).
Qed.

Lemma gate_world FullMethod ctx w :
  (pass_or_refuse cfg public FullMethod ctx w).1 = w ∨ (pass_or_refuse cfg public FullMethod ctx w).1 = after_stmt w.
Proof.
  unfold pass_or_refuse. case_decide; [by left|]. destruct (bearerFromCtx ctx) as [token|]; [|by left].
  destruct (authenticate_cases ctx token w) as [Hw _].
  by destruct (authenticate cfg ctx token w) as [w1 [[a|]|]].
Qed.

Lemma gate_fail_closed FullMethod ctx w r : FullMethod ∉ public →
  (pass_or_refuse cfg public FullMethod ctx w).2 = r →
  (∃ a, caller (w_now w) (w_db (interfere w)) ctx = Some a ∧ r = Reply (Inject ctx a)) ∨
  r = Refused errUnauthenticated.
Proof.
  unfold pass_or_refuse, caller. intros Hp <-. rewrite decide_False by done.
  destruct (bearerFromCtx ctx) as [token|]; [|by right].
  destruct (authenticate_cases ctx token w) as [_ Ha].
  destruct (authenticate cfg ctx token w) as [w1 [[a|]|]]; [left|by right..]. exists a. split; [by apply Ha|done].
Qed.

(** C3. Authentication fails closed: whatever fails and whatever runs
    concurrently, a private RPC reaches its handler only for the caller its
    bearer token stands for at that instant - a token that verifies, of a user
    whose session row is active or of a service account - and with the
    caller's address; every other request gets the one refusal. A calm
    database refuses nobody wrongly, and deciding changes nothing. *)
Theorem private_rpcs_guarded FullMethod ctx w : FullMethod ∉ public →
  (∀ ctx', (pass_or_refuse cfg public FullMethod ctx w).2 = Reply ctx' →
     ∃ a, caller (w_now w) (w_db (interfere w)) ctx = Some a ∧ ctx' = Inject ctx a) ∧
  (∀ s, (pass_or_refuse cfg public FullMethod ctx w).2 = Refused s → s = errUnauthenticated) ∧
  (calm w → pass_or_refuse cfg public FullMethod ctx w =
     (w, match caller (w_now w) (w_db w) ctx with
         | Some a => Reply (Inject ctx a)
         | None => Refused errUnauthenticated
         end)).
Proof.
  intros Hp. split_and!.
  - intros ctx' E. destruct (gate_fail_closed FullMethod ctx w _ Hp E) as [(a & Ha & [= ->])|[=]]. eauto.
  - intros s E. by destruct (gate_fail_closed FullMethod ctx w _ Hp E) as [(a & Ha & [=])|[= ->]].
  - intros Hc. unfold pass_or_refuse, caller. rewrite decide_False by done.
    destruct (bearerFromCtx ctx) as [token|]; [|done]. rewrite authenticate_calm by done.
    by destruct (actor_of _ _ _ _).
Qed.

(** What Validate answers, on a calm database. *)
Lemma Validate_calm token w : calm w → token ≠ "" →
  AuthLogin.Validate cfg token w =
    (w, match claims_at (w_now w) token with
        | Some c =>
            let out := mkValidateOutput (cl_Subject c) (cl_SubjectType c) (cl_SessionID c) "" (cl_ExpiresAt c) in
            if decide (cl_SubjectType c = jwt_SubjectTypeUser) then
              if rt_uuid_valid (cl_SessionID c) && session_active (w_now w) (w_db w) (cl_SessionID c)
              then Ok out else Err ErrInvalidToken
            else if decide (cl_SubjectType c = jwt_SubjectTypeServiceAccount) then Ok out
            else Err ErrInvalidToken
        | None => Err ErrInvalidToken
        end).
Proof.
  intros Hc Ht. unfold AuthLogin.Validate, session_active. rewrite decide_False by done.
  unfold mcatch at 1. rewrite Verify_at. destruct (claims_at (w_now w) token) as [c|]; [|done].
  case_decide as Hu; [|by case_decide].
  unfold ParseSessionID. destruct (rt_uuid_valid _); [|done].
  unfold gobind, mcatch, lift, SessionRepo.GetByID, mcatch; autounfold with queries. rewrite query_one_calm by done.
  destruct (sel_one _ _) as [r|]; [|done]. simpl. unfold time_now, gets. by destruct (Session.IsActive _ _).
Qed.

(** C27. ValidateToken tells another service what the interceptor would decide
    itself: it accepts a token exactly when a private RPC with this bearer
    token would be served, for the same subject, kind and session; only a user
    token whose session id is no UUID, which the service never issues, is
    treated differently. *)
Theorem ValidateToken_agrees token ctx w out : calm w → token ≠ "" →
  (∀ c, claims_at (w_now w) token = Some c → cl_SubjectType c = jwt_SubjectTypeUser →
     rt_uuid_valid (cl_SessionID c) = true) →
  (AuthLogin.Validate cfg token w).2 = Ok out ↔
  ∃ a c, actor_of (w_now w) (w_db w) ctx token = Some a ∧ claims_at (w_now w) token = Some c ∧
    out = mkValidateOutput (a_ID a) (cl_SubjectType c) (a_SessionID a) "" (cl_ExpiresAt c) ∧
    kind_of (vo_SubjectType out) = Some (a_Kind a).
Proof.
  intros Hc Ht Hid. rewrite Validate_calm by done. unfold actor_of, kind_of. simpl.
  destruct (claims_at (w_now w) token) as [c|] eqn:Ec; [|naive_solver].
  destruct (decide (cl_SubjectType c = jwt_SubjectTypeUser)) as [Hu|Hu].
  - rewrite (Hid c) by done. rewrite bool_decide_eq_true_2 by done. simpl.
    destruct (session_active _ _ _); simpl; [|naive_solver]. split.
    + intros [= <-]. do 2 eexists. split_and!; [done..|]. simpl. by rewrite decide_True.
    + intros (a & c' & [= <-] & [= <-] & -> & _). done.
  - destruct (decide (cl_SubjectType c = jwt_SubjectTypeServiceAccount)) as [Hs|Hs]; [|naive_solver].
    rewrite bool_decide_eq_false_2 by done. simpl. split.
    + intros [= <-]. do 2 eexists. split_and!; [done..|]. simpl. by rewrite decide_False, decide_True.
    + intros (a & c' & [= <-] & [= <-] & -> & _). done.
Qed.

End InterceptorFacts.

(** ** Instances *)

Section Witness.
#[local] Existing Instance toy.

(** An access token of the user's live session, and a request that carries it. *)
Definition toy_token : string :=
  default "" (rt_jwt_sign (mkTokenClaims "sso" "idu" 1000 2000 "idj" jwt_SubjectTypeUser "idy")).
Definition toy_request : Ctx :=
  mkCtx None (Some [("authorization", ["Bearer " +:+ toy_token])]) (Some "10.0.0.9:4711").

Lemma private_rpcs_guarded_witness :
  (pass_or_refuse toy_cfg publicRPCs "/sso.auth.v1.AuthService/Logout" toy_request toy_world).2 =
    Reply (Inject toy_request (mkActor "idu" KindUser "idy" "10.0.0.9" "")) ∧
  (pass_or_refuse toy_cfg publicRPCs "/sso.auth.v1.AuthService/Logout" toy_ctx toy_world).2 = Refused errUnauthenticated.
Proof.
  assert (Hp : "/sso.auth.v1.AuthService/Logout" ∉ publicRPCs) by (apply (bool_decide_unpack _); by vm_compute).
  split.
  - destruct (private_rpcs_guarded toy_cfg publicRPCs _ toy_request toy_world Hp) as (_ & _ & Hcalm).
    rewrite Hcalm by by split. vm_compute. reflexivity.
  - destruct (private_rpcs_guarded toy_cfg publicRPCs _ toy_ctx toy_world Hp) as (_ & _ & Hcalm).
    rewrite Hcalm by by split. vm_compute. reflexivity.
Defined.

Lemma ValidateToken_agrees_witness :
  ∃ out, (AuthLogin.Validate toy_cfg toy_token toy_world).2 = Ok out ∧ vo_SubjectID out = "idu".
Proof.
  eexists. split.
  - apply (ValidateToken_agrees toy_cfg toy_token toy_request toy_world _ ltac:(by split) ltac:(by vm_compute)).
    + intros c E _. vm_compute in E. injection E as <-. reflexivity.
    + do 2 eexists. do 3 (split; [vm_compute; reflexivity|]). vm_compute. reflexivity.
  - reflexivity.
Defined.

End Witness.
