(* ===== verification/ServerFacts.v ===== *)
(** * ServerFacts: the server as a whole.

    What a request does to the database is what one of the use-cases of [Rpc]
    does, or nothing; so the invariants of [Change] hold along every history
    of the assembled server ([serve]): requests through the whole chain of
    interceptors under any schedule of failures and interference, ticks of the
    clock, sweeps of the limiter. Signing out ends a session for good. *)
From stdpp Require Import gmap list.
From S2P Require Import Prelude Errors Sql Monad Runtime Kernel World WorldFacts Session SessionRepo.
From S2P Require Import IdentityService AppService RoleService ServiceAccountService AccessService AuditService.
From S2P Require Import AuthBase AuthLogin AuthRefresh AuthPassword AuthSessions AuthServiceAccount Rpc Change Outcome.
From S2P Require Import SessionSafety GoStd GrpcBase Interceptor IdentityGrpc AppGrpc RoleGrpc.
From S2P Require Import ServiceAccountGrpc AccessGrpc AuthGrpc AuditGrpc RateLimit Server GrpcFacts InterceptorFacts.
From S2P Require Import Scenario.
Local Open Scope Z_scope.

(** The use-case a computation is. *)
Ltac use_case := match goal with
  | |- ∃ _, _ = void (IdentityService.CreateUser ?ctx ?i) => exists (Rpc.CreateUser ctx i); reflexivity
  | |- ∃ _, _ = void (IdentityService.GetUser ?id) => exists (Rpc.GetUser id); reflexivity
  | |- ∃ _, _ = void (IdentityService.ListUsers ?i) => exists (Rpc.ListUsers i); reflexivity
  | |- ∃ _, _ = void (IdentityService.UpdateUser ?ctx ?i) => exists (Rpc.UpdateUser ctx i); reflexivity
  | |- ∃ _, _ = void (IdentityService.DisableUser ?ctx ?id ?b) => exists (Rpc.DisableUser ctx id b); reflexivity
  | |- ∃ _, _ = void (IdentityService.EnableUser ?ctx ?id ?b) => exists (Rpc.EnableUser ctx id b); reflexivity
  | |- ∃ _, _ = void (IdentityService.SoftDeleteUser ?ctx ?id ?b) => exists (Rpc.SoftDeleteUser ctx id b); reflexivity
  | |- ∃ _, _ = void (IdentityService.PermanentlyDeleteUser ?ctx ?id ?e) => exists (Rpc.PermanentlyDeleteUser ctx id e); reflexivity
  | |- ∃ _, _ = void (AppService.CreateApp ?ctx ?n ?s ?l) => exists (Rpc.CreateApp ctx n s l); reflexivity
  | |- ∃ _, _ = void (AppService.GetApp ?id) => exists (Rpc.GetApp id); reflexivity
  | |- ∃ _, _ = void (AppService.ListApps ?i) => exists (Rpc.ListApps i); reflexivity
  | |- ∃ _, _ = void (AppService.UpdateApp ?ctx ?i) => exists (Rpc.UpdateApp ctx i); reflexivity
  | |- ∃ _, _ = void (AppService.DisableApp ?ctx ?id ?b) => exists (Rpc.DisableApp ctx id b); reflexivity
  | |- ∃ _, _ = void (AppService.EnableApp ?ctx ?id ?b) => exists (Rpc.EnableApp ctx id b); reflexivity
  | |- ∃ _, _ = void (AppService.EnterMaintenanceMode ?ctx ?id ?b) => exists (Rpc.EnterMaintenanceMode ctx id b); reflexivity
  | |- ∃ _, _ = void (AppService.ExitMaintenanceMode ?ctx ?id ?b) => exists (Rpc.ExitMaintenanceMode ctx id b); reflexivity
  | |- ∃ _, _ = void (AppService.PermanentlyDeleteApp ?ctx ?id ?e) => exists (Rpc.PermanentlyDeleteApp ctx id e); reflexivity
  | |- ∃ _, _ = void (RoleService.CreateRole ?ctx ?aid ?n ?dsc ?ps) => exists (Rpc.CreateRole ctx aid n dsc ps); reflexivity
  | |- ∃ _, _ = void (RoleService.GetRole ?id) => exists (Rpc.GetRole id); reflexivity
  | |- ∃ _, _ = void (RoleService.ListRoles ?i) => exists (Rpc.ListRoles i); reflexivity
  | |- ∃ _, _ = void (RoleService.UpdateRole ?ctx ?i) => exists (Rpc.UpdateRole ctx i); reflexivity
  | |- ∃ _, _ = void (RoleService.DisableRole ?ctx ?id ?b) => exists (Rpc.DisableRole ctx id b); reflexivity
  | |- ∃ _, _ = void (RoleService.EnableRole ?ctx ?id ?b) => exists (Rpc.EnableRole ctx id b); reflexivity
  | |- ∃ _, _ = void (RoleService.PermanentlyDeleteRole ?ctx ?id ?e) => exists (Rpc.PermanentlyDeleteRole ctx id e); reflexivity
  | |- ∃ _, _ = void (ServiceAccountService.CreateServiceAccount ?ctx ?n ?dsc) => exists (Rpc.CreateServiceAccount ctx n dsc); reflexivity
  | |- ∃ _, _ = void (ServiceAccountService.GetServiceAccount ?id) => exists (Rpc.GetServiceAccount id); reflexivity
  | |- ∃ _, _ = void (ServiceAccountService.ListServiceAccounts ?i) => exists (Rpc.ListServiceAccounts i); reflexivity
  | |- ∃ _, _ = void (ServiceAccountService.RotateCredentials ?ctx ?id ?e) => exists (Rpc.RotateCredentials ctx id e); reflexivity
  | |- ∃ _, _ = void (ServiceAccountService.UpdateServiceAccount ?ctx ?i) => exists (Rpc.UpdateServiceAccount ctx i); reflexivity
  | |- ∃ _, _ = void (ServiceAccountService.DisableServiceAccount ?ctx ?id ?b) => exists (Rpc.DisableServiceAccount ctx id b); reflexivity
  | |- ∃ _, _ = void (ServiceAccountService.EnableServiceAccount ?ctx ?id ?b) => exists (Rpc.EnableServiceAccount ctx id b); reflexivity
  | |- ∃ _, _ = void (ServiceAccountService.PermanentlyDeleteServiceAccount ?ctx ?id ?e) => exists (Rpc.PermanentlyDeleteServiceAccount ctx id e); reflexivity
  | |- ∃ _, _ = void (AccessService.GrantRoleToUser ?ctx ?u ?r ?a) => exists (Rpc.GrantRoleToUser ctx u r a); reflexivity
  | |- ∃ _, _ = void (AccessService.BulkGrantRoles ?ctx ?u ?a ?rs ?act) => exists (Rpc.BulkGrantRoles ctx u a rs act); reflexivity
  | |- ∃ _, _ = void (AccessService.RemoveRoleFromUser ?ctx ?u ?r) => exists (Rpc.RemoveRoleFromUser ctx u r); reflexivity
  | |- ∃ _, _ = void (AccessService.BulkRemoveRoles ?ctx ?u ?a ?rs) => exists (Rpc.BulkRemoveRoles ctx u a rs); reflexivity
  | |- ∃ _, _ = void (AccessService.HasRoleInApp ?u ?r) => exists (Rpc.HasRoleInApp u r); reflexivity
  | |- ∃ _, _ = void (AccessService.CheckPermission ?u ?a ?p) => exists (Rpc.CheckPermission u a p); reflexivity
  | |- ∃ _, _ = void (AccessService.BatchCheckPermission ?u ?a ?ps) => exists (Rpc.BatchCheckPermission u a ps); reflexivity
  | |- ∃ _, _ = void (AccessService.ListUserRoles ?i) => exists (Rpc.ListUserRoles i); reflexivity
  | |- ∃ _, _ = void (AuthLogin.Register _ ?i) => exists (Rpc.Register i); reflexivity
  | |- ∃ _, _ = void (AuthLogin.Login _ ?i) => exists (Rpc.Login i); reflexivity
  | |- ∃ _, _ = void (AuthLogin.Logout ?ctx ?sid) => exists (Rpc.Logout ctx sid); reflexivity
  | |- ∃ _, _ = void (AuthLogin.Validate _ ?t) => exists (Rpc.Validate t); reflexivity
  | |- ∃ _, _ = void (AuthRefresh.Refresh _ ?t) => exists (Rpc.Refresh t); reflexivity
  | |- ∃ _, _ = void (AuthPassword.ChangePassword _ ?ctx ?i) => exists (Rpc.ChangePassword ctx i); reflexivity
  | |- ∃ _, _ = void (AuthPassword.GenerateRecoveryCodes ?fuel ?ctx ?u) => exists (Rpc.GenerateRecoveryCodes fuel ctx u); reflexivity
  | |- ∃ _, _ = void (AuthPassword.ResetPasswordWithRecoveryCode _ ?i) => exists (Rpc.ResetPasswordWithRecoveryCode i); reflexivity
  | |- ∃ _, _ = void (AuthSessions.ListSessions ?u ?n ?t) => exists (Rpc.ListSessions u n t); reflexivity
  | |- ∃ _, _ = void (AuthSessions.RevokeSession ?ctx ?u ?sid) => exists (Rpc.RevokeSession ctx u sid); reflexivity
  | |- ∃ _, _ = void (AuthSessions.RevokeAllSessions ?ctx ?u ?cur ?b) => exists (Rpc.RevokeAllSessions ctx u cur b); reflexivity
  | |- ∃ _, _ = void (AuthSessions.RevokeToken ?ctx ?u ?t) => exists (Rpc.RevokeToken ctx u t); reflexivity
  | |- ∃ _, _ = void (AuthServiceAccount.AuthenticateServiceAccount _ ?i) => exists (Rpc.AuthenticateServiceAccount i); reflexivity
  | |- ∃ _, _ = void (AuditService.GetAuditEvent ?ctx ?id) => exists (Rpc.GetAuditEvent ctx id); reflexivity
  | |- ∃ _, _ = void (AuditService.ListAuditEvents ?ctx ?n ?t ?f) => exists (Rpc.ListAuditEvents ctx n t f); reflexivity
  end.

Section ServerFacts.
Context `{Runtime} (cfg : AuthConfig) `{Grpc} `{RateLib}.
Context `{JsonCodec IdentityService.pageToken} `{JsonCodec AppService.pageToken}
  `{JsonCodec RoleService.pageToken} `{JsonCodec ServiceAccountService.pageToken}
  `{JsonCodec AccessService.pageToken} `{JsonCodec AuditService.pageToken}
  `{JsonCodec sessionsPageToken}.
#[local] Existing Instance AccessBackedAuthorizer.

(** ** A request runs one use-case, or none *)

Definition acts {A} (m : Handler A) : Prop :=
  ∀ w, (m w).1 = w ∨ ∃ rpc, (m w).1 = (run cfg rpc w).1.

Lemma acts_refuse {A} s : acts (refuse (A := A) s).
Proof. intros w. by left. Qed.

Lemma acts_hmap {A B} (f : A → B) m : acts m → acts (hmap f m).
Proof. intros Hm w. specialize (Hm w). unfold hmap, hbind. by destruct (m w) as [w' [a|s]]. Qed.

Lemma acts_check {A B} t (r : res A) (k : A → Handler B) : (∀ a, acts (k a)) → acts (check t r k).
Proof. intros Hk. destruct r; [apply Hk|apply acts_refuse]. Qed.

Lemma acts_as_user {A} ctx (k : Actor → Handler A) : (∀ a, acts (k a)) → acts (as_user ctx k).
Proof. intros Hk. unfold as_user. repeat case_match; auto using acts_refuse. Qed.

Lemma acts_answer {A B} t (m : M World A) (render : A → B) :
  (∃ rpc, run cfg rpc = void m) → acts (answer t m render).
Proof.
  intros [rpc E] w. right. exists rpc. rewrite E. unfold answer, void, gobind, mcatch.
  by destruct (m w) as [w' [a|e]].
Qed.

Lemma dispatch_acts fuel ctx r : acts (dispatch cfg fuel ctx r).
Proof.
  destruct r; apply acts_hmap; try (apply acts_as_user; intros a).
  all: try (apply acts_check; intros).
  all: try (apply acts_answer; use_case).
  - unfold Login. destruct (deviceFromProto _). apply acts_answer. use_case.
  - unfold Logout. repeat case_match; try apply acts_refuse. apply acts_answer. use_case.
Qed.

(** ** The chain keeps the invariants of the database *)

Context (Validate : Request → Validation).
Context (KS : Session.Row → Prop) (F : string → Prop) (N : Time → Prop) (KE : AuditMapper.Row → bool).
Abbreviation R := (rely cfg KS F N KE).

Definition sv_load (fs : list Fault) (env : list (DB → DB)) (sv : ServerState) : ServerState :=
  mkServerState (load fs env (sv_world sv)) (sv_limiter sv).
Definition sv_tick (t : Time) (sv : ServerState) : ServerState :=
  let w := sv_world sv in
  mkServerState (mkWorld (w_db w) (w_faults w) (w_env w) (w_seed w) t (w_admin_app w)) (sv_limiter sv).
Definition sv_sweep (name : string) (now : Time) (sv : ServerState) : ServerState :=
  mkServerState (sv_world sv)
    ((λ i, with_limiters i (alter (evictIdle now) name (ri_limiters i))) <$> sv_limiter sv).

Inductive serve (sv : ServerState) : ServerState → Prop :=
  | serve_request fuel ctx req fs env : Forall R env →
      serve sv (chain cfg Validate fuel ctx req (sv_load fs env sv)).1
  | serve_tick t : w_now (sv_world sv) <= t → serve sv (sv_tick t sv)
  | serve_sweep name now : serve sv (sv_sweep name now sv)
  | serve_command w : command cfg KS F N KE (sv_world sv) w → serve sv (mkServerState w (sv_limiter sv)).

(** What the chain does to the world: the session check, then a use-case or
    nothing. *)
Lemma chain_world fuel ctx req sv :
  let w := (pass_or_refuse cfg publicRPCs (FullMethod req) ctx (sv_world sv)).1 in
  sv_world (chain cfg Validate fuel ctx req sv).1 = w ∨
  ∃ rpc, sv_world (chain cfg Validate fuel ctx req sv).1 = (run cfg rpc w).1.
Proof.
  unfold chain. destruct (pass_or_refuse _ _ _ _ _) as [w [ctx'|s]]; simpl; [|by left].
  assert (Hv : acts (unaryValidation Validate req (dispatch cfg fuel ctx' req))).
  { unfold unaryValidation. destruct (Validate req); auto using dispatch_acts, acts_refuse. }
  specialize (Hv w). destruct (sv_limiter sv) as [i|].
  - destruct (throttle _ _ _ _ _) as [i' [d|]]; [by left|]. by destruct (unaryValidation _ _ _ w).
  - by destruct (unaryValidation _ _ _ w).
Qed.

Context {laws : RuntimeLaws} (P : db_pred) (HP : Closed cfg KS F N KE P).

#[local] Instance P_respected : Respected R P.
Proof using HP. intros f Hf s n d HPd. eapply closed_rtc; [exact HP|apply Hf|exact HPd]. Qed.

Lemma inv_after w : inv R P w → inv R P (after_stmt w).
Proof using HP. intros Hw. apply inv_interfere in Hw as [? ?]; [by split|apply _]. Qed.

Lemma gate_keeps method ctx w : inv R P w → inv R P (pass_or_refuse cfg publicRPCs method ctx w).1.
Proof using HP.
  intros Hw. destruct (gate_world cfg publicRPCs method ctx w) as [->| ->]; [done|by apply inv_after].
Qed.

Lemma chain_keeps fuel ctx req sv : inv R P (sv_world sv) →
  inv R P (sv_world (chain cfg Validate fuel ctx req sv).1).
Proof using HP laws.
  intros Hw. pose proof (gate_keeps (FullMethod req) ctx _ Hw) as Ha.
  destruct (chain_world fuel ctx req sv) as [->|[rpc ->]]; [done|].
  by apply (run_keeps cfg KS F N KE P HP rpc).
Qed.

Context (HPn : ∀ s n n' d, P s n d → n <= n' → P s n' d).

Lemma serve_keeps sv sv' : rtc serve sv sv' → Change.holds P (sv_world sv) → Change.holds P (sv_world sv').
Proof using HP HPn laws.
  induction 1 as [|sv sv1 sv2 Hs _ IH]; [done|]. intros Hw. apply IH.
  destruct Hs as [fuel ctx req fs env Henv|t Ht|name now|w Hc]; [|unfold Change.holds in *; simpl; eauto|done|].
  - by apply chain_keeps.
  - by eapply command_keeps.
Qed.

End ServerFacts.
