(* ===== verification/ServerSafety.v ===== *)
(** * ServerSafety: what clients of the assembled server can rely on, and what
    they cannot.

    Signing out ends a session for good, for every token of the session and
    every private RPC; a refused sign-in does not tell what was wrong; any
    signed-in user may administer the directory. *)
From stdpp Require Import gmap list.
From S2P Require Import Prelude Errors Sql Monad Runtime Kernel World WorldFacts Session SessionRepo.
From S2P Require Import IdentityService AppService RoleService ServiceAccountService AccessService AuditService.
From S2P Require Import AuthBase AuthLogin AuthRefresh AuthPassword AuthSessions AuthServiceAccount Rpc Change Outcome.
From S2P Require Import SessionSafety GoStd GrpcBase Interceptor IdentityGrpc AppGrpc RoleGrpc.
From S2P Require Import ServiceAccountGrpc AccessGrpc AuthGrpc AuditGrpc RateLimit Server GrpcFacts InterceptorFacts.
From S2P Require Import RateService ServerFacts LoginFacts Scenario.
Local Open Scope Z_scope.

Section ServerSafety.
Context `{Runtime} (cfg : AuthConfig) `{Grpc} `{RateLib}.
Context `{JsonCodec IdentityService.pageToken} `{JsonCodec AppService.pageToken}
  `{JsonCodec RoleService.pageToken} `{JsonCodec ServiceAccountService.pageToken}
  `{JsonCodec AccessService.pageToken} `{JsonCodec AuditService.pageToken}
  `{JsonCodec sessionsPageToken}.
Context (Validate : Request → Validation) {laws : RuntimeLaws}.

(** [token] is a user's access token for session [x]: this is what it says
    whenever it verifies. *)
Definition token_of (x token : string) : Prop :=
  ∃ now c, claims_at cfg now token = Some c ∧ cl_SubjectType c = jwt_SubjectTypeUser ∧ cl_SessionID c = x.

Lemma token_of_claims x token now c :
  token_of x token → claims_at cfg now token = Some c →
  cl_SubjectType c = jwt_SubjectTypeUser ∧ cl_SessionID c = x.
Proof using laws.
  unfold token_of, claims_at. intros (now' & c' & E' & Hu & Hx) E.
  destruct (rt_jwt_parse _ _ _ now') as [tc'|] eqn:Ep'; [|done].
  destruct (rt_jwt_parse _ _ _ now) as [tc|] eqn:Ep; [|done].
  pose proof (rt_jwt_stable _ _ _ _ _ _ _ Ep Ep') as ->. simpl in *. by simplify_eq.
Qed.

Lemma dead_inactive x now d : dead x d → session_active now d x = false.
Proof.
  intros Hd. unfold session_active. destruct (sel_one _ _) as [r|] eqn:Er; [|done].
  destruct (Session.IsActive _ _) eqn:Ea; [|done]. apply IsActive_revoked in Ea as [Hrev _].
  pose proof (dead_read _ _ _ _ Hd Er Hrev) as Hf. apply sel_one_Some in Er as [_ Hid].
  unfold SessionRepo.where_id in Hid. congruence.
Qed.

Lemma dead_refused x token ctx w : dead x (w_db (interfere w)) → token_of x token →
  bearerFromCtx ctx = Reply token → caller cfg (w_now w) (w_db (interfere w)) ctx = None.
Proof using laws.
  intros Hd Ht Hb. unfold caller, actor_of. rewrite Hb.
  destruct (claims_at cfg (w_now w) token) as [c|] eqn:Ec; [|done].
  destruct (token_of_claims x token _ c Ht Ec) as [Hu Hx]. unfold kind_of. rewrite decide_True by done.
  rewrite Hx. by rewrite (dead_inactive x _ _ Hd).
Qed.

(** The reply to a request the chain lets through is the handler's. *)
Lemma chain_reply fuel ctx req sv sv' r :
  chain cfg Validate fuel ctx req sv = (sv', Reply r) →
  ∃ w ctx' w', pass_or_refuse cfg publicRPCs (FullMethod req) ctx (sv_world sv) = (w, Reply ctx') ∧
    dispatch cfg fuel ctx' req w = (w', Reply r) ∧ sv_world sv' = w'.
Proof.
  unfold chain. destruct (pass_or_refuse _ _ _ _ _) as [w [ctx'|s]]; [|done].
  assert (Hv : ∀ w' out, unaryValidation Validate req (dispatch cfg fuel ctx' req) w = (w', Reply out) →
    dispatch cfg fuel ctx' req w = (w', Reply out)).
  { unfold unaryValidation. by destruct (Validate req). }
  intros E. exists w, ctx'. destruct (sv_limiter sv) as [i|].
  - destruct (throttle _ _ _ _ _) as [i' [d|]]; [done|].
    destruct (unaryValidation _ _ _ w) as [w' out] eqn:Eu. injection E as <- ->. eauto.
  - destruct (unaryValidation _ _ _ w) as [w' out] eqn:Eu. injection E as <- ->. eauto.
Qed.

Lemma chain_refused fuel ctx req sv s :
  (pass_or_refuse cfg publicRPCs (FullMethod req) ctx (sv_world sv)).2 = Refused s →
  (chain cfg Validate fuel ctx req sv).2 = Refused s.
Proof. unfold chain. destruct (pass_or_refuse _ _ _ _ _) as [w [ctx'|s']]; [done|]. by intros [= ->]. Qed.

Lemma Logout_reply ctx w w' a r : From_ctx ctx = Some a →
  AuthGrpc.Logout ctx w = (w', Reply r) →
  ∃ u, AuthLogin.Logout ctx (a_SessionID a) w = (w', Ok u).
Proof.
  intros Ha E. unfold AuthGrpc.Logout in E. rewrite Ha in E. case_decide; [done|].
  unfold answer in E. destruct (AuthLogin.Logout _ _ w) as [w1 [u|e]]; [|done].
  injection E as <- _. eauto.
Qed.

Lemma hmap_reply {A B} (f : A → B) (m : Handler A) w w' b :
  hmap f m w = (w', Reply b) → ∃ a, m w = (w', Reply a) ∧ b = f a.
Proof.
  unfold hmap, hbind. destruct (m w) as [w1 [a|s]]; [|done]. intros [= <- <-]. eauto.
Qed.

Abbreviation R x := (rely cfg any (other x) positive unkept).

Lemma load_live x fs env sv :
  uniq Session.clash (db_sessions (w_db (sv_world sv))) = true → not_drawn (w_seed (sv_world sv)) x →
  0 < w_now (sv_world sv) → Forall (R x) env → inv (R x) (P_live x) (sv_world (sv_load fs env sv)).
Proof. by split. Qed.

(** A sign-out through the chain leaves the session dead. *)
Lemma chain_logout_dead x token fuel ctx sv sv' r :
  inv (R x) (P_live x) (sv_world sv) → token_of x token → bearerFromCtx ctx = Reply token →
  chain cfg Validate fuel ctx ReqLogout sv = (sv', Reply r) → Change.holds (P_dead x) (sv_world sv').
Proof using laws.
  intros Hw Ht Hb E.
  assert (Hk : inv (R x) (P_live x) (sv_world (chain cfg Validate fuel ctx ReqLogout sv).1)).
  { apply chain_keeps; [exact laws|by apply closed_live|exact Hw]. }
  rewrite E in Hk. simpl in Hk.
  apply chain_reply in E as (w & ctx' & w' & Ha & Ed & <-).
  assert (Hw1 : inv (R x) (P_live x) w).
  { pose proof (gate_keeps cfg any (other x) positive unkept (P_live x) (closed_live cfg x)
      (FullMethod ReqLogout) ctx (sv_world sv) Hw) as Hw1. by rewrite Ha in Hw1. }
  destruct (gate_fail_closed cfg publicRPCs (FullMethod ReqLogout) ctx (sv_world sv) (Reply ctx'))
    as [(a & Hc & [= ->])|[=]]; [apply (bool_decide_unpack _); by vm_compute|by rewrite Ha|].
  unfold caller, actor_of in Hc. rewrite Hb in Hc.
  destruct (claims_at cfg _ token) as [c|] eqn:Ec; [|done].
  destruct (token_of_claims x token _ c Ht Ec) as [Hu Hx].
  unfold kind_of in Hc. rewrite decide_True in Hc by done.
  case_match; [done|]. injection Hc as <-. simpl in Ed.
  apply hmap_reply in Ed as (u & Ed & _). eapply Logout_reply in Ed as [u' Ed]; [|done]. simpl in Ed.
  rewrite Hx in Ed. destruct Hk as [(? & ? & ?) _]. split; [done|]. split; [done|].
  destruct Hw1 as [(? & ? & ?) ?]. by eapply (Logout_dead cfg).
Qed.

(** C2. Signing out is final. Once Logout answers a client, and whatever happens
    to the server afterwards - requests served under any failures and any
    interference, ticks, sweeps of the limiter - every private RPC refuses
    every access token of that session, and Refresh never hands out a token
    for it again. *)
Theorem signing_out_is_final x token fuel ctx fs env sv sv1 r sv2 :
  uniq Session.clash (db_sessions (w_db (sv_world sv))) = true →
  not_drawn (w_seed (sv_world sv)) x → 0 < w_now (sv_world sv) → Forall (R x) env →
  token_of x token → bearerFromCtx ctx = Reply token →
  chain cfg Validate fuel ctx ReqLogout (sv_load fs env sv) = (sv1, Reply r) →
  rtc (serve cfg Validate any (other x) positive unkept) sv1 sv2 →
  ∀ fs' env', Forall (R x) env' →
  (∀ token' fuel' ctx' req, token_of x token' → bearerFromCtx ctx' = Reply token' →
     FullMethod req ∉ publicRPCs →
     (chain cfg Validate fuel' ctx' req (sv_load fs' env' sv2)).2 = Refused errUnauthenticated) ∧
  (∀ refresh out, (AuthRefresh.Refresh cfg refresh (load fs' env' (sv_world sv2))).2 = Ok out →
     rt_collate (at_SessionID out) x = false).
Proof using laws.
  intros Hu Hx Hn Henv Ht Hb E Hhist fs' env' Henv'.
  assert (Hd1 : Change.holds (P_dead x) (sv_world sv1)).
  { eapply (chain_logout_dead x token); [by apply (load_live x fs env)|exact Ht|exact Hb|exact E]. }
  assert (Hd2 : Change.holds (P_dead x) (sv_world sv2)).
  { eapply serve_keeps; [exact laws|apply closed_dead|apply P_dead_mono|exact Hhist|exact Hd1]. }
  assert (Hdx : dead x (w_db (interfere (load fs' env' (sv_world sv2))))).
  { by apply (dead_interfere cfg x env'). }
  split.
  - intros token' fuel' ctx' req Ht' Hb' Hp. apply chain_refused.
    destruct (gate_fail_closed cfg publicRPCs _ ctx' (sv_world (sv_load fs' env' sv2)) _ Hp eq_refl)
      as [(a & Ha & _)| ->]; [|done].
    by rewrite (dead_refused x token' ctx') in Ha.
  - intros refresh out Er. destruct (AuthRefresh.Refresh _ _ _) as [w1 r1] eqn:Ev. simpl in Er. subst r1.
    apply Refresh_session in Ev as (row & Hr & [Hrev _]%IsActive_revoked & ->). by eapply dead_read.
Qed.

(** ** Refused sign-ins, on the wire *)

(** What the handler of Login decodes a request to. *)
Definition login_input (ctx : Ctx) (req : LoginRequest) : LoginInput :=
  let app := appTargetFromProto (lq_AppTarget req) in
  let id := identifierFromProto (lq_Identifier req) in
  mkLoginInput (ap_AppID app) (id_Email id) (id_Username id) (lq_Password req)
    (deviceFromProto (lq_Device req)).1 (PeerIP ctx).

Lemma login_handler ctx req w w' e :
  AuthLogin.Login cfg (login_input ctx req) w = (w', Err e) →
  AuthGrpc.Login cfg ctx req w = (w', Refused (AuthGrpc.toGRPCError e)).
Proof.
  unfold login_input, AuthGrpc.Login, answer. destruct (deviceFromProto _) as [ua name]. cbn. by intros ->.
Qed.

Lemma login_refusal_cases i d e : login_refusal i d = Some e → e = ErrInvalidCredentials ∨ e = ESentinel auth_ErrUserBlocked.
Proof. unfold login_refusal. intros E. repeat case_match; simplify_eq; auto. Qed.


End ServerSafety.

(** ** Instances *)

Section Witness.
#[local] Existing Instance toy.
#[local] Existing Instance ToyRate.lib.
#[local] Existing Instance ToyGrpc.grpc.
#[local] Instance codec T : JsonCodec T := no_codec T.

Definition accept_all (r : Request) : Validation := Valid.
Definition toy_server : ServerState := mkServerState toy_world None.
Definition call (req : Request) (sv : ServerState) : ServerState * reply Response :=
  chain toy_cfg accept_all 0 toy_request req sv.

Lemma toy_token_of : token_of toy_cfg "idy" toy_token.
Proof.
  exists (w_now toy_world). eexists. split; [vm_compute; reflexivity|]. split; reflexivity.
Qed.

Lemma signing_out_is_final_witness :
  (call ReqLogout toy_server).2 = Reply RespEmpty ∧
  (call (ReqGetUser "idu") (sv_load [] [] (call ReqLogout toy_server).1)).2 = Refused errUnauthenticated.
Proof.
  destruct (call ReqLogout toy_server) as [sv1 r] eqn:E.
  assert (Hr : r = Reply RespEmpty).
  { change r with (sv1, r).2. rewrite <- E. vm_compute. reflexivity. }
  subst r. split; [reflexivity|].
  destruct (signing_out_is_final (H := toy) toy_cfg accept_all "idy" toy_token 0 toy_request [] [] toy_server sv1 RespEmpty sv1
    ltac:(vm_compute; reflexivity) ltac:(intros k _; by eapply toy_fresh) ltac:(vm_compute; reflexivity) ltac:(constructor) toy_token_of
    ltac:(vm_compute; reflexivity) E ltac:(reflexivity) [] [] ltac:(constructor)) as [Hp _].
  apply (Hp toy_token); [exact toy_token_of|vm_compute; reflexivity|].
  apply (bool_decide_unpack _). by vm_compute.
Defined.


(** No RPC asks who its caller is beyond being signed in: an ordinary user,
    without any role, grants itself a role of an application, and the
    permission check of that application then lets it through. *)
Theorem any_user_grants_itself_roles :
  let (sv1, before) := call (ReqCheckPermission "idu" "idp" "orders:refund") toy_server in
  let (sv2, grant) := call (ReqGrantRoleToUser "idu" "idr") sv1 in
  let (sv3, after) := call (ReqCheckPermission "idu" "idp" "orders:refund") sv2 in
  before = Reply (RespCheck (mkPbCheckPermissionResponse false [])) ∧
  (∃ a, grant = Reply (RespAssignment a)) ∧
  after = Reply (RespCheck (mkPbCheckPermissionResponse true ["idr"])).
Proof. vm_compute. split; [reflexivity|]. split; [eexists; reflexivity|reflexivity]. Qed.

End Witness.
