(* ===== verification/Config.v ===== *)
(** * Config: the configuration and what its validation guarantees.

    platform/config/*.go and the loopback target of bootstrap.go. cleanenv
    fills the record from the file and the environment; this models what the
    code does with the record: [Validate], whose joined errors are the list of
    violated rules (the offending values in their texts are left out), the DSN
    and the addresses. *)
From Stdlib Require Import SpecFloat.
From stdpp Require Import gmap list.
From S2P Require Import Prelude Errors Monad Runtime Kernel World GoStd GrpcBase AuthBase AuthGrpc RateLimit Server.
From S2P Require Import GrpcFacts RateService Scenario.
Local Open Scope Z_scope.

(** ** time.Duration *)

Definition Microsecond : Z := 1000.
Definition Millisecond : Z := 1000000.
Definition Second : Z := 1000000000.

(** Drop the trailing zeros of a fraction of [prec] digits. *)
Fixpoint fraction (prec : nat) (v : Z) (started : bool) (acc : string) : string :=
  match prec with
  | O => if started then "." +:+ acc else ""
  | S prec' =>
      let digit := v mod 10 in
      let started := started || negb (bool_decide (digit = 0)) in
      fraction prec' (v / 10) started (if started then String (chr (48 + digit)) acc else acc)
  end.

(** [Duration.String]. *)
Definition Duration_String (d : Z) : string :=
  let u := Z.abs d in
  let sign := if decide (d < 0) then "-" else "" in
  let unit_ prec unit name := sign +:+ FormatInt (u / unit) +:+ fraction prec (u mod unit) false "" +:+ name in
  if decide (u = 0) then "0s"
  else if decide (u < Microsecond) then unit_ O 1 "ns"
  else if decide (u < Millisecond) then unit_ 3%nat Microsecond (string_of_list [chr 194; chr 181; chr 115])
  else if decide (u < Second) then unit_ 6%nat Millisecond "ms"
  else
    let s := u / Second in
    let m := s / 60 in
    let h := m / 60 in
    sign +:+ (if decide (0 < h) then FormatInt h +:+ "h" else "") +:+
      (if decide (0 < m) then FormatInt (m mod 60) +:+ "m" else "") +:+
      FormatInt (s mod 60) +:+ fraction 9 (u mod Second) false "" +:+ "s".

Example duration_5m : Duration_String (300 * Second) = "5m0s". Proof. reflexivity. Qed.
Example duration_720h : Duration_String (720 * 3600 * Second) = "720h0m0s". Proof. reflexivity. Qed.
Example duration_ms : Duration_String 1500000 = "1.5ms". Proof. reflexivity. Qed.
Example duration_neg : Duration_String (- 90050000000) = "-1m30.05s". Proof. reflexivity. Qed.

(** ** The record *)

Record LogConfig := mkLogConfig {
  lc_Level : string; lc_Format : string; lc_Sink : string; lc_Path : string; lc_AddSource : bool }.
Record TLSConfig := mkTLSConfig { tls_Enabled : bool; tls_CertPath : string; tls_KeyPath : string }.
Record KeepaliveConfig := mkKeepaliveConfig {
  ka_Time : Z; ka_Timeout : Z; ka_MinTime : Z; ka_PermitWithoutStream : bool }.
Record GRPCConfig := mkGRPCConfig {
  gc_Host : string; gc_Port : Z; gc_ConnectionTimeout : Z; gc_ShutdownTimeout : Z;
  gc_MaxRecvMsgSize : Z; gc_MaxSendMsgSize : Z; gc_Keepalive : KeepaliveConfig;
  gc_HealthCheck : bool; gc_Reflection : bool; gc_TLS : TLSConfig }.
Record HTTPConfig := mkHTTPConfig {
  hc_Enabled : bool; hc_Host : string; hc_Port : Z; hc_ShutdownTimeout : Z; hc_WriteTimeout : Z;
  hc_ReadTimeout : Z; hc_ReadHeaderTimeout : Z; hc_IdleTimeout : Z;
  hc_AllowedOrigins : list string; hc_TLS : TLSConfig }.
Record ConnectionConfig := mkConnectionConfig {
  cc_Host : string; cc_Port : Z; cc_Username : string; cc_Password : string; cc_DBName : string }.
Record OptionsConfig := mkOptionsConfig {
  oc_Timeout : Z; oc_ReadTimeout : Z; oc_WriteTimeout : Z; oc_TLS : string; oc_Params : string }.
Record PoolConfig := mkPoolConfig {
  pc_MaxOpenConns : Z; pc_MaxIdleConns : Z; pc_ConnMaxLifetime : Z; pc_ConnMaxIdleTime : Z }.
Record DatabaseConfig := mkDatabaseConfig {
  dc_Driver : string; dc_Connection : ConnectionConfig; dc_Options : OptionsConfig;
  dc_Pool : PoolConfig; dc_ShutdownTimeout : Z }.
Record JWTConfig := mkJWTConfig {
  jc_PrivateKeyPath : string; jc_PublicKeyPath : string; jc_Issuer : string; jc_AccessTTL : Z }.
Record AuthSection := mkAuthSection {
  ac_JWT : JWTConfig; ac_RefreshTTL : Z; ac_RefreshRotationTTL : Z; ac_Cost : Z;
  ac_LockoutThreshold : Z; ac_LockoutDuration : Z }.
Record AuditConfig := mkAuditConfig { uc_Enabled : bool; uc_RetentionDays : Z }.
Record Config := mkConfig {
  cf_Env : string; cf_AppName : string; cf_Log : LogConfig; cf_GRPC : GRPCConfig; cf_HTTP : HTTPConfig;
  cf_Database : DatabaseConfig; cf_Auth : AuthSection; cf_Audit : AuditConfig;
  cf_RateLimit : RateLimitConfig }.

(** ** Validation *)

Definition rule (violated : bool) (key msg : string) : list string :=
  if violated then [key +:+ ": " +:+ msg] else [].
Definition port_rule (key : string) (port : Z) : list string :=
  rule (bool_decide (port < 1 ∨ port > 65535)) key "out of range 1..65535".
Definition positive_rule (key : string) (n : Z) : list string :=
  rule (bool_decide (n <= 0)) key "must be > 0".
Definition required_rule (key : string) (s : string) : list string :=
  rule (bool_decide (s = "")) key "required".

Definition Env_validate (e : string) : list string :=
  rule (bool_decide (e ∉ ["local"; "dev"; "prod"])) "env" "is not one of local/dev/prod".
Definition Secret_String (s : string) : string := if decide (s = "") then "" else "***".
(** The bytes of a JSON string. *)
Definition json_quote (s : string) : string := String (chr 34) (s +:+ String (chr 34) "").
Definition Secret_MarshalJSON (s : string) : string := json_quote "***".
Definition Secret_MarshalYAML (s : string) : string := "***".

Definition AppName_validate (a : string) : list string := required_rule "app_name" a.

Definition Log_validate (c : LogConfig) : list string :=
  rule (bool_decide (lc_Level c ∉ ["debug"; "info"; "warn"; "error"])) "log.level"
    "is not one of debug/info/warn/error" ++
  rule (bool_decide (lc_Format c ∉ ["text"; "json"])) "log.format" "is not one of text/json" ++
  rule (bool_decide (lc_Sink c ∉ ["stdout"; "file"])) "log.sink" "is not one of stdout/file" ++
  rule (bool_decide (lc_Sink c = "file" ∧ lc_Path c = "")) "log.path" "required when log.sink=file".

Definition tls_rules (section : string) (c : TLSConfig) : list string :=
  if tls_Enabled c then
    rule (bool_decide (tls_CertPath c = "")) (section +:+ ".tls.cert_path")
      ("required when " +:+ section +:+ ".tls.enabled=true") ++
    rule (bool_decide (tls_KeyPath c = "")) (section +:+ ".tls.key_path")
      ("required when " +:+ section +:+ ".tls.enabled=true")
  else [].

Definition GRPC_validate (c : GRPCConfig) : list string :=
  port_rule "grpc.port" (gc_Port c) ++
  positive_rule "grpc.connection_timeout" (gc_ConnectionTimeout c) ++
  positive_rule "grpc.shutdown_timeout" (gc_ShutdownTimeout c) ++
  positive_rule "grpc.max_recv_msg_size" (gc_MaxRecvMsgSize c) ++
  positive_rule "grpc.max_send_msg_size" (gc_MaxSendMsgSize c) ++
  positive_rule "grpc.keepalive.time" (ka_Time (gc_Keepalive c)) ++
  positive_rule "grpc.keepalive.timeout" (ka_Timeout (gc_Keepalive c)) ++
  positive_rule "grpc.keepalive.min_time" (ka_MinTime (gc_Keepalive c)) ++
  tls_rules "grpc" (gc_TLS c).

Fixpoint origin_rules (i : Z) (l : list string) : list string :=
  match l with
  | [] => []
  | o :: l' =>
      rule (bool_decide (TrimSpace o = "")) ("http.cors.allowed_origins[" +:+ FormatInt i +:+ "]") "empty entry" ++
      origin_rules (i + 1) l'
  end.

Definition HTTP_validate (c : HTTPConfig) : list string :=
  if negb (hc_Enabled c) then []
  else
    port_rule "http.port" (hc_Port c) ++
    positive_rule "http.shutdown_timeout" (hc_ShutdownTimeout c) ++
    tls_rules "http" (hc_TLS c) ++
    origin_rules 0 (hc_AllowedOrigins c).

Definition Database_validate (c : DatabaseConfig) : list string :=
  let o := dc_Options c in
  let p := dc_Pool c in
  required_rule "database.driver" (dc_Driver c) ++
  port_rule "database.connection.port" (cc_Port (dc_Connection c)) ++
  required_rule "database.connection.username" (cc_Username (dc_Connection c)) ++
  required_rule "database.connection.db_name" (cc_DBName (dc_Connection c)) ++
  required_rule "database.options.tls" (oc_TLS o) ++
  positive_rule "database.options.timeout" (oc_Timeout o) ++
  positive_rule "database.options.read_timeout" (oc_ReadTimeout o) ++
  positive_rule "database.options.write_timeout" (oc_WriteTimeout o) ++
  rule (bool_decide (pc_MaxOpenConns p < 1)) "database.pool.max_open_conns" "must be >= 1" ++
  rule (bool_decide (pc_MaxIdleConns p < 0)) "database.pool.max_idle_conns" "must be >= 0" ++
  rule (bool_decide (pc_MaxIdleConns p > pc_MaxOpenConns p)) "database.pool.max_idle_conns"
    "must be <= max_open_conns" ++
  rule (bool_decide (pc_ConnMaxLifetime p < 0)) "database.pool.conn_max_lifetime" "must be >= 0" ++
  rule (bool_decide (pc_ConnMaxIdleTime p < 0)) "database.pool.conn_max_idle_time" "must be >= 0" ++
  positive_rule "database.shutdown_timeout" (dc_ShutdownTimeout c).

(** [f <= 0]; false for NaN. *)
Definition float_le0 (f : float64) : bool := SFleb f (S754_zero false).
Definition policy_rules (name : string) (p : ConfigPolicy) : list string :=
  rule (float_le0 (cp_Rps p)) ("ratelimit.policies." +:+ name +:+ ".rps") "must be > 0" ++
  positive_rule ("ratelimit.policies." +:+ name +:+ ".burst") (cp_Burst p).
Definition RateLimit_validate (c : RateLimitConfig) : list string :=
  positive_rule "ratelimit.cleanup_interval" (rc_CleanupInterval c) ++
  policy_rules "login_per_ip" (rc_LoginPerIP c) ++
  policy_rules "login_per_username" (rc_LoginPerUsername c) ++
  policy_rules "reset_per_ip" (rc_ResetPerIP c) ++
  policy_rules "reset_per_email" (rc_ResetPerEmail c) ++
  policy_rules "service_auth_per_client" (rc_ServiceAuthPerClient c) ++
  policy_rules "change_password_per_user" (rc_ChangePasswordPerUser c).

Definition Audit_validate (c : AuditConfig) : list string :=
  positive_rule "audit.retention_days" (uc_RetentionDays c).

Section Config.
Context (os_Stat : string → bool).   (* the file is there *)

Definition Auth_validate (c : AuthSection) : list string :=
  positive_rule "auth.jwt.access_ttl" (jc_AccessTTL (ac_JWT c)) ++
  positive_rule "auth.session.refresh_ttl" (ac_RefreshTTL c) ++
  positive_rule "auth.session.refresh_rotation_ttl" (ac_RefreshRotationTTL c) ++
  rule (bool_decide (ac_RefreshRotationTTL c > ac_RefreshTTL c)) "auth.session.refresh_rotation_ttl"
    "must be <= auth.session.refresh_ttl" ++
  rule (bool_decide (ac_Cost c < 4 ∨ ac_Cost c > 31)) "auth.bcrypt.cost" "must be in range 4..31" ++
  required_rule "auth.jwt.issuer" (jc_Issuer (ac_JWT c)) ++
  rule (negb (os_Stat (jc_PrivateKeyPath (ac_JWT c)))) "auth.jwt.private_key_path" "no such file" ++
  rule (bool_decide (ac_LockoutThreshold c < 0)) "auth.lockout.threshold" "must be >= 0" ++
  rule (bool_decide (ac_LockoutThreshold c > 0 ∧ ac_LockoutDuration c <= 0)) "auth.lockout.duration" "must be > 0".

Definition Validate (c : Config) : list string :=
  Env_validate (cf_Env c) ++ AppName_validate (cf_AppName c) ++ Log_validate (cf_Log c) ++
  GRPC_validate (cf_GRPC c) ++ HTTP_validate (cf_HTTP c) ++ Database_validate (cf_Database c) ++
  Auth_validate (cf_Auth c) ++ Audit_validate (cf_Audit c) ++ RateLimit_validate (cf_RateLimit c).

(** [Load], after cleanenv has read the file. *)
Definition Load (read : option Config) : res Config :=
  match read with
  | None => Err (EWrap "read config" (EMsg "cleanenv"))
  | Some c => match Validate c with
              | [] => Ok c
              | errs => Err (EWrap "validate config" (EMsg (Join errs (string_of_list [chr 10]))))
              end
  end.

End Config.

(** The configuration bootstrap hands to the auth module. *)
Definition auth_config (c : AuthSection) : AuthConfig :=
  mkAuthConfig (jc_Issuer (ac_JWT c)) (jc_AccessTTL (ac_JWT c)) (ac_RefreshTTL c)
    (ac_RefreshRotationTTL c) (ac_Cost c).

(** ** Addresses *)

Definition Query (o : OptionsConfig) : string :=
  Join (["timeout=" +:+ Duration_String (oc_Timeout o); "readTimeout=" +:+ Duration_String (oc_ReadTimeout o);
         "writeTimeout=" +:+ Duration_String (oc_WriteTimeout o); "tls=" +:+ oc_TLS o] ++
        (if decide (oc_Params o ≠ "") then [oc_Params o] else [])) "&".

Definition DSN (c : DatabaseConfig) : string :=
  let k := dc_Connection c in
  cc_Username k +:+ ":" +:+ cc_Password k +:+ "@tcp(" +:+ JoinHostPort (cc_Host k) (FormatInt (cc_Port k)) +:+
  ")/" +:+ cc_DBName k +:+ "?" +:+ Query (dc_Options c).

Definition Address (host : string) (port : Z) : string := JoinHostPort host (FormatInt port).

Definition loopbackTarget (c : GRPCConfig) : string :=
  let host := gc_Host c in
  let host :=
    if decide (host = "0.0.0.0" ∨ host = "") then "127.0.0.1"
    else if decide (host = "::" ∨ host = "[::]") then "[::1]"
    else host in
  Address host (gc_Port c).

(** ** What a loaded configuration guarantees *)

Lemma rule_nil b key msg : rule b key msg = [] ↔ b = false.
Proof. by destruct b. Qed.
Lemma port_rule_nil key n : port_rule key n = [] ↔ 1 <= n <= 65535.
Proof. unfold port_rule. rewrite rule_nil, bool_decide_eq_false. lia. Qed.
Lemma positive_rule_nil key n : positive_rule key n = [] ↔ 0 < n.
Proof. unfold positive_rule. rewrite rule_nil, bool_decide_eq_false. lia. Qed.
Lemma required_rule_nil key s : required_rule key s = [] ↔ s ≠ "".
Proof. unfold required_rule. by rewrite rule_nil, bool_decide_eq_false. Qed.

Lemma policy_rules_nil name p : policy_rules name p = [] ↔ float_le0 (cp_Rps p) = false ∧ 1 <= cp_Burst p.
Proof. unfold policy_rules. rewrite app_nil, rule_nil, positive_rule_nil. split; intros [? ?]; split; (done || lia). Qed.

Lemma tls_rules_nil section c :
  tls_rules section c = [] ↔ (tls_Enabled c = true → tls_CertPath c ≠ "" ∧ tls_KeyPath c ≠ "").
Proof.
  unfold tls_rules. destruct (tls_Enabled c); [|by split].
  rewrite app_nil, !rule_nil, !bool_decide_eq_false. split; [by intros [? ?] _|intros Hc; by apply Hc].
Qed.

Lemma origin_rules_nil i l : origin_rules i l = [] ↔ Forall (λ o, TrimSpace o ≠ "") l.
Proof.
  revert i. induction l as [|o l IH]; intros i; [done|]. cbn [origin_rules].
  by rewrite app_nil, rule_nil, bool_decide_eq_false, IH, Forall_cons.
Qed.

Definition policies (c : RateLimitConfig) : list ConfigPolicy := [
  rc_LoginPerIP c; rc_LoginPerUsername c; rc_ResetPerIP c; rc_ResetPerEmail c;
  rc_ServiceAuthPerClient c; rc_ChangePasswordPerUser c].

(** The premises of the components. *)
Record sound_config (os_Stat : string → bool) (c : Config) : Prop := {
  sc_env : cf_Env c ∈ ["local"; "dev"; "prod"];
  sc_tokens : let a := auth_config (cf_Auth c) in
    0 < cfg_accessTTL a ∧ 0 < cfg_refreshRotationTTL a <= cfg_refreshTTL a ∧ 4 <= cfg_bcryptCost a <= 31 ∧
    cfg_issuer a ≠ "" ∧ os_Stat (jc_PrivateKeyPath (ac_JWT (cf_Auth c))) = true;
  sc_ports : 1 <= gc_Port (cf_GRPC c) <= 65535 ∧ 1 <= cc_Port (dc_Connection (cf_Database c)) <= 65535 ∧
    (hc_Enabled (cf_HTTP c) = true → 1 <= hc_Port (cf_HTTP c) <= 65535);
  sc_tls : (tls_Enabled (gc_TLS (cf_GRPC c)) = true →
      tls_CertPath (gc_TLS (cf_GRPC c)) ≠ "" ∧ tls_KeyPath (gc_TLS (cf_GRPC c)) ≠ "") ∧
    (hc_Enabled (cf_HTTP c) = true → tls_Enabled (hc_TLS (cf_HTTP c)) = true →
      tls_CertPath (hc_TLS (cf_HTTP c)) ≠ "" ∧ tls_KeyPath (hc_TLS (cf_HTTP c)) ≠ "");
  sc_origins : hc_Enabled (cf_HTTP c) = true → Forall (λ o, TrimSpace o ≠ "") (hc_AllowedOrigins (cf_HTTP c));
  sc_pool : let p := dc_Pool (cf_Database c) in
    1 <= pc_MaxOpenConns p ∧ 0 <= pc_MaxIdleConns p <= pc_MaxOpenConns p;
  sc_policies : Forall (λ p, float_le0 (cp_Rps p) = false ∧ 1 <= cp_Burst p) (policies (cf_RateLimit c));
  sc_retention : 0 < uc_RetentionDays (cf_Audit c) }.

Ltac rules := repeat match goal with
  | H : _ ++ _ = [] |- _ => apply app_nil in H as [? ?]
  | H : rule _ _ _ = [] |- _ => apply rule_nil in H
  | H : port_rule _ _ = [] |- _ => apply port_rule_nil in H
  | H : positive_rule _ _ = [] |- _ => apply positive_rule_nil in H
  | H : required_rule _ _ = [] |- _ => apply required_rule_nil in H
  | H : policy_rules _ _ = [] |- _ => apply policy_rules_nil in H
  | H : tls_rules _ _ = [] |- _ => rewrite tls_rules_nil in H
  | H : origin_rules _ _ = [] |- _ => apply origin_rules_nil in H
  | H : bool_decide _ = false |- _ => apply bool_decide_eq_false in H
  | H : negb _ = false |- _ => apply negb_false_iff in H
  end.

Lemma HTTP_validate_nil c : HTTP_validate c = [] → hc_Enabled c = true →
  1 <= hc_Port c <= 65535 ∧
  (tls_Enabled (hc_TLS c) = true → tls_CertPath (hc_TLS c) ≠ "" ∧ tls_KeyPath (hc_TLS c) ≠ "") ∧
  Forall (λ o, TrimSpace o ≠ "") (hc_AllowedOrigins c).
Proof. unfold HTTP_validate. intros E Hh. rewrite Hh in E. cbn [negb] in E. rules. split; [assumption|split; assumption]. Qed.

Section Loaded.
Context `{Runtime} `{Grpc} `{RateLib}.

(** Every policy the routing table names has a limiter. *)
Lemma buildRateLimiter_total c : is_Some (buildRateLimiter c).
Proof. unfold buildRateLimiter, New. by simplify_map_eq. Qed.


End Loaded.

(** ** The loopback target *)

(** The digits of a number hold no separator. *)
Definition free (s : string) (c : Ascii.ascii) : Prop := index_byte s c = None ∧ last_index_byte s c = None.

Lemma digit_free n acc c : c = colon ∨ c = lbracket ∨ c = rbracket →
  free acc c → free (String (chr (48 + n mod 10)) acc) c.
Proof.
  intros Hc [Hi Hl]. pose proof (Z.mod_pos_bound n 10 ltac:(lia)) as Hn.
  assert (Hne : c ≠ chr (48 + n mod 10)).
  { assert (Hd : n mod 10 ∈ seqZ 0 10) by (apply elem_of_seqZ; lia). generalize dependent (n mod 10).
    intros k _ Hk. change (seqZ 0 10) with [0; 1; 2; 3; 4; 5; 6; 7; 8; 9] in Hk.
    repeat (apply elem_of_cons in Hk as [->|Hk]; [by destruct Hc as [->|[->| ->]]|]). by apply elem_of_nil in Hk. }
  split; simpl; rewrite decide_False by done; [by rewrite Hi|by rewrite Hl].
Qed.

Lemma digits_free fuel n acc c : c = colon ∨ c = lbracket ∨ c = rbracket → free acc c → free (digits fuel n acc) c.
Proof.
  intros Hc. revert n acc. induction fuel as [|fuel IH]; intros n acc Ha; [done|]. cbn [digits].
  case_decide; [by apply digit_free|]. apply IH. by apply digit_free.
Qed.

Lemma FormatInt_free n c : 0 <= n → c = colon ∨ c = lbracket ∨ c = rbracket → free (FormatInt n) c.
Proof. intros Hn Hc. unfold FormatInt. rewrite decide_False by lia. by apply digits_free. Qed.

Lemma index_free p s c : index_byte s c = None → index_byte (p +:+ s) c = index_byte p c.
Proof.
  intros Hs. induction p as [|d p IH]; [done|]. change (String d p +:+ s) with (String d (p +:+ s)).
  cbn [index_byte]. by rewrite IH.
Qed.
Lemma last_index_free p s c : last_index_byte s c = None → last_index_byte (p +:+ s) c = last_index_byte p c.
Proof.
  intros Hs. induction p as [|d p IH]; [done|]. change (String d p +:+ s) with (String d (p +:+ s)).
  cbn [last_index_byte]. by rewrite IH.
Qed.
Lemma contains_free p s c : index_byte s c = None → contains_byte (p +:+ s) c = contains_byte p c.
Proof. intros Hs. unfold contains_byte. by rewrite index_free. Qed.

(** The address at which the HTTP gateway dials the gRPC server of the same
    process is the IPv4 loopback and the configured port when gRPC listens on
    all IPv4 addresses. When it listens on all IPv6 addresses ("::"), the
    brackets are put around the address twice, and the target is no address. *)
Theorem loopback_target c : 1 <= gc_Port c <= 65535 →
  (gc_Host c = "0.0.0.0" ∨ gc_Host c = "" →
     SplitHostPort (loopbackTarget c) = Some ("127.0.0.1", FormatInt (gc_Port c))) ∧
  (gc_Host c = "::" ∨ gc_Host c = "[::]" → SplitHostPort (loopbackTarget c) = None).
Proof.
  intros Hp. destruct (FormatInt_free (gc_Port c) colon) as [Hc1 Hc2]; [lia|by left|].
  destruct (FormatInt_free (gc_Port c) lbracket) as [Hl1 Hl2]; [lia|by right; left|].
  destruct (FormatInt_free (gc_Port c) rbracket) as [Hr1 Hr2]; [lia|by right; right|].
  split; intros Hh; unfold loopbackTarget, Address.
  - rewrite decide_True by done. set (port := FormatInt (gc_Port c)) in *. clearbody port.
    change (JoinHostPort "127.0.0.1" port) with ("127.0.0.1:" +:+ port).
    unfold SplitHostPort. rewrite last_index_free, !contains_free by assumption. reflexivity.
  - rewrite decide_False by (destruct Hh as [->| ->]; intros [E|E]; discriminate E). rewrite decide_True by done.
    set (port := FormatInt (gc_Port c)) in *. clearbody port.
    change (JoinHostPort "[::1]" port) with ("[[::1]]:" +:+ port).
    unfold SplitHostPort. rewrite last_index_free, index_free by assumption. reflexivity.
Qed.

(** ** Instances *)

(** config/config.yaml. *)
Definition minutes (n : Z) : Z := n * (60 * Second).
Definition no_tls : TLSConfig := mkTLSConfig false "" "".
Definition shipped_config : Config :=
  mkConfig "local" "sso_nergous_ru" (mkLogConfig "debug" "text" "stdout" "logs/app.log" false)
    (mkGRPCConfig "0.0.0.0" 44044 (30 * Second) (30 * Second) 4194304 4194304
       (mkKeepaliveConfig (60 * Second) (20 * Second) (30 * Second) false) true true no_tls)
    (mkHTTPConfig true "0.0.0.0" 8080 (30 * Second) (30 * Second) (30 * Second) (5 * Second) (60 * Second)
       ["http://localhost:5173"] no_tls)
    (mkDatabaseConfig "mysql" (mkConnectionConfig "localhost" 3306 "root" "" "sso")
       (mkOptionsConfig (5 * Second) (30 * Second) (30 * Second) "false"
          "parseTime=true&loc=UTC&collation=utf8mb4_unicode_ci")
       (mkPoolConfig 10 5 (minutes 5) (minutes 2)) (5 * Second))
    (mkAuthSection (mkJWTConfig "keys/ed25519_private.pem" "keys/ed25519_public.pem" "sso" (minutes 15))
       (minutes (720 * 60)) (minutes (168 * 60)) 12 5 (minutes 15))
    (mkAuditConfig true 365) shipped.

Example shipped_dsn : DSN (cf_Database shipped_config) =
  "root:@tcp(localhost:3306)/sso?timeout=5s&readTimeout=30s&writeTimeout=30s&tls=false&parseTime=true&loc=UTC&collation=utf8mb4_unicode_ci".
Proof. vm_compute. reflexivity. Qed.

Section Witness.
#[local] Existing Instance toy.
#[local] Existing Instance ToyRate.lib.
#[local] Existing Instance ToyGrpc.grpc.


Lemma loopback_target_witness :
  SplitHostPort (loopbackTarget (cf_GRPC shipped_config)) = Some ("127.0.0.1", "44044") ∧
  SplitHostPort (loopbackTarget (mkGRPCConfig "::" 44044 1 1 1 1 (mkKeepaliveConfig 1 1 1 false) true false no_tls)) = None.
Proof.
  split.
  - exact (proj1 (loopback_target (cf_GRPC shipped_config) ltac:(vm_compute; split; discriminate))
      (or_introl eq_refl)).
  - exact (proj2 (loopback_target (mkGRPCConfig "::" 44044 1 1 1 1 (mkKeepaliveConfig 1 1 1 false) true false no_tls)
      ltac:(vm_compute; split; discriminate)) (or_introl eq_refl)).
Defined.

End Witness.
