(* ===== verification/Http.v ===== *)
(** * Http: the HTTP front end.

    platform/httpserver/{cors,middleware,health,server}.go: the CORS policy,
    the request id, the status recorder of the access log (Flush included), the
    health endpoints, the routing and the matcher of the headers the gateway
    passes on. The REST gateway behind "/" is grpc-gateway, an argument. Panic recovery and the access log are in Middleware. Header
    names are canonical; net/http sends the headers as they are when the
    status is first written. *)
From stdpp Require Import gmap list.
From S2P Require Import Prelude Errors Monad Runtime Kernel World GoStd Scenario.
Local Open Scope Z_scope.

Abbreviation Header := (gmap string (list string)) (only parsing).
Definition Header_Get (h : Header) (k : string) : string :=
  match h !! k with Some (v :: _) => v | _ => "" end.
Definition Header_Set (k v : string) (h : Header) : Header := <[k := [v]]> h.
Definition Header_Add (k v : string) (h : Header) : Header := <[k := default [] (h !! k) ++ [v]]> h.

Record HttpRequest := mkHttpRequest { hr_Method : string; hr_Path : string; hr_Header : Header }.
Definition with_header (h : Header) (r : HttpRequest) : HttpRequest := mkHttpRequest (hr_Method r) (hr_Path r) h.

(** net/http's ResponseWriter: the first WriteHeader counts, and Write implies one. *)
Record Writer := mkWriter { wr_Header : Header; wr_Sent : option (Z * Header); wr_Body : string }.
Definition fresh_writer : Writer := mkWriter ∅ None "".
Definition on_header (f : Header → Header) (w : Writer) : Writer := mkWriter (f (wr_Header w)) (wr_Sent w) (wr_Body w).
Definition WriteHeader (code : Z) (w : Writer) : Writer :=
  match wr_Sent w with
  | Some _ => w
  | None => mkWriter (wr_Header w) (Some (code, wr_Header w)) (wr_Body w)
  end.
Definition Write (b : string) (w : Writer) : Writer :=
  let w := WriteHeader 200 w in mkWriter (wr_Header w) (wr_Sent w) (wr_Body w +:+ b).
(** http.Flusher: Flush sends the headers, with status 200 if none was chosen. *)
Definition Flush (w : Writer) : Writer := WriteHeader 200 w.
(** What the client sees once the handler has returned. *)
Definition response (w : Writer) : Z * Header * string :=
  match wr_Sent w with
  | Some (code, h) => (code, h, wr_Body w)
  | None => (200, wr_Header w, wr_Body w)
  end.

(** The state [S] stands for what the handlers behind act on. *)
Definition HttpHandler (S : Type) : Type := HttpRequest → S * Writer → S * Writer.

(** ** cors.go *)

Definition corsAllowMethods : string := "GET, POST, PUT, PATCH, DELETE, OPTIONS".
Definition corsAllowHeaders : string := "Authorization, Content-Type, X-Request-Id, Grpc-Metadata-*".
Definition corsExposeHeader : string := "X-Request-Id".
Definition corsMaxAge : string := "600".

Record Origins := mkOrigins { og_wildcard : bool; og_exact : gset string }.
Definition parse_origins (allowedOrigins : list string) : Origins :=
  foldl (λ acc o,
    let o := TrimSpace o in
    if decide (o = "*") then mkOrigins true (og_exact acc)
    else if decide (o ≠ "") then mkOrigins (og_wildcard acc) ({[o]} ∪ og_exact acc)
    else acc) (mkOrigins false ∅) allowedOrigins.

(** [allowed, isWildcard]. *)
Definition allow (og : Origins) (origin : string) : bool * bool :=
  if decide (origin = "") then (false, false)
  else if decide (origin ∈ og_exact og) then (true, false)
  else if og_wildcard og then (true, true)
  else (false, false).

(** The headers set before the request is told apart. *)
Definition corsHeaders (og : Origins) (origin : string) (h : Header) : Header :=
  match allow og origin with
  | (true, true) => Header_Set "Access-Control-Expose-Headers" corsExposeHeader
                      (Header_Set "Access-Control-Allow-Origin" "*" h)
  | (true, false) => Header_Set "Access-Control-Expose-Headers" corsExposeHeader
                       (Header_Add "Vary" "Origin"
                         (Header_Set "Access-Control-Allow-Credentials" "true"
                           (Header_Set "Access-Control-Allow-Origin" origin h)))
  | (false, _) => h
  end.

Definition preflight (r : HttpRequest) : bool :=
  bool_decide (hr_Method r = "OPTIONS" ∧ Header_Get (hr_Header r) "Access-Control-Request-Method" ≠ "").

Definition preflightHeaders (r : HttpRequest) (h : Header) : Header :=
  let reqHeaders := Header_Get (hr_Header r) "Access-Control-Request-Headers" in
  Header_Set "Access-Control-Max-Age" corsMaxAge
    (Header_Set "Access-Control-Allow-Headers"
       (if decide (reqHeaders ≠ "") then reqHeaders else corsAllowHeaders)
       (Header_Set "Access-Control-Allow-Methods" corsAllowMethods h)).

Definition corsMiddleware {S} (allowedOrigins : list string) (next : HttpHandler S) : HttpHandler S :=
  let og := parse_origins allowedOrigins in
  λ r '(s, w),
    let origin := Header_Get (hr_Header r) "Origin" in
    let w := on_header (corsHeaders og origin) w in
    if preflight r then
      let w := if fst (allow og origin) then on_header (preflightHeaders r) w else w in
      (s, WriteHeader 204 w)
    else next r (s, w).

(** ** middleware.go *)

Definition requestIDHeader : string := "X-Request-Id".

(** Lower-case hexadecimal digits. *)
Definition hex_digit (n : Z) : Ascii.ascii := chr (if decide (n < 10) then 48 + n else 87 + n).
Definition hex_EncodeToString (b : bytes) : string :=
  string_of_list (string_to_list b ≫= λ c, [hex_digit (byte_of c / 16); hex_digit (byte_of c mod 16)]).

Section Middleware.
Context `{Runtime}.

(** The draw the request id comes from; its failure is ignored. *)
Definition newRequestID (k : nat) : string := hex_EncodeToString (rt_rand k 16).

Definition requestIDMiddleware {S} (k : nat) (next : HttpHandler S) : HttpHandler S := λ r '(s, w),
  let id := Header_Get (hr_Header r) requestIDHeader in
  let id := if decide (id = "") then newRequestID k else id in
  next (with_header (Header_Set requestIDHeader id (hr_Header r)) r)
    (s, on_header (Header_Set requestIDHeader id) w).
End Middleware.

(** The recorder of the access log, around a writer. *)
Record statusRecorder := mkStatusRecorder { sr_inner : Writer; sr_status : Z; sr_bytes : Z; sr_wroteHeader : bool }.
Definition new_recorder (w : Writer) : statusRecorder := mkStatusRecorder w 200 0 false.
Definition rec_WriteHeader (code : Z) (r : statusRecorder) : statusRecorder :=
  mkStatusRecorder (WriteHeader code (sr_inner r))
    (if sr_wroteHeader r then sr_status r else code) (sr_bytes r) true.
Definition rec_Write (b : string) (r : statusRecorder) : statusRecorder :=
  mkStatusRecorder (Write b (sr_inner r)) (sr_status r) (sr_bytes r + len b) true.

(** Flush goes past the record. *)
Definition rec_Flush (r : statusRecorder) : statusRecorder :=
  mkStatusRecorder (Flush (sr_inner r)) (sr_status r) (sr_bytes r) (sr_wroteHeader r).

Inductive writer_call :=
  CallHeader (f : Header → Header) | CallWriteHeader (code : Z) | CallWrite (b : string) | CallFlush.
Definition rec_call (r : statusRecorder) (c : writer_call) : statusRecorder :=
  match c with
  | CallHeader f => mkStatusRecorder (on_header f (sr_inner r)) (sr_status r) (sr_bytes r) (sr_wroteHeader r)
  | CallWriteHeader code => rec_WriteHeader code r
  | CallWrite b => rec_Write b r
  | CallFlush => rec_Flush r
  end.

(** ** health.go and the routes of server.go *)

Definition text_reply (code : Z) (body : string) (w : Writer) : Writer :=
  Write body (WriteHeader code (on_header (Header_Set "Content-Type" "text/plain; charset=utf-8") w)).
Definition line (s : string) : string := s +:+ string_of_list [chr 10].

Definition healthzHandler {S} : HttpHandler S := λ _ '(s, w), (s, text_reply 200 (line "ok") w).

(** [readiness]: absent, or the answer of the ping within its two seconds. *)
Definition readyzHandler {S} (readiness : option (S → bool)) : HttpHandler S := λ _ '(s, w),
  match readiness with
  | None => (s, text_reply 200 (line "ready") w)
  | Some ok => if ok s then (s, text_reply 200 (line "ready") w) else (s, text_reply 503 (line "not ready") w)
  end.

Definition metricsStubHandler {S} : HttpHandler S := λ _ '(s, w),
  (s, Write (line (string_of_list [chr 35] +:+ " metrics not yet wired (see TODO.md " +:+
                   string_of_list [chr 194; chr 167] +:+ "5.3)"))
        (WriteHeader 200 (on_header (Header_Set "Content-Type" "text/plain; version=0.0.4; charset=utf-8") w))).

Definition root {S} (readiness : option (S → bool)) (gateway : HttpHandler S) : HttpHandler S := λ r,
  if decide (hr_Path r = "/healthz") then healthzHandler r
  else if decide (hr_Path r = "/readyz") then readyzHandler readiness r
  else if decide (hr_Path r = "/metrics") then metricsStubHandler r
  else gateway r.

(** ** The gateway of server.go *)

(** strings.EqualFold, of header names, which are ASCII. *)
Definition EqualFold `{Runtime} (s t : string) : bool := bool_decide (ToLower s = ToLower t).

(** [runtime.DefaultHeaderMatcher] of grpc-gateway is an argument. *)
Definition incomingHeaderMatcher `{Runtime} (DefaultHeaderMatcher : string → string * bool) (key : string) : string * bool :=
  if EqualFold key requestIDHeader then (ToLower requestIDHeader, true) else DefaultHeaderMatcher key.

Definition http_handler `{Runtime} {S} (k : nat) (allowedOrigins : list string)
    (readiness : option (S → bool)) (gateway : HttpHandler S) : HttpHandler S :=
  requestIDMiddleware k (corsMiddleware allowedOrigins (root readiness gateway)).

(** ** The CORS policy *)

Lemma parse_origins_spec l :
  og_wildcard (parse_origins l) = bool_decide ("*" ∈ (TrimSpace <$> l)) ∧
  (∀ o, o ∈ og_exact (parse_origins l) ↔ o ∈ (TrimSpace <$> l) ∧ o ≠ "*" ∧ o ≠ "").
Proof.
  unfold parse_origins. induction l as [|x l [IHw IHe]] using rev_ind.
  { split; [done|]. intros o. simpl. set_solver. }
  rewrite foldl_snoc, fmap_app. set (acc := foldl _ _ l) in *. cbn [fmap list_fmap].
  cbv zeta. destruct (decide (TrimSpace x = "*")) as [Hx|Hx]; cbn [og_wildcard og_exact].
  { rewrite Hx. split; [symmetry; apply bool_decide_eq_true; set_solver|]. intros o. rewrite IHe. set_solver. }
  assert (Hw : og_wildcard acc = bool_decide ("*" ∈ (TrimSpace <$> l) ++ [TrimSpace x])).
  { rewrite IHw. apply bool_decide_ext. set_solver. }
  destruct (decide (TrimSpace x ≠ "")) as [Hn|Hn]; cbn [og_wildcard og_exact].
  - split; [done|]. intros o. rewrite elem_of_union, IHe. set_solver.
  - apply dec_stable in Hn. split; [done|]. intros o. rewrite IHe, Hn. set_solver.
Qed.

(** The headers of the policy on a response that had none of them. *)
Record cors_verdict (l : list string) (origin : string) (h : Header) : Prop := {
  cv_credentials : h !! "Access-Control-Allow-Credentials" =
    if decide (origin ≠ "" ∧ origin ≠ "*" ∧ origin ∈ (TrimSpace <$> l)) then Some ["true"] else None;
  cv_origin : h !! "Access-Control-Allow-Origin" =
    if decide (origin ≠ "" ∧ origin ≠ "*" ∧ origin ∈ (TrimSpace <$> l)) then Some [origin]
    else if decide (origin ≠ "" ∧ "*" ∈ (TrimSpace <$> l)) then Some ["*"] else None }.

Lemma corsHeaders_verdict l origin : cors_verdict l origin (corsHeaders (parse_origins l) origin ∅).
Proof.
  destruct (parse_origins_spec l) as [Hw He]. unfold corsHeaders, allow.
  destruct (decide (origin = "")) as [->|Hne].
  { split; rewrite !decide_False by tauto; apply lookup_empty. }
  destruct (decide (origin ∈ og_exact (parse_origins l))) as [Hin|Hin]; rewrite He in Hin.
  { split; rewrite decide_True by tauto; unfold Header_Set, Header_Add; by simplify_map_eq. }
  rewrite Hw. case_bool_decide as Hs; unfold Header_Set.
  - split; rewrite (decide_False (P := origin ≠ "" ∧ origin ≠ "*" ∧ _)) by tauto; [by simplify_map_eq|].
    rewrite decide_True by done. by simplify_map_eq.
  - split; rewrite !decide_False by tauto; apply lookup_empty.
Qed.

(** C38. The CORS policy: credentials are allowed exactly to the origins listed
    by name, with the origin echoed, and never to the wildcard, under which
    any other origin only gets "*"; an origin the list does not admit gets no
    header. A preflight is answered with 204 without reaching the service, and
    any other request is passed on with these headers. *)
Theorem cors_policy {S} l (next : HttpHandler S) r s :
  let origin := Header_Get (hr_Header r) "Origin" in
  ∃ w, cors_verdict l origin (wr_Header w) ∧ wr_Sent w = None ∧
    (preflight r = false → corsMiddleware l next r (s, fresh_writer) = next r (s, w)) ∧
    (preflight r = true → ∃ h, cors_verdict l origin h ∧
       corsMiddleware l next r (s, fresh_writer) = (s, mkWriter h (Some (204, h)) "")).
Proof.
  intros origin. pose proof (corsHeaders_verdict l origin) as Hv.
  exists (on_header (corsHeaders (parse_origins l) origin) fresh_writer).
  split; [exact Hv|]. split; [done|]. unfold corsMiddleware. fold origin. split; intros ->; [done|].
  destruct (fst (allow (parse_origins l) origin)).
  - eexists. split; [|reflexivity]. simpl. destruct Hv as [Hc Ho].
    split; unfold preflightHeaders, Header_Set; by rewrite !lookup_insert_ne by done.
  - eexists. split; [|reflexivity]. exact Hv.
Qed.

(** ** The access log *)

(** Whether a Flush opens the reply before a status is chosen, and one is
    chosen afterwards. *)
Fixpoint late_status (flushed : bool) (calls : list writer_call) : bool :=
  match calls with
  | [] => false
  | CallHeader _ :: calls' => late_status flushed calls'
  | CallFlush :: calls' => late_status true calls'
  | CallWriteHeader _ :: _ => flushed
  | CallWrite _ :: _ => false
  end.

(** The reply was opened by a status or by data; by a Flush, or not at all. *)
Definition opened (r : statusRecorder) : Prop :=
  sr_wroteHeader r = true ∧ ∃ h, wr_Sent (sr_inner r) = Some (sr_status r, h).
Definition unopened (flushed : bool) (r : statusRecorder) : Prop :=
  sr_wroteHeader r = false ∧ sr_status r = 200 ∧
  if flushed then ∃ h, wr_Sent (sr_inner r) = Some (200, h) else wr_Sent (sr_inner r) = None.

Lemma rec_calls_bytes calls r : sr_bytes r = len (wr_Body (sr_inner r)) →
  sr_bytes (foldl rec_call r calls) = len (wr_Body (sr_inner (foldl rec_call r calls))).
Proof.
  revert r. induction calls as [|c calls IH]; intros r Hr; [done|]. simpl. apply IH.
  assert (Hw : ∀ code w, wr_Body (WriteHeader code w) = wr_Body w) by (intros; unfold WriteHeader; by case_match).
  destruct c; simpl; rewrite ?Hw; [done..| |by unfold Flush; rewrite Hw].
  by rewrite len_app, Hr.
Qed.

Lemma opened_calls calls r : opened r → opened (foldl rec_call r calls).
Proof.
  revert r. induction calls as [|c calls IH]; intros r Hr; [done|]. simpl. apply IH.
  destruct Hr as (Hw & h & Hs). destruct r as [w st n hd], c; unfold opened in *; simpl in *; subst hd;
    (split; [done|exists h]); unfold Flush, WriteHeader; by rewrite ?Hs.
Qed.

Lemma unopened_calls calls flushed r : unopened flushed r → late_status flushed calls = false →
  opened (foldl rec_call r calls) ∨ ∃ flushed', unopened flushed' (foldl rec_call r calls).
Proof.
  revert flushed r. induction calls as [|c calls IH]; intros flushed r Hr Hl; [by eauto|]. simpl in *.
  destruct Hr as (Hw & Hst & Hs). destruct r as [w st n hd]; simpl in *; subst hd st.
  destruct c as [f|code|b|].
  - by apply (IH flushed).
  - left. apply opened_calls. subst flushed. split; [done|]. simpl. unfold WriteHeader. rewrite Hs. by eexists.
  - left. apply opened_calls. split; [done|]. simpl. unfold WriteHeader.
    destruct flushed; [destruct Hs as [h Hs]|]; rewrite Hs; by eexists.
  - apply (IH true); [|done]. split; [done|]. split; [done|]. simpl. unfold Flush, WriteHeader.
    destruct flushed; [destruct Hs as [h Hs]|]; rewrite Hs; by eexists.
Qed.

(** The access log tells the truth: whatever a handler writes, and in
    whatever order, the status and the number of bytes it records are those
    of the response the client gets, unless a status is chosen after a Flush
    has opened the reply. *)
Lemma access_log_from w calls : wr_Sent w = None → wr_Body w = "" → late_status false calls = false →
  let r := foldl rec_call (new_recorder w) calls in
  sr_status r = (response (sr_inner r)).1.1 ∧ sr_bytes r = len (response (sr_inner r)).2.
Proof.
  intros Hw Hb Hl r. split.
  - destruct (unopened_calls calls false (new_recorder w)) as [[_ [h Hs]]|[fl (_ & Hst & Hs)]]; [by split_and!|done|..].
    + unfold response. subst r. by rewrite Hs.
    + unfold response. subst r. destruct fl; [destruct Hs as [h Hs]|]; by rewrite Hs.
  - subst r. rewrite rec_calls_bytes by (by simpl; rewrite Hb). unfold response. by repeat case_match.
Qed.

(** A status chosen after a Flush is recorded, but the client has got 200. *)
Example late_status_is_recorded :
  let r := foldl rec_call (new_recorder fresh_writer) [CallFlush; CallWriteHeader 500] in
  sr_status r = 500 ∧ (response (sr_inner r)).1.1 = 200.
Proof. by split. Qed.
