(* ===== verification/Process.v ===== *)
(** * Process: running and stopping the process.

    App.Run, App.Stop and closeDB of bootstrap/bootstrap.go, Server.Run and
    Server.Stop of platform/grpc/server/server.go and platform/httpserver/server.go,
    and the select of run in cmd/sso/main.go. The state holds the program
    counters of the goroutines and the channels they share; a step is one
    atomic action of one of them, or an answer of a library. errgroup is an
    argument ([ErrGroup]); the two servers and the pool are known by when
    their blocking calls may return ([allowed]) and when their documentation
    promises that they do ([obliged]). *)
From stdpp Require Import list relations.
From S2P Require Import Prelude.

(** ** errgroup *)

Class ErrGroup (E : Type) := {
  Group : Type;
  group_new : Group;
  group_return : option E → Group → Group;   (* a function passed to Go returns *)
  group_err : Group → option E;              (* what Wait answers *)
  group_canceled : Group → bool }.           (* the derived context is done *)

(** "The derived Context is canceled the first time a function passed to Go
    returns a non-nil error"; "Wait [...] returns the first non-nil error". *)
Class ErrGroupLaws (E : Type) `{ErrGroup E} : Prop := {
  group_new_err : group_err group_new = None;
  group_new_canceled : group_canceled group_new = false;
  group_return_err : ∀ r g, group_err (group_return r g) = match group_err g with Some e => Some e | None => r end;
  group_return_canceled : ∀ r g, group_canceled (group_return r g) = group_canceled g || match r with Some _ => true | None => false end }.

Section Process.
Context {E : Type} `{ErrGroup E}.
(** [errors.Is(err, http.ErrServerClosed)] and [errors.Is(err, net.ErrClosed)]. *)
Context (is_ErrServerClosed is_ErrClosed : E → bool).

(** ** The goroutines *)

(** A listener: inside Run of its server, back from it, told Stop if it
    failed, returned to the group. *)
Inductive Listener := LServing | LReturned (r : option E) | LSignalled (r : option E) | LDone (r : option E).

(** The shutdown watcher: at its select, in httpServer.Stop, in
    grpcServer.Stop, past it, returned to the group. *)
Inductive Watcher := WSelect | WHttpStop | WGrpcStop | WReturn | WDone.

(** A call of App.Stop: before it, waiting for doneCh, in closeDB, back. *)
Inductive Stopper := SIdle | SWait | SCloseDB | SBack.

(** run of cmd/sso: at its select, inside app.Stop, returning. *)
Inductive Main := MSelect | MStop | MExit (r : option E).

Record App := mkApp {
  a_grpc : Listener;
  a_http : option Listener;      (* none: cfg.HTTP.Enabled=false *)
  a_watcher : Watcher;
  a_group : Group;
  a_stopCh : bool;               (* closed *)
  a_doneCh : bool;               (* closed *)
  a_result : option E;           (* what Run returned, once doneCh is closed *)
  a_http_shutdown : bool;        (* http.Server.Shutdown was called *)
  a_conn : bool;                 (* the gateway's connection is open *)
  a_grpc_stop : bool;            (* GracefulStop was called *)
  a_grpc_forced : bool;          (* grpc.Server.Stop was called *)
  a_stops : list Stopper;        (* other callers of Stop *)
  a_main : Main;
  a_main_stop : Stopper;         (* the call of Stop in run *)
  a_closing : bool;              (* db.Close was called *)
  a_db : bool }.                 (* the pool is open *)

Definition set_grpc l s := mkApp l (a_http s) (a_watcher s) (a_group s) (a_stopCh s) (a_doneCh s) (a_result s)
  (a_http_shutdown s) (a_conn s) (a_grpc_stop s) (a_grpc_forced s) (a_stops s) (a_main s) (a_main_stop s) (a_closing s) (a_db s).
Definition set_http l s := mkApp (a_grpc s) (Some l) (a_watcher s) (a_group s) (a_stopCh s) (a_doneCh s) (a_result s)
  (a_http_shutdown s) (a_conn s) (a_grpc_stop s) (a_grpc_forced s) (a_stops s) (a_main s) (a_main_stop s) (a_closing s) (a_db s).
Definition set_watcher w s := mkApp (a_grpc s) (a_http s) w (a_group s) (a_stopCh s) (a_doneCh s) (a_result s)
  (a_http_shutdown s) (a_conn s) (a_grpc_stop s) (a_grpc_forced s) (a_stops s) (a_main s) (a_main_stop s) (a_closing s) (a_db s).
Definition set_group r s := mkApp (a_grpc s) (a_http s) (a_watcher s) (group_return r (a_group s)) (a_stopCh s) (a_doneCh s) (a_result s)
  (a_http_shutdown s) (a_conn s) (a_grpc_stop s) (a_grpc_forced s) (a_stops s) (a_main s) (a_main_stop s) (a_closing s) (a_db s).
Definition set_done s := mkApp (a_grpc s) (a_http s) (a_watcher s) (a_group s) (a_stopCh s) true (group_err (a_group s))
  (a_http_shutdown s) (a_conn s) (a_grpc_stop s) (a_grpc_forced s) (a_stops s) (a_main s) (a_main_stop s) (a_closing s) (a_db s).
Definition set_servers sh co gs gf s := mkApp (a_grpc s) (a_http s) (a_watcher s) (a_group s) (a_stopCh s) (a_doneCh s) (a_result s)
  sh co gs gf (a_stops s) (a_main s) (a_main_stop s) (a_closing s) (a_db s).
Definition set_stops l s := mkApp (a_grpc s) (a_http s) (a_watcher s) (a_group s) (a_stopCh s) (a_doneCh s) (a_result s)
  (a_http_shutdown s) (a_conn s) (a_grpc_stop s) (a_grpc_forced s) l (a_main s) (a_main_stop s) (a_closing s) (a_db s).
Definition set_main m st s := mkApp (a_grpc s) (a_http s) (a_watcher s) (a_group s) (a_stopCh s) (a_doneCh s) (a_result s)
  (a_http_shutdown s) (a_conn s) (a_grpc_stop s) (a_grpc_forced s) (a_stops s) m st (a_closing s) (a_db s).
Definition set_db cl db s := mkApp (a_grpc s) (a_http s) (a_watcher s) (a_group s) (a_stopCh s) (a_doneCh s) (a_result s)
  (a_http_shutdown s) (a_conn s) (a_grpc_stop s) (a_grpc_forced s) (a_stops s) (a_main s) (a_main_stop s) cl db.
(** close(stopCh), under stopOnce. *)
Definition signalStop s := mkApp (a_grpc s) (a_http s) (a_watcher s) (a_group s) true (a_doneCh s) (a_result s)
  (a_http_shutdown s) (a_conn s) (a_grpc_stop s) (a_grpc_forced s) (a_stops s) (a_main s) (a_main_stop s) (a_closing s) (a_db s).

(** ** The actions *)

Inductive Action :=
  | GrpcReturns (r : option E)      (* net.Listen failed, or Serve returned *)
  | GrpcNext                        (* the gRPC goroutine moves on *)
  | HttpReturns (r : option E)      (* ListenAndServe returned *)
  | HttpNext
  | WatcherNext
  | ShutdownReturns                 (* http.Server.Shutdown, drained or out of time *)
  | GracefulReturns                 (* every RPC has finished *)
  | GrpcTimer                       (* cfg.ShutdownTimeout of the gRPC server *)
  | WaitReturns                     (* g.Wait in Run, then close(doneCh) *)
  | StopCalled (i : nat)            (* somebody calls Stop *)
  | StopNext (i : nat)
  | Signal                          (* SIGINT or SIGTERM *)
  | MainStopNext
  | MainNext
  | CloseReturns                    (* db.Close *)
  | CloseTimer (i : option nat).    (* dbShutdownTimeout of one closeDB *)

(** httpserver's Server.Run. *)
Definition http_Run (raw : option E) : option E :=
  match raw with Some e => if is_ErrServerClosed e then None else Some e | None => None end.

(** The goroutine around grpcServer.Run. *)
Definition grpc_goroutine (s : App) : option App :=
  match a_grpc s with
  | LReturned r => Some (set_grpc (LSignalled r) (match r with Some _ => signalStop s | None => s end))
  | LSignalled r => Some (set_group r (set_grpc (LDone r) s))
  | _ => None
  end.

(** The goroutine around httpServer.Run: any error but ErrServerClosed stops
    the application. *)
Definition http_goroutine (s : App) : option App :=
  match a_http s with
  | Some (LReturned r) =>
      let err := match r with Some e => if is_ErrServerClosed e then None else Some e | None => None end in
      Some (set_http (LSignalled err) (match err with Some _ => signalStop s | None => s end))
  | Some (LSignalled r) => Some (set_group r (set_http (LDone r) s))
  | _ => None
  end.

(** grpcserver's Server.Stop begins with GracefulStop. *)
Definition stop_grpc (s : App) : App :=
  set_watcher WGrpcStop (set_servers (a_http_shutdown s) (a_conn s) true (a_grpc_forced s) s).

(** The shutdown watcher, where it does not wait for a server. *)
Definition watcher (s : App) : option App :=
  match a_watcher s with
  | WSelect =>
      if a_stopCh s || group_canceled (a_group s) then
        match a_http s with
        | Some _ => Some (set_watcher WHttpStop (set_servers true (a_conn s) (a_grpc_stop s) (a_grpc_forced s) s))
        | None => Some (stop_grpc s)
        end
      else None
  | WReturn => Some (set_group None (set_watcher WDone s))
  | _ => None
  end.

(** httpserver's Server.Stop, once Shutdown has returned: the connection of
    the gateway is closed. *)
Definition http_Stop (s : App) : option App :=
  match a_watcher s with
  | WHttpStop => Some (stop_grpc (set_servers (a_http_shutdown s) false (a_grpc_stop s) (a_grpc_forced s) s))
  | _ => None
  end.

(** The select of grpcserver's Server.Stop: drained, or forced. *)
Definition grpc_Stop (drained : bool) (s : App) : option App :=
  match a_watcher s with
  | WGrpcStop =>
      Some (set_watcher WReturn
        (if drained then s else set_servers (a_http_shutdown s) (a_conn s) (a_grpc_stop s) true s))
  | _ => None
  end.

Definition listener_done (l : Listener) : bool := match l with LDone _ => true | _ => false end.
Definition all_returned (s : App) : bool :=
  listener_done (a_grpc s)
  && match a_http s with Some l => listener_done l | None => true end
  && match a_watcher s with WDone => true | _ => false end.

(** Run. *)
Definition Run (s : App) : option App :=
  if all_returned s && negb (a_doneCh s) then Some (set_done s) else None.

(** Stop: what a caller does next, and what it does to the application. *)
Definition Stop (p : Stopper) (s : App) : option (Stopper * App) :=
  match p with
  | SWait => if a_doneCh s then Some (SCloseDB, set_db true (a_db s) s) else None
  | SCloseDB => if a_db s then None else Some (SBack, s)
  | _ => None
  end.

(** closeDB gives up when its timer fires. *)
Definition closeDB_timeout (p : Stopper) : option Stopper := match p with SCloseDB => Some SBack | _ => None end.

(** run of cmd/sso after app.Run or app.Stop. *)
Definition main_run (s : App) : option App :=
  match a_main s with
  | MSelect =>
      if a_doneCh s then
        Some (set_main (MExit (match a_result s with Some e => if is_ErrClosed e then None else Some e | None => None end))
                (a_main_stop s) s)
      else None
  | MStop => match a_main_stop s with SBack => Some (set_main (MExit None) SBack s) | _ => None end
  | MExit _ => None
  end.

(** One action, when it can happen. *)
Definition act (a : Action) (s : App) : option App :=
  match a with
  | GrpcReturns r => match a_grpc s with LServing => Some (set_grpc (LReturned r) s) | _ => None end
  | GrpcNext => grpc_goroutine s
  | HttpReturns r => match a_http s with Some LServing => Some (set_http (LReturned (http_Run r)) s) | _ => None end
  | HttpNext => http_goroutine s
  | WatcherNext => watcher s
  | ShutdownReturns => http_Stop s
  | GracefulReturns => grpc_Stop true s
  | GrpcTimer => grpc_Stop false s
  | WaitReturns => Run s
  | StopCalled i =>
      match a_stops s !! i with
      | Some SIdle => Some (set_stops (<[i := SWait]> (a_stops s)) (signalStop s))
      | _ => None
      end
  | StopNext i =>
      match a_stops s !! i with
      | Some p => match Stop p s with Some (p', s') => Some (set_stops (<[i := p']> (a_stops s)) s') | None => None end
      | None => None
      end
  | Signal => match a_main s with MSelect => Some (set_main MStop SWait (signalStop s)) | _ => None end
  | MainStopNext =>
      match a_main s with
      | MStop => match Stop (a_main_stop s) s with Some (p', s') => Some (set_main MStop p' s') | None => None end
      | _ => None
      end
  | MainNext => main_run s
  | CloseReturns => if a_closing s && a_db s then Some (set_db true false s) else None
  | CloseTimer None =>
      match closeDB_timeout (a_main_stop s) with Some p => Some (set_main (a_main s) p s) | None => None end
  | CloseTimer (Some i) =>
      match a_stops s !! i with
      | Some p =>
          match closeDB_timeout p with Some p' => Some (set_stops (<[i := p']> (a_stops s)) s) | None => None end
      | None => None
      end
  end.

Definition step (s s' : App) : Prop := ∃ a, act a s = Some s'.

(** The application as New leaves it and Run starts it. *)
Definition started (http : bool) (callers : nat) : App :=
  mkApp LServing (if http then Some LServing else None) WSelect group_new false false None
    false http false false (replicate callers SIdle) MSelect SIdle false true.

(** What must happen sooner or later: the program's own actions, the timers,
    and what the libraries promise. Once Shutdown is called, ListenAndServe
    immediately returns; Shutdown returns at the latest when its context
    expires; Serve returns once GracefulStop has drained the server or Stop
    has closed its listener and connections. Not among them: that a client
    hangs up, that db.Close returns, that somebody calls Stop or signals. *)
Definition obliged (s : App) (a : Action) : bool :=
  match a with
  | GrpcReturns _ => match a_watcher s with WReturn | WDone => true | _ => false end
  | HttpReturns _ => a_http_shutdown s
  | GracefulReturns | CloseReturns | StopCalled _ | Signal => false
  | _ => true
  end.

(** ** Termination *)

Definition listener_left (l : Listener) : nat :=
  match l with LServing => 3 | LReturned _ => 2 | LSignalled _ => 1 | LDone _ => 0 end.
Definition stopper_left (p : Stopper) : nat :=
  match p with SIdle => 3 | SWait => 2 | SCloseDB => 1 | SBack => 0 end.

(** How many steps are left at most. *)
Definition steps_left (s : App) : nat :=
  listener_left (a_grpc s) + from_option listener_left 0 (a_http s)
  + match a_watcher s with WSelect => 4 | WHttpStop => 3 | WGrpcStop => 2 | WReturn => 1 | WDone => 0 end
  + (if a_doneCh s then 0 else 1)
  + match a_main s with MSelect => 4 | MStop => 1 | MExit _ => 0 end
  + stopper_left (a_main_stop s) + (if a_db s then 1 else 0)
  + sum_list_with stopper_left (a_stops s).

Lemma sum_insert (l : list Stopper) i p p' : l !! i = Some p →
  (sum_list_with stopper_left (<[i:=p']> l) + stopper_left p = sum_list_with stopper_left l + stopper_left p')%nat.
Proof.
  revert i. induction l as [|q l IH]; intros [|i] Hi; simplify_eq/=; [lia|]. specialize (IH i Hi). lia.
Qed.

(** Takes an action apart: [H : act a s = Some s']. *)
Ltac acted H :=
  unfold act, grpc_goroutine, http_goroutine, watcher, http_Stop, grpc_Stop, Run, Stop, closeDB_timeout, main_run, stop_grpc,
    all_returned in H;
  cbn in H;
  repeat (match type of H with
    | context [match ?x with _ => _ end] =>
        lazymatch x with context [match _ with _ => _ end] => fail | _ => first [is_var x; destruct x | destruct x eqn:?] end
    end; cbn in H; try discriminate H);
  try (injection H as <-); cbn in *.

Lemma act_decreases a s s' : act a s = Some s' → (steps_left s' < steps_left s)%nat.
Proof.
  destruct s as [g h w gr st dn res hs co gs gf stops m ms cl db]. intros Ha.
  destruct a; acted Ha; unfold steps_left; simpl;
    repeat match goal with
    | Hi : ?l !! ?i = Some ?p |- context [sum_list_with _ (<[?i:=?p']> ?l)] =>
        pose proof (sum_insert l i p p' Hi); clear Hi
    end; simpl in *;
    repeat match goal with |- context [if ?b then _ else _] => destruct b end; simpl; lia.
Qed.

(** ** What holds at every instant *)

Definition serving (l : Listener) : Prop := match l with LServing => True | _ => False end.
Definition failure (l : Listener) : option E := match l with LDone r => r | _ => None end.
Definition told (l : Listener) : option E := match l with LSignalled r | LDone r => r | _ => None end.

Record orderly (s : App) : Prop := {
  (* the group has the errors of the listeners that returned *)
  od_err : ∀ e, group_err (a_group s) = Some e → failure (a_grpc s) = Some e ∨ a_http s ≫= failure = Some e;
  od_none : group_err (a_group s) = None → failure (a_grpc s) = None ∧ a_http s ≫= failure = None;
  od_canceled : group_canceled (a_group s) = true → a_stopCh s = true;
  od_told : told (a_grpc s) ≠ None ∨ a_http s ≫= told ≠ None → a_stopCh s = true;
  (* the watcher's progress *)
  od_select : a_watcher s = WSelect → a_http_shutdown s = false ∧ a_grpc_stop s = false;
  od_woken : a_watcher s ≠ WSelect → a_stopCh s = true ∧ (a_http s ≠ None → a_http_shutdown s = true);
  od_stop : a_watcher s ≠ WSelect → a_watcher s ≠ WHttpStop → a_grpc_stop s = true;
  od_conn : a_grpc_stop s = true ∨ a_http s = None → a_conn s = false;
  od_forced : a_grpc_forced s = true → a_grpc_stop s = true;
  (* Run, Stop and the pool *)
  od_done : a_doneCh s = true → all_returned s = true ∧ a_result s = group_err (a_group s);
  od_closing : a_closing s = true → a_doneCh s = true;
  od_db : a_db s = false → a_closing s = true;
  od_stops : ∀ i, a_stops s !! i = Some SCloseDB ∨ a_stops s !! i = Some SBack → a_closing s = true;
  od_main_stop : a_main_stop s = SCloseDB ∨ a_main_stop s = SBack → a_closing s = true;
  od_called : (∀ i p, a_stops s !! i = Some p → p ≠ SIdle → a_stopCh s = true) ∧ (a_main s = MStop → a_stopCh s = true);
  od_main : match a_main s with MStop => a_main_stop s ≠ SIdle | MSelect => a_main_stop s = SIdle
            | MExit _ => a_main_stop s = SIdle ∨ a_main_stop s = SBack end;
  od_exit : ∀ e, a_main s = MExit (Some e) → a_doneCh s = true ∧ a_result s = Some e }.

Context `{!ErrGroupLaws E}.

Lemma started_orderly http n : orderly (started http n).
Proof.
  split; cbn; rewrite ?group_new_err, ?group_new_canceled; try solve [destruct http; cbn; intuition (try congruence)].
  - intros i. rewrite !lookup_replicate. intuition congruence.
  - split; [|done]. intros i p. rewrite lookup_replicate. intuition congruence.
Qed.

Ltac settles :=
  unfold all_returned in *; cbn in *; rewrite ?group_return_err, ?group_return_canceled;
  repeat match goal with
  | r : option E |- _ => destruct r
  | H : context [group_err ?g] |- _ => destruct (group_err g)
  | H : context [group_canceled ?g] |- _ => destruct (group_canceled g)
  | H : context [match ?x with _ => _ end] |- _ => is_var x; destruct x
  | |- context [match ?x with _ => _ end] => is_var x; destruct x
  end; cbn in *; rewrite ?andb_true_iff, ?orb_true_iff, ?andb_false_r, ?orb_false_r in *;
  first [solve [intuition (try congruence)]
        | solve [intros; rewrite ?list_lookup_insert_Some in *; naive_solver]
        | split; intros; rewrite ?list_lookup_insert_Some in *; naive_solver].

Ltac follows Hs Ha :=
  clear Hs; match type of Ha with
  | act ?a ?s = Some ?s' => destruct s; cbn in *; destruct a; acted Ha; try solve [intuition (try congruence)]; settles
  end.

Lemma act_orderly a s s' : act a s = Some s' → orderly s → orderly s'.
Proof.
  intros Ha Hs. split.
  - pose proof (od_err s Hs). follows Hs Ha.
  - pose proof (od_none s Hs); pose proof (od_err s Hs). follows Hs Ha.
  - pose proof (od_canceled s Hs); pose proof (od_told s Hs). follows Hs Ha.
  - pose proof (od_told s Hs). follows Hs Ha.
  - pose proof (od_select s Hs); pose proof (od_stop s Hs). follows Hs Ha.
  - pose proof (od_woken s Hs); pose proof (od_canceled s Hs); pose proof (od_select s Hs). follows Hs Ha.
  - pose proof (od_stop s Hs). follows Hs Ha.
  - pose proof (od_conn s Hs). follows Hs Ha.
  - pose proof (od_forced s Hs); pose proof (od_stop s Hs). follows Hs Ha.
  - pose proof (od_done s Hs); pose proof (od_closing s Hs). follows Hs Ha.
  - pose proof (od_closing s Hs); pose proof (od_done s Hs). follows Hs Ha.
  - pose proof (od_db s Hs); pose proof (od_closing s Hs). follows Hs Ha.
  - pose proof (od_stops s Hs). follows Hs Ha.
  - pose proof (od_main_stop s Hs). follows Hs Ha.
  - pose proof (od_called s Hs). follows Hs Ha.
  - pose proof (od_main s Hs). follows Hs Ha.
  - pose proof (od_exit s Hs); pose proof (od_done s Hs). follows Hs Ha.
Qed.

Lemma reachable_orderly http n s : rtc step (started http n) s → orderly s.
Proof.
  intros Hr. apply (rtc_ind_r (λ s, orderly s) (started http n)) in Hr; [done|apply started_orderly|].
  intros s1 s2 _ [a Ha] Ho. by eapply act_orderly.
Qed.

Lemma act_stopCh a s s' : act a s = Some s' → a_stopCh s = true → a_stopCh s' = true.
Proof. intros Ha. destruct s. cbn. intros ->. destruct a; acted Ha; done. Qed.

Lemma steps_bound k s s' : nsteps step k s s' → (k + steps_left s' <= steps_left s)%nat.
Proof. induction 1 as [|k s1 s2 s3 [a Ha] _ IH]; [lia|]. apply act_decreases in Ha. lia. Qed.

Lemma started_left http n : (steps_left (started http n) <= 19 + 3 * n)%nat.
Proof.
  assert (Hn : sum_list_with stopper_left (replicate n SIdle) = (3 * n)%nat) by (induction n; cbn in *; lia).
  unfold steps_left, started. cbn. rewrite Hn. destruct http; cbn; lia.
Qed.

(** ** The process at rest *)

(** Run has returned, every call of Stop too, and run of cmd/sso is leaving. *)
Definition finished (s : App) : Prop :=
  a_doneCh s = true ∧ (∀ i p, a_stops s !! i = Some p → p = SIdle ∨ p = SBack) ∧ ∃ r, a_main s = MExit r.

Lemma stopped_returns s : orderly s → a_stopCh s = true →
  (∀ a, obliged s a = true → act a s = None) → all_returned s = true.
Proof.
  intros Ho Hs Hq. pose proof (od_woken s Ho) as Hw. unfold all_returned.
  assert (Hwd : a_watcher s = WDone).
  { destruct (a_watcher s) eqn:Ew; [..|done].
    - specialize (Hq WatcherNext eq_refl). cbn in Hq. unfold watcher in Hq. rewrite Ew, Hs in Hq. by destruct (a_http s).
    - specialize (Hq ShutdownReturns eq_refl). cbn in Hq. unfold http_Stop in Hq. by rewrite Ew in Hq.
    - specialize (Hq GrpcTimer eq_refl). cbn in Hq. unfold grpc_Stop in Hq. by rewrite Ew in Hq.
    - specialize (Hq WatcherNext eq_refl). cbn in Hq. unfold watcher in Hq. by rewrite Ew in Hq. }
  rewrite Hwd in *. destruct Hw as [_ Hh]; [done|]. rewrite andb_true_r, andb_true_iff. split.
  - pose proof (Hq (GrpcReturns None)) as H1. pose proof (Hq GrpcNext eq_refl) as H2.
    cbn in *. rewrite Hwd in H1. unfold grpc_goroutine in H2. destruct (a_grpc s); try done. by specialize (H1 eq_refl).
  - pose proof (Hq (HttpReturns None)) as H1. pose proof (Hq HttpNext eq_refl) as H2.
    cbn in *. unfold http_goroutine in H2. destruct (a_http s) as [l|]; [|done].
    rewrite Hh in H1 by done. destruct l; try done. by specialize (H1 eq_refl).
Qed.

Lemma rest_finished s : orderly s → a_stopCh s = true →
  (∀ a, obliged s a = true → act a s = None) → finished s.
Proof.
  intros Ho Hs Hq. pose proof (stopped_returns s Ho Hs Hq) as Hall.
  assert (Hd : a_doneCh s = true).
  { specialize (Hq WaitReturns eq_refl). cbn in Hq. unfold Run in Hq. rewrite Hall in Hq. by destruct (a_doneCh s). }
  split; [done|]. split.
  - intros i p Hp. pose proof (Hq (StopNext i) eq_refl) as H1. pose proof (Hq (CloseTimer (Some i)) eq_refl) as H2.
    cbn in *. rewrite Hp in *. destruct p; cbn in *; [by left|by rewrite Hd in H1|done|by right].
  - pose proof (od_main s Ho) as Hm. pose proof (Hq MainNext eq_refl) as H1. pose proof (Hq MainStopNext eq_refl) as H2.
    pose proof (Hq (CloseTimer None) eq_refl) as H3. cbn in *. unfold main_run in H1.
    destruct (a_main s); [by rewrite Hd in H1| |by eauto].
    destruct (a_main_stop s); cbn in *; [done|by rewrite Hd in H2|done..].
Qed.

(** C16. Shutting down completes. However the goroutines interleave, whatever
    the listeners answer and however long the clients and the database keep
    the process waiting: once a stop is asked for - by a signal, by a call of
    Stop, or by a listener that failed - at most 19 + 3n steps are left, and
    the process only comes to rest when Run has returned, every call of Stop
    has, and main leaves. *)
Theorem shutdown_completes http n s : rtc step (started http n) s → a_stopCh s = true →
  (∀ k s', nsteps step k s s' → (k <= 19 + 3 * n)%nat) ∧
  (∀ s', rtc step s s' → (∀ a, obliged s' a = true → act a s' = None) → finished s').
Proof.
  intros Hr Hs. split.
  - intros k s' Hk. apply rtc_nsteps in Hr as [j Hj]. apply steps_bound in Hj, Hk.
    pose proof (started_left http n). lia.
  - intros s' Hr' Hq. apply rest_finished; [|clear Hr Hq|done].
    + apply (reachable_orderly http n). by etrans.
    + revert Hs. induction Hr' as [|s1 s2 s3 [a Ha] _ IH]; [done|]. intros Hs. eapply IH, act_stopCh, Hs. exact Ha.
Qed.

(** C17. The order of a shutdown, at every instant of every interleaving. No
    server is told to stop before a stop was asked for or a listener failed;
    the gRPC server is told only when the HTTP front end is down and its
    connection closed; the pool is closed only when Run has returned, and Run
    returns only when both listeners have, with an error exactly if one of
    them failed, and then one of theirs; an error main reports is that one. *)
Theorem shutdown_order http n s : rtc step (started http n) s →
  ((a_http_shutdown s = true ∨ a_grpc_stop s = true) → a_stopCh s = true) ∧
  (a_grpc_stop s = true → a_conn s = false ∧ (a_http s ≠ None → a_http_shutdown s = true)) ∧
  (a_db s = false → a_closing s = true ∧ a_doneCh s = true) ∧
  (a_doneCh s = true → all_returned s = true ∧
     (a_result s = None ↔ failure (a_grpc s) = None ∧ a_http s ≫= failure = None) ∧
     (∀ e, a_result s = Some e → failure (a_grpc s) = Some e ∨ a_http s ≫= failure = Some e)) ∧
  (∀ e, a_main s = MExit (Some e) → a_doneCh s = true ∧ a_result s = Some e).
Proof.
  intros Hr. apply reachable_orderly in Hr as Ho. split_and!.
  - intros Hp. apply (od_woken s Ho). intros Hw. pose proof (od_select s Ho Hw). intuition congruence.
  - intros Hp. split; [by apply (od_conn s Ho); left|]. apply (od_woken s Ho). intros Hw.
    pose proof (od_select s Ho Hw). intuition congruence.
  - intros Hp. apply (od_db s Ho) in Hp. split; [done|]. by apply (od_closing s Ho).
  - intros Hp. destruct (od_done s Ho Hp) as [Hall ->]. split; [done|]. split; [|apply (od_err s Ho)].
    split; [apply (od_none s Ho)|]. intros [H1 H2]. destruct (group_err (a_group s)) as [e|] eqn:Ee; [|done].
    destruct (od_err s Ho e Ee); congruence.
  - apply (od_exit s Ho).
Qed.

End Process.

(** ** Instances *)

Section Witness.

(** A group as its first error and whether it is canceled. *)
#[local] Instance toy_group : ErrGroup string := {
  Group := option string * bool;
  group_new := (None, false);
  group_return r g := (match g.1 with Some e => Some e | None => r end, g.2 || match r with Some _ => true | None => false end);
  group_err := fst;
  group_canceled := snd }.
#[local] Instance toy_group_laws : ErrGroupLaws string.
Proof. by split. Qed.

Definition server_closed (e : string) : bool := bool_decide (e = "http: Server closed").
Definition net_closed (e : string) : bool := bool_decide (e = "use of closed network connection").

Fixpoint play (l : list Action) (s : App (E := string)) : option App :=
  match l with [] => Some s | a :: l' => act server_closed net_closed a s ≫= play l' end.

Lemma play_steps l s s' : play l s = Some s' → rtc (step server_closed net_closed) s s'.
Proof.
  revert s. induction l as [|a l IH]; intros s Hp; simplify_eq/=; [done|]. destruct (act _ _ a s) as [s1|] eqn:Ea; [|done].
  eapply rtc_l; [by exists a|]. by apply IH.
Qed.

(** SIGTERM while a client holds an RPC open and the pool does not close. *)
Definition sigterm : list Action :=
  [Signal; WatcherNext; HttpReturns (Some "http: Server closed"); ShutdownReturns; HttpNext; HttpNext; GrpcTimer;
   WatcherNext; GrpcReturns None; GrpcNext; GrpcNext; WaitReturns; MainStopNext; CloseTimer None; MainNext].

Lemma shutdown_completes_witness :
  ∃ s, play sigterm (started true 1) = Some s ∧ finished s ∧ a_main s = MExit None ∧ a_db s = true.
Proof.
  eexists. split; [by vm_compute|]. split; [|done].
  destruct (shutdown_completes server_closed net_closed true 1
    (default (started true 1) (play [Signal] (started true 1)))) as [_ Hf];
    [by apply (play_steps [Signal])|done|]. apply Hf.
  - by apply (play_steps (tail sigterm)).
  - intros a Ha. destruct a as [| | | | | | | | | |[|i]| | | | |[[|i]|]]; done.
Defined.

Lemma shutdown_order_witness : ∃ s, play sigterm (started true 1) = Some s ∧ all_returned s = true ∧ a_result s = None.
Proof.
  eexists. split; [by vm_compute|].
  match goal with |- all_returned ?s = _ ∧ _ =>
    destruct (shutdown_order server_closed net_closed true 1 s) as (_ & _ & _ & Hd & _) end.
  { apply (play_steps sigterm). by vm_compute. }
  destruct (Hd eq_refl) as (Hall & Hn & _). split; [exact Hall|]. apply Hn. by split.
Defined.

End Witness.
