(* ===== verification/Boot.v ===== *)
(** * Boot: bringing the process up.

    platform/logger/logger.go, platform/mariadb/mariadb.go, platform/crypto/jwt/keys.go,
    the constructors of the modules (modules/*/module.go), New of
    platform/grpc/server, of platform/httpserver and of bootstrap, and the
    start of run in cmd/sso/main.go. The state is what the process holds:
    log files, the pool, sweepers of the rate limiter, the connection of the
    gateway. What the operating system, the drivers and the libraries answer
    is an argument ([Platform]). *)
From stdpp Require Import gmap list.
From S2P Require Import Prelude Errors Monad Runtime World GoStd GrpcBase AuthBase RateLimit Server Config.
From S2P Require Import GrpcFacts RateService Scenario.
Local Open Scope Z_scope.

Class Platform := {
  os_OpenFile : string → option error;               (* O_CREATE|O_WRONLY|O_APPEND, 0640 *)
  os_CloseFile : string → option error;
  sql_Open : string → string → option error;         (* of a driver and a DSN *)
  db_PingContext : option error;                     (* within the timeout *)
  os_ReadFile : string → res bytes;
  pem_Decode : bytes → option (string * bytes);      (* the type and the bytes of the first block *)
  ParsePKCS8PrivateKey : bytes → res string;         (* the Go type of the key *)
  ParsePKIXPublicKey : bytes → res string;
  NewServerTLSFromFile : string → string → option error;
  grpc_NewClient : string → option error;
  RegisterHandler : string → option error }.         (* a service of the gateway *)

(** What the process holds. *)
Record Held := mkHeld {
  hd_files : list string;   (* log files open *)
  hd_db : bool;             (* the pool *)
  hd_sweepers : nat;        (* goroutines of the rate limiter *)
  hd_conn : bool }.         (* the gateway's connection *)
Definition hold_files f h := mkHeld f (hd_db h) (hd_sweepers h) (hd_conn h).
Definition hold_db b h := mkHeld (hd_files h) b (hd_sweepers h) (hd_conn h).
Definition hold_sweepers n h := mkHeld (hd_files h) (hd_db h) n (hd_conn h).
Definition hold_conn b h := mkHeld (hd_files h) (hd_db h) (hd_sweepers h) b.
Definition nothing : Held := mkHeld [] false 0 false.

Section Boot.
Context `{Platform} `{Runtime} `{Grpc} `{RateLib}.

(** A call that takes hold of something, unless it fails. *)
Definition acquire (err : option error) (f : Held → Held) : M Held unit := λ h,
  match err with Some e => (h, Err e) | None => (f h, Ok tt) end.
Definition release (f : Held → Held) : M Held unit := λ h, (f h, Ok tt).

(** ** logger.go *)

Inductive Level := LevelDebug | LevelInfo | LevelWarn | LevelError.
Inductive Format := JSONHandler | TextHandler.
Inductive Sink := Stdout | Stderr | LogFile (path : string).

Definition parseLevel (s : string) : res Level :=
  if decide (s = "debug") then Ok LevelDebug
  else if decide (s = "info") then Ok LevelInfo
  else if decide (s = "warn") then Ok LevelWarn
  else if decide (s = "error") then Ok LevelError
  else Err (EMsg "logger: unknown level").

Definition parseFormat (s : string) : res Format :=
  if decide (s = "json") then Ok JSONHandler
  else if decide (s = "text") then Ok TextHandler
  else Err (EMsg "logger: unknown format").

Definition openSink (sink path : string) : M Held Sink :=
  if decide (sink = "stdout") then ret Stdout
  else if decide (sink = "stderr") then ret Stderr
  else if decide (sink = "file") then
    _ <- acquire (os_OpenFile path) (λ h, hold_files (path :: hd_files h) h) catch e =>
      throw (EWrap "logger: open" e) ;;
    ret (LogFile path)
  else throw (EMsg "logger: unknown sink").

(** [*onceCloser]: whether Close ran, and what it answered. *)
Record onceCloser := mkOnceCloser { oc_sink : Sink; oc_closed : option (option error) }.

(** Close of the sink itself: [noopCloser], or the file. *)
Definition sink_Close (s : Sink) (h : Held) : Held * option error :=
  match s with
  | LogFile path => (hold_files (filter (.≠ path) (hd_files h)) h, os_CloseFile path)
  | _ => (h, None)
  end.

Definition Close (o : onceCloser) (h : Held) : Held * onceCloser * option error :=
  match oc_closed o with
  | Some err => (h, o, err)
  | None => let (h', err) := sink_Close (oc_sink o) h in (h', mkOnceCloser (oc_sink o) (Some err), err)
  end.

Record Logger := mkLogger { lg_level : Level; lg_format : Format; lg_sink : Sink; lg_source : bool; lg_service : string; lg_env : string }.

Definition logger_New (cfg : LogConfig) (env appName : string) : M Held (Logger * onceCloser) :=
  level <- lift (parseLevel (lc_Level cfg)) ;;
  newHandler <- lift (parseFormat (lc_Format cfg)) ;;
  out <- openSink (lc_Sink cfg) (lc_Path cfg) ;;
  ret (mkLogger level newHandler out (lc_AddSource cfg) appName env, mkOnceCloser out None).

(** ** mariadb: Open *)

Definition mariadb_Open (cfg : DatabaseConfig) : M Held unit :=
  _ <- acquire (sql_Open (dc_Driver cfg) (DSN cfg)) (hold_db true) catch e => throw (EWrap "mariadb: open" e) ;;
  _ <- acquire db_PingContext id catch e => (release (hold_db false) ;;; throw (EWrap "mariadb: ping" e)) ;;
  ret tt.

(** ** keys.go *)

Definition LoadPrivateKeyPEM (path : string) : res unit :=
  file <-? os_ReadFile path ;;
  match pem_Decode file with
  | None => Err (EMsg "pem.Decode: no PEM block found")
  | Some (ty, b) =>
      if decide (ty ≠ "PRIVATE KEY") then Err (EMsg "unexpected PEM block type")
      else match ParsePKCS8PrivateKey b with
           | Err e => Err (EWrap "x509.ParsePKCS8PrivateKey" e)
           | Ok pk => if decide (pk = "ed25519.PrivateKey") then Ok tt else Err (EMsg "not an Ed25519 private key")
           end
  end.

Definition LoadPublicKeyPEM (path : string) : res unit :=
  file <-? os_ReadFile path ;;
  match pem_Decode file with
  | None => Err (EMsg "pem.Decode: no PEM block found")
  | Some (ty, b) =>
      if decide (ty ≠ "PUBLIC KEY") then Err (EMsg "unexpected PEM block type")
      else match ParsePKIXPublicKey b with
           | Err e => Err (EWrap "x509.ParsePKIXPublicKey" e)
           | Ok pk => if decide (pk = "ed25519.PublicKey") then Ok tt else Err (EMsg "not an Ed25519 public key")
           end
  end.

(** ** The modules: a dependency that is nil is refused *)

Fixpoint required (module : string) (deps : list (string * bool)) : res unit :=
  match deps with
  | [] => Ok tt
  | (name, present) :: deps' =>
      if present then required module deps' else Err (EMsg (module +:+ ": " +:+ name +:+ " is required"))
  end.

Definition audit_New (db log : bool) : res unit := required "audit" [("db", db); ("log", log)].
Definition identity_New (db log : bool) : res unit := required "identity" [("db", db); ("log", log)].
Definition app_New (db log : bool) : res unit := required "app" [("db", db); ("log", log)].
Definition role_New (db log : bool) : res unit := required "role" [("db", db); ("log", log)].
Definition access_New (db log users roles apps : bool) : res unit :=
  required "access" [("db", db); ("log", log); ("users repository", users); ("roles repository", roles);
                     ("apps repository", apps)].
Definition serviceaccount_New (db log : bool) : res unit := required "serviceaccount" [("db", db); ("log", log)].
Definition session_New (db log : bool) : res unit := required "session" [("db", db); ("log", log)].
Definition recoverycode_New (db log : bool) : res unit := required "recoverycode" [("db", db); ("log", log)].
Definition auth_New (log users sessions serviceAccounts apps recoveryCodes signer verifier : bool) : res unit :=
  required "auth" [("log", log); ("users repository", users); ("sessions repository", sessions);
                   ("service-accounts repository", serviceAccounts); ("apps repository", apps);
                   ("recovery-codes repository", recoveryCodes); ("jwt signer", signer); ("jwt verifier", verifier)].

(** ** The servers *)

(** grpcserver.New: only the TLS key pair can fail. *)
Definition grpcserver_New (cfg : GRPCConfig) : res unit :=
  if tls_Enabled (gc_TLS cfg) then
    match NewServerTLSFromFile (tls_CertPath (gc_TLS cfg)) (tls_KeyPath (gc_TLS cfg)) with
    | Some e => Err (EWrap "load tls keypair" e)
    | None => Ok tt
    end
  else Ok tt.

(** gateway.go: the services, in order. *)
Definition regs : list string := ["identity"; "app"; "roles"; "serviceaccount"; "access"; "auth"; "audit"].
Fixpoint registerGatewayHandlers (regs : list string) : res unit :=
  match regs with
  | [] => Ok tt
  | name :: regs' =>
      match RegisterHandler name with
      | Some e => Err (EWrap ("register " +:+ name +:+ " gateway handler") e)
      | None => registerGatewayHandlers regs'
      end
  end.

Definition httpserver_New (log : bool) (target : string) : M Held unit :=
  if negb log then throw (EMsg "httpserver: Log is required")
  else if decide (target = "") then throw (EMsg "httpserver: GRPCTarget is required")
  else
  _ <- acquire (grpc_NewClient target) (hold_conn true) catch e => throw (EWrap "httpserver: dial gRPC backend" e) ;;
  _ <- lift (registerGatewayHandlers regs) catch e => (release (hold_conn false) ;;; throw e) ;;
  ret tt.

(** ** bootstrap: New *)

Inductive Emitter := SyncEmitter | NopEmitter.
Record Assembled := mkAssembled {
  as_emitter : Emitter;
  as_limiter : option (RateInterceptor (Req := Request));
  as_http : bool;
  as_dbShutdownTimeout : Z;
  as_httpShutdownTO : Z }.

(** [_ = db.Close(); return nil, fmt.Errorf("bootstrap: <what>: %w", err)]. *)
Definition fail_to {A} (what : string) (err : error) : M Held A :=
  release (hold_db false) ;;; throw (EWrap ("bootstrap: " +:+ what) err).

Definition New (cfg : Config) (log : bool) : M Held Assembled :=
  _ <- mariadb_Open (cf_Database cfg) catch e => throw (EWrap "bootstrap: open database" e) ;;
  _ <- lift (audit_New true log) catch e => fail_to "wire audit" e ;;
  let auditEmitter := if uc_Enabled (cf_Audit cfg) then SyncEmitter else NopEmitter in
  _ <- lift (identity_New true log) catch e => fail_to "wire identity" e ;;
  _ <- lift (app_New true log) catch e => fail_to "wire app" e ;;
  _ <- lift (role_New true log) catch e => fail_to "wire role" e ;;
  _ <- lift (access_New true log true true true) catch e => fail_to "wire access" e ;;
  _ <- lift (serviceaccount_New true log) catch e => fail_to "wire serviceaccount" e ;;
  _ <- lift (session_New true log) catch e => fail_to "wire session" e ;;
  _ <- lift (recoverycode_New true log) catch e => fail_to "wire recoverycode" e ;;
  _ <- lift (LoadPrivateKeyPEM (jc_PrivateKeyPath (ac_JWT (cf_Auth cfg)))) catch e => fail_to "load jwt private key" e ;;
  _ <- lift (LoadPublicKeyPEM (jc_PublicKeyPath (ac_JWT (cf_Auth cfg)))) catch e => fail_to "load jwt public key" e ;;
  _ <- lift (auth_New log true true true true true true true) catch e => fail_to "wire auth" e ;;
  limiter <- (if rc_Enabled (cf_RateLimit cfg) then
                match buildRateLimiter (cf_RateLimit cfg) with
                | None => fail_to "build rate limiter" (EMsg "ratelimit: method binds unknown policy")
                | Some rl => (release (λ h, hold_sweepers (hd_sweepers h + size (ri_limiters rl)) h) ;;; ret (Some rl))
                end
              else ret None) ;;
  _ <- lift (grpcserver_New (cf_GRPC cfg)) catch e => fail_to "build grpc server" e ;;
  _ <- (if hc_Enabled (cf_HTTP cfg) then httpserver_New log (loopbackTarget (cf_GRPC cfg)) else ret tt) catch e =>
    fail_to "build http server" e ;;
  ret (mkAssembled auditEmitter limiter (hc_Enabled (cf_HTTP cfg)) (dc_ShutdownTimeout (cf_Database cfg))
         (hc_ShutdownTimeout (cf_HTTP cfg))).

(** ** cmd/sso: run, until the application runs

    [read] is what cleanenv makes of the file; the deferred Close of the
    logger runs when New fails. *)
Definition FetchPath (getenv : string → string) (flagPath : string) : res string :=
  if decide (flagPath ≠ "") then Ok flagPath
  else if decide (getenv "CONFIG_PATH" ≠ "") then Ok (getenv "CONFIG_PATH")
  else Err (EMsg "config path not set: pass -cp/--configPath or set CONFIG_PATH").

Definition start (os_Stat : string → bool) (getenv : string → string) (read : string → option Config)
    (flagPath : string) : M Held (Assembled * onceCloser) :=
  path <- lift (FetchPath getenv flagPath) ;;
  cfg <- lift (Load os_Stat (read path)) ;;
  lg <- logger_New (cf_Log cfg) (cf_Env cfg) (cf_AppName cfg) ;;
  app <- New cfg true catch e => (release (λ h, (Close (snd lg) h).1.1) ;;; throw e) ;;
  ret (app, snd lg).

(** What the log says of the build: [debug.ReadBuildInfo] as its Go version
    and its settings, when there is any. *)
Definition build_setting (kv : string * string) : option (string * string) :=
  if decide (kv.1 = "vcs.revision") then Some ("commit", kv.2)
  else if decide (kv.1 = "vcs.modified") then Some ("modified", kv.2)
  else if decide (kv.1 = "vcs.time") then Some ("vcs_time", kv.2)
  else None.
Definition buildInfo (info : option (string * list (string * string))) : list (string * string) :=
  match info with
  | None => [("status", "unavailable")]
  | Some (goVersion, settings) => ("go", goVersion) :: omap build_setting settings
  end.

(** ** What starting leaves behind *)

Definition logged (o : onceCloser) : list string :=
  match oc_sink o with LogFile path => [path] | _ => [] end.

Lemma mariadb_Open_spec cfg h : hd_db h = false →
  mariadb_Open cfg h = (hold_db true h, Ok tt) ∨ ∃ e, mariadb_Open cfg h = (h, Err e).
Proof.
  intros Hdb. unfold mariadb_Open, mcatch, acquire. destruct (sql_Open _ _); [by eauto|].
  destruct db_PingContext; [right|by left]. eexists. cbn. by destruct h; cbn in *; subst.
Qed.

Lemma httpserver_New_spec target h : hd_conn h = false →
  httpserver_New true target h = (hold_conn true h, Ok tt) ∨ ∃ e, httpserver_New true target h = (h, Err e).
Proof.
  intros Hc. unfold httpserver_New. cbn [negb]. case_decide; [by eauto|]. unfold mcatch, acquire.
  destruct (grpc_NewClient target); [by eauto|]. unfold lift.
  destruct (registerGatewayHandlers regs) as [[]|e]; [by left|right]. eexists. cbn. by destruct h; cbn in *; subst.
Qed.

Lemma logger_New_spec cfg env appName h :
  match logger_New cfg env appName h with
  | (h', Ok (_, o)) => h' = hold_files (logged o ++ hd_files h) h ∧ oc_closed o = None
  | (h', Err _) => h' = h
  end.
Proof.
  unfold logger_New, gobind, mcatch, lift. destruct (parseLevel _); [|done]. destruct (parseFormat _); [|done].
  unfold openSink. repeat case_decide; try by destruct h.
  unfold mcatch, acquire. by destruct (os_OpenFile _).
Qed.

(** Unless it fails, New holds the pool, a goroutine for every limiter and the
    connection of the gateway; when it fails, it holds neither the pool nor
    the connection. *)
Lemma New_spec cfg h : hd_db h = false → hd_conn h = false →
  match New cfg true h with
  | (h', Ok a) => h' = mkHeld (hd_files h) true
                         (hd_sweepers h + from_option (λ rl, size (ri_limiters rl)) 0%nat (as_limiter a)) (as_http a)
  | (h', Err _) => hd_files h' = hd_files h ∧ hd_db h' = false ∧ hd_conn h' = false
  end.
Proof.
  intros Hdb Hc. unfold New. unfold mcatch at 1.
  destruct (mariadb_Open_spec (cf_Database cfg) h Hdb) as [->|[e ->]]; [|done].
  unfold mcatch, lift, fail_to, gobind, release. cbn [audit_New identity_New app_New role_New access_New serviceaccount_New
    session_New recoverycode_New auth_New required].
  destruct (LoadPrivateKeyPEM _) as [[]|]; [|done]. destruct (LoadPublicKeyPEM _) as [[]|]; [|done].
  destruct (rc_Enabled (cf_RateLimit cfg)); [destruct (buildRateLimiter _) as [rl|]; [|done]|];
    unfold mcatch, ret; cbn -[httpserver_New]; (destruct (grpcserver_New _) as [[]|]; [|done]);
    (destruct (hc_Enabled (cf_HTTP cfg));
     [match goal with |- context [httpserver_New true ?t ?h'] =>
        destruct (httpserver_New_spec t h' Hc) as [->|[e ->]]; [|done] end|]);
    destruct h; cbn in *; subst; rewrite ?Nat.add_0_r; done.
Qed.

(** What the program asks of its surroundings to come up under a configuration. *)
Definition database_up (cfg : Config) : Prop :=
  sql_Open (dc_Driver (cf_Database cfg)) (DSN (cf_Database cfg)) = None ∧ db_PingContext = None.
Definition keys_load (cfg : Config) : Prop :=
  LoadPrivateKeyPEM (jc_PrivateKeyPath (ac_JWT (cf_Auth cfg))) = Ok tt ∧
  LoadPublicKeyPEM (jc_PublicKeyPath (ac_JWT (cf_Auth cfg))) = Ok tt.
Definition tls_loads (cfg : Config) : Prop :=
  let c := gc_TLS (cf_GRPC cfg) in
  tls_Enabled c = true → NewServerTLSFromFile (tls_CertPath c) (tls_KeyPath c) = None.
Definition gateway_up (cfg : Config) : Prop :=
  hc_Enabled (cf_HTTP cfg) = true →
  grpc_NewClient (loopbackTarget (cf_GRPC cfg)) = None ∧ ∀ name, name ∈ regs → RegisterHandler name = None.

Lemma loopbackTarget_nonempty c : loopbackTarget c ≠ "".
Proof.
  unfold loopbackTarget, Address. generalize (FormatInt (gc_Port c)). intros port.
  set (host := if decide _ then _ else _). clearbody host. unfold JoinHostPort. case_match; [done|by destruct host].
Qed.

Lemma registered_iff l : registerGatewayHandlers l = Ok tt ↔ ∀ name, name ∈ l → RegisterHandler name = None.
Proof.
  induction l as [|x l IH]; [set_solver|]. cbn. destruct (RegisterHandler x) as [e|] eqn:Ex.
  - split; [done|]. intros Hl. rewrite Hl in Ex by set_solver. done.
  - rewrite IH. set_solver.
Qed.

Lemma logger_New_accepts c env appName h : Log_validate c = [] →
  (is_ok (logger_New c env appName h).2 = true ↔ (lc_Sink c = "file" → os_OpenFile (lc_Path c) = None)).
Proof.
  unfold Log_validate. intros Hv. rules.
  unfold logger_New, gobind, mcatch, lift.
  assert (Hl : is_ok (parseLevel (lc_Level c)) = true) by (unfold parseLevel; repeat case_decide; set_solver).
  assert (Hf : is_ok (parseFormat (lc_Format c)) = true) by (unfold parseFormat; repeat case_decide; set_solver).
  destruct (parseLevel _); [|done]. destruct (parseFormat _); [|done]. unfold openSink, mcatch, acquire.
  repeat case_decide; [naive_solver congruence..| |set_solver].
  destruct (os_OpenFile _) eqn:Eo; cbn; naive_solver.
Qed.

Lemma mariadb_Open_iff cfg h :
  is_ok (mariadb_Open cfg h).2 = true ↔ sql_Open (dc_Driver cfg) (DSN cfg) = None ∧ db_PingContext = None.
Proof.
  unfold mariadb_Open, mcatch, acquire. destruct (sql_Open _ _); [naive_solver|].
  destruct db_PingContext; cbn; naive_solver.
Qed.

Lemma httpserver_New_iff target h : target ≠ "" →
  (is_ok (httpserver_New true target h).2 = true ↔
   grpc_NewClient target = None ∧ ∀ name, name ∈ regs → RegisterHandler name = None).
Proof.
  intros Ht. unfold httpserver_New. cbn [negb]. rewrite decide_False by done. rewrite <- registered_iff.
  unfold mcatch, acquire, lift. destruct (grpc_NewClient target); [naive_solver|].
  destruct (registerGatewayHandlers regs) as [[]|]; cbn; naive_solver.
Qed.

Lemma grpcserver_New_iff cfg :
  grpcserver_New cfg = Ok tt ↔
  (tls_Enabled (gc_TLS cfg) = true → NewServerTLSFromFile (tls_CertPath (gc_TLS cfg)) (tls_KeyPath (gc_TLS cfg)) = None).
Proof.
  unfold grpcserver_New. destruct (tls_Enabled _); [|naive_solver]. destruct (NewServerTLSFromFile _ _); naive_solver.
Qed.

Lemma New_iff cfg h :
  is_ok (New cfg true h).2 = true ↔ database_up cfg ∧ keys_load cfg ∧ tls_loads cfg ∧ gateway_up cfg.
Proof.
  pose proof (mariadb_Open_iff (cf_Database cfg) h) as Hdb.
  unfold New, mcatch at 1. fold (database_up cfg) in Hdb.
  destruct (mariadb_Open _ h) as [h1 [[]|]]; cbn in Hdb;
    [|by split; [|intros [Hx%Hdb _]]].
  unfold mcatch, lift, fail_to, gobind, release. cbn [audit_New identity_New app_New role_New access_New serviceaccount_New
    session_New recoverycode_New auth_New required]. unfold keys_load.
  destruct (LoadPrivateKeyPEM _) as [[]|]; [|cbn; naive_solver].
  destruct (LoadPublicKeyPEM _) as [[]|]; [|cbn; naive_solver].
  destruct (buildRateLimiter_total (cf_RateLimit cfg)) as [rl ->].
  destruct (rc_Enabled (cf_RateLimit cfg)); unfold mcatch, ret;
    unfold tls_loads; rewrite <- grpcserver_New_iff; (destruct (grpcserver_New _) as [[]|]; [|cbn; naive_solver]);
    unfold gateway_up; (destruct (hc_Enabled (cf_HTTP cfg)); [|cbn; naive_solver]);
    (match goal with |- context [httpserver_New true ?t ?h'] =>
       rewrite <- (httpserver_New_iff t h' (loopbackTarget_nonempty _)); destruct (httpserver_New true t h') as [? [[]|]] end);
    cbn; naive_solver.
Qed.


End Boot.

(** ** Instances *)

Section Witness.
#[local] Existing Instance toy.
#[local] Existing Instance ToyRate.lib.
#[local] Existing Instance ToyGrpc.grpc.

(** Everything works, but for the TLS key pair. *)
#[local] Instance toy_platform : Platform := {
  os_OpenFile _ := None;
  os_CloseFile _ := None;
  sql_Open _ _ := None;
  db_PingContext := None;
  os_ReadFile path := Ok path;
  pem_Decode file := Some (if decide (file = "keys/ed25519_private.pem") then "PRIVATE KEY" else "PUBLIC KEY", file);
  ParsePKCS8PrivateKey _ := Ok "ed25519.PrivateKey";
  ParsePKIXPublicKey _ := Ok "ed25519.PublicKey";
  NewServerTLSFromFile _ _ := Some (EMsg "open: no such file");
  grpc_NewClient _ := None;
  RegisterHandler _ := None }.

Definition toy_path (getenv : string) : string := "config/config.yaml".


(** A key pair that does not load leaves the six sweepers running. *)
Example sweepers_left_behind :
  let c := shipped_config in
  let g := cf_GRPC c in
  let tls := mkConfig (cf_Env c) (cf_AppName c) (cf_Log c)
    (mkGRPCConfig (gc_Host g) (gc_Port g) (gc_ConnectionTimeout g) (gc_ShutdownTimeout g) (gc_MaxRecvMsgSize g)
       (gc_MaxSendMsgSize g) (gc_Keepalive g) true true (mkTLSConfig true "tls.crt" "tls.key"))
    (cf_HTTP c) (cf_Database c) (cf_Auth c) (cf_Audit c) (cf_RateLimit c) in
  let (h, r) := start (λ _, true) toy_path (λ _, Some tls) "" nothing in
  is_ok r = false ∧ hd_sweepers h = 6%nat.
Proof. vm_compute. by split. Qed.

End Witness.
