(* ===== verification/Middleware.v ===== *)
(** * Middleware: request ids, logs and panics, around both servers.

    platform/grpc/server/{logging,server}.go: unaryRequestID, unaryLogging,
    unaryRecovery and the order in which New chains them around the
    interceptors of [Server.chain]; platform/httpserver/{middleware,server}.go:
    the same for HTTP, where a handler is the list of its calls on the
    ResponseWriter. A handler may panic. [S] is what the handlers act on;
    durations are left out of the records. A request id given to the one server
    reaches the other through the gateway. *)
From stdpp Require Import gmap list.
From S2P Require Import Prelude Errors Monad Runtime Kernel World GoStd GrpcBase Interceptor AuthBase RateLimit Server Http.
From S2P Require Import AuthSessions Scenario.
From S2P Require IdentityService AppService RoleService ServiceAccountService AccessService AuditService.

(** What a handler does: it returns, or it panics. *)
Inductive outcome (A : Type) := Returns (a : A) | Panics (r : string).
Arguments Returns {A} a.
Arguments Panics {A} r.

(** ** gRPC *)

Inductive LogLevel := Info | Error.

Inductive LogRecord :=
  | RpcRecord (level : LogLevel) (method : string) (code : Code) (request_id : string) (peer : option string)
              (error : option string)
  | PanicRecord (method : string) (recovered : string).

(** The state of one RPC: the service, the log, the headers sent back. *)
Record Served (S : Type) := mkServed { sv_state : S; sv_log : list LogRecord; sv_header : list (string * string) }.
Arguments mkServed {S}.
Arguments sv_state {S}.
Arguments sv_log {S}.
Arguments sv_header {S}.
Definition log_record {S} (r : LogRecord) (s : Served S) : Served S :=
  mkServed (sv_state s) (sv_log s ++ [r]) (sv_header s).

Section Grpc.
Context `{Runtime} {S Req Resp : Type}.

(** The context carries the request id beside what [Ctx] has. *)
Definition UnaryHandler : Type := Ctx → string → Req → Served S → Served S * outcome (reply Resp).
Definition UnaryInterceptor : Type := string → UnaryHandler → UnaryHandler.   (* info.FullMethod *)

Definition grpc_requestIDHeader : string := "x-request-id".

Definition incomingRequestID (ctx : Ctx) : string :=
  match ctx_metadata ctx with
  | None => ""
  | Some md => match md_Get md grpc_requestIDHeader with [] => "" | v :: _ => v end
  end.

(** [k] numbers the draw a fresh id comes from. *)
Definition grpc_newRequestID (k : nat) : string := hex_EncodeToString (rt_rand k 16).

Definition unaryRequestID (k : nat) : UnaryInterceptor := λ _ handler ctx _ req s,
  let id := incomingRequestID ctx in
  let id := if decide (id = "") then grpc_newRequestID k else id in
  handler ctx id req (mkServed (sv_state s) (sv_log s) (sv_header s ++ [(grpc_requestIDHeader, id)])).

Definition levelFor (code : Code) : LogLevel :=
  match code with
  | OK | Canceled | NotFound | AlreadyExists | InvalidArgument | OutOfRange | FailedPrecondition | Unauthenticated
  | PermissionDenied | ResourceExhausted => Info
  | _ => Error
  end.

(** [status.Code(err)], and the text of [err]. *)
Definition status_Code (r : reply Resp) : Code := match r with Reply _ => OK | Refused s => st_Code s end.
Definition error_text (r : reply Resp) : option string :=
  match r with Reply _ => None | Refused s => Some (st_Message s) end.

(** A panic passes through: nothing here recovers. *)
Definition unaryLogging : UnaryInterceptor := λ method handler ctx id req s,
  match handler ctx id req s with
  | (s', Returns r) =>
      let code := status_Code r in
      (log_record (RpcRecord (levelFor code) method code id (ctx_peer ctx) (error_text r)) s', Returns r)
  | (s', Panics p) => (s', Panics p)
  end.

Definition internal_server_error : Status := mkStatus Internal "internal server error" [].

Definition unaryRecovery : UnaryInterceptor := λ method handler ctx id req s,
  match handler ctx id req s with
  | (s', Returns r) => (s', Returns r)
  | (s', Panics p) => (log_record (PanicRecord method p) s', Returns (Refused internal_server_error))
  end.

(** New: requestID, logging, recovery, then the rest of the chain. *)
Definition observed (k : nat) (method : string) (rest : UnaryHandler) : UnaryHandler :=
  unaryRequestID k method (unaryLogging method (unaryRecovery method rest)).

(** ** What operators and clients see of an RPC *)

(** The id of a request. *)
Definition request_id (k : nat) (ctx : Ctx) : string :=
  if decide (incomingRequestID ctx = "") then grpc_newRequestID k else incomingRequestID ctx.

Definition server_fault (c : Code) : Prop :=
  c ∈ [Unknown; DeadlineExceeded; Unimplemented; Aborted; Internal; Unavailable; DataLoss].

(** C19. Every RPC is answered and leaves a trace that tells the truth. The
    interceptors change neither what the rest of the chain does nor what it
    answers, except that a panic becomes one fixed Internal status, after a
    record of its own. In all cases exactly one more record closes the RPC,
    with the code the client gets - as an error for the server's faults and
    only for them - and the request id that the client is told and that the
    handlers saw: the client's own if it sent one. *)
Theorem rpcs_are_recorded k method (rest : UnaryHandler) ctx id0 req s :
  let id := request_id k ctx in
  let s0 := mkServed (sv_state s) (sv_log s) (sv_header s ++ [(grpc_requestIDHeader, id)]) in
  ∃ r level,
    observed k method rest ctx id0 req s =
      (match rest ctx id req s0 with
       | (s', Returns _) => log_record (RpcRecord level method (status_Code r) id (ctx_peer ctx) (error_text r)) s'
       | (s', Panics p) => log_record (RpcRecord level method (status_Code r) id (ctx_peer ctx) (error_text r))
                             (log_record (PanicRecord method p) s')
       end, Returns r) ∧
    r = match (rest ctx id req s0).2 with Returns r' => r' | Panics _ => Refused internal_server_error end ∧
    (level = Error ↔ server_fault (status_Code r)).
Proof.
  intros id s0. unfold observed, unaryRequestID, unaryLogging, unaryRecovery. fold (request_id k ctx). fold id s0.
  assert (Hl : ∀ c, levelFor c = Error ↔ server_fault c) by (intros c; unfold server_fault; destruct c; set_solver).
  destruct (rest ctx id req s0) as [s' [r|p]]; do 2 eexists; (split; [reflexivity|]); (split; [reflexivity|]); apply Hl.
Qed.

End Grpc.

(** The chain of [Server] inside: observing it changes neither its effect nor
    its answer. *)
Section Service.
Context `{Runtime} (cfg : AuthConfig) `{Grpc} `{RateLib}.
Context `{JsonCodec IdentityService.pageToken} `{JsonCodec AppService.pageToken}
        `{JsonCodec RoleService.pageToken} `{JsonCodec ServiceAccountService.pageToken}
        `{JsonCodec AccessService.pageToken} `{JsonCodec AuditService.pageToken} `{JsonCodec sessionsPageToken}.
Context (Validate : Request → Validation) (fuel : nat).

Definition chain_handler : UnaryHandler := λ ctx _ req s,
  let (sv, r) := chain cfg Validate fuel ctx req (sv_state s) in (mkServed sv (sv_log s) (sv_header s), Returns r).

Definition serve_rpc (k : nat) (ctx : Ctx) (req : Request) : Served ServerState → Served ServerState * outcome (reply Response) :=
  observed k (FullMethod req) chain_handler ctx "" req.

Lemma serve_rpc_chain k ctx req s :
  let (s', r) := serve_rpc k ctx req s in (sv_state s', r) = prod_map id Returns (chain cfg Validate fuel ctx req (sv_state s)).
Proof.
  unfold serve_rpc, observed, unaryRequestID, unaryLogging, unaryRecovery, chain_handler. simpl.
  by destruct (chain _ _ _ _ _ _).
Qed.
End Service.

(** ** HTTP *)

Record HttpRecord := mkHttpRecord {
  hl_level : LogLevel; hl_method : string; hl_path : string; hl_status : option Z; hl_bytes : option Z; hl_request_id : string }.

Section Http.
Context `{Runtime} {S : Type}.

(** A request with what its context carries; a handler's effect on [S], its
    calls on the writer, and whether it panicked after them. *)
Definition ContextHandler : Type := string → HttpRequest → S → S * list writer_call * option string.

(** Handlers inside the middleware act on a writer and a log. *)
Definition LoggedHandler : Type := string → HttpRequest → S * Writer * list HttpRecord → S * Writer * list HttpRecord * option string.

Definition loggingMiddleware (next : ContextHandler) : LoggedHandler := λ id r '(s, w, log),
  let '(s', calls, panic) := next id r s in
  let rw := foldl rec_call (new_recorder w) calls in
  match panic with
  | None => (s', sr_inner rw,
             log ++ [mkHttpRecord Info (hr_Method r) (hr_Path r) (Some (sr_status rw)) (Some (sr_bytes rw)) id], None)
  | Some p => (s', sr_inner rw, log, Some p)
  end.

Definition http_requestIDMiddleware (k : nat) (next : LoggedHandler) : LoggedHandler := λ _ r '(s, w, log),
  let id := Header_Get (hr_Header r) requestIDHeader in
  let id := if decide (id = "") then newRequestID k else id in
  next id (with_header (Header_Set requestIDHeader id (hr_Header r)) r) (s, on_header (Header_Set requestIDHeader id) w, log).

(** The id in the record is that of the context before requestIDMiddleware. *)
Definition recoverMiddleware (next : LoggedHandler) : LoggedHandler := λ id r st,
  match next id r st with
  | (st', None) => (st', None)
  | (s', w, log, Some p) =>
      (s', WriteHeader 500 w, log ++ [mkHttpRecord Error (hr_Method r) (hr_Path r) None None id], None)
  end.

(** New: recovery, request id, access log. *)
Definition http_observed (k : nat) (next : ContextHandler) : LoggedHandler :=
  recoverMiddleware (http_requestIDMiddleware k (loggingMiddleware next)).


(** What is recorded of an HTTP request to a fresh writer, whose handler does
    not choose a status after flushing the reply. When the handler returns, the access log grows by one record with the status and the size
    of the response the client gets and the request id of the context. When
    it panics, there is no access record; the client gets a 500 unless an
    answer was already under way; and the record of the panic carries the
    request id of the {e outer} context, which has none. *)
Theorem http_requests_are_recorded k next id0 r s log :
  let id := let id := Header_Get (hr_Header r) requestIDHeader in if decide (id = "") then newRequestID k else id in
  let r' := with_header (Header_Set requestIDHeader id (hr_Header r)) r in
  let w := foldl rec_call (new_recorder (on_header (Header_Set requestIDHeader id) fresh_writer)) (next id r' s).1.2 in
  late_status false (next id r' s).1.2 = false →
  http_observed k next id0 r (s, fresh_writer, log) =
    match (next id r' s).2 with
    | None => ((next id r' s).1.1, sr_inner w,
        log ++ [mkHttpRecord Info (hr_Method r) (hr_Path r) (Some (response (sr_inner w)).1.1)
                  (Some (len (response (sr_inner w)).2)) id], None)
    | Some _ => ((next id r' s).1.1, WriteHeader 500 (sr_inner w),
        log ++ [mkHttpRecord Error (hr_Method r) (hr_Path r) None None id0], None)
    end.
Proof.
  intros id r' w Hl. unfold http_observed, recoverMiddleware, http_requestIDMiddleware, loggingMiddleware.
  fold id r'. subst w. destruct (next id r' s) as [[s' calls] [p|]]; [done|]. simpl.
  pose proof (access_log_from (on_header (Header_Set requestIDHeader id) fresh_writer) calls eq_refl eq_refl Hl) as [-> ->].
  done.
Qed.

End Http.

(** ** One id through both servers *)

Section Gateway.
Context `{Runtime} {laws : RuntimeLaws}.
Context (DefaultHeaderMatcher : string → string * bool).

(** grpc-gateway: the metadata of the RPC made of the headers of the request.
    A header the matcher accepts is passed on, under the name it returns. *)
Context (gw_metadata : (string → string * bool) → Header → list (string * list string)).
Hypothesis headers_forwarded : ∀ matcher h v,
  v ∈ md_Get (gw_metadata matcher h) grpc_requestIDHeader ↔
  ∃ name vs n, h !! name = Some vs ∧ v ∈ vs ∧ matcher name = (n, true) ∧ ToLower n = grpc_requestIDHeader.

Lemma hex_nonempty b : (0 < len b)%Z → hex_EncodeToString b ≠ "".
Proof. by destruct b. Qed.

(** The id in the access log of the HTTP server and in its response is the id
    the RPC behind it is logged under, whether the client sent one or not,
    unless the client also sends a header that grpc-gateway itself passes on
    under that name (Grpc-Metadata-X-Request-Id). *)
Theorem one_request_id k k' r peer :
  let id := let id := Header_Get (hr_Header r) requestIDHeader in if decide (id = "") then newRequestID k else id in
  let h := Header_Set requestIDHeader id (hr_Header r) in
  (∀ name, is_Some (hr_Header r !! name) → name ≠ requestIDHeader →
     EqualFold name requestIDHeader = false ∧ ∀ n, DefaultHeaderMatcher name = (n, true) → ToLower n ≠ grpc_requestIDHeader) →
  request_id k' (mkCtx None (Some (gw_metadata (incomingHeaderMatcher DefaultHeaderMatcher) h)) peer) = id.
Proof using laws headers_forwarded.
  intros id h Hother.
  assert (Hid : id ≠ "").
  { unfold id. case_decide; [|done]. apply hex_nonempty. rewrite rt_rand_len. lia. }
  assert (Hself : incomingHeaderMatcher DefaultHeaderMatcher requestIDHeader = (grpc_requestIDHeader, true)) by reflexivity.
  assert (Hin : id ∈ md_Get (gw_metadata (incomingHeaderMatcher DefaultHeaderMatcher) h) grpc_requestIDHeader).
  { apply headers_forwarded. exists requestIDHeader, [id], grpc_requestIDHeader.
    split_and!; [apply lookup_insert_eq|by left|exact Hself|reflexivity]. }
  assert (Hall : ∀ v, v ∈ md_Get (gw_metadata (incomingHeaderMatcher DefaultHeaderMatcher) h) grpc_requestIDHeader → v = id).
  { intros v (name & vs & n & Hl & Hv & Hm & Hn)%headers_forwarded. destruct (decide (name = requestIDHeader)) as [->|Hne].
    - unfold h, Header_Set in Hl. rewrite lookup_insert_eq in Hl. injection Hl as <-. by apply list_elem_of_singleton in Hv.
    - unfold h, Header_Set in Hl. rewrite lookup_insert_ne in Hl by done.
      destruct (Hother name ltac:(by eexists) Hne) as [Hf Hd]. unfold incomingHeaderMatcher in Hm. rewrite Hf in Hm.
      by destruct (Hd n Hm). }
  unfold request_id, incomingRequestID. simpl.
  destruct (md_Get _ _) as [|v l]; [by apply elem_of_nil in Hin|].
  rewrite (Hall v ltac:(by left)). by rewrite decide_False.
Qed.

End Gateway.

(** A gateway that forwards exactly what the matcher accepts. *)
Section Witness.
#[local] Existing Instance toy.

Definition toy_metadata (matcher : string → string * bool) (h : Header) : list (string * list string) :=
  [(grpc_requestIDHeader, map_to_list h ≫= λ '(name, vs),
     if decide ((matcher name).2 = true ∧ ToLower (matcher name).1 = grpc_requestIDHeader) then vs else [])].

Lemma toy_forwards matcher h v :
  v ∈ md_Get (toy_metadata matcher h) grpc_requestIDHeader ↔
  ∃ name vs n, h !! name = Some vs ∧ v ∈ vs ∧ matcher name = (n, true) ∧ ToLower n = grpc_requestIDHeader.
Proof.
  unfold toy_metadata. cbn [md_Get]. rewrite decide_True by done. rewrite list_elem_of_bind. split.
  - intros ([name vs] & Hv & Hl%elem_of_map_to_list). case_decide as Hm; [|by apply elem_of_nil in Hv].
    destruct (matcher name) as [n ok] eqn:E. destruct Hm as [Hok Hn]. simpl in *. subst ok. eauto 8.
  - intros (name & vs & n & Hl & Hv & Hm & Hn). exists (name, vs). split; [|by apply elem_of_map_to_list].
    simpl. rewrite Hm. by rewrite decide_True.
Qed.

(** A request with an id of its own and another header. *)
Definition traced : HttpRequest := mkHttpRequest "GET" "/v1/users" {[ requestIDHeader := ["r-1"]; "Accept" := ["*/*"] ]}.

Lemma one_request_id_witness :
  request_id 7 (mkCtx None (Some (toy_metadata (incomingHeaderMatcher (λ _, ("", false)))
    (Header_Set requestIDHeader "r-1" (hr_Header traced)))) None) = "r-1".
Proof.
  apply (one_request_id (λ _, ("", false)) toy_metadata toy_forwards 0 7 traced None).
  intros name Hn Hne. split; [|done]. cbn [hr_Header traced] in Hn.
  rewrite lookup_insert_ne, <- elem_of_dom, dom_singleton_L, elem_of_singleton in Hn by done.
  subst name. by vm_compute.
Defined.

End Witness.
