(* ===== verification/OwnAccount.v ===== *)
(** * OwnAccount: the RPCs on one's own account touch no other account.

    ChangePassword, GenerateRecoveryCodes, ListSessions, RevokeSession,
    RevokeToken and RevokeAllSessions act for the user of the bearer token.
    [others_kept u] says that a change of the database leaves alone what
    belongs to anyone but [u]; the statements these requests make have it,
    whatever fails, and whatever [u]'s other requests do meanwhile. *)
From stdpp Require Import list.
From S2P Require Import Prelude Errors Sql Monad Runtime Listing Kernel World WorldFacts AuditDomain AuditMapper.
From S2P Require Import Identity Session RecoveryCode AuditRepo IdentityRepo SessionRepo RecoveryCodeRepo.
From S2P Require Import AuthBase AuthLogin AuthPassword AuthSessions Rpc Change Outcome Scenario.
From S2P Require Import IdentityService AppService RoleService ServiceAccountService AccessService AuditService.
From S2P Require Import GoStd GrpcBase Interceptor AuthGrpc RateLimit Server GrpcFacts RateService InterceptorFacts ServerFacts SessionSafety.
Local Open Scope Z_scope.

(** ** Tables *)

Section Frame.
Context {R : Type} (mine : R → bool).

Lemma del_mine_upd p f (t : list R) :
  (∀ r, r ∈ t → p r = true → mine r = true ∧ mine (f r) = true) → del mine (upd p f t) = del mine t.
Proof.
  unfold del, upd. induction t as [|r t IH]; [done|]. intros Hp. cbn.
  rewrite IH by (intros; apply Hp; set_solver). destruct (p r) eqn:E; [|done].
  destruct (Hp r ltac:(set_solver) E) as [-> ->]. done.
Qed.

Lemma del_mine_ins clash r (t t' : list R) : ins clash r t = Some t' → mine r = true → del mine t' = del mine t.
Proof.
  unfold ins. case_match; [done|]. intros [= <-] Hr. unfold del. rewrite List.filter_app. cbn. rewrite Hr. cbn.
  apply app_nil_r.
Qed.
End Frame.

Section OwnAccount.
Context `{Runtime} {laws : RuntimeLaws} (cfg : AuthConfig) (u : string).

Definition my_user (r : Identity.Row) : bool := rt_collate (Identity.r_ID r) u.
Definition my_session (r : Session.Row) : bool := rt_collate (Session.r_UserID r) u.
Definition my_batch (r : BatchRow) : bool := rt_collate (rb_UserID r) u.
Definition code_of (id : string) (c : CodeRow) : bool := rt_collate (rc_BatchID c) id.

(** Nothing but the user [u], its sessions, its batches of recovery codes with
    their codes, and the audit log has changed. *)
Record others_kept (d d' : DB) : Prop := {
  ok_users : del my_user (db_users d') = del my_user (db_users d);
  ok_sessions : del my_session (db_sessions d') = del my_session (db_sessions d);
  ok_batches : del my_batch (db_batches d') = del my_batch (db_batches d);
  ok_codes : ∀ b, b ∈ del my_batch (db_batches d) → sel (code_of (rb_ID b)) (db_codes d') = sel (code_of (rb_ID b)) (db_codes d);
  ok_apps : db_apps d' = db_apps d;
  ok_roles : db_roles d' = db_roles d;
  ok_permissions : db_role_permissions d' = db_role_permissions d;
  ok_assignments : db_role_assignments d' = db_role_assignments d;
  ok_accounts : db_service_accounts d' = db_service_accounts d }.

#[export] Instance others_kept_preorder : PreOrder others_kept.
Proof using.
  split; [by split|]. intros d1 d2 d3 [] []. split; try congruence.
  intros b Hb. rewrite ok_codes1 by by rewrite ok_batches0. by apply ok_codes0.
Qed.

(** The keys the argument rests on. *)
Definition keys (d : DB) : Prop := uniq Session.clash (db_sessions d) = true.

(** What [u]'s other requests may do between two statements. *)
Definition mine_only (f : DB → DB) : Prop := ∀ d, keys d → others_kept d (f d) ∧ keys (f d).

Section Keeps.
Context (d0 : DB).
Definition P (_ : nat) (_ : Time) (d : DB) : Prop := others_kept d0 d ∧ keys d.

#[local] Instance P_respected : Respected mine_only P.
Proof using. intros f Hf s n d [Ho Hk]. destruct (Hf d Hk). split; [by etrans|done]. Qed.

Abbreviation K m Q := (keeps (inv mine_only P) m Q).

Lemma P_seed s n d : P s n d → P (S s) n d.
Proof using. done. Qed.

(** The identifier is no session's of somebody else. *)
Definition my_id (id : string) : Prop :=
  ∀ r, r ∈ db_sessions d0 → my_session r = false → rt_collate (Session.r_ID r) id = false.

Lemma others_sessions s n d r : P s n d → r ∈ db_sessions d → my_session r = false → r ∈ db_sessions d0.
Proof using.
  intros [Ho _] Hr Hm. assert (Hd : r ∈ del my_session (db_sessions d)) by by apply elem_of_del.
  rewrite (ok_sessions _ _ Ho) in Hd. by apply elem_of_del in Hd as [? _].
Qed.

(** A session row of [u]'s, once read, says that its identifier is [u]'s. *)
Lemma read_mine s n d r : P s n d → r ∈ db_sessions d → my_session r = true → my_id (Session.r_ID r).
Proof using laws.
  intros [Ho Hk] Hr Hm r' Hr' Hm'. destruct (rt_collate _ _) eqn:Ec; [|done].
  assert (Hd : r' ∈ del my_session (db_sessions d)).
  { rewrite (ok_sessions _ _ Ho). by apply elem_of_del. }
  apply elem_of_del in Hd as [Hd _].
  assert (E : r' = r).
  { eapply (uniq_elem Session.clash); [apply session_clash_sym|exact Hk|done..|].
    unfold Session.clash. by rewrite Ec. }
  congruence.
Qed.

(** ** The statements *)

Lemma own_query {A} (f : DB → A) : K (query f) (λ _, True).
Proof using. by apply (keeps_query mine_only P). Qed.
Lemma own_query_one {A} (f : DB → option A) : K (query_one f) (λ _, True).
Proof using. by apply (keeps_query_one mine_only P). Qed.
Lemma own_begin : K begin_tx (λ _, True).
Proof using. by apply (keeps_query mine_only P). Qed.
Lemma own_uuid msg : K (NewV7 msg) (λ _, True).
Proof using. apply (keeps_NewV7 mine_only P); [apply P_seed|done]. Qed.
Lemma own_etag : K etag_New (λ _, True).
Proof using. apply (keeps_etag_New mine_only P); [apply P_seed|done]. Qed.
Lemma own_rand k : K (rand_Read k) (λ _, True).
Proof using. apply (keeps_rand_Read mine_only P); [apply P_seed|done]. Qed.
Lemma own_now : K time_now (λ _, True).
Proof using. by apply (keeps_time_now mine_only P). Qed.

Lemma own_users p f : (∀ r, p r = true → my_user r = true) → (∀ r, my_user (f r) = my_user r) → K (update_users p f) (λ _, True).
Proof using.
  intros Hp Hf. apply (keeps_exec mine_only P). intros s n d k d' [Ho Hk]. cbn. destruct (upd_uniq _ _ _ _) as [t|] eqn:E; [|done].
  intros [= _ <-]. split; [|done]. split; [|done]. etrans; [exact Ho|]. split; try done. cbn.
  unfold upd_uniq in E. case_match; [|done]. injection E as <-.
  apply del_mine_upd. intros r _ Hr. rewrite Hf. auto.
Qed.

Lemma own_sessions p f :
  (∀ s n d r, P s n d → r ∈ db_sessions d → p r = true → my_session r = true) →
  (∀ r, my_session r = true → my_session (f r) = true) → K (SessionRepo.update_sessions p f) (λ _, True).
Proof using.
  intros Hp Hf. apply (keeps_exec mine_only P). intros s n d k d' HP. cbn. destruct (upd_uniq _ _ _ _) as [t|] eqn:E; [|done].
  intros [= _ <-]. split; [|done]. destruct HP as [Ho Hk]. split; [|exact (upd_uniq_uniq _ _ _ _ _ E)].
  etrans; [exact Ho|]. split; try done. cbn. unfold upd_uniq in E. case_match; [|done]. injection E as <-.
  apply del_mine_upd. intros r Hr Hpr. assert (Hm : my_session r = true) by by eapply (Hp s n d). auto.
Qed.

Lemma own_batches p f : (∀ r, p r = true → my_batch r = true) → (∀ r, my_batch (f r) = my_batch r) → K (update_batches p f) (λ _, True).
Proof using.
  intros Hp Hf. apply (keeps_exec mine_only P). intros s n d k d' [Ho Hk]. cbn. destruct (upd_uniq _ _ _ _) as [t|] eqn:E; [|done].
  intros [= _ <-]. split; [|done]. split; [|done]. etrans; [exact Ho|]. split; try done. cbn.
  unfold upd_uniq in E. case_match; [|done]. injection E as <-.
  apply del_mine_upd. intros r _ Hr. rewrite Hf. auto.
Qed.

Lemma own_session_insert fk r : my_session r = true →
  K (sql_insert db_sessions set_sessions Session.clash fk r) (λ _, True).
Proof using laws.
  intros Hr. apply (keeps_exec mine_only P). intros s n d k d' [Ho Hk]. cbn. destruct (ins _ _ _) as [t|] eqn:E; [|done].
  case_match; [|done]. intros [= _ <-]. split; [|done]. split.
  - etrans; [exact Ho|]. split; try done. by eapply del_mine_ins.
  - eapply ins_uniq; [apply session_clash_sym|exact Hk|exact E].
Qed.

(** A batch that was stored has an identifier of its own. *)
Definition new_batch (id : string) : Prop :=
  ∀ b, b ∈ db_batches d0 → my_batch b = false → rt_collate (rb_ID b) id = false.

Lemma own_batch_insert fk b : my_batch b = true →
  K (sql_insert db_batches set_batches batch_clash fk b) (λ _, new_batch (rb_ID b)).
Proof using laws.
  intros Hb. apply (keeps_exec mine_only P). intros s n d k d' [Ho Hk]. cbn. destruct (ins _ _ _) as [t|] eqn:E; [|done].
  case_match; [|done]. intros [= _ <-]. split.
  - split; [|done]. etrans; [exact Ho|]. split; try done. by eapply del_mine_ins.
  - intros b' Hb' Hm. assert (Hd : b' ∈ del my_batch (db_batches d)).
    { rewrite (ok_batches _ _ Ho). by apply elem_of_del. }
    apply elem_of_del in Hd as [Hd _]. unfold ins in E. destruct (existsb _ _) eqn:Ex; [done|].
    rewrite rt_collate_sym. destruct (rt_collate (rb_ID b) (rb_ID b')) eqn:Ec; [|done].
    assert (Hx : existsb (batch_clash b) (db_batches d) = true); [|congruence].
    apply existsb_exists. exists b'. split; [by apply list_elem_of_In|exact Ec].
Qed.

Lemma own_code_insert fk id c : new_batch id →
  K (sql_insert db_codes set_codes code_clash fk (toCreateCodeParams id c)) (λ _, True).
Proof using laws.
  intros Hn. apply (keeps_exec mine_only P). intros s n d k d' [Ho Hk]. cbn. destruct (ins _ _ _) as [t|] eqn:E; [|done].
  case_match; [|done]. intros [= _ <-]. split; [|done]. split; [|done]. etrans; [exact Ho|]. split; try done. cbn.
  intros b Hb. rewrite (ok_batches _ _ Ho) in Hb. apply elem_of_del in Hb as [Hb Hm].
  unfold ins in E. case_match; [done|]. injection E as <-. unfold sel. rewrite List.filter_app. cbn.
  unfold code_of at 2. cbn. rewrite (rt_collate_sym id), (Hn b Hb Hm). apply app_nil_r.
Qed.

Lemma own_Emit p : K (Emit p) (λ _, True).
Proof using.
  unfold Emit. eapply keeps_gobind; [apply own_now|]. intros now _.
  destruct (NewAudit (Ok "-") now p); [|by apply keeps_ret].
  eapply keeps_mcatch; [apply own_uuid|intros; by apply keeps_ret|]. intros id _. cbn.
  destruct (NewAudit (Ok id) now p) as [ev|]; [|by apply keeps_ret].
  unfold SyncEmitter_Emit. eapply (keeps_ignore _ _ (λ _, True)); [|done]. unfold AuditRepo.Create. keeps_walk.
  apply (keeps_exec mine_only P). intros s n d k d' [Ho Hk]. cbn. repeat case_match; try done. intros [= _ <-].
  split; [|done]. split; [|done]. etrans; [exact Ho|]. by split.
Qed.

Lemma own_fail {A} aud r e (Q : A → Prop) : K (fail aud r e) Q.
Proof using. eapply keeps_gobind; [apply own_Emit|]. intros. apply keeps_throw. Qed.
Lemma own_deny {A} aud r e (Q : A → Prop) : K (deny aud r e) Q.
Proof using. eapply keeps_gobind; [apply own_Emit|]. intros. apply keeps_throw. Qed.
Lemma own_lift_eq {A} (r : res A) : K (lift r) (λ a, r = Ok a).
Proof using. by apply keeps_lift. Qed.

(** ** What a read teaches *)

Lemma own_user_get : K (IdentityRepo.GetByID u) (λ user, rt_collate (u_id user) u = true).
Proof using.
  eapply (keeps_mcatch _ _ _ _ (λ r, my_user r = true)).
  - apply (keeps_query_one mine_only P). by intros s n d r _ [_ Hr]%sel_one_Some.
  - intros e. by destruct (errors_is_no_rows e); apply keeps_throw.
  - intros r Hr. by apply keeps_ret.
Qed.

(** A session that names [u] as its owner has an identifier of [u]'s. *)
Definition ours (sess : Session) : Prop := my_id (s_id sess) ∧ rt_collate (s_userID sess) u = true.
Definition owned (sess : Session) : Prop := s_userID sess = u → ours sess.

Lemma owned_row s n d r : P s n d → r ∈ db_sessions d → owned (Session.dbgenToDomain r).
Proof using laws.
  intros HP Hr E. assert (Hm : rt_collate (s_userID (Session.dbgenToDomain r)) u = true).
  { rewrite E. apply rt_collate_refl. }
  split; [by eapply (read_mine s n d)|done].
Qed.

Lemma own_session_get id : K (SessionRepo.GetByID id) owned.
Proof using laws.
  eapply (keeps_mcatch _ _ _ _ (λ r, owned (Session.dbgenToDomain r))).
  - apply (keeps_query_one mine_only P). intros s n d r HP [Hr _]%sel_one_Some. by eapply owned_row.
  - intros e. by destruct (errors_is_no_rows e); apply keeps_throw.
  - intros r Hr. by apply keeps_ret.
Qed.

Lemma own_session_by_hash h : K (GetByRefreshHash h) owned.
Proof using laws.
  eapply (keeps_mcatch _ _ _ _ (λ r, owned (Session.dbgenToDomain r))).
  - apply (keeps_query_one mine_only P). intros s n d r HP [Hr _]%sel_one_Some. by eapply owned_row.
  - intros e. by destruct (errors_is_no_rows e); apply keeps_throw.
  - intros r Hr. by apply keeps_ret.
Qed.

Lemma own_session_list : K (ListByUser u) (Forall ours).
Proof using laws.
  eapply (keeps_mcatch _ _ _ _ (Forall (λ r, ours (Session.dbgenToDomain r)))).
  - apply (keeps_query mine_only P). intros s n d HP. apply Forall_forall. intros r Hr.
    rewrite order_by_perm in Hr. apply elem_of_sel in Hr as [Hr Hm].
    split; [by eapply (read_mine s n d)|exact Hm].
  - intros e. apply keeps_throw.
  - intros l Hl. apply keeps_ret. by apply Forall_fmap.
Qed.

(** ** The writes of the repositories *)

Lemma own_session_revoke sess now : ours sess → K (SessionRepo.Update (Session.Revoke now sess)) (λ _, True).
Proof using.
  intros [Hm Hu]. destruct (Session.Revoke_fields now sess) as (Hid & Huid & _).
  unfold SessionRepo.Update. keeps_walk. apply own_sessions.
  - intros s n d r HP Hr Hw. unfold SessionRepo.where_id in Hw. rewrite Hid in Hw.
    destruct (my_session r) eqn:Em; [done|]. rewrite (Hm r) in Hw; [done|by eapply others_sessions|done].
  - intros r _. unfold my_session. cbn. by rewrite Huid.
Qed.

Lemma mine_trans x y : rt_collate x y = true → rt_collate y u = true → rt_collate x u = true.
Proof using laws. apply rt_collate_trans. Qed.

Lemma own_revoke_all user now : rt_collate user u = true → K (RevokeAllForUser user now) (λ _, True).
Proof using laws.
  intros Hu. unfold RevokeAllForUser. keeps_walk. apply own_sessions; [|done].
  intros s n d r _ _ [Hr _]%andb_true_iff. by eapply mine_trans.
Qed.

Lemma own_revoke_mine now : K (RevokeAllForUser u now) (λ _, True).
Proof using laws. apply own_revoke_all, rt_collate_refl. Qed.

Lemma own_password user e : rt_collate (u_id user) u = true → K (UpdatePassword user e) (λ _, True).
Proof using laws.
  intros Hu. unfold UpdatePassword, Discriminate, CountUserByID. keeps_walk; try apply own_query.
  apply own_users; [|done]. intros r [Hr _]%andb_true_iff. by eapply mine_trans.
Qed.

Lemma own_batches_revoke user now : rt_collate user u = true → K (RevokeActiveBatchesForUser user now) (λ _, True).
Proof using laws.
  intros Hu. unfold RevokeActiveBatchesForUser. keeps_walk. apply own_batches; [|done].
  intros r [Hr _]%andb_true_iff. by eapply mine_trans.
Qed.

Lemma own_batch_create b : rt_collate (b_userID b) u = true → K (CreateBatch b) (λ _, True).
Proof using laws.
  intros Hu. unfold CreateBatch. apply (keeps_InTx mine_only P); [apply P_seed| |intros; keeps_walk].
  eapply (keeps_mcatch _ _ _ _ (λ _, new_batch (b_id b))); [by apply own_batch_insert|intros; apply keeps_throw|].
  intros _ Hn. apply keeps_mfor; [done|]. intros c _. keeps_walk. by apply own_code_insert.
Qed.

Lemma own_session_create s : rt_collate (s_userID s) u = true → K (SessionRepo.Create s) (λ _, True).
Proof using laws. intros Hu. unfold SessionRepo.Create. keeps_walk. by apply own_session_insert. Qed.

#[local] Hint Resolve own_query own_query_one own_begin own_uuid own_etag own_rand own_now own_Emit own_fail own_deny
  own_session_revoke own_revoke_all own_revoke_mine own_password own_batches_revoke own_batch_create own_session_create : sso.

(** ** The use-cases *)

Lemma ParseUserID_ok x y : ParseUserID x = Ok y → y = x.
Proof using. unfold ParseUserID. case_match; naive_solver. Qed.

Lemma SetPassword_id fresh hash now x y : SetPassword fresh hash now x = Ok y → u_id y = u_id x.
Proof using. unfold SetPassword. repeat case_decide; naive_solver. Qed.

Ltac learn := first
  [ apply own_user_get | apply own_session_get | apply own_session_by_hash | apply own_session_list
  | apply own_lift_eq ].
Ltac unfold_head := match goal with |- keeps _ ?m _ =>
  let rec go t := lazymatch t with ?f _ => go f | ?c => unfold c end in go m end.
Ltac parsed := cbv beta in *; repeat match goal with
  | E : ParseUserID _ = Ok ?y |- _ => apply ParseUserID_ok in E; subst y
  | E : SetPassword _ _ _ ?x = Ok ?y, Hu : rt_collate (u_id ?x) u = true |- _ =>
      assert (rt_collate (u_id y) u = true) by (rewrite (SetPassword_id _ _ _ _ _ E); exact Hu); clear E
  end.
Ltac walk_step := parsed;
  lazymatch goal with
  | |- keeps _ (ret _) _ => apply keeps_ret; exact Logic.I
  | |- keeps _ (throw _) _ => apply keeps_throw
  | |- keeps _ (mcatch _ _ _) _ =>
      first [eapply keeps_mcatch; [solve [learn]|intros ?|intros ? ?]
            |eapply (keeps_mcatch _ _ _ _ (λ _, True)); [|intros ?|intros ? _]]
  | |- keeps _ (gobind _ _) _ =>
      first [eapply keeps_gobind; [solve [learn]|intros ? ?]
            |eapply (keeps_gobind _ _ _ (λ _, True)); [|intros ? _]]
  | |- keeps _ (if decide _ then _ else _) _ => apply keeps_decide; intros ?
  | |- keeps _ (match ?x with _ => _ end) _ => destruct x eqn:?
  | |- keeps _ (let _ := _ in _) _ => cbv zeta
  | |- keeps _ (mfor _ _) _ =>
      apply keeps_mfor; [exact Logic.I|intros ? ?];
      try match goal with Hl : Forall ours ?l, Hx : ?x ∈ ?l |- _ =>
            pose proof (proj1 (Forall_forall _ _) Hl x Hx) end
  | |- keeps _ (SessionRepo.Update (Session.Revoke _ ?x)) _ =>
      apply own_session_revoke; match goal with Ho : owned x |- _ => apply Ho; by apply dec_stable | _ => assumption end
  | _ => first [solve [eauto with sso]|keeps_step|unfold_head]
  end.
Ltac walk := repeat walk_step.

Lemma own_mint op aud user ua ip now : rt_collate (u_id user) u = true →
  K (mint_session cfg op aud user ua ip now) (λ _, True).
Proof using laws. intros Hu. unfold mint_session. walk. Qed.

Lemma own_replace_password op aud user pw now : rt_collate (u_id user) u = true →
  K (replace_password cfg op aud user pw now) (λ _, True).
Proof using laws. intros Hu. unfold replace_password. walk. Qed.

Lemma own_generate fuel codes hashes : K (generate_loop fuel codes hashes) (λ _, True).
Proof using. revert codes hashes. induction fuel as [|fuel IH]; intros codes hashes; simpl; walk; apply IH. Qed.

#[local] Hint Resolve own_mint own_replace_password own_generate : sso.

Lemma own_ChangePassword ctx i : cw_UserID i = u → K (AuthPassword.ChangePassword cfg ctx i) (λ _, True).
Proof using laws. intros Hu. unfold AuthPassword.ChangePassword. rewrite Hu. walk. Qed.
Lemma own_GenerateRecoveryCodes fuel ctx : K (AuthPassword.GenerateRecoveryCodes fuel ctx u) (λ _, True).
Proof using laws. unfold AuthPassword.GenerateRecoveryCodes. walk. Qed.
Lemma own_ListSessions `{JsonCodec sessionsPageToken} n t : K (AuthSessions.ListSessions u n t) (λ _, True).
Proof using laws. unfold AuthSessions.ListSessions. walk. Qed.
Lemma own_RevokeSession ctx id : K (AuthSessions.RevokeSession ctx u id) (λ _, True).
Proof using laws. unfold AuthSessions.RevokeSession. walk. Qed.
Lemma own_RevokeAllSessions ctx cur b : K (AuthSessions.RevokeAllSessions ctx u cur b) (λ _, True).
Proof using laws. unfold AuthSessions.RevokeAllSessions. walk. Qed.
Lemma own_RevokeToken ctx t : K (AuthSessions.RevokeToken ctx u t) (λ _, True).
Proof using laws. unfold AuthSessions.RevokeToken. walk. Qed.

End Keeps.

(** ** The requests, through the chain of interceptors *)

Context `{Grpc} `{RateLib} (Validate : Request → Validation).
Context `{JsonCodec IdentityService.pageToken} `{JsonCodec AppService.pageToken}
  `{JsonCodec RoleService.pageToken} `{JsonCodec ServiceAccountService.pageToken}
  `{JsonCodec AccessService.pageToken} `{JsonCodec AuditService.pageToken}
  `{JsonCodec sessionsPageToken}.

Definition own_account (req : Request) : bool :=
  match req with
  | ReqChangePassword _ _ | ReqGenerateRecoveryCodes | ReqListSessions _ _
  | ReqRevokeSession _ | ReqRevokeToken _ | ReqRevokeAllSessions _ => true
  | _ => false
  end.

Abbreviation J d0 := (inv mine_only (P d0)).

Lemma own_answer {A B} d0 t (m : M World A) (render : A → B) w :
  keeps (J d0) m (λ _, True) → J d0 w → J d0 (answer t m render w).1.
Proof using. intros Hm Hw. destruct (Hm w Hw) as [Hk _]. unfold answer. by destruct (m w) as [w' [a|e]]. Qed.

Lemma own_hmap {A B} d0 (f : A → B) (m : Handler A) w : J d0 (m w).1 → J d0 (hmap f m w).1.
Proof using. unfold hmap, hbind. by destruct (m w) as [w' [a|s]]. Qed.

Lemma own_dispatch d0 fuel ctx a req w :
  own_account req = true → From_ctx ctx = Some a → (a_Kind a = KindUser → a_ID a = u) →
  J d0 w → J d0 (dispatch cfg fuel ctx req w).1.
Proof using laws.
  intros Hr Ha Hu Hw. destruct req; try discriminate Hr; apply own_hmap.
  all: unfold AuthGrpc.ChangePassword, AuthGrpc.ListSessions, AuthGrpc.RevokeSession, AuthGrpc.RevokeToken,
    AuthGrpc.RevokeAllSessions, AuthGrpc.GenerateRecoveryCodes, as_user; rewrite Ha; unfold IsUser.
  all: destruct (bool_decide_reflect (a_Kind a = KindUser)) as [Hk|_]; [|exact Hw].
  all: apply own_answer; [|exact Hw]; rewrite ?(Hu Hk).
  - by apply own_ChangePassword.
  - apply own_ListSessions.
  - apply own_RevokeSession.
  - apply own_RevokeToken.
  - apply own_RevokeAllSessions.
  - apply own_GenerateRecoveryCodes.
Qed.

Lemma own_interfere d0 w : J d0 w → J d0 (interfere w).
Proof using.
  apply inv_interfere. intros f Hf s n d [Ho Hk]. destruct (Hf d Hk). split; [by etrans|done].
Qed.

Lemma own_gate d0 method ctx w : J d0 w → J d0 (pass_or_refuse cfg publicRPCs method ctx w).1.
Proof using.
  intros Hw. destruct (gate_world cfg publicRPCs method ctx w) as [->| ->]; [done|].
  destruct (own_interfere d0 w Hw) as [? ?]. by split.
Qed.

(** C5. The requests on one's own account touch no other account. Whatever fails
    and whatever the same user's other requests do meanwhile, ChangePassword,
    GenerateRecoveryCodes, ListSessions, RevokeSession, RevokeToken and
    RevokeAllSessions, served through the whole chain, leave the rows of every
    other user as they were: their user row with its password, their sessions,
    their recovery batches with the codes, and the apps, roles, assignments
    and service accounts; a request whose caller is no user, or nobody,
    changes nothing of anyone's. *)
Theorem own_account_only fuel ctx req sv : own_account req = true →
  keys (w_db (sv_world sv)) → Forall mine_only (w_env (sv_world sv)) →
  (∀ a, caller cfg (w_now (sv_world sv)) (w_db (interfere (sv_world sv))) ctx = Some a →
     a_Kind a = KindUser → a_ID a = u) →
  others_kept (w_db (sv_world sv)) (w_db (sv_world (chain cfg Validate fuel ctx req sv).1)).
Proof using laws.
  intros Hr Hk Henv Hu. set (d0 := w_db (sv_world sv)).
  assert (Hw : J d0 (sv_world sv)) by (by split; [split; [reflexivity|]|]).
  enough (Hend : J d0 (sv_world (chain cfg Validate fuel ctx req sv).1)) by (destruct Hend as [[Ho _] _]; exact Ho).
  assert (Hp : FullMethod req ∉ publicRPCs).
  { by destruct req; try discriminate Hr; apply (bool_decide_unpack _); vm_compute. }
  pose proof (own_gate d0 (FullMethod req) ctx _ Hw) as Hg.
  pose proof (gate_fail_closed cfg publicRPCs (FullMethod req) ctx (sv_world sv) _ Hp eq_refl) as Hc.
  unfold chain. destruct (pass_or_refuse _ _ _ _ _) as [w [ctx'|s]]; [|exact Hg]. cbn in Hg, Hc.
  destruct Hc as [(a & Ha & [= ->])|[=]].
  assert (Hd : J d0 (dispatch cfg fuel (Inject ctx a) req w).1) by (by eapply own_dispatch; eauto).
  assert (Hv : J d0 (unaryValidation Validate req (dispatch cfg fuel (Inject ctx a) req) w).1).
  { unfold unaryValidation. destruct (Validate req); [exact Hd|exact Hg..]. }
  destruct (sv_limiter sv) as [i|].
  - destruct (throttle _ _ _ _ _) as [i' [r|]]; [exact Hg|].
    by destruct (unaryValidation _ _ _ w).
  - by destruct (unaryValidation _ _ _ w).
Qed.

End OwnAccount.

(** ** Instances *)

Section Witness.
#[local] Existing Instance toy.
#[local] Existing Instance ToyRate.lib.
#[local] Existing Instance ToyGrpc.grpc.
#[local] Instance codec T : JsonCodec T := no_codec T.

(** The toy server with a second user's session on it. *)
Definition neighbour : Session.Row :=
  Session.mkRow "idz" "idv" (Toy.sha256 "rz") None None t0 (t0 + 604800 * second) (t0 + 86400 * second) t0 None.
Definition shared_db : DB := set_sessions (db_sessions toy_db ++ [neighbour]) toy_db.
Definition shared_server (env : list (DB → DB)) : ServerState :=
  mkServerState (mkWorld shared_db [] env 0 (t0 + 60 * second) None) None.
Definition ask (req : Request) (sv : ServerState) : ServerState * reply Response :=
  chain toy_cfg (λ _, Valid) 0 toy_request req sv.

(** The user revokes its own session, but not the neighbour's. *)
Lemma own_account_only_witness :
  let own := ask (ReqRevokeSession "idx") (shared_server []) in
  let other := ask (ReqRevokeSession "idz") (shared_server []) in
  own.2 = Reply RespEmpty ∧ other.2 ≠ Reply RespEmpty ∧
  del (my_session "idu") (db_sessions (w_db (sv_world other.1))) = [neighbour].
Proof.
  split; [vm_compute; reflexivity|]. split; [vm_compute; discriminate|].
  assert (Hu : ∀ a, caller toy_cfg (t0 + 60 * second) shared_db toy_request = Some a →
    a_Kind a = KindUser → a_ID a = "idu").
  { intros a E _. vm_compute in E. injection E as <-. reflexivity. }
  pose proof (own_account_only (H := toy) toy_cfg "idu" (λ _, Valid) 0 toy_request (ReqRevokeSession "idz") (shared_server [])
    eq_refl ltac:(vm_compute; reflexivity) ltac:(constructor) Hu) as Hk.
  etransitivity; [exact (ok_sessions _ _ _ Hk)|vm_compute; reflexivity].
Defined.

End Witness.
