(* ===== verification/Migrate.v ===== *)
(** * Migrate: the command that applies the schema migrations.

    cmd/migrate/main.go: the flags with their defaults from the environment,
    the two DSNs, the creation and removal of the database, and the commands
    handed to golang-migrate, which is an argument ([MigrateLib]). The end of
    the process is a value: a return, after which the deferred Close runs, a
    log.Fatal, after which it does not, or os.Exit. *)
From stdpp Require Import list.
From S2P Require Import Prelude Errors GoStd.
Local Open Scope Z_scope.

(** migrate.Migrate over the state [S] of the schema, and the SQL driver. *)
Class MigrateLib (S : Type) := {
  mg_New : string → string → option error;                 (* of a source and a DSN *)
  mg_Up : S → S * option error;
  mg_Down : S → S * option error;
  mg_Steps : Z → S → S * option error;
  mg_Drop : S → S * option error;
  mg_Force : Z → S → S * option error;
  mg_Version : S → res (Z * bool);
  mg_ErrNilVersion : error → bool;                         (* errors.Is(err, migrate.ErrNilVersion) *)
  mg_ErrNoChange : error → bool;
  db_Open : string → option error;                         (* sql.Open("mysql", dsn) *)
  db_Exec : string → string → option error }.              (* a statement on a DSN *)

(** What the documentation of golang-migrate promises, of the number of
    migrations that are applied: Up applies migrations, Down reverts them, and
    Steps "will migrate up if n > 0, and down if n < 0", n migrations at most. *)
Class MigrateLaws (S : Type) `{MigrateLib S} (applied : S → Z) : Prop := {
  up_applies : ∀ s, applied s <= applied (mg_Up s).1;
  down_reverts : ∀ s, applied (mg_Down s).1 <= applied s;
  steps_up : ∀ n s, 0 < n → applied s <= applied (mg_Steps n s).1 <= applied s + n;
  steps_down : ∀ n s, n < 0 → applied s + n <= applied (mg_Steps n s).1 <= applied s }.

Section Migrate.
Context {S : Type} `{MigrateLib S}.

(** ** Flags *)

Record Flags := mkFlags {
  dbHost : string; dbPort : string; dbUser : string; dbPassword : string; dbName : string; dbTLS : string;
  migrationsPath : string; cmd : string; steps : Z; charset : string; collation : string; forceVersion : Z }.

Definition envOr (getenv : string → string) (key def : string) : string :=
  let v := getenv key in if decide (v ≠ "") then v else def.

(** [init], for a command line without flags. *)
Definition default_flags (getenv : string → string) : Flags :=
  mkFlags (envOr getenv "DB_HOST" "127.0.0.1") (envOr getenv "DB_PORT" "3306") (envOr getenv "DB_USERNAME" "root")
    (getenv "DB_PASSWORD") (envOr getenv "DB_NAME" "sso") (envOr getenv "DB_TLS" "false")
    "./migrations" "up" 0 "utf8mb4" "utf8mb4_unicode_ci" (-1).

(** ** DSNs *)

Definition buildMigrateDSN (host port user password dbname tls : string) : string :=
  let addr := JoinHostPort host port in
  "mysql://" +:+ user +:+ ":" +:+ password +:+ "@tcp(" +:+ addr +:+ ")/" +:+ dbname +:+
  "?multiStatements=true&parseTime=true&loc=UTC&tls=" +:+ tls.

Definition buildServerDSN (host port user password tls : string) : string :=
  let addr := JoinHostPort host port in
  user +:+ ":" +:+ password +:+ "@tcp(" +:+ addr +:+ ")/?tls=" +:+ tls.

(** ** The database itself *)

(** What the command has done: the schema, the statements sent to the server,
    and whether the handle of the library is open. *)
Record Work := mkWork { wk_schema : S; wk_statements : list (string * string); wk_open : bool }.
Definition with_schema s (k : Work) := mkWork s (wk_statements k) (wk_open k).
Definition with_open b (k : Work) := mkWork (wk_schema k) (wk_statements k) b.
Definition sent dsn stmt (k : Work) := mkWork (wk_schema k) (wk_statements k ++ [(dsn, stmt)]) (wk_open k).

Definition create_stmt (dbName charset collation : string) : string :=
  "CREATE DATABASE IF NOT EXISTS `" +:+ dbName +:+ "` CHARACTER SET " +:+ charset +:+ " COLLATE " +:+ collation.
Definition drop_stmt (dbName : string) : string := "DROP DATABASE IF EXISTS `" +:+ dbName +:+ "`".

Definition exec_stmt (what dsn stmt : string) (k : Work) : Work * option error :=
  (sent dsn stmt k, match db_Exec dsn stmt with Some e => Some (EWrap what e) | None => None end).

Definition manageDatabase (cmd serverDSN dbName charset collation : string) (k : Work) : Work * option error :=
  if decide (dbName = "") then (k, Some (EMsg "database name is required"))
  else
  match db_Open serverDSN with
  | Some e => (k, Some (EWrap "open" e))
  | None =>
      if decide (cmd = "create-db") then
        exec_stmt "create database" serverDSN (create_stmt dbName charset collation) k
      else if decide (cmd = "drop-db") then exec_stmt "drop database" serverDSN (drop_stmt dbName) k
      else (k, Some (EMsg ("unknown cmd: " +:+ cmd)))
  end.

(** ** main *)

Inductive End := Done (printed : string) | Fatal (what : string) (err : option error) | Exit (code : Z).

(** A call of the library on the schema. *)
Definition on_schema (f : S → S * option error) (k : Work) : Work * option error :=
  let (s, err) := f (wk_schema k) in (with_schema s k, err).

(** The int is 64 bits wide: [-n]. *)
Definition int_opp (n : Z) : Z := (- n + 2 ^ 63) mod 2 ^ 64 - 2 ^ 63.

Definition runSteps (all : S → S * option error) (n : Z → S → S * option error) (steps : Z) :
    S → S * option error :=
  if decide (steps = 0) then all else n steps.

(** The tail of main: ErrNoChange is no failure; returning closes the handle. *)
Definition conclude (cmd : string) (r : Work * option error) : Work * End :=
  let (k, err) := r in
  match err with
  | Some e => if mg_ErrNoChange e then (with_open false k, Done (cmd +:+ ": done")) else (k, Fatal cmd (Some e))
  | None => (with_open false k, Done (cmd +:+ ": done"))
  end.

Definition main (o : Flags) (k : Work) : Work * End :=
  let c := cmd o in
  if decide (c = "create-db" ∨ c = "drop-db") then
    let serverDSN := buildServerDSN (dbHost o) (dbPort o) (dbUser o) (dbPassword o) (dbTLS o) in
    match manageDatabase c serverDSN (dbName o) (charset o) (collation o) k with
    | (k, Some e) => (k, Fatal c (Some e))
    | (k, None) => (k, Done (c +:+ ": done"))
    end
  else
  let migrateDSN := buildMigrateDSN (dbHost o) (dbPort o) (dbUser o) (dbPassword o) (dbName o) (dbTLS o) in
  match mg_New ("file://" +:+ migrationsPath o) migrateDSN with
  | Some e => (k, Fatal "init migrate" (Some e))
  | None =>
      let k := with_open true k in
      if decide (c = "up") then conclude c (on_schema (runSteps mg_Up mg_Steps (steps o)) k)
      else if decide (c = "down") then
        conclude c (on_schema (runSteps mg_Down (λ n, mg_Steps (int_opp n)) (steps o)) k)
      else if decide (c = "drop") then conclude c (on_schema mg_Drop k)
      else if decide (c = "force") then
        if decide (forceVersion o < 0) then (k, Fatal "force requires -force-version >= 0" None)
        else conclude c (on_schema (mg_Force (forceVersion o)) k)
      else if decide (c = "version") then
        match mg_Version (wk_schema k) with
        | Err e =>
            if mg_ErrNilVersion e then (with_open false k, Done "no migrations applied")
            else (k, Fatal "version" (Some e))
        | Ok (v, dirty) =>
            (with_open false k,
             Done ("version=" +:+ FormatInt v +:+ " dirty=" +:+ (if dirty : bool then "true" else "false")))
        end
      else (k, Exit 2)
  end.

(** ** What the commands do *)

Lemma int_opp_small n : 0 <= n < 2 ^ 63 → int_opp n = - n.
Proof. intros Hn. unfold int_opp. rewrite Z.mod_small; lia. Qed.

Lemma conclude_work c r : wk_schema (conclude c r).1 = wk_schema r.1 ∧ wk_statements (conclude c r).1 = wk_statements r.1.
Proof. destruct r as [k [e|]]; simpl; [by case_match|done]. Qed.

Lemma conclude_done c r p : (conclude c r).2 = Done p → wk_open (conclude c r).1 = false.
Proof. destruct r as [k [e|]]; simpl; [|done]. destruct (mg_ErrNoChange e); [done|discriminate]. Qed.

Lemma on_schema_work f k : wk_schema (on_schema f k).1 = (f (wk_schema k)).1 ∧
  wk_statements (on_schema f k).1 = wk_statements k ∧ wk_open (on_schema f k).1 = wk_open k.
Proof. unfold on_schema. by destruct (f _). Qed.

(** The commands that are handed to the library, and how. *)
Definition library_call (o : Flags) : option (S → S * option error) :=
  if decide (cmd o = "up") then Some (runSteps mg_Up mg_Steps (steps o))
  else if decide (cmd o = "down") then Some (runSteps mg_Down (λ n, mg_Steps (int_opp n)) (steps o))
  else if decide (cmd o = "drop") then Some mg_Drop
  else if decide (cmd o = "force" ∧ 0 <= forceVersion o) then Some (mg_Force (forceVersion o))
  else None.

Lemma main_schema o k :
  wk_schema (main o k).1 = wk_schema k ∨
  ∃ f, library_call o = Some f ∧ wk_schema (main o k).1 = (f (wk_schema k)).1.
Proof.
  unfold main, library_call. cbv zeta. case_decide.
  { left. unfold manageDatabase, exec_stmt. by repeat case_match; simplify_eq. }
  destruct (mg_New _ _); [by left|].
  assert (Hf : ∀ f, wk_schema (conclude (cmd o) (on_schema f (with_open true k))).1 = (f (wk_schema k)).1).
  { intros f. by rewrite (proj1 (conclude_work _ _)), (proj1 (on_schema_work _ _)). }
  repeat case_decide; first [by left|by right; eexists; split; [reflexivity|apply Hf]
    |exfalso; match goal with
              | Hn : ¬ (_ ∧ 0 <= _) |- _ => apply Hn; split; [assumption|lia]
              | Hn : _ ∧ 0 <= _ |- _ => destruct Hn; congruence
              end|idtac].
  left. by repeat case_match.
Qed.

Lemma main_closes o k p : (main o k).2 = Done p → wk_open k = false → wk_open (main o k).1 = false.
Proof.
  unfold main. cbv zeta. case_decide.
  { unfold manageDatabase, exec_stmt. by repeat case_match; simplify_eq. }
  destruct (mg_New _ _); [done|]. intros E _. revert E. repeat case_decide; try discriminate; try apply conclude_done.
  repeat case_match; done.
Qed.

Context (applied : S → Z) `{!MigrateLaws S applied}.

(** The migrate command goes the way it is told. With a limit of zero or more
    it never reverts a migration under "up" and never applies one under "down",
    and a positive limit bounds how many; every other command but "drop" and
    "force" leaves the schema alone - creating and dropping the database send
    the server exactly their one statement, for a named database - and an
    unknown command exits with status 2. Every normal end has the library's
    handle closed. *)
Theorem migrate_goes_the_way_it_is_told o k : 0 <= steps o < 2 ^ 63 →
  let s := applied (wk_schema k) in let s' := applied (wk_schema (main o k).1) in
  (cmd o = "up" → s <= s' ∧ (0 < steps o → s' <= s + steps o)) ∧
  (cmd o = "down" → s' <= s ∧ (0 < steps o → s - steps o <= s')) ∧
  (cmd o ∉ ["up"; "down"; "drop"; "force"] → wk_schema (main o k).1 = wk_schema k) ∧
  (cmd o = "drop-db" → ∀ p, (main o k).2 = Done p →
     wk_statements (main o k).1 = wk_statements k ++
       [(buildServerDSN (dbHost o) (dbPort o) (dbUser o) (dbPassword o) (dbTLS o), drop_stmt (dbName o))] ∧ dbName o ≠ "") ∧
  (cmd o ∉ ["up"; "down"; "drop"; "force"; "version"; "create-db"; "drop-db"] →
     mg_New ("file://" +:+ migrationsPath o)
       (buildMigrateDSN (dbHost o) (dbPort o) (dbUser o) (dbPassword o) (dbName o) (dbTLS o)) = None →
     (main o k).2 = Exit 2) ∧
  (∀ p, (main o k).2 = Done p → wk_open k = false → wk_open (main o k).1 = false).
Proof.
  intros Hs s s'. split_and!.
  - intros Hc. destruct (main_schema o k) as [E|(f & Ef & E)]; unfold s'; rewrite E; [unfold s; lia|].
    unfold library_call in Ef. rewrite decide_True in Ef by done. injection Ef as <-. unfold runSteps. case_decide.
    + pose proof (up_applies (wk_schema k)). unfold s. lia.
    + pose proof (steps_up (steps o) (wk_schema k)). unfold s. lia.
  - intros Hc. destruct (main_schema o k) as [E|(f & Ef & E)]; unfold s'; rewrite E; [unfold s; lia|].
    unfold library_call in Ef. rewrite Hc in Ef. injection Ef as <-. unfold runSteps. case_decide.
    + pose proof (down_reverts (wk_schema k)). unfold s. lia.
    + rewrite int_opp_small by done. pose proof (steps_down (- steps o) (wk_schema k)). unfold s. lia.
  - intros Hc. destruct (main_schema o k) as [E|(f & Ef & _)]; [done|]. unfold library_call in Ef.
    repeat case_decide; set_solver.
  - intros Hc p E. unfold main in *. rewrite Hc in *. simpl in *. unfold manageDatabase, exec_stmt in *. simpl in *.
    repeat case_match; simplify_eq; done.
  - intros Hc Hn. unfold main. rewrite Hn. repeat case_decide; try done; exfalso; set_solver.
  - apply main_closes.
Qed.

End Migrate.

(** ** An instance: a schema is the number of its migrations, of five *)

Module ToyMigrate.
Definition to (n : Z) (s : Z) : Z * option error :=
  let s' := Z.max 0 (Z.min 5 n) in (s', if decide (s' = s) then Some (EMsg "no change") else None).
#[export] Instance lib : MigrateLib Z := {|
  mg_New _ _ := None; mg_Up := to 5; mg_Down := to 0; mg_Steps n s := to (s + n) s; mg_Drop := to 0;
  mg_Force v := to v; mg_Version s := if decide (s = 0) then Err (EMsg "nil") else Ok (s, false);
  mg_ErrNilVersion e := bool_decide (e = EMsg "nil"); mg_ErrNoChange e := bool_decide (e = EMsg "no change");
  db_Open _ := None; db_Exec _ _ := None |}.

Definition count (s : Z) : Z := Z.max 0 (Z.min 5 s).
#[export] Instance laws : MigrateLaws Z count.
Proof. split; unfold count; cbn; lia. Qed.

Definition flags (cmd : string) (steps : Z) : Flags :=
  mkFlags "127.0.0.1" "3306" "root" "" "sso" "false" "./migrations" cmd steps "utf8mb4" "utf8mb4_unicode_ci" (-1).
Definition at_ (n : Z) : Work := mkWork n [] false.
End ToyMigrate.

#[local] Existing Instance ToyMigrate.lib.
#[local] Existing Instance ToyMigrate.laws.

Lemma migrate_goes_the_way_it_is_told_witness :
  wk_schema (main (ToyMigrate.flags "down" 2) (ToyMigrate.at_ 3)).1 = 1 ∧
  1 <= ToyMigrate.count (wk_schema (main (ToyMigrate.flags "down" 2) (ToyMigrate.at_ 3)).1) <= 3 ∧
  (main (ToyMigrate.flags "seed-admin" 0) (ToyMigrate.at_ 3)).2 = Exit 2.
Proof.
  split; [vm_compute; reflexivity|]. split.
  - destruct (migrate_goes_the_way_it_is_told ToyMigrate.count (ToyMigrate.flags "down" 2) (ToyMigrate.at_ 3)
      ltac:(vm_compute; split; [discriminate|reflexivity])) as (_ & [Hle Hge] & _); [reflexivity|].
    split; [|exact Hle]. by apply Hge.
  - destruct (migrate_goes_the_way_it_is_told ToyMigrate.count (ToyMigrate.flags "seed-admin" 0) (ToyMigrate.at_ 3)
      ltac:(vm_compute; split; [discriminate|reflexivity])) as (_ & _ & _ & _ & Hx & _).
    apply Hx; [apply (bool_decide_unpack _); by vm_compute|reflexivity].
Defined.

(** A negative limit turns "down" around: it applies migrations. *)
Example down_applies_migrations :
  wk_schema (main (ToyMigrate.flags "down" (-2)) (ToyMigrate.at_ 3)).1 = 5.
Proof. vm_compute. reflexivity. Qed.
